(** * Pennsieve dataset-management tools: sidecar records, package paths and
      duplicate reconciliation

    A shallow embedding of the sidecar classes of
    [sidecar-generation/sidecars/] and of the package operations of
    [dataset-management/dataset_manager/packages.py], with the properties
    the specification states about them.

    Conventions of the embedding:
    - a Python [str] is a [string]; where the code slices a string it is
      handled as its list of characters;
    - a Python [dict] is an association list in insertion order, read with
      "the later binding wins" (the meaning of a dict display with a repeated
      key), so that every association list denotes a dict;
    - a lookup table that is only read by key ([pkg_lookup],
      [pkg_by_location]) is a [gmap];
    - log lines and report messages keep the arguments of their f-string
      instead of the formatted text;
    - the builtins [float] and [str], [os.makedirs], [open] and [json.dump]
      are parameters of the embedding, each with the exceptions it can
      raise; a file is the text written to it, line by line;
    - a loop that Python leaves unbounded ([while True]) takes fuel and
      answers [None] when the fuel runs out. *)

From Stdlib Require Import Ascii String DecimalFacts DecimalNat.
From stdpp Require Import base option list gmap strings sorting pretty.

(** ** Python values *)

(** The values a sidecar field or a TSV cell can hold.  A float is carried by
    its [repr] text: nothing below computes with it. *)
#[local] Unset Elimination Schemes.
Inductive Value : Type :=
  | VNone
  | VBool (b : bool)
  | VInt (z : Z)
  | VFloat (repr : string)
  | VStr (s : string)
  | VList (l : list Value)
  | VDict (d : list (string * Value)).
#[local] Set Elimination Schemes.

(** ** Dicts in insertion order *)

Module Dict.

Section Ops.
Context {V : Type}.

(** [d.get(k)]: the binding that a dict built from these items holds. *)
Fixpoint get (k : string) (d : list (string * V)) : option V :=
  match d with
  | [] => None
  | (k', v) :: d' =>
      match get k d' with
      | Some w => Some w
      | None => if decide (k = k') then Some v else None
      end
  end.

(** [k in d] *)
Definition mem (k : string) (d : list (string * V)) : bool :=
  bool_decide (is_Some (get k d)).

(** The keys of [l] in the order of their first occurrence, without those
    already [seen]. *)
Fixpoint first_occurrences (seen l : list string) : list string :=
  match l with
  | [] => []
  | k :: l' =>
      if bool_decide (k ∈ seen) then first_occurrences seen l'
      else k :: first_occurrences (k :: seen) l'
  end.

(** [d.keys()], in insertion order. *)
Definition keys (d : list (string * V)) : list string :=
  first_occurrences [] d.*1.

(** [d[k] = v]: an existing key keeps its position, a new key goes last. *)
Definition set (k : string) (v : V) (d : list (string * V))
  : list (string * V) :=
  if bool_decide (k ∈ d.*1)
  then (λ kv : string * V, if decide (kv.1 = k) then (k, v) else kv) <$> d
  else d ++ [(k, v)].

(** [{**d, **s}] *)
Definition merge (d s : list (string * V)) : list (string * V) :=
  foldl (λ acc kv, set kv.1 kv.2 acc) d s.

(** [{k: v for k, v in d.items() if keep k}] *)
Definition filter_keys (keep : string → bool) (d : list (string * V))
  : list (string * V) :=
  List.filter (λ kv, keep kv.1) d.

End Ops.

End Dict.

(** ** The sidecar classes: class attributes *)

(** The JSON sidecar classes and the TSV sidecar classes of
    [sidecars/__init__.py] whose modules are part of the sources. *)
Inductive JSONKind : Type := CoordSystem | Ieeg | EEG | Participants.
Inductive TSVKind : Type := Channels | Electrodes | Events | ParticipantsTSV.

Module Sidecar.

(** [Sidecar.excluded_fields] *)
Definition excluded_fields : list string :=
  ["output_dir"; "input_dir"; "bids_path"].

Definition is_excluded (k : string) : bool := bool_decide (k ∈ excluded_fields).

(** [DEFAULTS] of each JSON class. *)
Definition DEFAULTS (c : JSONKind) : list (string * Value) :=
  match c with
  | CoordSystem =>
      [ ("iEEGCoordinateSystem", VStr "fsnative");
        ("iEEGCoordinateUnits", VStr "mm");
        ("iEEGCoordinateSystemDescription", VStr "Native FreeSurfer surface space.");
        ("iEEGCoordinateProcessingDescription",
           VStr "Processed using FreeSurfer recon-all pipeline.");
        ("iEEGCoordinateProcessingReference",
           VStr "Dale, A.M., Fischl, B., Sereno, M.I., 1999. Cortical surface-based analysis. NeuroImage.") ]
  | Ieeg =>
      [ ("TaskName", VStr "clinical");
        ("PowerLineFrequency", VInt 60);
        ("SamplingFrequency", VStr "n/a");
        ("SoftwareFilters", VStr "n/a");
        ("iEEGReference", VStr "unknown");
        ("iEEGGround", VStr "unknown");
        ("RecordingType", VStr "discontinuous");
        ("Manufacturer", VStr "Natus");
        ("ManufacturersModelName", VStr "Quantum");
        ("InstitutionName", VStr "Penn Medicine");
        ("ElectrodeManufacturer", VStr "AD-TECH") ]
  | EEG =>
      [ ("TaskName", VStr "default_task");
        ("EEGReference", VStr "Cz");
        ("SamplingFrequency", VFloat "256.0");
        ("PowerLineFrequency", VInt 60);
        ("SoftwareFilters", VStr "n/a");
        ("Manufacturer", VStr "Unknown");
        ("ManufacturersModelName", VStr "Unknown");
        ("EEGGround", VStr "n/a");
        ("RecordingType", VStr "continuous");
        ("HeadCircumference", VStr "n/a");
        ("ElectricalStimulation", VBool false);
        ("Description", VStr "Automatically generated EEG sidecar file.") ]
  | Participants =>
      [ ("participant_id",
           VDict [ ("Description", VStr "Unique participant identifier");
                   ("Units", VStr "string") ]);
        ("species",
           VDict [ ("Description", VStr "Species of the participant");
                   ("Units", VStr "Homo sapiens") ]);
        ("population",
           VDict [ ("Description", VStr "Adult or pediatric");
                   ("Levels", VDict [ ("A", VStr "adult"); ("P", VStr "pediatric") ]) ]);
        ("sex",
           VDict [ ("Description", VStr "Biological sex of the participant");
                   ("Levels", VDict [ ("M", VStr "male"); ("F", VStr "female") ]) ]) ]
  end.

(** [ROW_DEFAULTS] of each TSV class. *)
Definition ROW_DEFAULTS (c : TSVKind) : list (string * Value) :=
  match c with
  | Channels =>
      [ ("type", VStr "SEEG"); ("units", VStr "uV"); ("low_cutoff", VStr "n/a");
        ("high_cutoff", VStr "n/a"); ("notch", VStr "n/a");
        ("reference", VStr "unknown"); ("ground", VStr "unknown");
        ("group", VStr "n/a"); ("sampling_frequency", VStr "n/a") ]
  | Electrodes =>
      [ ("size", VStr "n/a"); ("material", VStr "n/a");
        ("manufacturer", VStr "n/a"); ("group", VStr "n/a");
        ("hemisphere", VStr "n/a") ]
  | Events =>
      [ ("duration", VStr "n/a"); ("trial_type", VStr "n/a") ]
  | ParticipantsTSV =>
      [ ("species", VStr "Homo sapiens"); ("age", VStr "n/a");
        ("population", VStr "n/a"); ("sex", VStr "n/a");
        ("handedness", VStr "n/a") ]
  end.

(** [filename] of each class. *)
Definition json_filename (c : JSONKind) : string :=
  match c with
  | CoordSystem => "coordsystem.json"
  | Ieeg => "ieegx.json"
  | EEG => "eeg.json"
  | Participants => "participants.json"
  end.

Definition tsv_filename (c : TSVKind) : string :=
  match c with
  | Channels => "channels.tsv"
  | Electrodes => "electrodes.tsv"
  | Events => "events.tsv"
  | ParticipantsTSV => "participants.tsv"
  end.

(** ** Construction *)

(** A JSON sidecar object: its class and [self.data]. *)
Record JSONSidecar : Type := MkJSON { jkind : JSONKind; data : list (string * Value) }.

(** A TSV sidecar object: its class, [self.data] (always the filtered empty
    [fields]) and [self.rows]. *)
Record TSVSidecar : Type :=
  MkTSV { tkind : TSVKind; tdata : list (string * Value);
          rows : list (list (string * Value)) }.

(** [Sidecar.__init__], the part that builds [self.data], for a call that
    passes no keyword options:
    [self.data = {k: v for k, v in fields.items() if k not in self.excluded_fields}] *)
Definition Sidecar_init_data (fields : list (string * Value)) : list (string * Value) :=
  Dict.filter_keys (λ k, negb (is_excluded k)) fields.

(** [CoordSystemSidecar.__init__], [IeegSidecar.__init__],
    [EEGSidecar.__init__], [ParticipantsSidecar.__init__]:
    [merged_fields = {**self.DEFAULTS, **fields}; super().__init__(merged_fields)] *)
Definition JSON_init (c : JSONKind) (fields : list (string * Value)) : JSONSidecar :=
  let merged_fields := Dict.merge (DEFAULTS c) fields in
  MkJSON c (Sidecar_init_data merged_fields).

(** The constructors of the TSV classes ([rows=None] is the empty list:
    both skip the loop):
    [super().__init__(fields={}); self.rows = [];
     for row in rows: self.rows.append({**self.ROW_DEFAULTS, **row})] *)
Definition TSV_init (c : TSVKind) (rows0 : list (list (string * Value))) : TSVSidecar :=
  MkTSV c (Sidecar_init_data [])
        (foldl (λ acc row, acc ++ [Dict.merge (ROW_DEFAULTS c) row]) [] rows0).

(** [add_row]: [self.rows.append({**self.ROW_DEFAULTS, **row})] *)
Definition add_row (self : TSVSidecar) (row : list (string * Value)) : TSVSidecar :=
  MkTSV (tkind self) (tdata self)
        (rows self ++ [Dict.merge (ROW_DEFAULTS (tkind self)) row]).

(** The merge as the specification words it: the supplied value if the key is
    supplied, else the default if there is one, else absent. *)
Definition merge_spec (defaults supplied : list (string * Value)) (k : string)
  : option Value :=
  match Dict.get k supplied with
  | Some v => Some v
  | None => Dict.get k defaults
  end.

(** ** Field taxonomy *)

Definition JSON_REQUIRED_FIELDS (c : JSONKind) : list string :=
  match c with
  | CoordSystem => ["iEEGCoordinateSystem"; "iEEGCoordinateUnits"]
  | Ieeg => ["TaskName"; "PowerLineFrequency"; "SamplingFrequency";
             "SoftwareFilters"; "iEEGReference"]
  | EEG => ["TaskName"; "EEGReference"; "SamplingFrequency";
            "PowerLineFrequency"; "SoftwareFilters"]
  | Participants => ["participant_id"]
  end.

Definition JSON_RECOMMENDED_FIELDS (c : JSONKind) : list string :=
  match c with
  | CoordSystem =>
      ["iEEGCoordinateSystemDescription"; "iEEGCoordinateProcessingDescription";
       "iEEGCoordinateProcessingReference"]
  | Ieeg =>
      ["Manufacturer"; "ManufacturersModelName"; "SoftwareVersions";
       "DeviceSerialNumber"; "HardwareFilters"; "RecordingDuration";
       "RecordingType"; "iEEGGround"; "ECOGChannelCount"; "SEEGChannelCount";
       "EEGChannelCount"; "EOGChannelCount"; "ECGChannelCount";
       "EMGChannelCount"; "MiscChannelCount"; "TriggerChannelCount";
       "ElectrodeManufacturer"; "ElectrodeManufacturersModelName";
       "EpochLength"; "iEEGPlacementScheme"; "iEEGElectrodeGroups";
       "SubjectArtefactDescription"; "TaskDescription"; "Instructions";
       "CogAtlasID"; "CogPOID"; "InstitutionName"; "InstitutionAddress";
       "InstitutionalDepartmentName"]
  | EEG =>
      ["TaskDescription"; "Instructions"; "CogAtlasID"; "CogPOID";
       "InstitutionName"; "InstitutionAddress"; "InstitutionalDepartmentName";
       "Manufacturer"; "ManufacturersModelName"; "SoftwareVersions";
       "DeviceSerialNumber"; "CapManufacturer"; "CapManufacturersModelName";
       "EEGGround"; "EEGChannelCount"; "ECGChannelCount"; "EMGChannelCount";
       "EOGChannelCount"; "MISCChannelCount"; "TriggerChannelCount";
       "RecordingDuration"; "RecordingType"; "HeadCircumference";
       "EEGPlacementScheme"; "HardwareFilters"; "SubjectArtefactDescription"]
  | Participants =>
      ["species"; "age"; "sex"; "handedness"; "strain"; "strain_rrid"]
  end.

Definition JSON_OPTIONAL_FIELDS (c : JSONKind) : list string :=
  match c with
  | CoordSystem => ["IntendedFor"]
  | Ieeg => ["ElectricalStimulation"; "ElectricalStimulationParameters"]
  | EEG => ["EpochLength"; "ElectricalStimulation"; "ElectricalStimulationParameters"]
  | Participants => ["HED"]
  end.

Definition REQUIRED_FIELDS (c : TSVKind) : list string :=
  match c with
  | Channels =>
      ["name"; "type"; "units"; "sampling_frequency"; "low_cutoff";
       "high_cutoff"; "notch"; "reference"; "group"]
  | Electrodes => ["name"; "x"; "y"; "z"; "size"]
  | Events => ["onset"; "duration"]
  | ParticipantsTSV =>
      ["participant_id"; "species"; "age"; "population"; "sex"; "handedness"]
  end.

Definition RECOMMENDED_FIELDS (c : TSVKind) : list string :=
  match c with
  | Channels => ["ground"]
  | Electrodes => ["material"; "manufacturer"; "group"; "hemisphere"]
  | Events => []
  | ParticipantsTSV => []
  end.

Definition OPTIONAL_FIELDS (c : TSVKind) : list string :=
  match c with
  | Channels => ["description"]
  | Electrodes => ["type"; "impedance"; "dimension"; "roi"]
  | Events =>
      ["trial_type"; "response_time"; "HED"; "stim_file"; "channel";
       "Description"; "Parent"; "Annotated"; "Annotator"; "Type"; "Layer"]
  | ParticipantsTSV => []
  end.

(** [ChannelsSidecar.COLUMN_ORDER]; the other TSV classes declare none. *)
Definition COLUMN_ORDER : list string :=
  ["name"; "type"; "units"; "low_cutoff"; "high_cutoff";
   "reference"; "ground"; "group"; "sampling_frequency"; "notch"].

(** The [numeric_fields] list inside each [validate]
    ([ParticipantsSideCarTSV.validate] has no such check). *)
Definition numeric_fields (c : TSVKind) : list string :=
  match c with
  | Channels => ["low_cutoff"; "high_cutoff"; "sampling_frequency"; "notch"]
  | Electrodes => ["x"; "y"; "z"; "size"; "impedance"]
  | Events => ["onset"; "duration"; "response_time"]
  | ParticipantsTSV => []
  end.

(** ** Python sets of field names *)

(** A set of strings is a duplicate-free list; [sorted(s)] orders it by
    code point. *)
Definition set_diff (a b : list string) : list string :=
  filter (λ x, x ∉ b) (remove_dups a).

Definition set_union (a b : list string) : list string := remove_dups (a ++ b).

Definition sorted (a : list string) : list string :=
  merge_sort String.le (remove_dups a).

(** [all_fields]: the union of [row.keys()] over the rows of [data]. *)
Definition all_keys (data : list (list (string * Value))) : list string :=
  remove_dups (concat (Dict.keys <$> data)).

(** [set(a) != set(b)] *)
Definition set_neq (a b : list string) : bool :=
  negb (bool_decide (a ⊆ b) && bool_decide (b ⊆ a)).

(** ** Reports, log lines, exceptions and the file system *)

(** The messages of the validators and of [save], with the arguments of
    their f-strings.  Row numbers are the printed ones ([i+1]). *)
Inductive Msg : Type :=
  | NonEmptyListExpected
  | MissingRequired (fields : list string)
  | MissingRecommended (fields : list string)
  | ExtraFields (fields : list string)
  | InconsistentColumns (row : nat)
  | ShouldBeNumeric (row : nat) (field : string) (val : Value)
  | MustBeNumeric (row : nat) (field : string) (val : Value)
  | SchemaError (path : list string)
  | SchemaErrorCount (n : nat)
  | ValidationFailedWith (n : nat)
  | ValidationPassed
  | NoDataProvided
  | FieldsNotInFieldnames (fields : list string)
  | WroteTSV (path : string)
  | Saved (path : string)
  | SavedRows (n : nat) (path : string)
  | ExceedsIntMaxStrDigits.

Inductive Level : Type := ERROR | WARNING | INFO | DEBUG.

Inductive Exn : Type :=
  | TypeError
  | KeyError
  | FileNotFoundError
  | IsADirectoryError
  | PermissionError
  | OverflowError
  | ValueError (m : Msg).

(** The result of a call that may raise. *)
Inductive Outcome (A : Type) : Type :=
  | Returned (a : A)
  | Raised (e : Exn).
Arguments Returned {A} a.
Arguments Raised {A} e.

(** Whether a call returned. *)
Definition returned {A : Type} (o : Outcome A) : bool :=
  match o with Returned _ => true | Raised _ => false end.

(** [for x in l: acc = body(acc, x)], for a body that may raise: the first
    exception ends the loop. *)
Fixpoint for_each {A B : Type} (body : B → A → Outcome B) (l : list A) (acc : B)
  : Outcome B :=
  match l with
  | [] => Returned acc
  | x :: l' =>
      match body acc x with
      | Raised e => Raised e
      | Returned acc' => for_each body l' acc'
      end
  end.

(** The [(ok, report)] pair of the TSV validators.  A key that the report
    dict lacks reads as the empty list. *)
Record Report : Type :=
  MkReport { errors : list Msg; warnings : list Msg; columns : list string }.

(** What a written file holds.  A JSON file is the text that [json.dump]
    wrote.  A TSV file is the sequence of the lines that the csv writer wrote,
    each without the line terminator (carriage return, line feed) that
    follows it in the file. *)
Inductive File : Type :=
  | JSONFile (text : string)
  | TSVFile (lines : list string).

(** The files on disk, by path, and the log. *)
Record World : Type :=
  MkWorld { files : gmap string File; log : list (Level * Msg) }.

Definition emit (lv : Level) (m : Msg) (w : World) : World :=
  MkWorld (files w) (log w ++ [(lv, m)]).

Definition put_file (path : string) (f : File) (w : World) : World :=
  MkWorld (<[path := f]> (files w)) (log w).

(** ** Paths *)

Definition chars (s : string) : list ascii := String.list_ascii_of_string s.
Definition str (l : list ascii) : string := String.string_of_list_ascii l.

Definition slash : ascii := "/"%char.
Definition dot : ascii := "."%char.

Definition startswith_slash (s : string) : bool :=
  match chars s with c :: _ => bool_decide (c = slash) | [] => false end.

Definition endswith_slash (s : string) : bool :=
  match last (chars s) with Some c => bool_decide (c = slash) | None => false end.

(** [os.path.join(a, b)] on POSIX. *)
Definition path_join (a b : string) : string :=
  if startswith_slash b then b
  else if bool_decide (a = "") || endswith_slash a then a +:+ b
  else a +:+ "/" +:+ b.

(** [p[:p.rfind("/") + 1]]: the text up to the last slash, the slash
    included; empty when there is no slash. *)
Fixpoint head_of (p : list ascii) : list ascii :=
  match p with
  | [] => []
  | c :: p' =>
      match head_of p' with
      | [] => if bool_decide (c = slash) then [c] else []
      | head => c :: head
      end
  end.

(** [head.rstrip("/")] *)
Fixpoint rstrip_slash (head : list ascii) : list ascii :=
  match head with
  | [] => []
  | c :: head' =>
      match rstrip_slash head' with
      | [] => if bool_decide (c = slash) then [] else [c]
      | rest => c :: rest
      end
  end.

(** [os.path.dirname(p)] on POSIX:
    [head = p[:i]; if head and head != sep*len(head): head = head.rstrip(sep)] *)
Definition dirname (p : string) : string :=
  let head := head_of (chars p) in
  if forallb (λ c, bool_decide (c = slash)) head then str head
  else str (rstrip_slash head).

(** ** The TSV validators *)

(** [val in (None, "n/a", "N/A")] *)
Definition is_na (v : Value) : bool :=
  match v with
  | VNone => true
  | VStr s => bool_decide (s = "n/a") || bool_decide (s = "N/A")
  | _ => false
  end.

(** What [validate] may be given as [data]: a list of rows, or (through the
    default of [Sidecar.save]) the [self.data] dict. *)
Inductive DataArg : Type :=
  | DataRows (rs : list (list (string * Value)))
  | DataFields (d : list (string * Value)).

(** [isinstance(data, list) and data]: the rows when there are some. *)
Definition nonempty_rows (d : DataArg) : option (list (list (string * Value))) :=
  match d with
  | DataRows [] => None
  | DataRows rs => Some rs
  | DataFields _ => None
  end.

Definition nonempty_msgs (l : list Msg) : bool :=
  match l with [] => false | _ => true end.

Definition msg_if (b : bool) (m : Msg) : list Msg := if b then [m] else [].

Definition nonempty (l : list string) : bool :=
  match l with [] => false | _ => true end.

(** [for i, row in enumerate(data): if set(row.keys()) != all_fields: ...] *)
Definition consistency_warnings (all_fields : list string)
    (data : list (list (string * Value))) : list Msg :=
  omap (λ ir : nat * list (string * Value),
          if set_neq (Dict.keys ir.2) all_fields
          then Some (InconsistentColumns (S ir.1)) else None)
       (imap (λ i r, (i, r)) data).

(** [enumerate(data)] *)
Definition enumerate (data : list (list (string * Value)))
  : list (nat * list (string * Value)) :=
  imap (λ i r, (i, r)) data.

(** The three ways in which [float(val)] ends. *)
Inductive Conversion : Type :=
  | Converted        (* it returns a float *)
  | Rejected         (* it raises [TypeError] or [ValueError] *)
  | Overflowed.      (* it raises [OverflowError]: an int too large for a float *)

Section Runtime.

(** The Python builtins and the operating system are taken as given.

    [float val] says how [float(val)] ends. *)
Variable float : Value → Conversion.

(** [py_str val] is [str(val)] for a value that is no [str]: its text, or
    the exception of the conversion (an int with more digits than the
    interpreter's limit raises [ValueError]). *)
Variable py_str : Value → Outcome string.

(** [os_makedirs d] is [os.makedirs(d, exist_ok=True)] for a non-empty [d],
    and [os_open path] is [open(path, "w", ...)] for a path that does not end
    with a slash: [None] when the call succeeds, its exception otherwise. *)
Variable os_makedirs : string → option Exn.
Variable os_open : string → option Exn.

(** [json_dump data] is [json.dump(data, f, indent=4, default=str)]: the
    text written to [f], and the exception that stopped the writing, if
    any. *)
Variable json_dump : list (string * Value) → string * option Exn.

(** [f"{val}"]: a [str] is its own text. *)
Definition format_value (val : Value) : Outcome string :=
  match val with
  | VStr s => Returned s
  | _ => py_str val
  end.

(** The body of the numeric check for one row and one field,
    [val = row.get(field); if val not in (None, "n/a", "N/A"):
       try: float(val) except (TypeError, ValueError): ...f"...{val}..."]:
    the value when [float] rejects it and the message can be formatted.  An
    [OverflowError] of [float] is not caught, and neither is an exception
    raised while the message is formatted. *)
Definition numeric_failure (row : list (string * Value)) (field : string)
  : Outcome (option Value) :=
  match Dict.get field row with
  | None => Returned None
  | Some val =>
      if is_na val then Returned None
      else match float val with
           | Converted => Returned None
           | Rejected =>
               match format_value val with
               | Returned _ => Returned (Some val)
               | Raised e => Raised e
               end
           | Overflowed => Raised OverflowError
           end
  end.

(** One pass of the innermost loop: the message list with the message of
    this row and field appended, if there is one. *)
Definition numeric_step (mk : nat → string → Value → Msg) (field : string)
    (ir : nat * list (string * Value)) (msgs : list Msg) : Outcome (list Msg) :=
  match numeric_failure ir.2 field with
  | Raised e => Raised e
  | Returned None => Returned msgs
  | Returned (Some val) => Returned (msgs ++ [mk (S ir.1) field val])
  end.

(** [for field in numeric_fields: for i, row in enumerate(data): ...]
    ([ChannelsSidecar.validate]), appending to [msgs]. *)
Definition numeric_by_field (mk : nat → string → Value → Msg)
    (fields : list string) (data : list (list (string * Value))) (msgs : list Msg)
  : Outcome (list Msg) :=
  for_each (λ msgs field,
              for_each (λ msgs ir, numeric_step mk field ir msgs) (enumerate data) msgs)
           fields msgs.

(** [for i, row in enumerate(data): for field in numeric_fields: ...]
    ([ElectrodesSidecar.validate], [EventsSidecar.validate]), appending to
    [msgs]. *)
Definition numeric_by_row (mk : nat → string → Value → Msg)
    (fields : list string) (data : list (list (string * Value))) (msgs : list Msg)
  : Outcome (list Msg) :=
  for_each (λ msgs ir,
              for_each (λ msgs field, numeric_step mk field ir msgs) fields msgs)
           (enumerate data) msgs.

Definition known_fields (c : TSVKind) : list string :=
  set_union (set_union (REQUIRED_FIELDS c) (RECOMMENDED_FIELDS c)) (OPTIONAL_FIELDS c).

Definition empty_report : bool * Report :=
  (false, MkReport [NonEmptyListExpected] [] []).

(** [ChannelsSidecar.validate] *)
Definition ChannelsSidecar_validate (self : TSVSidecar) (data : option DataArg)
  : Outcome (bool * Report) :=
  let data := default (DataRows (rows self)) data in
  match nonempty_rows data with
  | None => Returned empty_report
  | Some data =>
      let all_fields := all_keys data in
      let missing_required := set_diff (REQUIRED_FIELDS Channels) all_fields in
      let extra_fields := set_diff all_fields (known_fields Channels) in
      let errors := msg_if (nonempty missing_required)
                           (MissingRequired (sorted missing_required)) in
      let warnings :=
        msg_if (nonempty extra_fields) (ExtraFields (sorted extra_fields))
        ++ consistency_warnings all_fields data in
      match numeric_by_field ShouldBeNumeric (numeric_fields Channels) data warnings with
      | Raised e => Raised e
      | Returned warnings =>
          Returned (negb (nonempty_msgs errors),
                    MkReport errors warnings (sorted all_fields))
      end
  end.

(** [ElectrodesSidecar.validate] *)
Definition ElectrodesSidecar_validate (self : TSVSidecar) (data : option DataArg)
  : Outcome (bool * Report) :=
  let data := default (DataRows (rows self)) data in
  match nonempty_rows data with
  | None => Returned empty_report
  | Some data =>
      let all_fields := all_keys data in
      let missing_required := set_diff (REQUIRED_FIELDS Electrodes) all_fields in
      let missing_recommended := set_diff (RECOMMENDED_FIELDS Electrodes) all_fields in
      let extra_fields := set_diff all_fields (known_fields Electrodes) in
      let errors :=
        msg_if (nonempty missing_required) (MissingRequired (sorted missing_required)) in
      let warnings :=
        msg_if (nonempty missing_recommended)
               (MissingRecommended (sorted missing_recommended))
        ++ msg_if (nonempty extra_fields) (ExtraFields (sorted extra_fields))
        ++ consistency_warnings all_fields data in
      match numeric_by_row MustBeNumeric (numeric_fields Electrodes) data errors with
      | Raised e => Raised e
      | Returned errors =>
          Returned (negb (nonempty_msgs errors),
                    MkReport errors warnings (sorted all_fields))
      end
  end.

(** [EventsSidecar.validate] *)
Definition EventsSidecar_validate (self : TSVSidecar) (data : option DataArg)
  : Outcome (bool * Report) :=
  let data := default (DataRows (rows self)) data in
  match nonempty_rows data with
  | None => Returned empty_report
  | Some data =>
      let all_fields := all_keys data in
      let missing_required := set_diff (REQUIRED_FIELDS Events) all_fields in
      let extra_fields := set_diff all_fields (known_fields Events) in
      let errors :=
        msg_if (nonempty missing_required) (MissingRequired (sorted missing_required)) in
      let warnings :=
        msg_if (nonempty extra_fields) (ExtraFields (sorted extra_fields))
        ++ consistency_warnings all_fields data in
      match numeric_by_row MustBeNumeric (numeric_fields Events) data errors with
      | Raised e => Raised e
      | Returned errors =>
          Returned (negb (nonempty_msgs errors),
                    MkReport errors warnings (sorted all_fields))
      end
  end.

(** [ParticipantsSideCarTSV.validate], which has no numeric check.  Its
    [columns] entry is [list(all_fields)], whose order Python leaves open; no
    property below reads it. *)
Definition ParticipantsSideCarTSV_validate (self : TSVSidecar) (data : option DataArg)
  : Outcome (bool * Report) :=
  let data := default (DataRows (rows self)) data in
  match nonempty_rows data with
  | None => Returned empty_report
  | Some data =>
      let all_fields := all_keys data in
      let missing_required := set_diff (REQUIRED_FIELDS ParticipantsTSV) all_fields in
      let missing_recommended := set_diff (RECOMMENDED_FIELDS ParticipantsTSV) all_fields in
      let extra_fields := set_diff all_fields (known_fields ParticipantsTSV) in
      let errors :=
        msg_if (nonempty missing_required) (MissingRequired (sorted missing_required)) in
      let warnings :=
        msg_if (nonempty missing_recommended)
               (MissingRecommended (sorted missing_recommended))
        ++ msg_if (nonempty extra_fields) (ExtraFields (sorted extra_fields))
        ++ consistency_warnings all_fields data in
      Returned (negb (nonempty_msgs errors), MkReport errors warnings all_fields)
  end.

(** [self.validate(data)], dispatched on the class of [self]. *)
Definition TSV_validate (self : TSVSidecar) (data : option DataArg)
  : Outcome (bool * Report) :=
  match tkind self with
  | Channels => ChannelsSidecar_validate self data
  | Electrodes => ElectrodesSidecar_validate self data
  | Events => EventsSidecar_validate self data
  | ParticipantsTSV => ParticipantsSideCarTSV_validate self data
  end.

(** ** Writing TSV files *)

Definition tab : ascii := "009"%char.
Definition dquote : ascii := "034"%char.
Definition CR : ascii := "013"%char.
Definition LF : ascii := "010"%char.

(** The csv writer with [delimiter="\t"] and the other defaults of the
    [excel] dialect (the double quote as quote character, [doublequote=True],
    [quoting=QUOTE_MINIMAL], [lineterminator="\r\n"]): a field is put between
    quotes when it holds the delimiter, the quote character or a character
    of the line terminator, and a quote character inside it is doubled. *)
Definition needs_quotes (field : list ascii) : bool :=
  existsb (λ c, bool_decide (c ∈ [tab; dquote; CR; LF])) field.

Definition double_quotes (field : list ascii) : list ascii :=
  c ← field; if bool_decide (c = dquote) then [c; c] else [c].

Definition csv_field (s : string) : list ascii :=
  let field := chars s in
  if needs_quotes field then dquote :: double_quotes field ++ [dquote] else field.

Fixpoint join_tab (fields : list (list ascii)) : list ascii :=
  match fields with
  | [] => []
  | [x] => x
  | x :: rest => x ++ tab :: join_tab rest
  end.

(** The line that [writer.writerow] writes for the texts of a row: the fields
    joined by tabs; a single empty field is written as two quotes. *)
Definition csv_line (texts : list string) : string :=
  match texts with
  | [s] => if bool_decide (s = "") then str [dquote; dquote] else str (csv_field s)
  | _ => str (join_tab (csv_field <$> texts))
  end.

(** The text of a cell: [None] is written as the empty text, a [str] as it
    is, anything else as its [str()]. *)
Definition cell_text (v : Value) : Outcome string :=
  match v with
  | VNone => Returned ""
  | VStr s => Returned s
  | _ => py_str v
  end.

(** The texts of the cells of a row, from left to right. *)
Fixpoint cell_texts (cells : list Value) : Outcome (list string) :=
  match cells with
  | [] => Returned []
  | v :: cells' =>
      match cell_text v with
      | Raised e => Raised e
      | Returned s =>
          match cell_texts cells' with
          | Raised e => Raised e
          | Returned texts => Returned (s :: texts)
          end
      end
  end.

(** [writer.writerow(cells)]: the line written. *)
Definition writerow (cells : list Value) : Outcome string :=
  match cell_texts cells with
  | Raised e => Raised e
  | Returned texts => Returned (csv_line texts)
  end.

(** [csv.DictWriter._dict_to_list] with the default [restval=""] and
    [extrasaction="raise"]: the cells of a row in header order, or the keys
    that the header lacks. *)
Definition row_cells (fieldnames : list string) (row : list (string * Value))
  : list Value :=
  (λ key, default (VStr "") (Dict.get key row)) <$> fieldnames.

Definition dict_to_list (fieldnames : list string) (row : list (string * Value))
  : list string + list Value :=
  let wrong_fields := set_diff (Dict.keys row) fieldnames in
  if nonempty wrong_fields then inl wrong_fields
  else inr (row_cells fieldnames row).

(** [writer.writerows(data)]: the lines written so far, and the exception
    that stopped the loop, if any.  A row is written as a whole or not at
    all. *)
Fixpoint writerows (fieldnames : list string) (data : list (list (string * Value)))
    (written : list string) : list string * option Exn :=
  match data with
  | [] => (written, None)
  | row :: data' =>
      match dict_to_list fieldnames row with
      | inl wrong => (written, Some (ValueError (FieldsNotInFieldnames wrong)))
      | inr cells =>
          match writerow cells with
          | Raised e => (written, Some e)
          | Returned line => writerows fieldnames data' (written ++ [line])
          end
      end
  end.

(** [open(path, "w", ...)] after [os.makedirs(os.path.dirname(path))]: a
    path that ends with a slash names the directory just made, and opening
    it raises [IsADirectoryError]. *)
Definition open_w (path : string) : option Exn :=
  if endswith_slash path then Some IsADirectoryError else os_open path.

(** [with open(path, "w") as f: writer = csv.DictWriter(f, fieldnames, ...);
     writer.writeheader(); writer.writerows(data)]: nothing is written when
    [open] raises; otherwise the file exists from the [open] on, and holds
    what was written when an exception leaves the [with] block. *)
Definition write_tsv (path : string) (fieldnames : list string)
    (data : list (list (string * Value))) (w : World) : Outcome unit * World :=
  match open_w path with
  | Some e => (Raised e, w)
  | None =>
      let '(lines, exn) := writerows fieldnames data [csv_line fieldnames] in
      let w' := put_file path (TSVFile lines) w in
      match exn with
      | Some e => (Raised e, w')
      | None => (Returned tt, w')
      end
  end.

(** [TSVSidecar.write_data] *)
Definition TSVSidecar_write_data (file_path : string) (data : DataArg) (w : World)
  : Outcome unit * World :=
  match data with
  | DataRows [] | DataFields [] => (Raised (ValueError NoDataProvided), w)
  | DataFields (_ :: _) => (Raised KeyError, w)        (* [data[0]] on a dict *)
  | DataRows (row0 :: rest) =>
      let fieldnames := Dict.keys row0 in
      match write_tsv file_path fieldnames (row0 :: rest) w with
      | (Raised e, w') => (Raised e, w')
      | (Returned _, w') => (Returned tt, emit DEBUG (WroteTSV file_path) w')
      end
  end.

(** [os.makedirs(os.path.dirname(path), exist_ok=True)]: [os.makedirs("")]
    raises [FileNotFoundError].  Directories themselves are not part of
    [World]. *)
Definition makedirs_dirname (path : string) : Outcome unit :=
  let d := dirname path in
  if bool_decide (d = "") then Raised FileNotFoundError
  else match os_makedirs d with
       | Some e => Raised e
       | None => Returned tt
       end.

(** The keyword arguments of [save] that the code reads. *)
Record SaveKw : Type :=
  MkSaveKw { kw_data : option (list (list (string * Value)));
             kw_validate : bool;
             kw_output_dir : option string }.

(** [if kwargs.get("validate", False): ok, report = self.validate(data);
     if not ok: self.log.warning(...)] for a TSV class.  An exception of
    [validate] leaves [save]. *)
Definition TSV_validate_step (self : TSVSidecar) (validate : bool) (data : DataArg)
    (w : World) : Outcome unit * World :=
  if validate then
    match TSV_validate self (Some data) with
    | Raised e => (Raised e, w)
    | Returned (ok, report) =>
        (Returned tt,
         if ok then w else emit WARNING (ValidationFailedWith (length (errors report))) w)
    end
  else (Returned tt, w).

(** [Sidecar.save], as inherited by [ElectrodesSidecar], [EventsSidecar] and
    [ParticipantsSideCarTSV]. *)
Definition Sidecar_save_tsv (self : TSVSidecar) (kw : SaveKw) (w : World)
  : Outcome string * World :=
  let data := match kw_data kw with
              | Some rs => DataRows rs
              | None => DataFields (tdata self)
              end in
  match TSV_validate_step self (kw_validate kw) data w with
  | (Raised e, w) => (Raised e, w)
  | (Returned _, w) =>
      let output_dir := match kw_output_dir kw with
                        | Some d => if bool_decide (d = "") then "output/json" else d
                        | None => "output/json"
                        end in
      let file_path := path_join output_dir (tsv_filename (tkind self)) in
      match makedirs_dirname file_path with
      | Raised e => (Raised e, w)
      | Returned _ =>
          match TSVSidecar_write_data file_path data w with
          | (Raised e, w) => (Raised e, w)
          | (Returned _, w) => (Returned file_path, emit INFO (Saved file_path) w)
          end
      end
  end.

(** The header that [ChannelsSidecar.save] computes. *)
Definition channels_fieldnames (data : list (list (string * Value))) : list string :=
  match data with
  | [] => COLUMN_ORDER
  | _ =>
      let all_cols := all_keys data in
      let extra_cols := sorted (set_diff all_cols COLUMN_ORDER) in
      List.filter (λ c, bool_decide (c ∈ all_cols)) COLUMN_ORDER ++ extra_cols
  end.

(** [ChannelsSidecar.save] *)
Definition ChannelsSidecar_save (self : TSVSidecar) (output_path : option string)
    (kw : SaveKw) (w : World) : Outcome string * World :=
  let data := default (rows self) (kw_data kw) in
  match TSV_validate_step self (kw_validate kw) (DataRows data) w with
  | (Raised e, w) => (Raised e, w)
  | (Returned _, w) =>
      let output_path :=
        match output_path with
        | Some p => p
        | None => path_join (default "output/tsv" (kw_output_dir kw))
                            (tsv_filename (tkind self))
        end in
      match makedirs_dirname output_path with
      | Raised e => (Raised e, w)
      | Returned _ =>
          let fieldnames := channels_fieldnames data in
          match write_tsv output_path fieldnames data w with
          | (Raised e, w) => (Raised e, w)
          | (Returned _, w) =>
              (Returned output_path, emit INFO (SavedRows (length data) output_path) w)
          end
      end
  end.

(** [sidecar.save(...)] on a TSV sidecar, dispatched on its class
    ([output_path] is a parameter of [ChannelsSidecar.save] only). *)
Definition TSV_save (self : TSVSidecar) (output_path : option string) (kw : SaveKw)
    (w : World) : Outcome string * World :=
  match tkind self with
  | Channels => ChannelsSidecar_save self output_path kw w
  | _ => Sidecar_save_tsv self kw w
  end.

(** ** Saving a JSON sidecar *)

Record SaveKwJSON : Type :=
  MkSaveKwJSON { kwj_data : option (list (string * Value));
                 kwj_validate : bool;
                 kwj_output_dir : option string }.

(** [JSONSidecar.write_data]:
    [with open(file_path, "w") as f: json.dump(data, f, indent=..., default=str)] *)
Definition JSONSidecar_write_data (file_path : string) (data : list (string * Value))
    (w : World) : Outcome unit * World :=
  match open_w file_path with
  | Some e => (Raised e, w)
  | None =>
      let '(text, exn) := json_dump data in
      let w' := put_file file_path (JSONFile text) w in
      match exn with
      | Some e => (Raised e, w')
      | None => (Returned tt, w')
      end
  end.

(** [Sidecar.save], as inherited by the JSON classes.  With [validate=True]
    it evaluates [self.validate(data)]; every JSON class defines
    [validate(self)] with no further parameter, so the call itself raises
    [TypeError]. *)
Definition Sidecar_save_json (self : JSONSidecar) (kw : SaveKwJSON) (w : World)
  : Outcome string * World :=
  let data := default (data self) (kwj_data kw) in
  if kwj_validate kw then (Raised TypeError, w)
  else
    let output_dir := match kwj_output_dir kw with
                      | Some d => if bool_decide (d = "") then "output/json" else d
                      | None => "output/json"
                      end in
    let file_path := path_join output_dir (json_filename (jkind self)) in
    match makedirs_dirname file_path with
    | Raised e => (Raised e, w)
    | Returned _ =>
        match JSONSidecar_write_data file_path data w with
        | (Raised e, w) => (Raised e, w)
        | (Returned _, w) => (Returned file_path, emit INFO (Saved file_path) w)
        end
    end.

End Runtime.

(** ** The coordinate-system sidecar: [validate] *)

(** [s.lower()], on the ASCII letters. *)
Definition lower_char (c : ascii) : ascii :=
  let n := nat_of_ascii c in
  if bool_decide (65 ≤ n ≤ 90) then ascii_of_nat (n + 32) else c.

Definition lower (s : string) : string := str (lower_char <$> chars s).

(** The JSON Schema types that [CoordSystemSidecar.SCHEMA] uses. *)
Definition is_string (v : Value) : bool :=
  match v with VStr _ => true | _ => false end.

Definition is_string_array (v : Value) : bool :=
  match v with VList l => forallb is_string l | _ => false end.

(** The ["properties"] entry of [CoordSystemSidecar.SCHEMA]: each property
    with the check of its subschema.  [IntendedFor] is a [oneOf] of two
    subschemas that no value satisfies together. *)
Definition CoordSystem_properties : list (string * (Value → bool)) :=
  [ ("IntendedFor", λ v, is_string v || is_string_array v);
    ("iEEGCoordinateSystem", is_string);
    ("iEEGCoordinateUnits", is_string);
    ("iEEGCoordinateSystemDescription", is_string);
    ("iEEGCoordinateProcessingDescription", is_string);
    ("iEEGCoordinateProcessingReference", is_string) ].

(** [sorted(validator.iter_errors(self.data), key=lambda e: e.path)] for
    [CoordSystemSidecar.SCHEMA], each error by its path: the missing
    ["required"] properties are reported at the root, a property of the
    wrong type at its name. *)
Definition CoordSystem_schema_errors (data : list (string * Value)) : list (list string) :=
  ((λ _, []) <$> List.filter (λ k, negb (Dict.mem k data))
                             ["iEEGCoordinateSystem"; "iEEGCoordinateUnits"])
  ++ ((λ k, [k]) <$>
        sorted (omap (λ pc : string * (Value → bool),
                        match Dict.get pc.1 data with
                        | Some v => if pc.2 v then None else Some pc.1
                        | None => None
                        end)
                     CoordSystem_properties)).

(** [CoordSystemSidecar.validate] *)
Definition CoordSystemSidecar_validate (self : JSONSidecar) (w : World)
  : Outcome bool * World :=
  let errors := CoordSystem_schema_errors (data self) in
  match errors with
  | _ :: _ =>
      let w := foldl (λ w path, emit ERROR (SchemaError path) w) w errors in
      (Raised (ValueError (SchemaErrorCount (length errors))), w)
  | [] =>
      let keys := Dict.keys (data self) in
      let missing_required := set_diff (JSON_REQUIRED_FIELDS CoordSystem) keys in
      let missing_recommended := set_diff (JSON_RECOMMENDED_FIELDS CoordSystem) keys in
      let extras :=
        set_diff keys
          (set_union (set_union (JSON_REQUIRED_FIELDS CoordSystem)
                                (JSON_RECOMMENDED_FIELDS CoordSystem))
                     (JSON_OPTIONAL_FIELDS CoordSystem)) in
      let system :=
        match Dict.get "iEEGCoordinateSystem" (data self) with
        | Some (VStr s) => s
        | _ => ""
        end in
      let missing_required :=
        if bool_decide (lower system = "other")
           && negb (Dict.mem "iEEGCoordinateSystemDescription" (data self))
        then set_union missing_required ["iEEGCoordinateSystemDescription"]
        else missing_required in
      if nonempty missing_required
      then (Raised (ValueError (MissingRequired (sorted missing_required))), w)
      else
        let w := if nonempty missing_recommended
                 then emit WARNING (MissingRecommended (sorted missing_recommended)) w
                 else w in
        let w := if nonempty extras then emit WARNING (ExtraFields (sorted extras)) w
                 else w in
        (Returned true, emit INFO ValidationPassed w)
  end.


End Sidecar.

(** ** Packages *)

Module Packages.

Import Sidecar.

(** The [content] object of a package as the dataset API returns it; a field
    is [None] when the object lacks it.  The package object itself is a
    non-empty dict and so counts as true where the code tests it. *)
Record Package : Type :=
  MkPackage { id : option string; nodeId : option string; name : option string;
              parentId : option string; packageType : option string;
              state : option string }.

(** Truth value of [content.get(key)] for a string field: absent and empty
    are both false. *)
Definition truthy (o : option string) : option string :=
  match o with
  | Some s => if bool_decide (s = "") then None else Some s
  | None => None
  end.

(** ** Path resolution: [get_package_path] *)

(** [pkg_lookup]: [for pkg in all_packages: if pkg_id: pkg_lookup[pkg_id] = pkg] *)
Definition build_pkg_lookup (all_packages : list Package) : gmap string Package :=
  foldl (λ pkg_lookup pkg,
           match truthy (id pkg) with
           | Some pkg_id => <[pkg_id := pkg]> pkg_lookup
           | None => pkg_lookup
           end) ∅ all_packages.

(** The test at the head of the loop body:
    [if not parent_id or parent_id not in pkg_lookup: break], and
    [pkg_lookup[parent_id]] otherwise. *)
Definition resolve_parent (pkg_lookup : gmap string Package) (current : Package)
  : option (string * Package) :=
  match truthy (parentId current) with
  | Some parent_id => (λ parent, (parent_id, parent)) <$> pkg_lookup !! parent_id
  | None => None
  end.

(** The [while True] loop.  The fuel bounds the number of times the loop body
    is entered; [None] means that the loop was still running when the fuel ran
    out. *)
Fixpoint walk (fuel : nat) (pkg_lookup : gmap string Package) (current : Package)
    (path_parts : list string) : option (list string) :=
  match fuel with
  | 0 => None
  | S fuel' =>
      match resolve_parent pkg_lookup current with
      | None => Some path_parts
      | Some (_, parent) =>
          let parent_name := default "" (name parent) in
          let path_parts :=
            if bool_decide (parent_name = "") then path_parts
            else parent_name :: path_parts in
          walk fuel' pkg_lookup parent path_parts
      end
  end.

(** ["/".join(parts)] *)
Definition join_slash (parts : list string) : string := String.concat "/" parts.

(** [get_package_path(package, all_packages)] *)
Definition get_package_path (fuel : nat) (package : Package)
    (all_packages : list Package) : option string :=
  join_slash <$> walk fuel (build_pkg_lookup all_packages) package [].

(** The ids of the parents that the loop follows from [current], at most
    [n] of them. *)
Fixpoint ancestors (n : nat) (pkg_lookup : gmap string Package) (current : Package)
  : list string :=
  match n with
  | 0 => []
  | S n' =>
      match resolve_parent pkg_lookup current with
      | None => []
      | Some (parent_id, parent) => parent_id :: ancestors n' pkg_lookup parent
      end
  end.

(** ** Deleted packages: [channels_processor.is_deleted] *)

Definition is_deleted (pkg_content : Package) : bool :=
  let state := default "" (state pkg_content) in
  bool_decide (state = "DELETED") || bool_decide (state = "DELETING").

(** ** Duplicate names *)

(** [s.rfind(".")], as the number of characters before the last dot. *)
Fixpoint rfind_dot (s : list ascii) : option nat :=
  match s with
  | [] => None
  | c :: s' =>
      match rfind_dot s' with
      | Some i => Some (S i)
      | None => if bool_decide (c = dot) then Some 0 else None
      end
  end.

Fixpoint split_on (sep : ascii) (s : list ascii) : list (list ascii) :=
  match s with
  | [] => [[]]
  | c :: s' =>
      if bool_decide (c = sep) then [] :: split_on sep s'
      else match split_on sep s' with
           | part :: parts => (c :: part) :: parts
           | [] => [[c]]
           end
  end.

(** The components of a [pathlib.PurePosixPath]: the text is split at the
    slashes, and empty components and ["."] are dropped. *)
Definition path_parts (s : list ascii) : list (list ascii) :=
  List.filter (λ x, negb (bool_decide (x = [])) && negb (bool_decide (x = [dot])))
              (split_on slash s).

(** The root of a POSIX path: ["/"], or ["//"] for exactly two leading slashes. *)
Definition path_root (s : list ascii) : list ascii :=
  match s with
  | c1 :: c2 :: c3 :: _ =>
      if bool_decide (c1 = slash) then
        if bool_decide (c2 = slash) && negb (bool_decide (c3 = slash))
        then [slash; slash] else [slash]
      else []
  | [c1; c2] =>
      if bool_decide (c1 = slash) then
        if bool_decide (c2 = slash) then [slash; slash] else [slash]
      else []
  | [c1] => if bool_decide (c1 = slash) then [slash] else []
  | [] => []
  end.

(** [Path(s).name] *)
Definition path_name (s : list ascii) : list ascii := default [] (last (path_parts s)).

(** [Path(name).suffix] and [.stem] for a final component [name] (pathlib up
    to Python 3.13): the suffix starts at the last dot when that dot is
    neither the first nor the last character. *)
Definition split_suffix (name : list ascii) : list ascii * list ascii :=
  match rfind_dot name with
  | Some i =>
      if bool_decide (0 < i) && bool_decide (i < length name - 1)
      then (take i name, drop i name)
      else (name, [])
  | None => (name, [])
  end.

Definition path_stem (s : list ascii) : list ascii := (split_suffix (path_name s)).1.
Definition path_suffix (s : list ascii) : list ascii := (split_suffix (path_name s)).2.

Definition marker : list ascii := chars " (1)".

(** [_get_duplicate_name]: [p = Path(filename); f"{p.stem} (1){p.suffix}"] *)
Definition _get_duplicate_name (filename : string) : string :=
  let p := chars filename in
  str (path_stem p ++ marker ++ path_suffix p).

(** Whether [(\.[^.]+)$] matches the whole of [rest]: a dot, then one or
    more characters that are not dots, up to the end. *)
Definition is_extension (rest : list ascii) : bool :=
  match rest with
  | c :: r => bool_decide (c = dot) && negb (bool_decide (r = []))
              && forallb (λ x, negb (bool_decide (x = dot))) r
  | [] => false
  end.

Definition newline : ascii := "010"%char.

(** The search of [re.match(r'^(.+) \(1\)(\.[^.]+)$', s)]: group 1 is
    greedy, so its candidates are the prefixes of [s] of length [n], [n - 1],
    ..., [1]; a candidate fits when it has no newline ([.] does not match
    one), the marker follows it, and the rest is an extension.  (The
    character class is greedy too and a dot ends it, so the rest either is
    an extension as a whole or the anchor fails.) *)
Fixpoint match_original (n : nat) (s : list ascii) : option (list ascii * list ascii) :=
  match n with
  | 0 => None
  | S n' =>
      let group1 := take n s in
      let after := drop n s in
      if negb (bool_decide (newline ∈ group1))
         && bool_decide (take 4 after = marker)
         && is_extension (drop 4 after)
      then Some (group1, drop 4 after)
      else match_original n' s
  end.

(** [_get_original_name] *)
Definition _get_original_name (duplicate_name : string) : string :=
  let s := chars duplicate_name in
  match match_original (length s) s with
  | Some (group1, group2) => str (group1 ++ group2)
  | None => duplicate_name
  end.

(** ** Locating packages *)

(** The loop that both [cleanup_duplicates] and [delete_by_path] run over the
    packages, [for pkg in packages: index[key(pkg_path, name)] = pkg] with
    [name = content.get("name", "")] and
    [pkg_path = self.get_package_path(pkg, packages)].  No field of the
    package other than its name and its parent chain is read.  The fuel is
    that of each path resolution. *)
Definition index_step {K : Type} `{Countable K} (key : string → string → K)
    (fuel : nat) (packages : list Package)
    (acc : option (gmap K Package)) (pkg : Package) : option (gmap K Package) :=
  index ← acc;
  pkg_path ← get_package_path fuel pkg packages;
  Some (<[key pkg_path (default "" (name pkg)) := pkg]> index).

Definition build_index {K : Type} `{Countable K} (key : string → string → K)
    (fuel : nat) (packages : list Package) : option (gmap K Package) :=
  foldl (index_step key fuel packages) (Some ∅) packages.

(** [pkg_by_location] of [cleanup_duplicates]: the key is [(pkg_path, name)]. *)
Definition build_pkg_by_location (fuel : nat) (packages : list Package)
  : option (gmap (string * string) Package) :=
  build_index (λ pkg_path name, (pkg_path, name)) fuel packages.

(** [full_path = f"{pkg_path}/{name}" if pkg_path else name] *)
Definition full_path (pkg_path name : string) : string :=
  if bool_decide (pkg_path = "") then name else pkg_path +:+ "/" +:+ name.

(** [pkg_by_path] of [delete_by_path]: the key is [full_path]. *)
Definition build_pkg_by_path (fuel : nat) (packages : list Package)
  : option (gmap string Package) :=
  build_index full_path fuel packages.

(** ** Duplicate reconciliation: [cleanup_duplicates] *)

(** [s.replace(old, new)] for a non-empty [old]: the occurrences are replaced
    from the left; [skip] counts the characters of a replaced occurrence that
    are still to be passed over. *)
Fixpoint replace_go (old new : list ascii) (skip : nat) (s : list ascii) : list ascii :=
  match s with
  | [] => []
  | c :: s' =>
      match skip with
      | S k => replace_go old new k s'
      | 0 =>
          if bool_decide (take (length old) s = old)
          then new ++ replace_go old new (length old - 1) s'
          else c :: replace_go old new 0 s'
      end
  end.

(** [file_path_template.replace("{dataset}", dataset_name)] *)
Definition replace_dataset (dataset_name template : string) : string :=
  str (replace_go (chars "{dataset}") (chars dataset_name) 0 (chars template)).

Fixpoint join_chars (parts : list (list ascii)) : list ascii :=
  match parts with
  | [] => []
  | [x] => x
  | x :: rest => x ++ slash :: join_chars rest
  end.

(** [str(p.parent) if p.parent != Path('.') else ''] for [p = Path(s)]: the
    root followed by all components but the last, which is empty exactly when
    the parent is [Path('.')]. *)
Definition parent_folder_of (s : list ascii) : list ascii :=
  path_root s ++ join_chars (removelast (path_parts s)).

(** The pair that the loop looks up for one entry of [file_paths]. *)
Definition candidate (dataset_name file_path_template : string) : string * string :=
  let file_path := replace_dataset dataset_name file_path_template in
  let p := chars file_path in
  (str (parent_folder_of p), str (path_name p)).

Section Remote.

(** The dataset API behind [delete_package] and [rename_package]: a state of
    the remote platform and the answer of each call ([True] for success).
    Both take the [nodeId] read from the package, which may be absent. *)
Variable Remote : Type.
Variable delete_package : option string → Remote → bool * Remote.
Variable rename_package : option string → string → Remote → bool * Remote.

(** The two counters and the remote state that the loop carries. *)
Record Counts : Type :=
  MkCounts { success_count : nat; skip_count : nat; remote : Remote }.

Definition skip (c : Counts) (r : Remote) : Counts :=
  MkCounts (success_count c) (S (skip_count c)) r.

Definition success (c : Counts) (r : Remote) : Counts :=
  MkCounts (S (success_count c)) (skip_count c) r.

(** The body of [for file_path_template in file_paths] for the looked-up pair
    [(parent_folder, filename)]. *)
Definition reconcile (pkg_by_location : gmap (string * string) Package)
    (parent_folder filename : string) (c : Counts) : Counts :=
  let duplicate_name := _get_duplicate_name filename in
  let original_pkg := pkg_by_location !! (parent_folder, filename) in
  let duplicate_pkg := pkg_by_location !! (parent_folder, duplicate_name) in
  match original_pkg, duplicate_pkg with
  | None, None => skip c (remote c)
  | Some _, None => skip c (remote c)
  | None, Some _ => skip c (remote c)
  | Some original_pkg, Some duplicate_pkg =>
      let original_id := nodeId original_pkg in
      let duplicate_id := nodeId duplicate_pkg in
      let '(deleted, r) := delete_package original_id (remote c) in
      if negb deleted then skip c r
      else
        let '(renamed, r) := rename_package duplicate_id filename r in
        if negb renamed then skip c r
        else success c r
  end.

(** The loop of [cleanup_duplicates] over [file_paths]. *)
Definition cleanup_loop (pkg_by_location : gmap (string * string) Package)
    (dataset_name : string) (file_paths : list string) (r : Remote) : Counts :=
  foldl (λ c file_path_template,
           let '(parent_folder, filename) := candidate dataset_name file_path_template in
           reconcile pkg_by_location parent_folder filename c)
        (MkCounts 0 0 r) file_paths.

(** [cleanup_duplicates].  [found] is what [find_dataset_by_name] and
    [get_dataset_packages] give: [None] when there is no such dataset,
    otherwise its packages.  The result is [(success_count, skip_count)] and
    the remote state. *)
Definition cleanup_duplicates (fuel : nat) (found : option (list Package))
    (dataset_name : string) (file_paths : list string) (r : Remote)
  : option (nat * nat * Remote) :=
  match found with
  | None => Some (0, length file_paths, r)
  | Some packages =>
      pkg_by_location ← build_pkg_by_location fuel packages;
      let c := cleanup_loop pkg_by_location dataset_name file_paths r in
      Some (success_count c, skip_count c, remote c)
  end.

End Remote.

End Packages.

(** ** Channel-row building: the package pass of [process_dataset] *)

Module ChannelsProcessor.

Import Packages.

(** The answers of [classify_package] other than [None]. *)
Inductive PkgType : Type := ieeg_json | electrodes_csv | electrodes_txt | mef.

Definition MULTI_DAY_KEYS : list string :=
  ["D01"; "D02"; "D03"; "D04"; "D05"; "D06"; "D07"].

Section Pass.

(** What the pass uses without looking inside: the classifier of package
    names, the cached downloads, the [payload] dict that is only written, the
    day key of a parent ([parent_id_reference[dataset_name].get]) and the row
    builder with the dataset's reference and ground. *)
Variable Ext : Type.
Variable classify_package : string → option PkgType.
Variable load_ieeg_metadata : option string → Ext → list (string * Value) * Ext.
Variable load_electrode_csv : option string → Ext → Ext.
Variable load_electrode_txt : option string → Ext → Ext.
Variable parent_key_of : option string → option string.
Variable record_payload : option string → Value → Value → Ext → Ext.
Variable build_channel_row : string → Value → list (string * Value).

(** The variables that the pass updates. *)
Record PassState : Type :=
  MkPass { sampling_freq_by_parent : gmap (option string) Value;
           default_sampling_freq : Value;
           rows_by_parent : list (option string * list (list (string * Value)));
           ext : Ext }.

(** [rows_by_parent.setdefault(parent_id, []).append(row)] *)
Fixpoint append_row (parent_id : option string) (row : list (string * Value))
    (m : list (option string * list (list (string * Value))))
  : list (option string * list (list (string * Value))) :=
  match m with
  | [] => [(parent_id, [row])]
  | (k, rs) :: m' =>
      if decide (k = parent_id) then (k, rs ++ [row]) :: m'
      else (k, rs) :: append_row parent_id row m'
  end.

(** The body of [for pkg in packages]. *)
Definition pass_step (st : PassState) (pkg_content : Package) : PassState :=
  if is_deleted pkg_content then st
  else
    let pkg_name := default "" (name pkg_content) in
    match classify_package pkg_name with
    | None => st
    | Some pkg_type =>
        let node_id := nodeId pkg_content in
        let parent_id := parentId pkg_content in
        match pkg_type with
        | ieeg_json =>
            let '(metadata, e) := load_ieeg_metadata node_id (ext st) in
            let sampling_freq :=
              default (VStr "n/a") (Dict.get "sampling_frequency" metadata) in
            let duration := default (VStr "n/a") (Dict.get "duration" metadata) in
            match parent_key_of parent_id with
            | Some parent_key =>
                if bool_decide (parent_key ∈ MULTI_DAY_KEYS) then
                  MkPass (<[parent_id := sampling_freq]> (sampling_freq_by_parent st))
                         (default_sampling_freq st) (rows_by_parent st)
                         (record_payload (Some parent_key) sampling_freq duration e)
                else
                  MkPass (sampling_freq_by_parent st) sampling_freq (rows_by_parent st)
                         (record_payload None sampling_freq duration e)
            | None =>
                MkPass (sampling_freq_by_parent st) sampling_freq (rows_by_parent st)
                       (record_payload None sampling_freq duration e)
            end
        | electrodes_csv =>
            MkPass (sampling_freq_by_parent st) (default_sampling_freq st)
                   (rows_by_parent st) (load_electrode_csv node_id (ext st))
        | electrodes_txt =>
            MkPass (sampling_freq_by_parent st) (default_sampling_freq st)
                   (rows_by_parent st) (load_electrode_txt node_id (ext st))
        | mef =>
            let freq := default (default_sampling_freq st)
                                (sampling_freq_by_parent st !! parent_id) in
            let row := build_channel_row pkg_name freq in
            MkPass (sampling_freq_by_parent st) (default_sampling_freq st)
                   (append_row parent_id row (rows_by_parent st)) (ext st)
        end
    end.

(** The single pass through the packages, from the initial values
    [{}], ["n/a"], [{}]. *)
Definition package_pass (packages : list Package) (e : Ext) : PassState :=
  foldl pass_step (MkPass ∅ (VStr "n/a") [] e) packages.

End Pass.

End ChannelsProcessor.

(** ** Instances for concrete runs *)

Module Run.

Import Sidecar Packages.

Definition is_digit (c : ascii) : bool :=
  bool_decide (48 ≤ nat_of_ascii c ≤ 57).

Definition all_digits (l : list ascii) : bool :=
  negb (bool_decide (l = [])) && forallb is_digit l.

Definition drop_sign (l : list ascii) : list ascii :=
  match l with
  | c :: r => if bool_decide (c = "+"%char) || bool_decide (c = "-"%char) then r else l
  | [] => []
  end.

(** Texts that are a plain decimal numeral with an optional sign and an
    optional fraction. *)
Definition decimal_text (s : string) : bool :=
  match split_on "."%char (drop_sign (chars s)) with
  | [a] => all_digits a
  | [a; b] => (all_digits a && (bool_decide (b = []) || all_digits b))
              || (bool_decide (a = []) && all_digits b)
  | _ => false
  end.

(** An instance of [float].  A bool and a float convert; an int converts
    when it rounds to a double, that is when it is below [2^1024 - 2^970] in
    absolute value, and overflows otherwise; [None], lists and dicts are
    rejected.  Of the texts, the plain decimal numerals convert and the
    others are rejected: the runs below hold no text in the other notations
    that [float] reads (exponents, blanks around the numeral, underscores,
    [inf], [nan]). *)
Definition float_of (v : Value) : Conversion :=
  match v with
  | VBool _ | VFloat _ => Converted
  | VInt z => if bool_decide (Z.abs z < 2 ^ 1024 - 2 ^ 970)%Z then Converted
              else Overflowed
  | VStr s => if decimal_text s then Converted else Rejected
  | VNone | VList _ | VDict _ => Rejected
  end.

(** [sys.get_int_max_str_digits()], at its default. *)
Definition max_str_digits : nat := 4300.

(** [str(z)] for an int. *)
Definition int_text (z : Z) : Outcome string :=
  if bool_decide (max_str_digits < String.length (pretty (Z.abs z)))
  then Raised (ValueError ExceedsIntMaxStrDigits)
  else Returned (pretty z).

Definition apostrophe : ascii := "039"%char.
Definition backslash : ascii := "092"%char.

Definition hex_digit (n : nat) : ascii :=
  nth n (chars "0123456789abcdef") "0"%char.

(** [repr(s)] for a text, character by character: the backslash, the
    enclosing quote and the control characters are escaped. *)
Definition repr_char (quote c : ascii) : list ascii :=
  let n := nat_of_ascii c in
  if bool_decide (c = backslash) then [backslash; backslash]
  else if bool_decide (c = quote) then [backslash; c]
  else if bool_decide (c = tab) then [backslash; "t"%char]
  else if bool_decide (c = LF) then [backslash; "n"%char]
  else if bool_decide (c = CR) then [backslash; "r"%char]
  else if bool_decide (n < 32 ∨ n = 127)
       then [backslash; "x"%char; hex_digit (n / 16); hex_digit (n mod 16)]
       else [c].

Definition repr_str (s : string) : string :=
  let l := chars s in
  let quote := if bool_decide (apostrophe ∈ l) && negb (bool_decide (dquote ∈ l))
               then dquote else apostrophe in
  str (quote :: (c ← l; repr_char quote c) ++ [quote]).

(** [repr(v)]; a dict is taken to be given without a repeated key. *)
Fixpoint repr (v : Value) : Outcome string :=
  match v with
  | VNone => Returned "None"
  | VBool b => Returned (if b then "True" else "False")
  | VInt z => int_text z
  | VFloat r => Returned r
  | VStr s => Returned (repr_str s)
  | VList l =>
      match (fix items (l : list Value) : Outcome (list string) :=
               match l with
               | [] => Returned []
               | x :: l' =>
                   match repr x with
                   | Raised e => Raised e
                   | Returned s =>
                       match items l' with
                       | Raised e => Raised e
                       | Returned r => Returned (s :: r)
                       end
                   end
               end) l with
      | Raised e => Raised e
      | Returned texts => Returned ("[" +:+ String.concat ", " texts +:+ "]")
      end
  | VDict d =>
      match (fix items (d : list (string * Value)) : Outcome (list string) :=
               match d with
               | [] => Returned []
               | (k, x) :: d' =>
                   match repr x with
                   | Raised e => Raised e
                   | Returned s =>
                       match items d' with
                       | Raised e => Raised e
                       | Returned r => Returned ((repr_str k +:+ ": " +:+ s) :: r)
                       end
                   end
               end) d with
      | Raised e => Raised e
      | Returned texts => Returned ("{" +:+ String.concat ", " texts +:+ "}")
      end
  end.

(** An instance of [py_str]: [str(v)] is [repr(v)] for a value that is no
    [str]. *)
Definition str_of (v : Value) : Outcome string :=
  match v with
  | VStr s => Returned s
  | _ => repr v
  end.

(** A file system in which every directory can be made and every file can
    be opened for writing. *)
Definition makedirs_ok (d : string) : option Exn := None.
Definition open_ok (path : string) : option Exn := None.

(** A remote platform that records the calls it receives and answers each
    with a fixed verdict. *)
Inductive Call : Type :=
  | Delete (node_id : option string)
  | Rename (node_id : option string) (new_name : string).

Definition recording_delete (verdict : bool) (node_id : option string)
    (calls : list Call) : bool * list Call :=
  (verdict, calls ++ [Delete node_id]).

Definition recording_rename (verdict : bool) (node_id : option string)
    (new_name : string) (calls : list Call) : bool * list Call :=
  (verdict, calls ++ [Rename node_id new_name]).

(** A folder [f] holding [p.tsv] and its duplicate [p (1).tsv]. *)
Definition folder_f : Package :=
  MkPackage (Some "N:collection:f") (Some "N:collection:f") (Some "f") None
            (Some "Collection") (Some "READY").

Definition original_p : Package :=
  MkPackage (Some "N:package:1") (Some "N:package:1") (Some "p.tsv")
            (Some "N:collection:f") (Some "Tabular") (Some "READY").

Definition duplicate_p : Package :=
  MkPackage (Some "N:package:2") (Some "N:package:2") (Some "p (1).tsv")
            (Some "N:collection:f") (Some "Tabular") (Some "READY").

Definition dataset_f : list Package := [folder_f; original_p; duplicate_p].

(** A package that names itself as its parent. *)
Definition self_parent : Package :=
  MkPackage (Some "N:package:9") (Some "N:package:9") (Some "loop")
            (Some "N:package:9") (Some "Collection") (Some "READY").

(** A deleted file at the dataset root. *)
Definition deleted_p : Package :=
  MkPackage (Some "N:package:3") (Some "N:package:3") (Some "p.tsv") None
            (Some "Tabular") (Some "DELETED").

End Run.

(** ** The manager: requests, deletion by path and by pattern, the package
       listing *)

Module Api.

Import Sidecar Packages.

(** [str.lstrip("/")] *)
Fixpoint lstrip_slash (s : list ascii) : list ascii :=
  match s with
  | c :: s' => if bool_decide (c = slash) then lstrip_slash s' else s
  | [] => []
  end.

Section Deletion.

(** As for [cleanup_duplicates]: the remote platform behind
    [delete_package], with its state. *)
Variable Remote : Type.
Variable delete_package : option string → Remote → bool * Remote.

(** The body of the loop of [delete_by_path]; the counters are
    [(deleted_count, not_found_count)].  A path that the lookup lacks and a
    delete that fails both count as not found. *)
Definition delete_path_step (pkg_by_path : gmap string Package)
    (st : nat * nat * Remote) (file_path : string) : nat * nat * Remote :=
  let '(deleted_count, not_found_count, r) := st in
  let normalized_path := str (lstrip_slash (chars file_path)) in
  match pkg_by_path !! normalized_path with
  | None => (deleted_count, S not_found_count, r)
  | Some pkg =>
      let node_id := nodeId pkg in
      let '(ok, r) := delete_package node_id r in
      if ok then (S deleted_count, not_found_count, r)
      else (deleted_count, S not_found_count, r)
  end.

Definition delete_paths_loop (pkg_by_path : gmap string Package)
    (file_paths : list string) (r : Remote) : nat * nat * Remote :=
  foldl (delete_path_step pkg_by_path) (0, 0, r) file_paths.

(** [delete_by_path].  [found] is what [find_dataset_by_name] and
    [get_dataset_packages] give, as for [cleanup_duplicates]. *)
Definition delete_by_path (fuel : nat) (found : option (list Package))
    (file_paths : list string) (r : Remote) : option (nat * nat * Remote) :=
  match found with
  | None => Some (0, length file_paths, r)
  | Some packages =>
      pkg_by_path ← build_pkg_by_path fuel packages;
      Some (delete_paths_loop pkg_by_path file_paths r)
  end.

(** [fnmatch.fnmatch(name, pattern)], a function of the Python library. *)
Variable fnmatch : string → string → bool.

(** The first loop of [delete_by_pattern]: the files that match, each with
    its full path.  A folder ([packageType == "Collection"]) is passed over
    before its path is resolved. *)
Definition match_step (fuel : nat) (pattern : string) (packages : list Package)
    (acc : option (list (string * Package))) (pkg : Package)
  : option (list (string * Package)) :=
  matches ← acc;
  let name := default "" (name pkg) in
  let pkg_type := default "" (packageType pkg) in
  if bool_decide (pkg_type = "Collection") then Some matches
  else
    pkg_path ← get_package_path fuel pkg packages;
    let full_path := full_path pkg_path name in
    if fnmatch full_path pattern || fnmatch name pattern
    then Some (matches ++ [(full_path, pkg)])
    else Some matches.

Definition find_matches (fuel : nat) (pattern : string) (packages : list Package)
  : option (list (string * Package)) :=
  foldl (match_step fuel pattern packages) (Some []) packages.

(** The body of the second loop of [delete_by_pattern]; the counters are
    [(deleted_count, failed_count)]. *)
Definition delete_match_step (st : nat * nat * Remote) (m : string * Package)
  : nat * nat * Remote :=
  let '(deleted_count, failed_count, r) := st in
  let node_id := nodeId m.2 in
  let '(ok, r) := delete_package node_id r in
  if ok then (S deleted_count, failed_count, r)
  else (deleted_count, S failed_count, r).

Definition delete_matches (matches : list (string * Package)) (r : Remote)
  : nat * nat * Remote :=
  foldl delete_match_step (0, 0, r) matches.

(** [delete_by_pattern] *)
Definition delete_by_pattern (fuel : nat) (found : option (list Package))
    (pattern : string) (r : Remote) : option (nat * nat * Remote) :=
  match found with
  | None => Some (0, 0, r)
  | Some packages =>
      matches ← find_matches fuel pattern packages;
      match matches with
      | [] => Some (0, 0, r)
      | _ => Some (delete_matches matches r)
      end
  end.

End Deletion.

(** [DatasetManagerCore]: the attributes that the package operations read. *)
Record Core : Type := MkCore { api_host : string; dry_run : bool }.

Inductive Method : Type := GET | POST | PUT.

(** A call of [_make_request]: the method, the URL and the [json] payload. *)
Record Request : Type :=
  MkRequest { method : Method; url : string; payload : option Value }.

(** The [content] object of a dataset as the API returns it. *)
Record Dataset : Type :=
  MkDataset { ds_name : option string; ds_id : option string }.

(** What [_make_request] returns on success: the empty dict of a response
    without content, or the response object.  The package listing reads
    [packages] (default [[]]) and [cursor] of it, the dataset listing reads
    [datasets] (default [[]]) and [totalCount] (default [0]); a response has
    the keys of one of the two. *)
Inductive Response : Type :=
  | EmptyBody
  | Body (packages : list Package) (cursor : option string)
  | Datasets (datasets : list Dataset) (totalCount : nat).

(** [f"{package_id}"] *)
Definition format_id (package_id : option string) : string :=
  default "None" package_id.

Definition id_value (package_id : option string) : Value :=
  match package_id with Some s => VStr s | None => VNone end.

Section Requests.

(** [_make_request]: [None] for a failed request.  [quote] is
    [urllib.parse.quote(_, safe="")]. *)
Variable Remote : Type.
Variable make_request : Request → Remote → option Response * Remote.
Variable quote : string → string.

(** [delete_package]: in a dry run nothing is requested. *)
Definition delete_package (self : Core) (package_id : option string) (r : Remote)
  : bool * Remote :=
  if dry_run self then (true, r)
  else
    let url := api_host self +:+ "/data/delete" in
    let payload := VDict [("things", VList [id_value package_id])] in
    let '(result, r) := make_request (MkRequest POST url (Some payload)) r in
    (bool_decide (is_Some result), r).

(** [rename_package] *)
Definition rename_package (self : Core) (package_id : option string)
    (new_name : string) (r : Remote) : bool * Remote :=
  if dry_run self then (true, r)
  else
    let url := api_host self +:+ "/packages/" +:+ format_id package_id
               +:+ "?updateStorage=false" in
    let payload := VDict [("name", VStr new_name)] in
    let '(result, r) := make_request (MkRequest PUT url (Some payload)) r in
    (bool_decide (is_Some result), r).

(** The cache directory of [shared.helpers], by cache name, next to the
    remote state.  A cache file that cannot be read counts as absent. *)
Record Store : Type :=
  MkStore { remote : Remote; cache : gmap string (list Package) }.

(** [load_data(name, force_reload)] *)
Definition load_data (name : string) (force_reload : bool)
    (cache : gmap string (list Package)) : option (list Package) :=
  if force_reload then None else cache !! name.

(** [save_data(data, name)] *)
Definition save_data (data : list Package) (name : string)
    (cache : gmap string (list Package)) : gmap string (list Package) :=
  <[name := data]> cache.

(** [f"packages_{dataset_id.replace(':', '_')}"] *)
Definition cache_key (dataset_id : string) : string :=
  "packages_" +:+
  str ((λ c, if bool_decide (c = ":"%char) then "_"%char else c) <$> chars dataset_id).

(** The [while True] loop of [get_dataset_packages], with fuel for the
    requests. *)
Fixpoint fetch_pages (fuel : nat) (base_url : string) (cursor : option string)
    (all_packages : list Package) (r : Remote) : option (list Package * Remote) :=
  match fuel with
  | 0 => None
  | S fuel' =>
      let url := match truthy cursor with
                 | Some c => base_url +:+ "&cursor=" +:+ c
                 | None => base_url
                 end in
      let '(result, r) := make_request (MkRequest GET url None) r in
      match result with
      | None | Some EmptyBody => Some (all_packages, r)
      | Some (Body packages cursor) =>
          let all_packages := all_packages ++ packages in
          match truthy cursor with
          | None => Some (all_packages, r)
          | Some _ => fetch_pages fuel' base_url cursor all_packages r
          end
      | Some (Datasets _ _) => Some (all_packages, r)
      end
  end.

(** [get_dataset_packages] *)
Definition get_dataset_packages (self : Core) (fuel : nat) (dataset_id : string)
    (force_reload : bool) (st : Store) : option (list Package * Store) :=
  let cache_key := cache_key dataset_id in
  match load_data cache_key force_reload (cache st) with
  | Some packages => Some (packages, st)
  | None =>
      let encoded_id := quote dataset_id in
      let base_url := api_host self +:+ "/datasets/" +:+ encoded_id
                      +:+ "/packages?pageSize=1000&includeSourceFiles=false" in
      '(all_packages, r) ← fetch_pages fuel base_url None [] (remote st);
      Some (all_packages, MkStore r (save_data all_packages cache_key (cache st)))
  end.

(** [str(n)] for the numbers of the URL, a function of Python. *)
Variable show : nat → string.

Definition page_size : nat := 25.

Definition datasets_url (self : Core) (offset : nat) : string :=
  api_host self +:+ "/datasets/paginated?limit=" +:+ show page_size
  +:+ "&offset=" +:+ show offset
  +:+ "&orderBy=Name&orderDirection=Asc"
  +:+ "&includeBannerUrl=false&includePublishedDataset=false".

(** The [while True] loop of [fetch_all_datasets], with fuel for the
    requests. *)
Fixpoint fetch_datasets (self : Core) (fuel : nat) (offset : nat)
    (datasets : list Dataset) (r : Remote) : option (list Dataset * Remote) :=
  match fuel with
  | 0 => None
  | S fuel' =>
      let '(result, r) := make_request (MkRequest GET (datasets_url self offset) None) r in
      match result with
      | None | Some EmptyBody => Some (datasets, r)
      | Some (Body _ _) | Some (Datasets [] _) => Some (datasets, r)
      | Some (Datasets batch total_count) =>
          let datasets := datasets ++ batch in
          let offset := offset + page_size in
          if bool_decide (total_count ≤ offset) then Some (datasets, r)
          else fetch_datasets self fuel' offset datasets r
      end
  end.

(** The manager object between calls: the remote platform and
    [self._datasets_cache]. *)
Record Manager : Type :=
  MkManager { platform : Remote; _datasets_cache : option (list Dataset) }.

(** [fetch_all_datasets] *)
Definition fetch_all_datasets (self : Core) (fuel : nat) (force_reload : bool)
    (m : Manager) : option (list Dataset * Manager) :=
  match _datasets_cache m, force_reload with
  | Some cached, false => Some (cached, m)
  | _, _ =>
      '(datasets, r) ← fetch_datasets self fuel 0 [] (platform m);
      Some (datasets, MkManager r (Some datasets))
  end.

(** [find_dataset_by_name] *)
Definition find_dataset_by_name (self : Core) (fuel : nat) (name : string)
    (m : Manager) : option (option Dataset * Manager) :=
  '(datasets, m) ← fetch_all_datasets self fuel false m;
  Some (List.find (λ ds, bool_decide (ds_name ds = Some name)) datasets, m).

(** [get_dataset_id] *)
Definition get_dataset_id (dataset : Dataset) : option string := ds_id dataset.

End Requests.

End Api.

(** ** Instances for runs of the manager *)

Module ApiRun.

Import Sidecar Packages Api.

(** [fnmatch] on a pattern without wildcard characters: the name has to be
    the pattern. *)
Definition literal_match (name pattern : string) : bool :=
  bool_decide (name = pattern).

(** A remote platform that records the requests it receives and answers each
    with a fixed response. *)
Definition recording_request (answer : option Response) (request : Request)
    (calls : list Request) : option Response * list Request :=
  (answer, calls ++ [request]).

Definition live_core : Core := MkCore "https://api.pennsieve.io" false.
Definition dry_core : Core := MkCore "https://api.pennsieve.io" true.

(** The identity stands for [quote] on an id without reserved characters. *)
Definition quote_plain (s : string) : string := s.

(** [str(n)], in decimal. *)
Definition show_decimal (n : nat) : string := pretty n.

(** A listing of two pages, and a platform that answers its [k]-th request
    with the [k]-th page of a listing; its state is the number of requests
    served. *)
Definition paged_listing : list Dataset :=
  replicate 26 (MkDataset (Some "EPS0000049") (Some "N:dataset:49"))
  ++ [MkDataset (Some "EPS0000215") (Some "N:dataset:215")].

Definition paged_request (listing : list Dataset) (request : Request) (served : nat)
  : option Response * nat :=
  (Some (Datasets (take page_size (drop (served * page_size) listing))
                  (length listing)),
   S served).

(** The first request of a listing of [dataset_id] by [live_core]. *)
Definition listing_request (dataset_id : string) : Request :=
  MkRequest GET
    (api_host live_core +:+ "/datasets/" +:+ quote_plain dataset_id
     +:+ "/packages?pageSize=1000&includeSourceFiles=false") None.

End ApiRun.


(** ** The iEEG sidecar: schema and [validate] *)

Module IeegValidation.

Import Sidecar.

(** The JSON Schema types that [IeegSidecar.SCHEMA] uses besides
    ["string"]; a boolean is not a ["number"]. *)
Definition is_number (v : Value) : bool :=
  match v with VInt _ | VFloat _ => true | _ => false end.

Definition is_object (v : Value) : bool :=
  match v with VDict _ => true | _ => false end.

Definition is_null (v : Value) : bool :=
  match v with VNone => true | _ => false end.

Definition is_boolean (v : Value) : bool :=
  match v with VBool _ => true | _ => false end.

(** The ["required"] entry of [IeegSidecar.SCHEMA]. *)
Definition Ieeg_required : list string :=
  ["TaskName"; "PowerLineFrequency"; "SamplingFrequency"; "SoftwareFilters";
   "iEEGReference"].

(** The ["properties"] entry of [IeegSidecar.SCHEMA]: each property with the
    check of its ["type"]. *)
Definition Ieeg_properties : list (string * (Value → bool)) :=
  [ ("TaskName", is_string);
    ("PowerLineFrequency", is_number);
    ("SamplingFrequency", is_number);
    ("SoftwareFilters", λ v, is_string v || is_object v);
    ("iEEGReference", is_string);
    ("iEEGGround", is_string);
    ("Manufacturer", is_string);
    ("ManufacturersModelName", is_string);
    ("RecordingDuration", λ v, is_number v || is_null v);
    ("RecordingType", is_string);
    ("ElectricalStimulation", λ v, is_boolean v || is_string v);
    ("InstitutionName", is_string) ].

(** [sorted(validator.iter_errors(self.data), key=lambda e: e.path)] for a
    schema of this shape, each error by its path: a missing ["required"]
    property is reported at the root, a property of the wrong type at its
    name. *)
Definition schema_errors (required : list string)
    (properties : list (string * (Value → bool))) (data : list (string * Value))
  : list (list string) :=
  ((λ _, []) <$> List.filter (λ k, negb (Dict.mem k data)) required)
  ++ ((λ k, [k]) <$>
        sorted (omap (λ pc : string * (Value → bool),
                        match Dict.get pc.1 data with
                        | Some v => if pc.2 v then None else Some pc.1
                        | None => None
                        end)
                     properties)).

Definition Ieeg_schema_errors (data : list (string * Value)) : list (list string) :=
  schema_errors Ieeg_required Ieeg_properties data.

(** [IeegSidecar.validate] *)
Definition IeegSidecar_validate (self : JSONSidecar) (w : World)
  : Outcome bool * World :=
  let errors := Ieeg_schema_errors (data self) in
  match errors with
  | _ :: _ =>
      let w := foldl (λ w path, emit ERROR (SchemaError path) w) w errors in
      (Raised (ValueError (SchemaErrorCount (length errors))), w)
  | [] =>
      let keys := Dict.keys (data self) in
      let missing_required := set_diff (JSON_REQUIRED_FIELDS Ieeg) keys in
      let missing_recommended := set_diff (JSON_RECOMMENDED_FIELDS Ieeg) keys in
      let extras :=
        set_diff keys
          (set_union (set_union (JSON_REQUIRED_FIELDS Ieeg)
                                (JSON_RECOMMENDED_FIELDS Ieeg))
                     (JSON_OPTIONAL_FIELDS Ieeg)) in
      if nonempty missing_required
      then (Raised (ValueError (MissingRequired (sorted missing_required))), w)
      else
        let w := if nonempty missing_recommended
                 then emit WARNING (MissingRecommended (sorted missing_recommended)) w
                 else w in
        let w := if nonempty extras then emit WARNING (ExtraFields (sorted extras)) w
                 else w in
        (Returned true, emit INFO ValidationPassed w)
  end.

End IeegValidation.


(** ** Channel names and channel rows *)

Module ChannelRows.

Import Sidecar.

(** [s.upper()], on the ASCII letters. *)
Definition upper_char (c : ascii) : ascii :=
  let n := nat_of_ascii c in
  if bool_decide (97 ≤ n ≤ 122) then ascii_of_nat (n - 32) else c.

Definition upper (s : string) : string := str (upper_char <$> chars s).

(** [s.removesuffix(suffix)] *)
Definition removesuffix (suffix s : list ascii) : list ascii :=
  if negb (bool_decide (suffix = []))
     && bool_decide (drop (length s - length suffix) s = suffix)
  then take (length s - length suffix) s
  else s.

(** [re.sub(r"(eeg|-ref)", "", name)]: the occurrences are removed from the
    left; [skip] counts the characters of a removed occurrence that are
    still to be passed over. *)
Fixpoint remove_eeg_ref (skip : nat) (s : list ascii) : list ascii :=
  match s with
  | [] => []
  | c :: s' =>
      match skip with
      | S k => remove_eeg_ref k s'
      | 0 =>
          if bool_decide (take 3 s = chars "eeg") then remove_eeg_ref 2 s'
          else if bool_decide (take 4 s = chars "-ref") then remove_eeg_ref 3 s'
          else c :: remove_eeg_ref 0 s'
      end
  end.

(** The characters of [string.punctuation]. *)
Definition is_punctuation (c : ascii) : bool :=
  let n := nat_of_ascii c in
  bool_decide (33 ≤ n ≤ 47) || bool_decide (58 ≤ n ≤ 64)
  || bool_decide (91 ≤ n ≤ 96) || bool_decide (123 ≤ n ≤ 126).

(** The ASCII characters that [str.strip()] removes. *)
Definition is_space (c : ascii) : bool :=
  let n := nat_of_ascii c in
  bool_decide (9 ≤ n ≤ 13) || bool_decide (28 ≤ n ≤ 32).

Fixpoint lstrip (s : list ascii) : list ascii :=
  match s with
  | c :: s' => if is_space c then lstrip s' else s
  | [] => []
  end.

Definition strip (s : list ascii) : list ascii := rev (lstrip (rev (lstrip s))).

(** [clean_channel_name] *)
Definition clean_channel_name (pkg_name : string) : string :=
  let name := removesuffix (chars ".mef") (chars (lower pkg_name)) in
  let name := remove_eeg_ref 0 name in
  let name := List.filter (λ c, negb (is_punctuation c)) name in
  upper (str (strip name)).

(** An entry of [CHANNEL_CONFIGS]. *)
Record ChannelConfig : Type :=
  MkConfig { names : list string; type : string;
             group : option string; group_strategy : option string }.

Definition CHANNEL_CONFIGS : list (string * ChannelConfig) :=
  [ ("ECG", MkConfig ["EKG"; "EKG1"; "EKG2"; "ECG"; "ECG1"; "ECG2"] "ECG"
                     (Some "n/a") None);
    ("EEG", MkConfig ["C3"; "C03"; "C4"; "C04"; "CZ"; "F3"; "F4"; "F7"; "F8";
                      "FP1"; "FP2"; "FZ"; "O1"; "O2"; "P3"; "P4"; "PZ";
                      "T3"; "T4"; "T5"; "T6"] "EEG" None (Some "use_name"));
    ("EOG", MkConfig ["LOC"; "ROC"] "EOG" None (Some "use_name"));
    ("EMG", MkConfig ["EMG"; "EMG1"; "EMG2"] "EMG" None (Some "use_name")) ].

(** [CHANNEL_LOOKUP], built by the two loops at module load: the type and
    the group of each listed channel name. *)
Definition CHANNEL_LOOKUP : gmap string (string * string) :=
  foldl (λ lookup (entry : string * ChannelConfig),
           let config := entry.2 in
           foldl (λ lookup channel_name,
                    <[channel_name :=
                        (type config,
                         if bool_decide (group_strategy config = Some "use_name")
                         then channel_name
                         else default "n/a" (group config))]> lookup)
                 lookup (names config))
        ∅ CHANNEL_CONFIGS.

(** [get_channel_info]: the pair of ["type"] and ["group"]. *)
Definition get_channel_info (channel_name : string) : string * string :=
  if bool_decide (upper channel_name ∈ ["REF"; "GND"]) then ("unknown", "unknown")
  else
    match CHANNEL_LOOKUP !! channel_name with
    | Some info => info
    | None =>
        let group := if bool_decide (2 ≤ length (chars channel_name))
                     then str (take 2 (chars channel_name))
                     else channel_name in
        ("SEEG", group)
    end.

(** [needle in s] *)
Fixpoint contains (needle s : list ascii) : bool :=
  bool_decide (take (length needle) s = needle)
  || match s with
     | [] => false
     | _ :: s' => contains needle s'
     end.

(** [build_channel_row] *)
Definition build_channel_row (pkg_name : string) (sampling_freq : Value)
    (reference ground : string) : list (string * Value) :=
  let channel_name := clean_channel_name pkg_name in
  let channel_info := get_channel_info channel_name in
  let is_ekg := contains (chars "ekg") (chars (lower channel_name)) in
  [ ("name", VStr channel_name);
    ("type", VStr channel_info.1);
    ("units", VStr "uV");
    ("low_cutoff", VStr "n/a");
    ("high_cutoff", VStr (if negb is_ekg then "0.01" else "n/a"));
    ("reference", VStr (if is_ekg then "unknown" else reference));
    ("ground", VStr (if is_ekg then "unknown" else ground));
    ("group", VStr channel_info.2);
    ("sampling_frequency", sampling_freq);
    ("notch", VStr "n/a") ].

(** [classify_package] *)
Definition endswith (suffix s : list ascii) : bool :=
  bool_decide (drop (length s - length suffix) s = suffix).

Definition classify_package (pkg_name : string) : option ChannelsProcessor.PkgType :=
  let name_lower := strip (chars (lower pkg_name)) in
  if endswith (chars "implant_ieeg.json") name_lower
  then Some ChannelsProcessor.ieeg_json
  else if bool_decide (name_lower = chars "electrodes2roi_mni.csv")
  then Some ChannelsProcessor.electrodes_csv
  else if bool_decide (name_lower = chars "electrodes.txt")
  then Some ChannelsProcessor.electrodes_txt
  else if endswith (chars ".mef") name_lower
  then Some ChannelsProcessor.mef
  else None.

End ChannelRows.


(** ** Instances for runs of the channel pass *)

Module ChannelRun.

Import Packages.

(** A channel file of folder [f], and a deleted one. *)
Definition channel_la1 : Package :=
  MkPackage (Some "N:package:11") (Some "N:package:11") (Some "LA1.mef")
            (Some "N:collection:f") (Some "TimeSeries") (Some "READY").

Definition channel_gone : Package :=
  MkPackage (Some "N:package:12") (Some "N:package:12") (Some "LA2.mef")
            (Some "N:collection:f") (Some "TimeSeries") (Some "DELETED").

(** The surroundings of a pass that downloads and records nothing. *)
Definition no_metadata (node_id : option string) (e : unit)
  : list (string * Value) * unit := ([], e).
Definition no_download (node_id : option string) (e : unit) : unit := e.
Definition no_day_key (parent_id : option string) : option string := None.
Definition no_payload (parent_key : option string) (sampling_freq duration : Value)
    (e : unit) : unit := e.

(** The row builder of a dataset that the master map does not list. *)
Definition unlisted_row (pkg_name : string) (sampling_freq : Value)
  : list (string * Value) :=
  ChannelRows.build_channel_row pkg_name sampling_freq "unknown" "unknown".

End ChannelRun.


(** ** Dataset names and output paths *)

Module Names.

Import Sidecar Packages.

(** The digits that follow, up to the first character that is none. *)
Fixpoint take_digits (s : list ascii) : list ascii :=
  match s with
  | c :: s' => if Run.is_digit c then c :: take_digits s' else []
  | [] => []
  end.

(** [re.search(r"(\d+)", s)]: the first run of digits, on ASCII text. *)
Fixpoint first_digits (s : list ascii) : option (list ascii) :=
  match s with
  | [] => None
  | c :: s' => if Run.is_digit c then Some (c :: take_digits s') else first_digits s'
  end.

(** Decimal numerals as texts of digits. *)
Fixpoint uint_of_chars (s : list ascii) : Decimal.uint :=
  match s with
  | [] => Decimal.Nil
  | c :: s' =>
      let d := uint_of_chars s' in
      match nat_of_ascii c - 48 with
      | 0 => Decimal.D0 d | 1 => Decimal.D1 d | 2 => Decimal.D2 d
      | 3 => Decimal.D3 d | 4 => Decimal.D4 d | 5 => Decimal.D5 d
      | 6 => Decimal.D6 d | 7 => Decimal.D7 d | 8 => Decimal.D8 d
      | _ => Decimal.D9 d
      end
  end.

Fixpoint chars_of_uint (d : Decimal.uint) : list ascii :=
  match d with
  | Decimal.Nil => []
  | Decimal.D0 d => "0"%char :: chars_of_uint d
  | Decimal.D1 d => "1"%char :: chars_of_uint d
  | Decimal.D2 d => "2"%char :: chars_of_uint d
  | Decimal.D3 d => "3"%char :: chars_of_uint d
  | Decimal.D4 d => "4"%char :: chars_of_uint d
  | Decimal.D5 d => "5"%char :: chars_of_uint d
  | Decimal.D6 d => "6"%char :: chars_of_uint d
  | Decimal.D7 d => "7"%char :: chars_of_uint d
  | Decimal.D8 d => "8"%char :: chars_of_uint d
  | Decimal.D9 d => "9"%char :: chars_of_uint d
  end.

Section Conversion.

(** [sys.get_int_max_str_digits()]: the interpreter's limit on the digits of
    a conversion between [int] and [str], [0] where there is none.  A
    conversion of no more than 640 digits is never refused. *)
Variable int_max_str_digits : nat.

Definition refused (n_digits : nat) : bool :=
  bool_decide (640 < n_digits) && bool_decide (0 < int_max_str_digits)
  && bool_decide (int_max_str_digits < n_digits).

(** [int(num)] for a text of digits; [None] for the [ValueError] of a
    refused conversion. *)
Definition int (num : list ascii) : option nat :=
  if refused (length num) then None else Some (Nat.of_uint (uint_of_chars num)).

(** [f"{n:0{width}d}"] *)
Definition format_d (width : nat) (n : nat) : option (list ascii) :=
  let digits := chars_of_uint (Nat.to_uint n) in
  if refused (length digits) then None
  else Some (replicate (width - length digits) "0"%char ++ digits).

(** [eps_to_penn_epi] *)
Definition eps_to_penn_epi (dataset_name : string) : option string :=
  let num := default (chars "00000") (first_digits (chars dataset_name)) in
  n ← int num;
  digits ← format_d 5 n;
  Some (str (chars "PennEPI" ++ digits)).

(** [penn_epi_to_eps] *)
Definition penn_epi_to_eps (dataset_name : string) : option string :=
  let num := default (chars "0000000") (first_digits (chars dataset_name)) in
  n ← int num;
  digits ← format_d 7 n;
  Some (str (chars "EPS" ++ digits)).

End Conversion.

(** A [PurePosixPath]: its root and its components. *)
Definition Path : Type := list ascii * list (list ascii).

(** [Path(s)] *)
Definition path_of (s : string) : Path := (path_root (chars s), path_parts (chars s)).

(** [p / s]: an absolute [s] replaces [p]. *)
Definition joinpath (p : Path) (s : string) : Path :=
  if startswith_slash s then path_of s
  else (p.1, p.2 ++ path_parts (chars s)).

(** [str(p)] *)
Definition path_str (p : Path) : string :=
  match p with
  | ([], []) => "."
  | (root, parts) => str (root ++ join_chars parts)
  end.

(** [get_output_path], as the text that [process_dataset] passes to [save];
    [None] where [eps_to_penn_epi] raises. *)
Definition get_output_path (int_max_str_digits : nat) (OUTPUT_DIR : string)
    (dataset_name : string) (parent_key : option string) : option string :=
  top_folder ← eps_to_penn_epi int_max_str_digits dataset_name;
  let base_path :=
    joinpath (joinpath (path_of OUTPUT_DIR) top_folder)
             ("primary/sub-" +:+ top_folder +:+ "/ses-postimplant/ieeg") in
  let base_path := match truthy parent_key with
                   | Some parent_key => joinpath base_path parent_key
                   | None => base_path
                   end in
  Some (path_str
          (joinpath base_path
             ("sub-" +:+ top_folder +:+ "_ses-postimplant_task-clinical_channels.tsv"))).

End Names.


(** * Properties *)

(** ** Dict lookups *)

Section DictFacts.
Context {V : Type}.
Implicit Types (d s : list (string * V)) (k : string) (v : V).

Lemma dict_get_None k d : Dict.get k d = None ↔ k ∉ d.*1.
Proof.
  induction d as [|[k' v'] d IH]; simpl.
  - split; [intros _; apply not_elem_of_nil | done].
  - rewrite not_elem_of_cons. destruct (Dict.get k d) eqn:E.
    + split; [done|]. intros [_ H]. apply IH in H. done.
    + case_decide; split; try done.
      * intros [? _]. done.
      * intros _. split; [done|]. by apply IH.
Qed.

Lemma dict_get_app k d s :
  Dict.get k (d ++ s) = match Dict.get k s with Some w => Some w | None => Dict.get k d end.
Proof.
  induction d as [|[k' v'] d IH]; simpl.
  - by destruct (Dict.get k s).
  - rewrite IH. by destruct (Dict.get k s).
Qed.

Lemma dict_get_replace k v d k' :
  Dict.get k' ((λ kv : string * V, if decide (kv.1 = k) then (k, v) else kv) <$> d)
  = if decide (k' = k)
    then (if bool_decide (k ∈ d.*1) then Some v else None)
    else Dict.get k' d.
Proof.
  induction d as [|[k0 v0] d IH]; csimpl.
  - by case_decide.
  - rewrite IH. clear IH.
    destruct (decide (k0 = k)) as [->|Hk0]; simpl.
    + rewrite (bool_decide_eq_true_2 (k ∈ k :: d.*1)) by left.
      destruct (decide (k' = k)) as [->|Hne].
      * by case_bool_decide.
      * done.
    + destruct (decide (k' = k)) as [->|Hne]; [|done].
      case_bool_decide as Hd.
      * by rewrite bool_decide_eq_true_2 by by right.
      * rewrite bool_decide_eq_false_2; [by rewrite decide_False|].
        rewrite not_elem_of_cons. naive_solver.
Qed.

Lemma dict_get_set k v d k' :
  Dict.get k' (Dict.set k v d) = if decide (k' = k) then Some v else Dict.get k' d.
Proof.
  unfold Dict.set. case_bool_decide as Hin.
  - rewrite dict_get_replace. by rewrite bool_decide_eq_true_2.
  - rewrite dict_get_app. simpl. case_decide as Hk; [done|].
    by destruct (Dict.get k' d).
Qed.

(** The defining property of [{**d, **s}]: the right operand wins. *)
Lemma dict_get_merge k d s :
  Dict.get k (Dict.merge d s) = match Dict.get k s with Some w => Some w | None => Dict.get k d end.
Proof.
  unfold Dict.merge. revert d. induction s as [|[k0 v0] s IH]; intros d; simpl.
  - done.
  - rewrite IH. destruct (Dict.get k s); [done|].
    rewrite dict_get_set. simpl. by case_decide.
Qed.

Lemma dict_get_filter_keys keep k d :
  Dict.get k (Dict.filter_keys keep d) = if keep k then Dict.get k d else None.
Proof.
  induction d as [|[k0 v0] d IH]; simpl.
  - by destruct (keep k).
  - destruct (keep k0) eqn:Hk0; simpl; rewrite IH.
    + destruct (keep k) eqn:Hk; [done|].
      case_decide; [congruence|done].
    + destruct (keep k) eqn:Hk; [|done].
      destruct (Dict.get k d); [done|]. case_decide; [congruence|done].
Qed.

Lemma dict_mem_true k d : Dict.mem k d = true ↔ is_Some (Dict.get k d).
Proof. unfold Dict.mem. apply bool_decide_eq_true. Qed.

End DictFacts.

(** ** C1: merging supplied values over the defaults *)

Section MergeFacts.
Import Sidecar.

Lemma foldl_append_merged (D : list (string * Value)) rows0 acc :
  foldl (λ acc row, acc ++ [Dict.merge D row]) acc rows0
  = acc ++ (Dict.merge D <$> rows0).
Proof.
  revert acc. induction rows0 as [|row rows0 IH]; intros acc; simpl.
  - by rewrite app_nil_r.
  - rewrite IH. by rewrite <- app_assoc.
Qed.

Lemma TSV_init_rows c rows0 :
  rows (TSV_init c rows0) = Dict.merge (ROW_DEFAULTS c) <$> rows0.
Proof. unfold TSV_init. simpl. by rewrite foldl_append_merged. Qed.

Lemma merge_spec_merge D S k :
  Dict.get k (Dict.merge D S) = merge_spec D S k.
Proof. unfold merge_spec. apply dict_get_merge. Qed.

(** C1, as stated, fails on a JSON sidecar: a supplied key that is one of the
    path options is not in the record, although the merge of the
    specification has it. *)
Lemma json_record_drops_supplied_path_option :
  let supplied := [("output_dir", VStr "elsewhere")] in
  Dict.get "output_dir" supplied = Some (VStr "elsewhere")
  ∧ merge_spec (DEFAULTS CoordSystem) supplied "output_dir" = Some (VStr "elsewhere")
  ∧ Dict.get "output_dir" (data (JSON_init CoordSystem supplied)) = None.
Proof. vm_compute. done. Qed.

(** C1, amended: the record of a JSON sidecar is the defaults overridden by
    the supplied mapping on every key except the three path options
    [output_dir], [input_dir] and [bids_path], which the base constructor
    removes; each row of a TSV sidecar, through the constructor and through
    [add_row], is the row defaults overridden by the supplied row on every
    key.  "Overridden" is [merge_spec]: the supplied value if the key is
    supplied, else the default if there is one, else absent. *)
Theorem effective_record_is_defaults_overridden :
  (∀ (c : JSONKind) (supplied : list (string * Value)) (k : string),
     Dict.get k (data (JSON_init c supplied))
     = if is_excluded k then None else merge_spec (DEFAULTS c) supplied k)
  ∧ (∀ (c : TSVKind) (rows0 : list (list (string * Value))),
       Forall2 (λ supplied row, ∀ k, Dict.get k row = merge_spec (ROW_DEFAULTS c) supplied k)
               rows0 (rows (TSV_init c rows0)))
  ∧ (∀ (self : TSVSidecar) (supplied : list (string * Value)),
       ∃ row, rows (add_row self supplied) = rows self ++ [row]
              ∧ ∀ k, Dict.get k row = merge_spec (ROW_DEFAULTS (tkind self)) supplied k).
Proof.
  split; [|split].
  - intros c supplied k. unfold JSON_init, Sidecar_init_data. simpl.
    rewrite dict_get_filter_keys, merge_spec_merge.
    by destruct (is_excluded k).
  - intros c rows0. rewrite TSV_init_rows.
    induction rows0 as [|row rows0 IH]; constructor; [|done].
    intros k. apply merge_spec_merge.
  - intros self supplied. eexists. split; [done|].
    intros k. apply merge_spec_merge.
Qed.

End MergeFacts.

(** ** C3: termination of path resolution *)

Section WalkFacts.
Import Packages.

Implicit Types (pkg_lookup : gmap string Package) (current : Package).

(** The loop ends within the fuel exactly when it follows fewer parents than
    the fuel allows. *)
Lemma walk_is_Some fuel pkg_lookup current path_parts :
  is_Some (walk fuel pkg_lookup current path_parts)
  ↔ length (ancestors fuel pkg_lookup current) < fuel.
Proof.
  revert current path_parts.
  induction fuel as [|fuel IH]; intros current path_parts; simpl.
  - split; [intros [? ?]; done | lia].
  - destruct (resolve_parent pkg_lookup current) as [[parent_id parent]|]; simpl.
    + rewrite IH. lia.
    + split; [lia | eauto].
Qed.

(** More fuel does not change an answer. *)
Lemma walk_more_fuel fuel fuel' pkg_lookup current path_parts r :
  walk fuel pkg_lookup current path_parts = Some r → fuel ≤ fuel' →
  walk fuel' pkg_lookup current path_parts = Some r.
Proof.
  revert fuel' current path_parts.
  induction fuel as [|fuel IH]; intros fuel' current path_parts; simpl; [done|].
  intros H Hle. destruct fuel' as [|fuel']; [lia|]. simpl.
  destruct (resolve_parent pkg_lookup current) as [[parent_id parent]|]; [|done].
  apply IH; [done | lia].
Qed.

(** Every parent that the loop follows is a key of the lookup. *)
Lemma ancestors_in_lookup n pkg_lookup current x :
  x ∈ ancestors n pkg_lookup current → is_Some (pkg_lookup !! x).
Proof.
  revert current. induction n as [|n IH]; intros current; simpl.
  - by intros ?%elem_of_nil.
  - destruct (resolve_parent pkg_lookup current) as [[parent_id parent]|] eqn:E.
    + intros [->|Hin]%elem_of_cons; [|by eapply IH].
      unfold resolve_parent in E.
      destruct (truthy (parentId current)) as [pid|]; [|done].
      destruct (pkg_lookup !! pid) eqn:El; simplify_eq/=. eauto.
    + by intros ?%elem_of_nil.
Qed.

(** The lookup has at most one entry per package of the list. *)
Lemma build_pkg_lookup_size all_packages :
  size (build_pkg_lookup all_packages) ≤ length all_packages.
Proof.
  unfold build_pkg_lookup.
  assert (∀ (m : gmap string Package),
            size (foldl (λ pkg_lookup pkg,
                           match truthy (id pkg) with
                           | Some pkg_id => <[pkg_id := pkg]> pkg_lookup
                           | None => pkg_lookup
                           end) m all_packages)
            ≤ size m + length all_packages) as H.
  { induction all_packages as [|pkg l IH]; intros m; simpl; [lia|].
    etrans; [apply IH|].
    destruct (truthy (id pkg)) as [pkg_id|]; [|lia].
    destruct (m !! pkg_id) eqn:E.
    - rewrite map_size_insert_Some by eauto. lia.
    - rewrite map_size_insert_None by done. lia. }
  specialize (H ∅). by rewrite map_size_empty in H.
Qed.

(** A chain of distinct keys is no longer than the lookup is large. *)
Lemma distinct_keys_bounded (l : list string) pkg_lookup :
  NoDup l → (∀ x, x ∈ l → is_Some (pkg_lookup !! x)) → length l ≤ size pkg_lookup.
Proof.
  intros Hnd Hin.
  rewrite <- size_dom, <- (size_list_to_set (C:=gset string) l) by done.
  apply subseteq_size. intros x Hx%elem_of_list_to_set.
  apply elem_of_dom. by apply Hin.
Qed.

(** Once the chain has ended, no amount of fuel makes it longer. *)
Lemma ancestors_ended m n pkg_lookup current :
  length (ancestors m pkg_lookup current) < m →
  length (ancestors n pkg_lookup current) ≤ length (ancestors m pkg_lookup current).
Proof.
  revert n current. induction m as [|m IH]; intros n current; simpl; [lia|].
  destruct n as [|n]; simpl; [lia|].
  destruct (resolve_parent pkg_lookup current) as [[parent_id parent]|]; simpl; [|lia].
  intros H. specialize (IH n parent). lia.
Qed.

Lemma resolve_parent_lookup pkg_lookup current parent_id parent :
  resolve_parent pkg_lookup current = Some (parent_id, parent) →
  pkg_lookup !! parent_id = Some parent.
Proof.
  unfold resolve_parent. destruct (truthy (parentId current)) as [pid|]; [|done].
  destruct (pkg_lookup !! pid) eqn:E; simpl; [|done]. by intros [= <- <-].
Qed.

Lemma ancestors_more_fuel n k pkg_lookup current :
  length (ancestors k pkg_lookup current) ≤ length (ancestors (n + k) pkg_lookup current).
Proof.
  revert current. induction k as [|k IH]; intros current; simpl; [lia|].
  rewrite Nat.add_succ_r. simpl.
  destruct (resolve_parent pkg_lookup current) as [[parent_id parent]|]; simpl; [|lia].
  specialize (IH parent). lia.
Qed.

(** A chain that passes through an id goes on with the chain of the package
    that has this id. *)
Lemma ancestors_through n k pkg_lookup current x r :
  x ∈ ancestors n pkg_lookup current → pkg_lookup !! x = Some r →
  length (ancestors k pkg_lookup r) < length (ancestors (n + k) pkg_lookup current).
Proof.
  revert current. induction n as [|n IH]; intros current; simpl.
  - by intros ?%elem_of_nil.
  - destruct (resolve_parent pkg_lookup current) as [[parent_id parent]|] eqn:E;
      [|by intros ?%elem_of_nil].
    apply resolve_parent_lookup in E.
    intros [->|Hin]%elem_of_cons Hr; simpl.
    + rewrite E in Hr. injection Hr as ->.
      pose proof (ancestors_more_fuel n k pkg_lookup r). lia.
    + specialize (IH parent Hin Hr). lia.
Qed.

(** A chain that ends visits no id twice. *)
Lemma ended_chain_NoDup m pkg_lookup current :
  length (ancestors m pkg_lookup current) < m →
  ∀ n, NoDup (ancestors n pkg_lookup current).
Proof.
  revert current. induction m as [|m IH]; intros current; simpl; [lia|].
  destruct (resolve_parent pkg_lookup current) as [[parent_id parent]|] eqn:E.
  - simpl. intros Hm n. destruct n as [|n]; simpl; [constructor|].
    rewrite E. constructor; [|apply IH; lia].
    intros Hin.
    pose proof (ancestors_through n m pkg_lookup parent parent_id parent Hin
                  (resolve_parent_lookup _ _ _ _ E)) as Hlt.
    pose proof (ancestors_ended m (n + m) pkg_lookup parent ltac:(lia)). lia.
  - intros _ n. destruct n as [|n]; simpl; [constructor|]. rewrite E. constructor.
Qed.

Lemma self_parent_walk fuel path_parts :
  walk fuel (build_pkg_lookup [Run.self_parent]) Run.self_parent path_parts = None.
Proof.
  revert path_parts. induction fuel as [|fuel IH]; intros path_parts; [done|].
  cbn [walk].
  replace (resolve_parent (build_pkg_lookup [Run.self_parent]) Run.self_parent)
    with (Some ("N:package:9", Run.self_parent)) by (vm_compute; reflexivity).
  cbv beta iota zeta. apply IH.
Qed.

End WalkFacts.

(** C3, as stated, fails on a cyclic list: for the list that holds one
    package naming itself as its parent, the package is in the lookup under
    its own id and the resolution of its path is still running after any
    number of steps. *)
Lemma path_resolution_runs_forever_on_cycle :
  Packages.build_pkg_lookup [Run.self_parent] !! "N:package:9" = Some Run.self_parent
  ∧ Packages.parentId Run.self_parent = Some "N:package:9"
  ∧ ∀ fuel, Packages.get_package_path fuel Run.self_parent [Run.self_parent] = None.
Proof.
  split; [vm_compute; reflexivity|]. split; [reflexivity|].
  intros fuel. unfold Packages.get_package_path.
  by rewrite self_parent_walk.
Qed.

(** C3, amended.  For every package and every package list, including lists
    with parent ids missing from the list: when the parent ids followed from
    the package do not repeat (checked on the first [|packages| + 1] of
    them), path resolution returns, with any fuel above [|packages|], it
    follows at most [|packages|] parent links, and a package whose [parentId]
    is absent, empty or not an id of the list resolves to the empty path, as
    a root does; when they do repeat, path resolution is still running after
    any number of steps. *)
Theorem get_package_path_terminates_without_cycle
    (package : Packages.Package) (all_packages : list Packages.Package) :
  (NoDup (Packages.ancestors (S (length all_packages))
            (Packages.build_pkg_lookup all_packages) package) →
   ∃ path,
     (∀ fuel, length all_packages < fuel →
              Packages.get_package_path fuel package all_packages = Some path)
     ∧ (∀ n, length (Packages.ancestors n (Packages.build_pkg_lookup all_packages) package)
             ≤ length all_packages)
     ∧ (Packages.resolve_parent (Packages.build_pkg_lookup all_packages) package = None →
        path = ""))
  ∧ (¬ NoDup (Packages.ancestors (S (length all_packages))
                (Packages.build_pkg_lookup all_packages) package) →
     ∀ fuel, Packages.get_package_path fuel package all_packages = None).
Proof.
  set (pkg_lookup := Packages.build_pkg_lookup all_packages) in *.
  set (N := length all_packages) in *.
  split.
  - intros Hnd.
    assert (length (Packages.ancestors (S N) pkg_lookup package) ≤ N) as Hlen.
    { etrans; [|apply build_pkg_lookup_size].
      apply distinct_keys_bounded; [done|].
      intros x. apply ancestors_in_lookup. }
    destruct (proj2 (walk_is_Some (S N) pkg_lookup package [])) as [parts Hparts]; [lia|].
    exists (Packages.join_slash parts). split; [|split].
    + intros fuel Hfuel. unfold Packages.get_package_path. fold pkg_lookup.
      rewrite (walk_more_fuel (S N) fuel _ _ _ parts) by (done || lia). done.
    + intros n. etrans; [apply (ancestors_ended (S N))|]; [lia | done].
    + intros Hroot. simpl in Hparts. rewrite Hroot in Hparts. by simplify_eq.
  - intros Hdup fuel. unfold Packages.get_package_path. fold pkg_lookup.
    destruct (Packages.walk fuel pkg_lookup package []) as [parts|] eqn:E; [|done].
    exfalso. apply Hdup. apply (ended_chain_NoDup fuel).
    apply walk_is_Some with (path_parts := []). rewrite E. eauto.
Qed.

(** A run of the amended claim: [p.tsv] in folder [f] resolves to ["f"]. *)
Lemma get_package_path_terminates_without_cycle_witness :
  ∃ path,
    (∀ fuel, 3 < fuel →
             Packages.get_package_path fuel Run.original_p Run.dataset_f = Some path)
    ∧ (∀ n, length (Packages.ancestors n (Packages.build_pkg_lookup Run.dataset_f)
                      Run.original_p) ≤ 3)
    ∧ (Packages.resolve_parent (Packages.build_pkg_lookup Run.dataset_f) Run.original_p
       = None → path = "").
Proof.
  apply (proj1 (get_package_path_terminates_without_cycle Run.original_p Run.dataset_f)).
  vm_compute. apply NoDup_singleton.
Defined.

Example resolve_nested_path :
  Packages.get_package_path 4 Run.original_p Run.dataset_f = Some "f".
Proof. vm_compute. reflexivity. Qed.

(** The scenario of the specification: [C] under [B = "sub01"] under the
    root folder [A = "ieeg"]. *)
Example resolve_two_levels :
  let A := Packages.MkPackage (Some "A") (Some "A") (Some "ieeg") None None None in
  let B := Packages.MkPackage (Some "B") (Some "B") (Some "sub01") (Some "A") None None in
  let C := Packages.MkPackage (Some "C") (Some "C") (Some "c.mef") (Some "B") None None in
  Packages.get_package_path 4 C [A; B; C] = Some "ieeg/sub01"
  ∧ Packages.get_package_path 4 A [A; B; C] = Some "".
Proof. vm_compute. done. Qed.

(** ** C2: the state machine of duplicate reconciliation *)

Section ReconcileFacts.
Import Packages.

Context {Remote : Type}.
Variable delete_package : option string → Remote → bool * Remote.
Variable rename_package : option string → string → Remote → bool * Remote.

Abbreviation reconcile := (reconcile Remote delete_package rename_package).
Abbreviation cleanup_loop := (cleanup_loop Remote delete_package rename_package).

(** Every candidate adds one to exactly one of the two counters. *)
Lemma reconcile_counts_one m folder filename (c : Counts Remote) :
  success_count _ (reconcile m folder filename c)
  + skip_count _ (reconcile m folder filename c)
  = S (success_count _ c + skip_count _ c).
Proof.
  unfold Packages.reconcile.
  destruct (m !! (folder, filename)) as [o|], (m !! (folder, _)) as [d|];
    simpl; try lia.
  destruct (delete_package _ _) as [[] r1]; simpl; [|lia].
  destruct (rename_package _ _ _) as [[] r2]; simpl; lia.
Qed.

Lemma cleanup_fold_counts m dataset_name file_paths (c : Counts Remote) :
  let step := λ c t, let '(parent_folder, filename) := candidate dataset_name t in
                     reconcile m parent_folder filename c in
  success_count _ (foldl step c file_paths) + skip_count _ (foldl step c file_paths)
  = success_count _ c + skip_count _ c + length file_paths.
Proof.
  intros step. revert c.
  induction file_paths as [|t ts IH]; intros c; cbn [foldl length].
  - lia.
  - rewrite IH. unfold step.
    destruct (candidate dataset_name t) as [folder filename].
    rewrite reconcile_counts_one. lia.
Qed.

End ReconcileFacts.

(** ** The indexes of packages are built when no parent chain repeats *)

Section IndexReturnFacts.
Import Packages.

Lemma foldl_index_None {K : Type} `{Countable K} (key : string → string → K)
    fuel all (l : list Package) :
  foldl (index_step key fuel all) None l = None.
Proof. induction l as [|a l IH]; simpl; done. Qed.

(** Path resolution returns, and gives one path with any fuel above the
    number of packages, when the parents followed from the package do not
    repeat. *)
Lemma get_package_path_returns package all_packages :
  NoDup (ancestors (S (length all_packages)) (build_pkg_lookup all_packages) package) →
  ∃ path, ∀ fuel, length all_packages < fuel →
                  get_package_path fuel package all_packages = Some path.
Proof.
  intros Hnd.
  set (pkg_lookup := build_pkg_lookup all_packages) in *.
  set (N := length all_packages) in *.
  assert (length (ancestors (S N) pkg_lookup package) ≤ N) as Hlen.
  { etrans; [|apply build_pkg_lookup_size].
    apply distinct_keys_bounded; [done|].
    intros x. apply ancestors_in_lookup. }
  destruct (proj2 (walk_is_Some (S N) pkg_lookup package [])) as [parts Hparts]; [lia|].
  exists (join_slash parts). intros fuel Hfuel.
  unfold get_package_path. fold pkg_lookup.
  by rewrite (walk_more_fuel (S N) fuel _ _ _ parts) by (done || lia).
Qed.

(** It is still running after any number of steps when they do repeat. *)
Lemma get_package_path_cycle package all_packages fuel :
  ¬ NoDup (ancestors (S (length all_packages)) (build_pkg_lookup all_packages) package) →
  get_package_path fuel package all_packages = None.
Proof.
  intros Hdup. unfold get_package_path.
  destruct (walk fuel (build_pkg_lookup all_packages) package []) as [parts|] eqn:E;
    [|done].
  exfalso. apply Hdup. apply (ended_chain_NoDup fuel).
  apply walk_is_Some with (path_parts := []). rewrite E. eauto.
Qed.

Lemma foldl_index_returns {K : Type} `{Countable K} (key : string → string → K)
    all (l : list Package) (m0 : gmap K Package) :
  (∀ pkg, pkg ∈ l →
     NoDup (ancestors (S (length all)) (build_pkg_lookup all) pkg)) →
  ∃ m, ∀ fuel, length all < fuel →
               foldl (index_step key fuel all) (Some m0) l = Some m.
Proof.
  revert m0. induction l as [|a l IH]; intros m0 Hl.
  - exists m0. done.
  - destruct (get_package_path_returns a all) as [path Hpath]; [apply Hl; left|].
    destruct (IH (<[key path (default "" (name a)) := a]> m0)) as [m Hm].
    { intros pkg Hpkg. apply Hl. by right. }
    exists m. intros fuel Hfuel. cbn [foldl]. unfold index_step at 2.
    cbn [mbind option_bind]. rewrite (Hpath fuel Hfuel). cbn [mbind option_bind].
    by apply Hm.
Qed.

(** An index is built, and is the same with any fuel above the number of
    packages, when no listed package has a parent chain that repeats. *)
Lemma build_index_returns {K : Type} `{Countable K} (key : string → string → K)
    (packages : list Package) :
  (∀ pkg, pkg ∈ packages →
     NoDup (ancestors (S (length packages)) (build_pkg_lookup packages) pkg)) →
  ∃ m, ∀ fuel, length packages < fuel → build_index key fuel packages = Some m.
Proof. intros Hl. by apply foldl_index_returns. Qed.

Lemma foldl_index_stuck {K : Type} `{Countable K} (key : string → string → K)
    fuel all (l : list Package) (acc : option (gmap K Package)) pkg :
  pkg ∈ l → get_package_path fuel pkg all = None →
  foldl (index_step key fuel all) acc l = None.
Proof.
  revert acc. induction l as [|a l IH]; intros acc Hin Hnone.
  - by apply elem_of_nil in Hin.
  - cbn [foldl]. apply elem_of_cons in Hin as [->|Hin]; [|by apply IH].
    assert (index_step key fuel all acc a = None) as ->.
    { unfold index_step. destruct acc; cbn [mbind option_bind]; [|done].
      by rewrite Hnone. }
    apply foldl_index_None.
Qed.

(** No index is ever built when some listed package has a parent chain that
    repeats. *)
Lemma build_index_cycle {K : Type} `{Countable K} (key : string → string → K)
    (packages : list Package) pkg fuel :
  pkg ∈ packages →
  ¬ NoDup (ancestors (S (length packages)) (build_pkg_lookup packages) pkg) →
  build_index key fuel packages = None.
Proof.
  intros Hin Hdup. apply (foldl_index_stuck key fuel packages packages _ pkg Hin).
  by apply get_package_path_cycle.
Qed.

End IndexReturnFacts.

(** C2, as stated, fails on a listing with a parent cycle: the loop that
    builds the index by location resolves the path of every listed package
    first, the resolution of a package that names itself as its parent never
    ends, and so the call returns no counters, whatever the candidates. *)
Lemma cleanup_duplicates_runs_forever_on_cycle :
  Packages.parentId Run.self_parent = Packages.id Run.self_parent
  ∧ ∀ fuel,
      Packages.cleanup_duplicates (list Run.Call) (Run.recording_delete true)
        (Run.recording_rename true) fuel (Some [Run.self_parent; Run.original_p])
        "ds" ["f/p.tsv"] []
      = None.
Proof.
  split; [reflexivity|]. intros fuel.
  unfold Packages.cleanup_duplicates, Packages.build_pkg_by_location.
  rewrite (build_index_cycle _ [Run.self_parent; Run.original_p] Run.self_parent fuel);
    [done|left|].
  vm_compute. intros Hnd. apply NoDup_cons in Hnd as [Hnot _]. apply Hnot. left.
Qed.

(** C2, amended.  For a candidate [(folder, filename)] looked up in the index
    of packages by location: when the original or the "(1)" duplicate is
    missing there (neither, or exactly one of them exists) the candidate
    counts as a skip and the remote state is the one before, whatever the two
    remote operations are, so neither was called; when both exist the
    original is deleted first: a failed delete counts as a skip and leaves
    the state the delete produced (no rename follows), a rename that fails
    after the delete counts as a skip, and both succeeding counts as one
    success.  Over the list of candidates the loop threads the counters from
    one candidate to the next, and each candidate lands in exactly one
    counter.  The call returns [(0, |file_paths|)] when the dataset is not
    found.  When it is found and no listed package has a parent chain that
    repeats an id, the index is built and the call returns the two counters
    of the loop over it; when some listed package has such a chain, the call
    is still running after any number of steps. *)
Theorem cleanup_duplicates_state_machine
    (Remote : Type)
    (delete_package : option string → Remote → bool * Remote)
    (rename_package : option string → string → Remote → bool * Remote)
    (pkg_by_location : gmap (string * string) Packages.Package)
    (folder filename dataset_name : string) (file_paths : list string)
    (c : Packages.Counts Remote) (r0 : Remote) :
  let reconcile := Packages.reconcile Remote delete_package rename_package in
  let cleanup_loop := Packages.cleanup_loop Remote delete_package rename_package in
  let cleanup_duplicates :=
    Packages.cleanup_duplicates Remote delete_package rename_package in
  let original := pkg_by_location !! (folder, filename) in
  let duplicate := pkg_by_location !! (folder, Packages._get_duplicate_name filename) in
  let c' := reconcile pkg_by_location folder filename c in
  (original = None ∨ duplicate = None →
     c' = Packages.skip _ c (Packages.remote _ c))
  ∧ (∀ o d deleted r1,
       original = Some o → duplicate = Some d →
       delete_package (Packages.nodeId o) (Packages.remote _ c) = (deleted, r1) →
       (deleted = false → c' = Packages.skip _ c r1)
       ∧ (deleted = true →
          ∀ renamed r2,
            rename_package (Packages.nodeId d) filename r1 = (renamed, r2) →
            (renamed = false → c' = Packages.skip _ c r2)
            ∧ (renamed = true → c' = Packages.success _ c r2)))
  ∧ (∀ template,
       cleanup_loop pkg_by_location dataset_name (file_paths ++ [template]) r0
       = reconcile pkg_by_location
           (Packages.candidate dataset_name template).1
           (Packages.candidate dataset_name template).2
           (cleanup_loop pkg_by_location dataset_name file_paths r0))
  ∧ Packages.success_count _ (cleanup_loop pkg_by_location dataset_name file_paths r0)
    + Packages.skip_count _ (cleanup_loop pkg_by_location dataset_name file_paths r0)
    = length file_paths
  ∧ (∀ fuel, cleanup_duplicates fuel None dataset_name file_paths r0
             = Some (0, length file_paths, r0))
  ∧ (∀ packages,
       (∀ pkg, pkg ∈ packages →
          NoDup (Packages.ancestors (S (length packages))
                   (Packages.build_pkg_lookup packages) pkg)) →
       ∃ index,
         ∀ fuel, length packages < fuel →
           Packages.build_pkg_by_location fuel packages = Some index
           ∧ cleanup_duplicates fuel (Some packages) dataset_name file_paths r0
             = let res := cleanup_loop index dataset_name file_paths r0 in
               Some (Packages.success_count _ res, Packages.skip_count _ res,
                     Packages.remote _ res))
  ∧ (∀ packages pkg,
       pkg ∈ packages →
       ¬ NoDup (Packages.ancestors (S (length packages))
                  (Packages.build_pkg_lookup packages) pkg) →
       ∀ fuel, cleanup_duplicates fuel (Some packages) dataset_name file_paths r0 = None).
Proof.
  intros reconcile cleanup_loop cleanup_duplicates original duplicate c'.
  subst reconcile cleanup_loop cleanup_duplicates original duplicate c'.
  split; [|split; [|split; [|split; [|split; [|split]]]]].
  - unfold Packages.reconcile. intros [-> | ->].
    + by destruct (pkg_by_location !! (folder, _)).
    + by destruct (pkg_by_location !! (folder, filename)).
  - intros o d deleted r1 Ho Hd Hdel.
    unfold Packages.reconcile. rewrite Ho, Hd, Hdel.
    split.
    + by intros ->.
    + intros -> renamed r2 Hren. rewrite Hren. simpl.
      split; by intros ->.
  - intros template. unfold Packages.cleanup_loop.
    rewrite foldl_app. simpl.
    by destruct (Packages.candidate dataset_name template).
  - unfold Packages.cleanup_loop.
    pose proof (cleanup_fold_counts delete_package rename_package pkg_by_location
                  dataset_name file_paths (Packages.MkCounts _ 0 0 r0)) as H.
    cbv zeta in H. cbn [Packages.success_count Packages.skip_count] in H. lia.
  - done.
  - intros packages Hacyclic.
    destruct (build_index_returns (λ pkg_path name, (pkg_path, name)) packages Hacyclic)
      as [index Hindex].
    exists index. intros fuel Hfuel. unfold Packages.cleanup_duplicates.
    unfold Packages.build_pkg_by_location. by rewrite (Hindex fuel Hfuel).
  - intros packages pkg Hin Hdup fuel. unfold Packages.cleanup_duplicates.
    unfold Packages.build_pkg_by_location.
    by rewrite (build_index_cycle _ packages pkg fuel Hin Hdup).
Qed.

(** The run of the specification's first example: with [p.tsv] and
    [p (1).tsv] both in folder [f] and a remote that accepts both calls, the
    candidate is one success after a delete of the original and a rename of
    the duplicate, in this order. *)
Lemma cleanup_duplicates_state_machine_witness :
  Packages.reconcile (list Run.Call) (Run.recording_delete true) (Run.recording_rename true)
    {[ ("f", "p.tsv") := Run.original_p; ("f", "p (1).tsv") := Run.duplicate_p ]}
    "f" "p.tsv" (Packages.MkCounts _ 0 0 [])
  = Packages.MkCounts _ 1 0
      [Run.Delete (Some "N:package:1"); Run.Rename (Some "N:package:2") "p.tsv"].
Proof.
  destruct (cleanup_duplicates_state_machine (list Run.Call)
              (Run.recording_delete true) (Run.recording_rename true)
              {[ ("f", "p.tsv") := Run.original_p; ("f", "p (1).tsv") := Run.duplicate_p ]}
              "f" "p.tsv" "ds" [] (Packages.MkCounts _ 0 0 []) [])
    as (_ & Hboth & _).
  destruct (Hboth Run.original_p Run.duplicate_p true [Run.Delete (Some "N:package:1")]
              eq_refl eq_refl eq_refl) as [_ Hdel].
  destruct (Hdel eq_refl true
              [Run.Delete (Some "N:package:1"); Run.Rename (Some "N:package:2") "p.tsv"]
              eq_refl) as [_ Hren].
  exact (Hren eq_refl).
Defined.

(** The three runs of the specification: both present, only the original,
    only a duplicate. *)
Example cleanup_both_present :
  Packages.cleanup_duplicates (list Run.Call) (Run.recording_delete true)
    (Run.recording_rename true) 4 (Some Run.dataset_f) "ds" ["f/p.tsv"] []
  = Some (1, 0, [Run.Delete (Some "N:package:1"); Run.Rename (Some "N:package:2") "p.tsv"]).
Proof. vm_compute. reflexivity. Qed.

Example cleanup_only_original :
  Packages.cleanup_duplicates (list Run.Call) (Run.recording_delete true)
    (Run.recording_rename true) 4 (Some [Run.folder_f; Run.original_p]) "ds" ["f/p.tsv"] []
  = Some (0, 1, []).
Proof. vm_compute. reflexivity. Qed.

Example cleanup_only_duplicate :
  Packages.cleanup_duplicates (list Run.Call) (Run.recording_delete true)
    (Run.recording_rename true) 4 (Some [Run.folder_f; Run.duplicate_p]) "ds" ["f/p.tsv"] []
  = Some (0, 1, []).
Proof. vm_compute. reflexivity. Qed.

(** ** C4: the coordinate system "Other" and its description *)

Section CoordSystemFacts.
Import Sidecar.

(** Whatever is supplied, the record of a constructed coordinate-system
    sidecar has a description: the supplied one or the default. *)
Lemma coordsystem_description_always_present supplied :
  Dict.mem "iEEGCoordinateSystemDescription" (data (JSON_init CoordSystem supplied)) = true.
Proof.
  apply dict_mem_true. unfold JSON_init, Sidecar_init_data. simpl data.
  rewrite dict_get_filter_keys. simpl negb. cbv iota.
  rewrite dict_get_merge.
  destruct (Dict.get _ supplied); [eauto|]. vm_compute. eauto.
Qed.

(** The conditional rule of [validate] does reject a record that says
    "Other" and has no description. *)
Example coordsystem_rule_on_bare_record :
  CoordSystemSidecar_validate
    (MkJSON CoordSystem [("iEEGCoordinateSystem", VStr "Other");
                         ("iEEGCoordinateUnits", VStr "mm")])
    (MkWorld ∅ [])
  = (Raised (ValueError (MissingRequired ["iEEGCoordinateSystemDescription"])),
     MkWorld ∅ []).
Proof. vm_compute. reflexivity. Qed.

End CoordSystemFacts.

(** C4: what the code does at the scenario.  The sidecar constructed from
    [{"iEEGCoordinateSystem": "Other"}] alone holds the default description
    of the FreeSurfer native space, and [validate()] returns [True] after
    logging that validation passed: nothing is raised and no field is
    reported missing. *)
Theorem coordsystem_other_keeps_default_description_and_validates :
  let self := Sidecar.JSON_init CoordSystem [("iEEGCoordinateSystem", VStr "Other")] in
  Dict.get "iEEGCoordinateSystem" (Sidecar.data self) = Some (VStr "Other")
  ∧ Dict.get "iEEGCoordinateSystemDescription" (Sidecar.data self)
    = Some (VStr "Native FreeSurfer surface space.")
  ∧ Sidecar.CoordSystemSidecar_validate self (Sidecar.MkWorld ∅ [])
    = (Sidecar.Returned true,
       Sidecar.MkWorld ∅ [(Sidecar.INFO, Sidecar.ValidationPassed)]).
Proof. vm_compute. done. Qed.

(** ** C6: values that are not numeric *)

Section LoopFacts.
Import Sidecar.

Context {A M : Type}.

(** A loop whose body only appends to the list it carries returns that list
    with what each pass appended. *)
Lemma for_each_Returned_inv (body : list M → A → Outcome (list M))
    (P : A → M → Prop) (l : list A) (acc r : list M) :
  (∀ acc x r, x ∈ l → body acc x = Returned r →
     ∃ added, r = acc ++ added ∧ ∀ m, m ∈ added ↔ P x m) →
  for_each body l acc = Returned r →
  ∃ added, r = acc ++ added ∧ ∀ m, m ∈ added ↔ ∃ x, x ∈ l ∧ P x m.
Proof.
  revert acc. induction l as [|x l IH]; intros acc Hbody; cbn [for_each].
  - intros [= <-]. exists []. split; [by rewrite app_nil_r|].
    intros m. rewrite elem_of_nil. split; [done|]. by intros (x & ?%elem_of_nil & _).
  - destruct (body acc x) as [acc'|e] eqn:E; [|done]. intros Hr.
    destruct (Hbody acc x acc' ltac:(left) E) as (a1 & -> & H1).
    destruct (IH (acc ++ a1)) as (a2 & -> & H2); [|done|].
    { intros acc0 y r0 Hy. apply Hbody. by right. }
    exists (a1 ++ a2). split; [by rewrite app_assoc|].
    intros m. rewrite elem_of_app, H1, H2. split.
    + intros [Hm|(y & Hy & Hm)]; [exists x; split; [left|done]|].
      exists y. split; [by right|done].
    + intros (y & [->|Hy]%elem_of_cons & Hm); [by left|]. right. eauto.
Qed.

(** It returns when every pass does. *)
Lemma for_each_returns {B : Type} (body : B → A → Outcome B) (l : list A) (acc : B) :
  (∀ acc x, x ∈ l → ∃ r, body acc x = Returned r) →
  ∃ r, for_each body l acc = Returned r.
Proof.
  revert acc. induction l as [|x l IH]; intros acc Hbody; cbn [for_each]; [eauto|].
  destruct (Hbody acc x ltac:(left)) as [acc' ->]. apply IH.
  intros acc0 y Hy. apply Hbody. by right.
Qed.

(** It raises [e] when some pass raises [e] and no pass raises anything
    else. *)
Lemma for_each_raises {B : Type} (body : B → A → Outcome B) (l : list A) (acc : B)
    (x : A) (e : Exn) :
  (∀ acc y, y ∈ l → (∃ r, body acc y = Returned r) ∨ body acc y = Raised e) →
  x ∈ l → (∀ acc, body acc x = Raised e) →
  for_each body l acc = Raised e.
Proof.
  revert acc. induction l as [|y l IH]; intros acc Hbody Hx Hraise; cbn [for_each].
  - by apply elem_of_nil in Hx.
  - destruct (Hbody acc y ltac:(left)) as [[acc' E]|E]; rewrite E; [|done].
    apply elem_of_cons in Hx as [->|Hx]; [by rewrite Hraise in E|].
    apply IH; [|done..]. intros acc0 z Hz. apply Hbody. by right.
Qed.

End LoopFacts.

Section NumericFacts.
Import Sidecar.

Variable float : Value → Conversion.
Variable py_str : Value → Outcome string.

Abbreviation numeric_failure := (numeric_failure float py_str).
Abbreviation numeric_step := (numeric_step float py_str).
Abbreviation numeric_by_field := (numeric_by_field float py_str).
Abbreviation numeric_by_row := (numeric_by_row float py_str).

(** The cells that the numeric check reads and [float] rejects. *)
Abbreviation rejected row field v :=
  (Dict.get field row = Some v ∧ is_na v = false ∧ float v = Rejected).

(** A cell that does not stop the check: [float] converts it, or rejects it
    and the value can be formatted into the message. *)
Abbreviation checked fields data :=
  (∀ row field v, row ∈ data → field ∈ fields →
     Dict.get field row = Some v → is_na v = false →
     float v = Converted
     ∨ (float v = Rejected ∧ ∃ s, format_value py_str v = Returned s)).

Lemma numeric_failure_Some row field v :
  numeric_failure row field = Returned (Some v) → rejected row field v.
Proof.
  unfold Sidecar.numeric_failure. destruct (Dict.get field row) as [val|]; [|done].
  destruct (is_na val) eqn:Ena; [done|].
  destruct (float val) eqn:Ef; [done| |done].
  destruct (format_value py_str val); [|done]. by intros [= ->].
Qed.

Lemma numeric_failure_rejected row field v s :
  rejected row field v → format_value py_str v = Returned s →
  numeric_failure row field = Returned (Some v).
Proof.
  intros (Hg & Hna & Hf) Hs. unfold Sidecar.numeric_failure.
  by rewrite Hg, Hna, Hf, Hs.
Qed.

Lemma numeric_failure_overflowed row field v :
  Dict.get field row = Some v → is_na v = false → float v = Overflowed →
  numeric_failure row field = Raised OverflowError.
Proof. intros Hg Hna Hf. unfold Sidecar.numeric_failure. by rewrite Hg, Hna, Hf. Qed.

Lemma numeric_failure_returns row field :
  (∀ v, Dict.get field row = Some v → is_na v = false →
        float v = Converted
        ∨ (float v = Rejected ∧ ∃ s, format_value py_str v = Returned s)) →
  ∃ o, numeric_failure row field = Returned o.
Proof.
  intros H. unfold Sidecar.numeric_failure.
  destruct (Dict.get field row) as [val|]; [|eauto].
  destruct (is_na val) eqn:Ena; [eauto|].
  destruct (H val eq_refl Ena) as [-> | [-> [s ->]]]; eauto.
Qed.

Lemma numeric_step_Returned mk field ir msgs r :
  numeric_step mk field ir msgs = Returned r →
  ∃ added, r = msgs ++ added
           ∧ ∀ m, m ∈ added ↔ ∃ v, rejected ir.2 field v ∧ m = mk (S ir.1) field v.
Proof.
  unfold Sidecar.numeric_step.
  destruct (numeric_failure ir.2 field) as [[val|]|e] eqn:E; [| |done]; intros [= <-].
  - exists [mk (S ir.1) field val]. split; [done|]. intros m.
    rewrite list_elem_of_singleton. apply numeric_failure_Some in E. split.
    + intros ->. eauto.
    + intros (v & (Hg & _) & ->). destruct E as (Hg' & _). congruence.
  - exists []. split; [by rewrite app_nil_r|]. intros m. rewrite elem_of_nil.
    split; [done|]. intros (v & (Hg & Hna & Hf) & _).
    revert E. unfold Sidecar.numeric_failure. rewrite Hg, Hna, Hf.
    by destruct (format_value py_str v).
Qed.

Lemma numeric_step_returns mk field ir msgs :
  (∀ v, Dict.get field ir.2 = Some v → is_na v = false →
        float v = Converted
        ∨ (float v = Rejected ∧ ∃ s, format_value py_str v = Returned s)) →
  ∃ r, numeric_step mk field ir msgs = Returned r.
Proof.
  intros H. unfold Sidecar.numeric_step.
  destruct (numeric_failure_returns ir.2 field H) as [[v|] ->]; eauto.
Qed.

Lemma elem_of_enumerate (data : list (list (string * Value))) ir :
  ir ∈ enumerate data ↔ data !! ir.1 = Some ir.2.
Proof.
  unfold enumerate. rewrite elem_of_lookup_imap. destruct ir as [i r]. split.
  - by intros (i' & r' & [= -> ->] & H).
  - intros H. exists i, r. done.
Qed.

(** What the numeric loops add to the list they are given, when they
    return: one message for every rejected cell of a numeric field. *)
Lemma numeric_by_field_Returned mk fields data msgs r :
  numeric_by_field mk fields data msgs = Returned r →
  ∃ added, r = msgs ++ added
           ∧ ∀ m, m ∈ added ↔
                  ∃ i row field v, data !! i = Some row ∧ field ∈ fields
                                   ∧ rejected row field v ∧ m = mk (S i) field v.
Proof.
  intros Hr. unfold Sidecar.numeric_by_field in Hr.
  apply (for_each_Returned_inv _
           (λ field m, ∃ i row v, data !! i = Some row ∧ rejected row field v
                                  ∧ m = mk (S i) field v)) in Hr.
  - destruct Hr as (added & -> & Hadded). exists added. split; [done|].
    intros m. rewrite Hadded. split.
    + intros (field & Hf & i & row & v & ?). exists i, row, field, v. tauto.
    + intros (i & row & field & v & ? & ? & ? & ?). exists field. split; [done|].
      exists i, row, v. tauto.
  - intros acc field r0 _ Hin.
    apply (for_each_Returned_inv _
             (λ ir m, ∃ v, rejected ir.2 field v ∧ m = mk (S ir.1) field v)) in Hin.
    + destruct Hin as (added & -> & Hadded). exists added. split; [done|].
      intros m. rewrite Hadded. split.
      * intros ([i row] & Hir%elem_of_enumerate & v & ?). exists i, row, v. tauto.
      * intros (i & row & v & Hi & ?). exists (i, row).
        split; [by apply elem_of_enumerate|]. exists v. tauto.
    + intros acc0 ir r1 _. apply numeric_step_Returned.
Qed.

Lemma numeric_by_row_Returned mk fields data msgs r :
  numeric_by_row mk fields data msgs = Returned r →
  ∃ added, r = msgs ++ added
           ∧ ∀ m, m ∈ added ↔
                  ∃ i row field v, data !! i = Some row ∧ field ∈ fields
                                   ∧ rejected row field v ∧ m = mk (S i) field v.
Proof.
  intros Hr. unfold Sidecar.numeric_by_row in Hr.
  apply (for_each_Returned_inv _
           (λ ir m, ∃ field v, field ∈ fields ∧ rejected ir.2 field v
                               ∧ m = mk (S ir.1) field v)) in Hr.
  - destruct Hr as (added & -> & Hadded). exists added. split; [done|].
    intros m. rewrite Hadded. split.
    + intros ([i row] & Hir%elem_of_enumerate & field & v & ?).
      exists i, row, field, v. tauto.
    + intros (i & row & field & v & Hi & ? & ? & ?). exists (i, row).
      split; [by apply elem_of_enumerate|]. exists field, v. tauto.
  - intros acc ir r0 _ Hin.
    apply (for_each_Returned_inv _
             (λ field m, ∃ v, rejected ir.2 field v ∧ m = mk (S ir.1) field v)) in Hin.
    + destruct Hin as (added & -> & Hadded). exists added. split; [done|].
      intros m. rewrite Hadded. split.
      * intros (field & Hf & v & ?). exists field, v. tauto.
      * intros (field & v & ? & ?). exists field. split; [done|]. exists v. tauto.
    + intros acc0 field r1 _. apply numeric_step_Returned.
Qed.

(** The numeric loops return when no cell that they read stops them. *)
Lemma numeric_by_field_returns mk fields data msgs :
  checked fields data → ∃ r, numeric_by_field mk fields data msgs = Returned r.
Proof.
  intros Hc. unfold Sidecar.numeric_by_field.
  apply for_each_returns. intros acc field Hf.
  apply for_each_returns. intros acc0 [i row] Hir%elem_of_enumerate.
  apply numeric_step_returns. intros v. apply Hc; [|done].
  by eapply list_elem_of_lookup_2.
Qed.

Lemma numeric_by_row_returns mk fields data msgs :
  checked fields data → ∃ r, numeric_by_row mk fields data msgs = Returned r.
Proof.
  intros Hc. unfold Sidecar.numeric_by_row.
  apply for_each_returns. intros acc [i row] Hir%elem_of_enumerate.
  apply for_each_returns. intros acc0 field Hf.
  apply numeric_step_returns. intros v. apply Hc; [|done].
  by eapply list_elem_of_lookup_2.
Qed.

Lemma nonempty_msgs_elem (m : Msg) l : m ∈ l → nonempty_msgs l = true.
Proof. destruct l; [by intros ?%elem_of_nil | done]. Qed.

Lemma nonempty_rows_lookup (data : list (list (string * Value))) i row :
  data !! i = Some row → nonempty_rows (DataRows data) = Some data.
Proof. by destruct data. Qed.

Lemma nonempty_rows_ne (data : list (list (string * Value))) :
  data ≠ [] → nonempty_rows (DataRows data) = Some data.
Proof. by destruct data. Qed.

(** The numeric loops raise [OverflowError] when [float] overflows on a cell
    that they read and every rejected value can be formatted. *)
Lemma numeric_step_overflow mk field ir msgs v :
  Dict.get field ir.2 = Some v → is_na v = false → float v = Overflowed →
  numeric_step mk field ir msgs = Raised OverflowError.
Proof.
  intros Hg Hna Hf. unfold Sidecar.numeric_step.
  by rewrite (numeric_failure_overflowed _ _ _ Hg Hna Hf).
Qed.

Lemma numeric_step_cases mk field ir msgs :
  (∀ v, Dict.get field ir.2 = Some v → is_na v = false → float v = Rejected →
        ∃ s, format_value py_str v = Returned s) →
  (∃ r, numeric_step mk field ir msgs = Returned r)
  ∨ numeric_step mk field ir msgs = Raised OverflowError.
Proof.
  intros H. unfold Sidecar.numeric_step, Sidecar.numeric_failure.
  destruct (Dict.get field ir.2) as [val|]; [|eauto].
  destruct (is_na val) eqn:Ena; [eauto|].
  destruct (float val) eqn:Ef; [eauto| |eauto].
  destruct (H val eq_refl Ena Ef) as [s ->]. eauto.
Qed.

Abbreviation formattable fields data :=
  (∀ row field v, row ∈ data → field ∈ fields →
     Dict.get field row = Some v → is_na v = false → float v = Rejected →
     ∃ s, format_value py_str v = Returned s).

Lemma numeric_by_field_overflow mk fields data msgs row field v :
  formattable fields data →
  row ∈ data → field ∈ fields →
  Dict.get field row = Some v → is_na v = false → float v = Overflowed →
  numeric_by_field mk fields data msgs = Raised OverflowError.
Proof.
  intros Hfmt Hrow Hfield Hg Hna Hf. unfold Sidecar.numeric_by_field.
  apply list_elem_of_lookup_1 in Hrow as [i Hi].
  assert (∀ field' acc,
            field' ∈ fields →
            (∃ r, for_each (λ msgs ir, numeric_step mk field' ir msgs)
                    (enumerate data) acc = Returned r)
            ∨ for_each (λ msgs ir, numeric_step mk field' ir msgs)
                (enumerate data) acc = Raised OverflowError) as Hinner.
  { intros field' acc Hf'.
    destruct (for_each (λ msgs ir, numeric_step mk field' ir msgs) (enumerate data) acc)
      as [r|e] eqn:E; [eauto|]. right. f_equal.
    assert (∀ l acc,
              (∀ ir, ir ∈ l → ir ∈ enumerate data) →
              for_each (λ msgs ir, numeric_step mk field' ir msgs) l acc = Raised e →
              e = OverflowError) as Hgen.
    { clear E acc. induction l as [|ir l IH]; intros acc Hl; cbn [for_each]; [done|].
      destruct (numeric_step_cases mk field' ir acc) as [[r Hr]|Hr].
      - intros v' Hg' Hna' Hf''. destruct ir as [j row'].
        apply (Hfmt row' field' v'); [|done..].
        specialize (Hl (j, row') ltac:(left)). apply elem_of_enumerate in Hl.
        by eapply list_elem_of_lookup_2.
      - rewrite Hr. apply IH. intros ir' Hir'. apply Hl. by right.
      - rewrite Hr. by intros [= <-]. }
    by apply (Hgen (enumerate data) acc). }
  apply (for_each_raises _ fields msgs field OverflowError).
  - intros acc field' Hf'. by apply Hinner.
  - done.
  - intros acc. apply (for_each_raises _ (enumerate data) acc (i, row) OverflowError).
    + intros acc0 [j row'] Hir%elem_of_enumerate. apply numeric_step_cases.
      intros v' Hg' Hna' Hf'. apply (Hfmt row' field v'); [|done..].
      by eapply list_elem_of_lookup_2.
    + by apply elem_of_enumerate.
    + intros acc0. by apply (numeric_step_overflow mk field (i, row) acc0 v).
Qed.

Lemma numeric_by_row_overflow mk fields data msgs row field v :
  formattable fields data →
  row ∈ data → field ∈ fields →
  Dict.get field row = Some v → is_na v = false → float v = Overflowed →
  numeric_by_row mk fields data msgs = Raised OverflowError.
Proof.
  intros Hfmt Hrow Hfield Hg Hna Hf. unfold Sidecar.numeric_by_row.
  apply list_elem_of_lookup_1 in Hrow as [i Hi].
  assert (∀ ir acc,
            ir ∈ enumerate data →
            (∃ r, for_each (λ msgs field, numeric_step mk field ir msgs) fields acc
                  = Returned r)
            ∨ for_each (λ msgs field, numeric_step mk field ir msgs) fields acc
              = Raised OverflowError) as Hinner.
  { intros [j row'] acc Hir%elem_of_enumerate.
    destruct (for_each (λ msgs field, numeric_step mk field (j, row') msgs) fields acc)
      as [r|e] eqn:E; [eauto|]. right. f_equal.
    assert (∀ l acc,
              (∀ f, f ∈ l → f ∈ fields) →
              for_each (λ msgs field, numeric_step mk field (j, row') msgs) l acc
              = Raised e →
              e = OverflowError) as Hgen.
    { clear E acc. induction l as [|f l IH]; intros acc Hl; cbn [for_each]; [done|].
      destruct (numeric_step_cases mk f (j, row') acc) as [[r Hr]|Hr].
      - intros v' Hg' Hna' Hf''. apply (Hfmt row' f v'); [| |done..].
        + by eapply list_elem_of_lookup_2.
        + apply Hl. left.
      - rewrite Hr. apply IH. intros f' Hf'. apply Hl. by right.
      - rewrite Hr. by intros [= <-]. }
    by apply (Hgen fields acc). }
  apply (for_each_raises _ (enumerate data) msgs (i, row) OverflowError).
  - intros acc ir Hir. by apply Hinner.
  - by apply elem_of_enumerate.
  - intros acc. apply (for_each_raises _ fields acc field OverflowError).
    + intros acc0 f Hf0. apply numeric_step_cases.
      intros v' Hg' Hna' Hf'. apply (Hfmt row f v'); [|done..].
      by eapply list_elem_of_lookup_2.
    + done.
    + intros acc0. by apply (numeric_step_overflow mk field (i, row) acc0 v).
Qed.

(** A check of the cells by computation. *)
Lemma checked_by_computation fields (data : list (list (string * Value))) :
  forallb (λ row,
             forallb (λ field,
                        match Dict.get field row with
                        | Some v =>
                            is_na v
                            || match float v with
                               | Converted => true
                               | Rejected => returned (format_value py_str v)
                               | Overflowed => false
                               end
                        | None => true
                        end) fields) data = true →
  checked fields data.
Proof.
  intros H row field v Hrow Hfield Hg Hna.
  rewrite forallb_forall in H. apply list_elem_of_In, H in Hrow.
  rewrite forallb_forall in Hrow. apply list_elem_of_In, Hrow in Hfield.
  rewrite Hg, Hna in Hfield. cbn [orb] in Hfield.
  destruct (float v); [by left| |done]. right. split; [done|].
  destruct (format_value py_str v); [eauto|done].
Qed.

(** ** What the validators return *)

Abbreviation numeric_messages mk fields data added :=
  (∀ m, m ∈ added ↔
        ∃ i row field v, data !! i = Some row ∧ field ∈ fields
                         ∧ rejected row field v ∧ m = mk (S i) field v).

Lemma ChannelsSidecar_validate_Returned self data ok report :
  data ≠ [] →
  ChannelsSidecar_validate float py_str self (Some (DataRows data))
  = Returned (ok, report) →
  let missing := set_diff (REQUIRED_FIELDS Channels) (all_keys data) in
  let extra := set_diff (all_keys data) (known_fields Channels) in
  ok = negb (nonempty missing)
  ∧ errors report = msg_if (nonempty missing) (MissingRequired (sorted missing))
  ∧ (∃ added,
       warnings report
       = (msg_if (nonempty extra) (ExtraFields (sorted extra))
          ++ consistency_warnings (all_keys data) data) ++ added
       ∧ numeric_messages ShouldBeNumeric (numeric_fields Channels) data added)
  ∧ columns report = sorted (all_keys data).
Proof.
  intros Hne. unfold ChannelsSidecar_validate. cbn [default from_option id].
  rewrite (nonempty_rows_ne data Hne).
  destruct (numeric_by_field _ _ _ _) as [r|e] eqn:E; [|done].
  intros [= <- <-]. cbv zeta. cbn [errors warnings columns].
  apply numeric_by_field_Returned in E as (added & -> & Hadded).
  split; [by destruct (nonempty _)|]. split; [done|]. split; [|done].
  exists added. done.
Qed.

Lemma ElectrodesSidecar_validate_Returned self data ok report :
  data ≠ [] →
  ElectrodesSidecar_validate float py_str self (Some (DataRows data))
  = Returned (ok, report) →
  let missing := set_diff (REQUIRED_FIELDS Electrodes) (all_keys data) in
  ok = negb (nonempty_msgs (errors report))
  ∧ (∃ added,
       errors report
       = msg_if (nonempty missing) (MissingRequired (sorted missing)) ++ added
       ∧ numeric_messages MustBeNumeric (numeric_fields Electrodes) data added)
  ∧ columns report = sorted (all_keys data).
Proof.
  intros Hne. unfold ElectrodesSidecar_validate. cbn [default from_option id].
  rewrite (nonempty_rows_ne data Hne).
  destruct (numeric_by_row _ _ _ _) as [r|e] eqn:E; [|done].
  intros [= <- <-]. cbv zeta. cbn [errors warnings columns].
  apply numeric_by_row_Returned in E as (added & -> & Hadded).
  split; [done|]. split; [|done]. exists added. done.
Qed.

Lemma EventsSidecar_validate_Returned self data ok report :
  data ≠ [] →
  EventsSidecar_validate float py_str self (Some (DataRows data))
  = Returned (ok, report) →
  let missing := set_diff (REQUIRED_FIELDS Events) (all_keys data) in
  ok = negb (nonempty_msgs (errors report))
  ∧ (∃ added,
       errors report
       = msg_if (nonempty missing) (MissingRequired (sorted missing)) ++ added
       ∧ numeric_messages MustBeNumeric (numeric_fields Events) data added)
  ∧ columns report = sorted (all_keys data).
Proof.
  intros Hne. unfold EventsSidecar_validate. cbn [default from_option id].
  rewrite (nonempty_rows_ne data Hne).
  destruct (numeric_by_row _ _ _ _) as [r|e] eqn:E; [|done].
  intros [= <- <-]. cbv zeta. cbn [errors warnings columns].
  apply numeric_by_row_Returned in E as (added & -> & Hadded).
  split; [done|]. split; [|done]. exists added. done.
Qed.

Lemma ParticipantsSideCarTSV_validate_Returned self data ok report :
  data ≠ [] →
  ParticipantsSideCarTSV_validate self (Some (DataRows data)) = Returned (ok, report) →
  let missing := set_diff (REQUIRED_FIELDS ParticipantsTSV) (all_keys data) in
  ok = negb (nonempty missing)
  ∧ errors report = msg_if (nonempty missing) (MissingRequired (sorted missing)).
Proof.
  intros Hne. unfold ParticipantsSideCarTSV_validate. cbn [default from_option id].
  rewrite (nonempty_rows_ne data Hne).
  intros [= <- <-]. cbv zeta. cbn [errors]. split; [|done]. by destruct (nonempty _).
Qed.

(** [validate] returns when no cell of a numeric field stops the check. *)
Lemma TSV_validate_returns self (data : list (list (string * Value))) :
  checked (numeric_fields (tkind self)) data →
  ∃ ok report,
    TSV_validate float py_str self (Some (DataRows data)) = Returned (ok, report).
Proof.
  intros Hc. unfold TSV_validate.
  destruct data as [|row0 rest].
  { destruct (tkind self); by eexists _, _. }
  destruct (tkind self);
    [unfold ChannelsSidecar_validate | unfold ElectrodesSidecar_validate
     | unfold EventsSidecar_validate | unfold ParticipantsSideCarTSV_validate];
    cbn [default from_option id nonempty_rows]; cbv zeta.
  - edestruct (numeric_by_field_returns ShouldBeNumeric (numeric_fields Channels)
                 (row0 :: rest)) as [r ->]; [done|]. by eexists _, _.
  - edestruct (numeric_by_row_returns MustBeNumeric (numeric_fields Electrodes)
                 (row0 :: rest)) as [r ->]; [done|]. by eexists _, _.
  - edestruct (numeric_by_row_returns MustBeNumeric (numeric_fields Events)
                 (row0 :: rest)) as [r ->]; [done|]. by eexists _, _.
  - by eexists _, _.
Qed.

(** It raises [OverflowError] when [float] overflows on such a cell and the
    rejected values can be formatted. *)
Lemma TSV_validate_overflow self (data : list (list (string * Value))) row field v :
  formattable (numeric_fields (tkind self)) data →
  row ∈ data → field ∈ numeric_fields (tkind self) →
  Dict.get field row = Some v → is_na v = false → float v = Overflowed →
  TSV_validate float py_str self (Some (DataRows data)) = Raised OverflowError.
Proof.
  intros Hfmt Hrow Hfield Hg Hna Hf. unfold TSV_validate.
  assert (data ≠ []) as Hne by (intros ->; by apply elem_of_nil in Hrow).
  destruct (tkind self);
    [unfold ChannelsSidecar_validate | unfold ElectrodesSidecar_validate
     | unfold EventsSidecar_validate | by apply elem_of_nil in Hfield];
    cbn [default from_option id]; rewrite (nonempty_rows_ne data Hne); cbv zeta.
  - by rewrite (numeric_by_field_overflow _ _ _ _ row field v).
  - by rewrite (numeric_by_row_overflow _ _ _ _ row field v).
  - by rewrite (numeric_by_row_overflow _ _ _ _ row field v).
Qed.

(** With no rows it returns the report of the empty list. *)
Lemma TSV_validate_no_rows self :
  TSV_validate float py_str self (Some (DataRows [])) = Returned empty_report.
Proof. unfold TSV_validate. by destruct (tkind self). Qed.

Lemma TSV_validate_fields self d :
  TSV_validate float py_str self (Some (DataFields d)) = Returned empty_report.
Proof. unfold TSV_validate. by destruct (tkind self). Qed.

End NumericFacts.

(** C6, as stated, fails for the events type: a text that [float] rejects
    in a numeric field of an events row is an error, and validation fails,
    with no warning. *)
Lemma events_non_numeric_value_is_an_error :
  Run.float_of (VStr "soon") = Sidecar.Rejected
  ∧ Sidecar.EventsSidecar_validate Run.float_of Run.str_of (Sidecar.TSV_init Events [])
      (Some (Sidecar.DataRows [[("onset", VStr "soon"); ("duration", VStr "n/a")]]))
    = Sidecar.Returned
        (false,
         Sidecar.MkReport [Sidecar.MustBeNumeric 1 "onset" (VStr "soon")] []
                          ["duration"; "onset"]).
Proof. vm_compute. done. Qed.

(** An int too large for a float in a numeric field: [float] raises
    [OverflowError], which no validator catches, so there is no report. *)
Example validate_raises_on_an_int_too_large :
  Run.float_of (VInt (10 ^ 400)) = Sidecar.Overflowed
  ∧ Sidecar.ChannelsSidecar_validate Run.float_of Run.str_of
      (Sidecar.TSV_init Channels [])
      (Some (Sidecar.DataRows [[("name", VStr "LA01"); ("notch", VInt (10 ^ 400))]]))
    = Sidecar.Raised Sidecar.OverflowError
  ∧ Sidecar.ElectrodesSidecar_validate Run.float_of Run.str_of
      (Sidecar.TSV_init Electrodes [])
      (Some (Sidecar.DataRows [[("name", VStr "LA01"); ("x", VInt (10 ^ 400))]]))
    = Sidecar.Raised Sidecar.OverflowError.
Proof. vm_compute. done. Qed.

(** C6, amended.  In the numeric-field check over a non-empty row list, a
    value outside [{None, "n/a", "N/A"}] that [float] rejects (with
    [TypeError] or [ValueError]) produces, in the report that [validate]
    returns, a warning for the channels type, where the errors are the
    missing required fields alone so that validation can still pass, and
    produces an error, which fails validation, for the electrodes type and
    for the events type.  [validate] does return a report when [float]
    converts or rejects every value that the check reads and the rejected
    ones can be formatted into their message; it raises [OverflowError], and
    returns no report, when [float] overflows on one of them. *)
Theorem non_numeric_value_warning_or_error
    (float : Value → Sidecar.Conversion) (py_str : Value → Sidecar.Outcome string)
    (self : Sidecar.TSVSidecar)
    (data : list (list (string * Value))) (i : nat) (row : list (string * Value))
    (field : string) (v : Value) :
  data !! i = Some row →
  Dict.get field row = Some v →
  Sidecar.is_na v = false →
  float v = Sidecar.Rejected →
  let reads c row' field' v' :=
    row' ∈ data ∧ field' ∈ Sidecar.numeric_fields c
    ∧ Dict.get field' row' = Some v' ∧ Sidecar.is_na v' = false in
  let formatted v' := ∃ s, Sidecar.format_value py_str v' = Sidecar.Returned s in
  let checked c :=
    ∀ row' field' v', reads c row' field' v' →
      float v' = Sidecar.Converted ∨ (float v' = Sidecar.Rejected ∧ formatted v') in
  (field ∈ Sidecar.numeric_fields Channels →
     (checked Channels →
      ∃ ok report,
        Sidecar.ChannelsSidecar_validate float py_str self (Some (Sidecar.DataRows data))
        = Sidecar.Returned (ok, report))
     ∧ ∀ ok report,
         Sidecar.ChannelsSidecar_validate float py_str self (Some (Sidecar.DataRows data))
         = Sidecar.Returned (ok, report) →
         Sidecar.ShouldBeNumeric (S i) field v ∈ Sidecar.warnings report
         ∧ ok = negb (Sidecar.nonempty
                        (Sidecar.set_diff (Sidecar.REQUIRED_FIELDS Channels)
                                          (Sidecar.all_keys data))))
  ∧ (field ∈ Sidecar.numeric_fields Electrodes →
       (checked Electrodes →
        ∃ ok report,
          Sidecar.ElectrodesSidecar_validate float py_str self
            (Some (Sidecar.DataRows data))
          = Sidecar.Returned (ok, report))
       ∧ ∀ ok report,
           Sidecar.ElectrodesSidecar_validate float py_str self
             (Some (Sidecar.DataRows data))
           = Sidecar.Returned (ok, report) →
           Sidecar.MustBeNumeric (S i) field v ∈ Sidecar.errors report ∧ ok = false)
  ∧ (field ∈ Sidecar.numeric_fields Events →
       (checked Events →
        ∃ ok report,
          Sidecar.EventsSidecar_validate float py_str self (Some (Sidecar.DataRows data))
          = Sidecar.Returned (ok, report))
       ∧ ∀ ok report,
           Sidecar.EventsSidecar_validate float py_str self (Some (Sidecar.DataRows data))
           = Sidecar.Returned (ok, report) →
           Sidecar.MustBeNumeric (S i) field v ∈ Sidecar.errors report ∧ ok = false)
  ∧ (∀ row' field' v',
       reads (Sidecar.tkind self) row' field' v' → float v' = Sidecar.Overflowed →
       (∀ row'' field'' v'',
          reads (Sidecar.tkind self) row'' field'' v'' →
          float v'' = Sidecar.Rejected → formatted v'') →
       Sidecar.TSV_validate float py_str self (Some (Sidecar.DataRows data))
       = Sidecar.Raised Sidecar.OverflowError).
Proof.
  intros Hi Hg Hna Hf reads formatted checked. subst reads formatted checked.
  cbv beta.
  assert (data ≠ []) as Hne by (intros ->; done).
  assert (∀ c, (∀ row' field' v',
                  row' ∈ data ∧ field' ∈ Sidecar.numeric_fields c
                  ∧ Dict.get field' row' = Some v' ∧ Sidecar.is_na v' = false →
                  float v' = Sidecar.Converted
                  ∨ float v' = Sidecar.Rejected
                    ∧ ∃ s, Sidecar.format_value py_str v' = Sidecar.Returned s) →
               ∀ self0, Sidecar.tkind self0 = c →
               ∃ ok report,
                 Sidecar.TSV_validate float py_str self0 (Some (Sidecar.DataRows data))
                 = Sidecar.Returned (ok, report)) as Hret.
  { intros c Hc self0 Hk. apply TSV_validate_returns. rewrite Hk.
    intros row' field' v' ? ? ? ?. apply (Hc row' field' v'). done. }
  split; [|split; [|split]].
  - intros Hfield. split.
    + intros Hc.
      destruct (Hret Channels Hc
                  (Sidecar.MkTSV Channels (Sidecar.tdata self) (Sidecar.rows self))
                  eq_refl) as (ok & report & H).
      exists ok, report. exact H.
    + intros ok report Hv.
      destruct (ChannelsSidecar_validate_Returned float py_str self data ok report Hne Hv)
        as (Hok & _ & (added & Hw & Hadded) & _).
      split; [|done]. rewrite Hw, elem_of_app. right. apply Hadded.
      exists i, row, field, v. done.
  - intros Hfield. split.
    + intros Hc.
      destruct (Hret Electrodes Hc
                  (Sidecar.MkTSV Electrodes (Sidecar.tdata self) (Sidecar.rows self))
                  eq_refl) as (ok & report & H).
      exists ok, report. exact H.
    + intros ok report Hv.
      destruct (ElectrodesSidecar_validate_Returned float py_str self data ok report
                  Hne Hv) as (Hok & (added & He & Hadded) & _).
      assert (Sidecar.MustBeNumeric (S i) field v ∈ Sidecar.errors report) as Hin.
      { rewrite He, elem_of_app. right. apply Hadded. exists i, row, field, v. done. }
      split; [done|]. by rewrite Hok, (nonempty_msgs_elem _ _ Hin).
  - intros Hfield. split.
    + intros Hc.
      destruct (Hret Events Hc
                  (Sidecar.MkTSV Events (Sidecar.tdata self) (Sidecar.rows self))
                  eq_refl) as (ok & report & H).
      exists ok, report. exact H.
    + intros ok report Hv.
      destruct (EventsSidecar_validate_Returned float py_str self data ok report Hne Hv)
        as (Hok & (added & He & Hadded) & _).
      assert (Sidecar.MustBeNumeric (S i) field v ∈ Sidecar.errors report) as Hin.
      { rewrite He, elem_of_app. right. apply Hadded. exists i, row, field, v. done. }
      split; [done|]. by rewrite Hok, (nonempty_msgs_elem _ _ Hin).
  - intros row' field' v' (Hrow' & Hfield' & Hg' & Hna') Hover Hfmt.
    apply (TSV_validate_overflow float py_str self data row' field' v'); [|done..].
    intros row'' field'' v'' ? ? ? ? ?. by apply (Hfmt row'' field'' v'').
Qed.

(** Runs of the amended claim, one per type: the text ["fast"] in a numeric
    field of the first row. *)
Lemma non_numeric_value_warning_or_error_witness :
  (∃ ok report,
     Sidecar.ChannelsSidecar_validate Run.float_of Run.str_of
       (Sidecar.TSV_init Channels [])
       (Some (Sidecar.DataRows [[("name", VStr "LA01"); ("notch", VStr "fast")]]))
     = Sidecar.Returned (ok, report)
     ∧ Sidecar.ShouldBeNumeric 1 "notch" (VStr "fast") ∈ Sidecar.warnings report
     ∧ ok = negb (Sidecar.nonempty
                    (Sidecar.set_diff (Sidecar.REQUIRED_FIELDS Channels)
                       (Sidecar.all_keys
                          [[("name", VStr "LA01"); ("notch", VStr "fast")]]))))
  ∧ (∃ ok report,
       Sidecar.ElectrodesSidecar_validate Run.float_of Run.str_of
         (Sidecar.TSV_init Electrodes [])
         (Some (Sidecar.DataRows [[("name", VStr "LA01"); ("x", VStr "fast")]]))
       = Sidecar.Returned (ok, report)
       ∧ Sidecar.MustBeNumeric 1 "x" (VStr "fast") ∈ Sidecar.errors report
       ∧ ok = false)
  ∧ (∃ ok report,
       Sidecar.EventsSidecar_validate Run.float_of Run.str_of
         (Sidecar.TSV_init Events [])
         (Some (Sidecar.DataRows [[("onset", VStr "fast")]]))
       = Sidecar.Returned (ok, report)
       ∧ Sidecar.MustBeNumeric 1 "onset" (VStr "fast") ∈ Sidecar.errors report
       ∧ ok = false).
Proof.
  split; [|split].
  - destruct (proj1 (non_numeric_value_warning_or_error Run.float_of Run.str_of
                       (Sidecar.TSV_init Channels [])
                       [[("name", VStr "LA01"); ("notch", VStr "fast")]] 0
                       [("name", VStr "LA01"); ("notch", VStr "fast")] "notch"
                       (VStr "fast") eq_refl eq_refl eq_refl eq_refl))
      as [Hreturns Hreport].
    { apply (bool_decide_unpack _). vm_compute. exact I. }
    destruct Hreturns as (ok & report & Hv).
    { intros row' field' v' (Hrow & Hfield & Hget & Hna).
      apply (checked_by_computation Run.float_of Run.str_of
               (Sidecar.numeric_fields Channels)
               [[("name", VStr "LA01"); ("notch", VStr "fast")]] eq_refl
               row' field' v' Hrow Hfield Hget Hna). }
    exists ok, report. split; [exact Hv|]. exact (Hreport ok report Hv).
  - destruct (proj1 (proj2 (non_numeric_value_warning_or_error Run.float_of Run.str_of
                       (Sidecar.TSV_init Electrodes [])
                       [[("name", VStr "LA01"); ("x", VStr "fast")]] 0
                       [("name", VStr "LA01"); ("x", VStr "fast")] "x"
                       (VStr "fast") eq_refl eq_refl eq_refl eq_refl)))
      as [Hreturns Hreport].
    { apply (bool_decide_unpack _). vm_compute. exact I. }
    destruct Hreturns as (ok & report & Hv).
    { intros row' field' v' (Hrow & Hfield & Hget & Hna).
      apply (checked_by_computation Run.float_of Run.str_of
               (Sidecar.numeric_fields Electrodes)
               [[("name", VStr "LA01"); ("x", VStr "fast")]] eq_refl
               row' field' v' Hrow Hfield Hget Hna). }
    exists ok, report. split; [exact Hv|]. exact (Hreport ok report Hv).
  - destruct (proj1 (proj2 (proj2 (non_numeric_value_warning_or_error
                       Run.float_of Run.str_of
                       (Sidecar.TSV_init Events [])
                       [[("onset", VStr "fast")]] 0
                       [("onset", VStr "fast")] "onset"
                       (VStr "fast") eq_refl eq_refl eq_refl eq_refl))))
      as [Hreturns Hreport].
    { apply (bool_decide_unpack _). vm_compute. exact I. }
    destruct Hreturns as (ok & report & Hv).
    { intros row' field' v' (Hrow & Hfield & Hget & Hna).
      apply (checked_by_computation Run.float_of Run.str_of
               (Sidecar.numeric_fields Events)
               [[("onset", VStr "fast")]] eq_refl
               row' field' v' Hrow Hfield Hget Hna). }
    exists ok, report. split; [exact Hv|]. exact (Hreport ok report Hv).
Defined.
(** ** Sets of field names and the TSV writer *)

Section WriterFacts.
Import Sidecar.

Lemma elem_of_set_diff x a b : x ∈ set_diff a b ↔ x ∈ a ∧ x ∉ b.
Proof.
  unfold set_diff. rewrite list_elem_of_filter, elem_of_remove_dups. tauto.
Qed.

Lemma set_diff_empty a b : nonempty (set_diff a b) = false ↔ ∀ x, x ∈ a → x ∈ b.
Proof.
  split.
  - intros H x Hx. destruct (decide (x ∈ b)) as [|Hn]; [done|].
    assert (x ∈ set_diff a b) as Hin by by apply elem_of_set_diff.
    destruct (set_diff a b); [by apply elem_of_nil in Hin | done].
  - intros H. destruct (set_diff a b) as [|x l] eqn:E; [done|].
    assert (x ∈ set_diff a b) as [Hx Hn]%elem_of_set_diff by (rewrite E; left).
    by apply H in Hx.
Qed.

Lemma elem_of_all_keys k (data : list (list (string * Value))) :
  k ∈ all_keys data ↔ ∃ row, row ∈ data ∧ k ∈ Dict.keys row.
Proof.
  unfold all_keys. rewrite elem_of_remove_dups, list_elem_of_In, in_concat.
  split.
  - intros (ks & Hks & Hk). apply list_elem_of_In, list_elem_of_fmap in Hks.
    destruct Hks as (row & -> & Hrow). exists row. split; [done|].
    by apply list_elem_of_In.
  - intros (row & Hrow & Hk). exists (Dict.keys row).
    rewrite <- !list_elem_of_In. split; [|done].
    apply list_elem_of_fmap. eauto.
Qed.

Lemma elem_of_sorted x a : x ∈ sorted a ↔ x ∈ a.
Proof. unfold sorted. by rewrite merge_sort_Permutation, elem_of_remove_dups. Qed.



Lemma NoDup_set_diff a b : NoDup (set_diff a b).
Proof. unfold set_diff. apply NoDup_filter, NoDup_remove_dups. Qed.

Variable py_str : Value → Outcome string.

Abbreviation cell_text := (cell_text py_str).
Abbreviation cell_texts := (cell_texts py_str).
Abbreviation writerow := (writerow py_str).
Abbreviation writerows := (writerows py_str).



Lemma writerow_returns cells :
  Forall (λ v, ∃ s, cell_text v = Returned s) cells →
  ∃ line, writerow cells = Returned line.
Proof.
  intros H. unfold Sidecar.writerow.
  assert (∃ texts, cell_texts cells = Returned texts) as [texts ->]; [|eauto].
  induction H as [|v cells [s Hs] _ [texts IH]]; cbn [Sidecar.cell_texts]; [eauto|].
  rewrite Hs, IH. eauto.
Qed.

(** The cells of a row have a text when its values have one. *)
Lemma row_cells_have_text fieldnames (row : list (string * Value)) :
  (∀ k v, Dict.get k row = Some v → ∃ s, cell_text v = Returned s) →
  Forall (λ v, ∃ s, cell_text v = Returned s) (row_cells fieldnames row).
Proof.
  intros H. unfold row_cells. apply Forall_fmap, Forall_forall. intros k _.
  cbn [compose]. destruct (Dict.get k row) as [v|] eqn:E; cbn [default from_option id].
  - by apply (H k).
  - by exists "".
Qed.

(** When every key of every row is a column and every value has a text,
    [writerows] writes one line per row, in row order, and raises nothing. *)
Lemma writerows_all fieldnames (data : list (list (string * Value))) written :
  Forall (λ row, ∀ k, k ∈ Dict.keys row → k ∈ fieldnames) data →
  (∀ row k v, row ∈ data → Dict.get k row = Some v →
              ∃ s, cell_text v = Returned s) →
  ∃ lines,
    writerows fieldnames data written = (written ++ lines, None)
    ∧ Forall2 (λ row line, writerow (row_cells fieldnames row) = Returned line)
              data lines.
Proof.
  intros H. revert written.
  induction H as [|row data Hrow _ IH]; intros written Htext; cbn [Sidecar.writerows].
  - exists []. split; [by rewrite app_nil_r|constructor].
  - unfold dict_to_list.
    rewrite (proj2 (set_diff_empty (Dict.keys row) fieldnames)) by done.
    destruct (writerow_returns (row_cells fieldnames row)) as [line Hline].
    { apply row_cells_have_text. intros k v. apply Htext. left. }
    rewrite Hline.
    destruct (IH (written ++ [line])) as (lines & -> & Hlines).
    { intros row' k v Hrow'. apply Htext. by right. }
    exists (line :: lines). split; [by rewrite <- app_assoc|]. by constructor.
Qed.

(** A check of the values by computation. *)
Lemma have_text_by_computation (data : list (list (string * Value))) :
  forallb (λ row, forallb (λ kv : string * Value, returned (cell_text kv.2)) row) data
  = true →
  ∀ row k v, row ∈ data → Dict.get k row = Some v → ∃ s, cell_text v = Returned s.
Proof.
  intros H row k v Hrow Hg. rewrite forallb_forall in H.
  apply list_elem_of_In, H in Hrow. rewrite forallb_forall in Hrow.
  assert ((k, v) ∈ row) as Hin.
  { clear Hrow. induction row as [|[k' v'] row IH]; [done|]. cbn [Dict.get] in Hg.
    destruct (Dict.get k row) as [w|] eqn:E.
    - right. apply IH. congruence.
    - destruct (decide (k = k')) as [->|]; [|done]. injection Hg as ->. left. }
  apply list_elem_of_In, Hrow in Hin. cbn [snd] in Hin.
  destruct (cell_text v); [eauto|done].
Qed.


Lemma str_chars s : str (chars s) = s.
Proof. apply String.string_of_list_ascii_of_string. Qed.

Lemma chars_str l : chars (str l) = l.
Proof. apply String.list_ascii_of_string_of_list_ascii. Qed.





(** The header of [ChannelsSidecar.save] has every key of every row. *)
Lemma channels_fieldnames_covers (data : list (list (string * Value))) k :
  data ≠ [] → k ∈ channels_fieldnames data ↔ k ∈ all_keys data.
Proof.
  intros Hne. unfold channels_fieldnames. destruct data as [|row0 rest]; [done|].
  rewrite elem_of_app, elem_of_sorted, elem_of_set_diff.
  rewrite (list_elem_of_In (List.filter _ _) k), filter_In, <- list_elem_of_In.
  rewrite bool_decide_eq_true.
  destruct (decide (k ∈ COLUMN_ORDER)); tauto.
Qed.

End WriterFacts.

(** ** Saving TSV sidecars *)

Section SaveFacts.
Import Sidecar.

Variable float : Value → Conversion.
Variable py_str : Value → Outcome string.
Variable os_makedirs : string → option Exn.
Variable os_open : string → option Exn.

Lemma chars_app a b : chars (a +:+ b) = chars a ++ chars b.
Proof. unfold chars. induction a as [|c a IH]; simpl; [done|]. by rewrite IH. Qed.

Lemma path_join_has_slash a b : a ≠ "" → slash ∈ chars (path_join a b).
Proof.
  intros Ha. unfold path_join.
  destruct (startswith_slash b) eqn:Hb.
  - unfold startswith_slash in Hb. destruct (chars b) as [|c r]; [done|].
    apply bool_decide_eq_true in Hb as ->. left.
  - rewrite bool_decide_eq_false_2 by done. simpl.
    destruct (endswith_slash a) eqn:He.
    + rewrite chars_app, elem_of_app. left.
      unfold endswith_slash in He. destruct (last (chars a)) as [c|] eqn:El; [|done].
      apply bool_decide_eq_true in He as ->.
      apply last_Some in El as [l' ->]. rewrite elem_of_app. right. left.
    + rewrite !chars_app, !elem_of_app. right. left. left.
Qed.

(** A path that ends with a file name ends as the file name does. *)
Lemma path_join_ends a b :
  b ≠ "" → endswith_slash (path_join a b) = endswith_slash b.
Proof.
  intros Hb.
  assert (chars b ≠ []) as Hne.
  { intros E. apply Hb. by rewrite <- (str_chars b), E. }
  assert (∀ x y, chars y ≠ [] → endswith_slash (x +:+ y) = endswith_slash y) as Happ.
  { intros x y Hy. unfold endswith_slash. rewrite chars_app, last_app.
    destruct (last (chars y)) eqn:E; [done|]. by apply last_None in E. }
  unfold path_join. destruct (startswith_slash b); [done|].
  destruct (_ || _); [by apply Happ|].
  rewrite Happ by (rewrite chars_app; by destruct (chars "/")).
  by apply Happ.
Qed.

(** ** The directory part of a path *)

Lemma head_of_nil l : head_of l = [] ↔ slash ∉ l.
Proof.
  induction l as [|c l IH]; cbn [head_of].
  - split; [intros _; apply not_elem_of_nil|done].
  - rewrite not_elem_of_cons. destruct (head_of l) as [|h hs].
    + case_bool_decide as Hc; split; try done.
      * intros [? _]. congruence.
      * intros _. split; [congruence|]. by apply IH.
    + split; [done|]. intros [_ Hl]. by apply IH in Hl.
Qed.

Lemma rstrip_slash_nil l :
  rstrip_slash l = [] → forallb (λ c, bool_decide (c = slash)) l = true.
Proof.
  induction l as [|c l IH]; cbn [rstrip_slash forallb]; [done|].
  destruct (rstrip_slash l) as [|r rs]; [|done].
  case_bool_decide; [|done]. intros _. by rewrite IH.
Qed.

Lemma str_nil l : str l = "" ↔ l = [].
Proof.
  split; [|by intros ->]. intros H. by rewrite <- (chars_str l), H.
Qed.

(** The directory part is empty exactly when the path has no slash. *)
Lemma dirname_empty path : dirname path = "" ↔ slash ∉ chars path.
Proof.
  unfold dirname. cbv zeta. rewrite <- head_of_nil.
  destruct (forallb _ (head_of (chars path))) eqn:E.
  - apply str_nil.
  - rewrite str_nil. split.
    + intros H%rstrip_slash_nil. congruence.
    + intros H. by rewrite H in E.
Qed.

Abbreviation makedirs_dirname := (makedirs_dirname os_makedirs).

Lemma makedirs_dirname_returns path :
  slash ∈ chars path → os_makedirs (dirname path) = None →
  makedirs_dirname path = Returned tt.
Proof.
  intros Hs Hm. unfold Sidecar.makedirs_dirname. cbv zeta.
  rewrite bool_decide_eq_false_2 by (by rewrite dirname_empty; intros ?).
  by rewrite Hm.
Qed.

Lemma makedirs_dirname_raises path e :
  slash ∈ chars path → os_makedirs (dirname path) = Some e →
  makedirs_dirname path = Raised e.
Proof.
  intros Hs Hm. unfold Sidecar.makedirs_dirname. cbv zeta.
  rewrite bool_decide_eq_false_2 by (by rewrite dirname_empty; intros ?).
  by rewrite Hm.
Qed.

Lemma makedirs_dirname_no_slash path :
  slash ∉ chars path → makedirs_dirname path = Raised FileNotFoundError.
Proof.
  intros Hs. unfold Sidecar.makedirs_dirname. cbv zeta.
  by rewrite bool_decide_eq_true_2 by (by apply dirname_empty).
Qed.

(** The path that [Sidecar.save] writes to has a directory part and ends
    with the file name of the class. *)
Lemma base_save_path (odir : option string) (c : TSVKind) :
  let path := path_join (match odir with
                         | Some d => if bool_decide (d = "") then "output/json" else d
                         | None => "output/json"
                         end) (tsv_filename c) in
  slash ∈ chars path ∧ endswith_slash path = false.
Proof.
  intros path. split.
  - apply path_join_has_slash. destruct odir as [d|]; [|done]. by case_bool_decide.
  - unfold path. rewrite path_join_ends by (by destruct c). by destruct c.
Qed.

(** ** The validation step of [save] *)

Abbreviation TSV_validate := (TSV_validate float py_str).
Abbreviation TSV_validate_step := (TSV_validate_step float py_str).

Lemma TSV_validate_step_Returned self data w ok report :
  TSV_validate self (Some data) = Returned (ok, report) →
  TSV_validate_step self true data w
  = (Returned tt,
     if ok then w else emit WARNING (ValidationFailedWith (length (errors report))) w).
Proof. intros H. unfold Sidecar.TSV_validate_step. by rewrite H. Qed.

Lemma TSV_validate_step_Raised self data w e :
  TSV_validate self (Some data) = Raised e →
  TSV_validate_step self true data w = (Raised e, w).
Proof. intros H. unfold Sidecar.TSV_validate_step. by rewrite H. Qed.

(** The validation step touches no file, and when it returns it has added to
    the log one warning if validation was asked for and failed, nothing
    otherwise. *)
Lemma TSV_validate_step_effect self validate data w o w1 :
  TSV_validate_step self validate data w = (o, w1) →
  files w1 = files w
  ∧ ((∃ e, o = Raised e ∧ w1 = w ∧ validate = true
           ∧ TSV_validate self (Some data) = Raised e)
     ∨ (o = Returned tt ∧ validate = false ∧ w1 = w)
     ∨ (∃ ok report,
          o = Returned tt ∧ validate = true
          ∧ TSV_validate self (Some data) = Returned (ok, report)
          ∧ w1 = if ok then w
                 else emit WARNING (ValidationFailedWith (length (errors report))) w)).
Proof.
  unfold Sidecar.TSV_validate_step. destruct validate.
  - destruct (TSV_validate self (Some data)) as [[ok report]|e] eqn:E.
    + intros [= <- <-]. split; [by destruct ok|]. right. right.
      exists ok, report. done.
    + intros [= <- <-]. split; [done|]. left. exists e. done.
  - intros [= <- <-]. split; [done|]. right. left. done.
Qed.

(** With no rows validation fails without reading any value, so the step
    returns. *)
Lemma TSV_validate_step_no_rows self validate w :
  TSV_validate_step self validate (DataRows []) w
  = (Returned tt, if validate then emit WARNING (ValidationFailedWith 1) w else w).
Proof.
  unfold Sidecar.TSV_validate_step. destruct validate; [|done].
  by rewrite TSV_validate_no_rows.
Qed.

(** ** Writing *)

Abbreviation cell_text := (cell_text py_str).
Abbreviation writerow := (writerow py_str).
Abbreviation write_tsv := (write_tsv py_str os_open).

Lemma write_tsv_returns path fieldnames (data : list (list (string * Value))) w :
  endswith_slash path = false → os_open path = None →
  Forall (λ row, ∀ k, k ∈ Dict.keys row → k ∈ fieldnames) data →
  (∀ row k v, row ∈ data → Dict.get k row = Some v →
              ∃ s, cell_text v = Returned s) →
  ∃ lines,
    write_tsv path fieldnames data w
    = (Returned tt, put_file path (TSVFile (csv_line fieldnames :: lines)) w)
    ∧ Forall2 (λ row line, writerow (row_cells fieldnames row) = Returned line)
              data lines.
Proof.
  intros Hend Hopen Hkeys Htext. unfold Sidecar.write_tsv, open_w.
  rewrite Hend, Hopen.
  destruct (writerows_all py_str fieldnames data [csv_line fieldnames] Hkeys Htext)
    as (lines & -> & Hlines).
  exists lines. done.
Qed.

Lemma write_tsv_not_opened path fieldnames data w e :
  open_w os_open path = Some e → write_tsv path fieldnames data w = (Raised e, w).
Proof. intros H. unfold Sidecar.write_tsv. by rewrite H. Qed.

Abbreviation ChannelsSidecar_save :=
  (ChannelsSidecar_save float py_str os_makedirs os_open).
Abbreviation Sidecar_save_tsv := (Sidecar_save_tsv float py_str os_makedirs os_open).
Abbreviation TSV_save := (TSV_save float py_str os_makedirs os_open).

(** The path that [ChannelsSidecar.save] writes to. *)
Abbreviation channels_path self output_path kw :=
  (match output_path with
   | Some p => p
   | None => path_join (default "output/tsv" (kw_output_dir kw))
                       (tsv_filename (tkind self))
   end).

(** [ChannelsSidecar.save] returns and writes when validation, if asked for,
    has returned, the directory of the path can be made, the path does not
    end with a slash and can be opened, and every value has a text. *)
Lemma ChannelsSidecar_save_returns self output_path kw w w1 :
  let data := default (rows self) (kw_data kw) in
  let path := channels_path self output_path kw in
  TSV_validate_step self (kw_validate kw) (DataRows data) w = (Returned tt, w1) →
  slash ∈ chars path → os_makedirs (dirname path) = None →
  endswith_slash path = false → os_open path = None →
  (∀ row k v, row ∈ data → Dict.get k row = Some v →
              ∃ s, cell_text v = Returned s) →
  ∃ lines,
    ChannelsSidecar_save self output_path kw w
    = (Returned path,
       emit INFO (SavedRows (length data) path)
         (put_file path (TSVFile (csv_line (channels_fieldnames data) :: lines)) w1))
    ∧ Forall2 (λ row line,
                 writerow (row_cells (channels_fieldnames data) row) = Returned line)
              data lines.
Proof.
  intros data path Hstep Hslash Hmk Hend Hopen Htext.
  unfold Sidecar.ChannelsSidecar_save. fold data. rewrite Hstep. fold path.
  rewrite makedirs_dirname_returns by done.
  destruct (write_tsv_returns path (channels_fieldnames data) data w1 Hend Hopen)
    as (lines & -> & Hlines); [|done|by exists lines].
  apply Forall_forall. intros row Hrow k Hk.
  assert (data ≠ []) as Hne by (intros E; rewrite E in Hrow; by apply elem_of_nil in Hrow).
  apply channels_fieldnames_covers; [done|].
  apply elem_of_all_keys. eauto.
Qed.

(** It raises, and writes nothing, when validation raises, when the path has
    no directory part, when the directory cannot be made, and when the file
    cannot be opened. *)
Lemma ChannelsSidecar_save_raises self output_path kw w :
  let data := default (rows self) (kw_data kw) in
  let path := channels_path self output_path kw in
  (∀ e w1,
     TSV_validate_step self (kw_validate kw) (DataRows data) w = (Raised e, w1) →
     ChannelsSidecar_save self output_path kw w = (Raised e, w1))
  ∧ (∀ w1,
       TSV_validate_step self (kw_validate kw) (DataRows data) w = (Returned tt, w1) →
       (slash ∉ chars path →
        ChannelsSidecar_save self output_path kw w = (Raised FileNotFoundError, w1))
       ∧ (∀ e, slash ∈ chars path → os_makedirs (dirname path) = Some e →
               ChannelsSidecar_save self output_path kw w = (Raised e, w1))
       ∧ (∀ e, slash ∈ chars path → os_makedirs (dirname path) = None →
               open_w os_open path = Some e →
               ChannelsSidecar_save self output_path kw w = (Raised e, w1))).
Proof.
  intros data path. split.
  - intros e w1 Hstep. unfold Sidecar.ChannelsSidecar_save. fold data. by rewrite Hstep.
  - intros w1 Hstep. split; [|split].
    + intros Hs. unfold Sidecar.ChannelsSidecar_save. fold data. rewrite Hstep.
      fold path. by rewrite makedirs_dirname_no_slash.
    + intros e Hs Hm. unfold Sidecar.ChannelsSidecar_save. fold data. rewrite Hstep.
      fold path. by rewrite (makedirs_dirname_raises path e).
    + intros e Hs Hm Ho. unfold Sidecar.ChannelsSidecar_save. fold data.
      rewrite Hstep. fold path. rewrite makedirs_dirname_returns by done.
      by rewrite (write_tsv_not_opened path _ _ _ e).
Qed.

(** The path that [Sidecar.save] writes to, for a TSV class. *)
Abbreviation base_path self kw :=
  (path_join (match kw_output_dir kw with
              | Some d => if bool_decide (d = "") then "output/json" else d
              | None => "output/json"
              end) (tsv_filename (tkind self))).

Abbreviation base_data self kw :=
  (match kw_data kw with
   | Some rs => DataRows rs
   | None => DataFields (tdata self)
   end).

(** [Sidecar.save] on a TSV sidecar returns and writes when it is given rows
    whose keys all occur in the first row, validation, if asked for, has
    returned, the directory can be made, the file can be opened and every
    value has a text. *)
Lemma Sidecar_save_tsv_returns self kw w w1 row0 rest :
  let path := base_path self kw in
  kw_data kw = Some (row0 :: rest) →
  Forall (λ row, ∀ k, k ∈ Dict.keys row → k ∈ Dict.keys row0) rest →
  TSV_validate_step self (kw_validate kw) (DataRows (row0 :: rest)) w
  = (Returned tt, w1) →
  os_makedirs (dirname path) = None → os_open path = None →
  (∀ row k v, row ∈ row0 :: rest → Dict.get k row = Some v →
              ∃ s, cell_text v = Returned s) →
  ∃ lines,
    Sidecar_save_tsv self kw w
    = (Returned path,
       emit INFO (Saved path)
         (emit DEBUG (WroteTSV path)
            (put_file path (TSVFile (csv_line (Dict.keys row0) :: lines)) w1)))
    ∧ Forall2 (λ row line, writerow (row_cells (Dict.keys row0) row) = Returned line)
              (row0 :: rest) lines.
Proof.
  intros path Hdata Hkeys Hstep Hmk Hopen Htext.
  destruct (base_save_path (kw_output_dir kw) (tkind self)) as [Hslash Hend].
  cbv zeta in Hslash, Hend.
  unfold Sidecar.Sidecar_save_tsv. rewrite Hdata, Hstep. fold path.
  rewrite makedirs_dirname_returns by done.
  unfold TSVSidecar_write_data. cbv beta iota zeta.
  destruct (write_tsv_returns path (Dict.keys row0) (row0 :: rest) w1 Hend Hopen)
    as (lines & -> & Hlines); [by constructor|done|by exists lines].
Qed.

(** [Sidecar.save] on a TSV sidecar raises, before any file is opened, when
    the rows it is given are empty, or when it is given none and falls back
    on the empty [self.data]: a failure to make the directory comes first,
    the [ValueError] of the writer otherwise. *)
Lemma Sidecar_save_tsv_raises self kw w :
  kw_data kw = Some [] ∨ (kw_data kw = None ∧ tdata self = []) →
  let path := base_path self kw in
  let w1 := if kw_validate kw
            then emit WARNING (ValidationFailedWith 1) w else w in
  ∃ e,
    Sidecar_save_tsv self kw w = (Raised e, w1)
    ∧ match os_makedirs (dirname path) with
      | Some e' => e = e'
      | None => e = ValueError NoDataProvided
      end.
Proof.
  intros H path w1.
  destruct (base_save_path (kw_output_dir kw) (tkind self)) as [Hslash Hend].
  cbv zeta in Hslash, Hend.
  assert (Sidecar.TSV_validate_step float py_str self (kw_validate kw)
            (base_data self kw) w = (Returned tt, w1)) as Hstep.
  { unfold Sidecar.TSV_validate_step, w1. destruct (kw_validate kw); [|done].
    destruct H as [-> | [-> ->]].
    - by rewrite TSV_validate_no_rows.
    - by rewrite TSV_validate_fields. }
  unfold Sidecar.Sidecar_save_tsv. rewrite Hstep. fold path.
  destruct (os_makedirs (dirname path)) as [e'|] eqn:Em.
  - exists e'. by rewrite (makedirs_dirname_raises path e').
  - exists (ValueError NoDataProvided). rewrite makedirs_dirname_returns by done.
    destruct H as [-> | [-> ->]]; done.
Qed.

(** The TSV classes other than the channels one inherit [Sidecar.save]. *)
Lemma TSV_save_inherited self output_path kw w :
  tkind self ≠ Channels →
  TSV_save self output_path kw w = Sidecar_save_tsv self kw w.
Proof. unfold Sidecar.TSV_save. by destruct (tkind self). Qed.

Lemma TSV_save_channels self output_path kw w :
  tkind self = Channels →
  TSV_save self output_path kw w = ChannelsSidecar_save self output_path kw w.
Proof. unfold Sidecar.TSV_save. by intros ->. Qed.

End SaveFacts.

(** ** C7: the header and the lines of a written TSV file *)




(** The file of that scenario: the header in the declared order, and
    [units], [low_cutoff] and [notch] filled from the defaults. *)
Example channels_scenario_file :
  Sidecar.files
    (Sidecar.TSV_save Run.float_of Run.str_of Run.makedirs_ok Run.open_ok
       (Sidecar.TSV_init Channels
          [[("name", VStr "LA01"); ("type", VStr "SEEG");
            ("high_cutoff", VFloat "0.01"); ("reference", VStr "LE10");
            ("ground", VStr "RF6"); ("group", VStr "LA");
            ("sampling_frequency", VInt 256)]])
       (Some "out/channels.tsv")
       (Sidecar.MkSaveKw None false None) (Sidecar.MkWorld ∅ [])).2
  !! "out/channels.tsv"
  = Some (Sidecar.TSVFile
            [Sidecar.csv_line
               ["name"; "type"; "units"; "low_cutoff"; "high_cutoff"; "reference";
                "ground"; "group"; "sampling_frequency"; "notch"];
             Sidecar.csv_line
               ["LA01"; "SEEG"; "uV"; "n/a"; "0.01"; "LE10"; "RF6"; "LA"; "256"; "n/a"]]).
Proof. vm_compute. reflexivity. Qed.

(** A text that holds a tab or a quote is written between quotes, with its
    quotes doubled. *)
Example csv_line_quotes :
  Sidecar.chars (Sidecar.csv_line ["a"; Sidecar.str [Sidecar.tab]; "b"])
  = [ "a"%char; Sidecar.tab; Sidecar.dquote; Sidecar.tab; Sidecar.dquote;
      Sidecar.tab; "b"%char ]
  ∧ Sidecar.chars (Sidecar.csv_line [Sidecar.str ["x"%char; Sidecar.dquote]; "y"])
    = [ Sidecar.dquote; "x"%char; Sidecar.dquote; Sidecar.dquote; Sidecar.dquote;
        Sidecar.tab; "y"%char ].
Proof. vm_compute. done. Qed.

(** ** C8: writing with no rows *)

(** C8, as stated, fails for the channels sidecar: with no rows its [save]
    raises nothing, writes the file with the declared header and no other
    line, and returns the path. *)
Lemma channels_save_without_rows_writes_header_only :
  let self := Sidecar.TSV_init Channels [] in
  let result := Sidecar.TSV_save Run.float_of Run.str_of Run.makedirs_ok Run.open_ok
                  self (Some "out/channels.tsv")
                  (Sidecar.MkSaveKw None false None) (Sidecar.MkWorld ∅ []) in
  Sidecar.rows self = []
  ∧ result.1 = Sidecar.Returned "out/channels.tsv"
  ∧ Sidecar.files result.2 !! "out/channels.tsv"
    = Some (Sidecar.TSVFile [Sidecar.csv_line Sidecar.COLUMN_ORDER]).
Proof. vm_compute. done. Qed.

(** C8, amended.  [TSVSidecar.write_data] given an empty row sequence raises
    and produces no file, and so does [save] of every TSV sidecar that
    inherits it (electrodes, events, participants): the files are those from
    before the call, and the error is the [ValueError] of the writer unless
    making the directory has failed before.  The channels sidecar has a
    [save] of its own, which with an empty row sequence raises only where the
    file cannot be made: [FileNotFoundError] on an output path with no
    directory part, [IsADirectoryError] on a path that ends with a slash,
    and what making the directory or opening the file raises; otherwise it
    writes a file holding the header line of [COLUMN_ORDER] and no other
    line, and returns its path. *)
Theorem write_with_no_rows
    (float : Value → Sidecar.Conversion) (py_str : Value → Sidecar.Outcome string)
    (os_makedirs os_open : string → option Sidecar.Exn)
    (self : Sidecar.TSVSidecar)
    (output_path : option string) (kw : Sidecar.SaveKw) (w : Sidecar.World) :
  let save := Sidecar.TSV_save float py_str os_makedirs os_open self output_path kw in
  (∀ file_path,
     Sidecar.TSVSidecar_write_data py_str os_open file_path (Sidecar.DataRows []) w
     = (Sidecar.Raised (Sidecar.ValueError Sidecar.NoDataProvided), w))
  ∧ (Sidecar.tkind self ≠ Channels → Sidecar.kw_data kw = Some [] →
     ∃ e w',
       save w = (Sidecar.Raised e, w')
       ∧ Sidecar.files w' = Sidecar.files w
       ∧ (os_makedirs
            (Sidecar.dirname
               (Sidecar.path_join
                  (match Sidecar.kw_output_dir kw with
                   | Some d => if bool_decide (d = "") then "output/json" else d
                   | None => "output/json"
                   end) (Sidecar.tsv_filename (Sidecar.tkind self)))) = None →
          e = Sidecar.ValueError Sidecar.NoDataProvided))
  ∧ (Sidecar.tkind self = Channels →
     default (Sidecar.rows self) (Sidecar.kw_data kw) = [] →
     ∀ path,
       path = match output_path with
              | Some p => p
              | None => Sidecar.path_join (default "output/tsv" (Sidecar.kw_output_dir kw))
                                          (Sidecar.tsv_filename (Sidecar.tkind self))
              end →
       (Sidecar.slash ∈ Sidecar.chars path →
        os_makedirs (Sidecar.dirname path) = None →
        Sidecar.endswith_slash path = false →
        os_open path = None →
        ∃ w', save w = (Sidecar.Returned path, w')
              ∧ Sidecar.files w'
                = <[path := Sidecar.TSVFile [Sidecar.csv_line Sidecar.COLUMN_ORDER]]>
                    (Sidecar.files w))
       ∧ (Sidecar.slash ∉ Sidecar.chars path →
          ∃ w', save w = (Sidecar.Raised Sidecar.FileNotFoundError, w')
                ∧ Sidecar.files w' = Sidecar.files w)
       ∧ (Sidecar.slash ∈ Sidecar.chars path →
          os_makedirs (Sidecar.dirname path) = None →
          Sidecar.endswith_slash path = true →
          ∃ w', save w = (Sidecar.Raised Sidecar.IsADirectoryError, w')
                ∧ Sidecar.files w' = Sidecar.files w)
       ∧ (∀ e,
            Sidecar.slash ∈ Sidecar.chars path →
            os_makedirs (Sidecar.dirname path) = Some e
            ∨ (os_makedirs (Sidecar.dirname path) = None
               ∧ Sidecar.endswith_slash path = false ∧ os_open path = Some e) →
            ∃ w', save w = (Sidecar.Raised e, w')
                  ∧ Sidecar.files w' = Sidecar.files w)).
Proof.
  intros save. subst save. split; [done|]. split.
  - intros Hkind Hdata.
    rewrite (TSV_save_inherited float py_str os_makedirs os_open self output_path kw w
               Hkind).
    destruct (Sidecar_save_tsv_raises float py_str os_makedirs os_open self kw w)
      as (e & Hsave & He); [by left|].
    cbv zeta in Hsave, He. eexists e, _. split; [exact Hsave|]. split.
    + by destruct (Sidecar.kw_validate kw).
    + intros Hmk. by rewrite Hmk in He.
  - intros Hkind Hdata path Hpath.
    rewrite (TSV_save_channels float py_str os_makedirs os_open self output_path kw w
               Hkind).
    pose proof (TSV_validate_step_no_rows float py_str self (Sidecar.kw_validate kw) w)
      as Hstep.
    set (w1 := if Sidecar.kw_validate kw
               then Sidecar.emit Sidecar.WARNING (Sidecar.ValidationFailedWith 1) w
               else w) in Hstep.
    assert (Sidecar.files w1 = Sidecar.files w) as Hfiles
      by (unfold w1; by destruct (Sidecar.kw_validate kw)).
    destruct (ChannelsSidecar_save_raises float py_str os_makedirs os_open self
                output_path kw w) as [_ Hraises].
    cbv zeta in Hraises. rewrite Hdata, <- Hpath in Hraises.
    destruct (Hraises w1 Hstep) as (Hnodir & Hnomake & Hnoopen).
    split; [|split; [|split]].
    + intros Hslash Hmk Hend Hopen.
      destruct (ChannelsSidecar_save_returns float py_str os_makedirs os_open self
                  output_path kw w w1) as (lines & Hsave & Hlines).
      { by rewrite Hdata. }
      { by rewrite <- Hpath. }
      { by rewrite <- Hpath. }
      { by rewrite <- Hpath. }
      { by rewrite <- Hpath. }
      { rewrite Hdata. by intros row k v ?%elem_of_nil. }
      cbv zeta in Hsave, Hlines. rewrite Hdata in Hsave, Hlines.
      rewrite <- Hpath in Hsave. apply Forall2_nil_inv_l in Hlines as ->.
      eexists. split; [exact Hsave|].
      cbn [Sidecar.emit Sidecar.put_file Sidecar.files Sidecar.channels_fieldnames].
      by rewrite Hfiles.
    + intros Hslash. eexists. split; [by apply Hnodir|done].
    + intros Hslash Hmk Hend. eexists. split; [|exact Hfiles].
      apply Hnoopen; [done..|]. unfold Sidecar.open_w. by rewrite Hend.
    + intros e Hslash [Hmk|(Hmk & Hend & Hopen)].
      * eexists. split; [by apply Hnomake|done].
      * eexists. split; [|exact Hfiles].
        apply Hnoopen; [done..|]. unfold Sidecar.open_w. by rewrite Hend.
Qed.

(** Runs of the amended claim: an events sidecar and a channels sidecar,
    each saved with no rows, and a channels sidecar saved with no rows to a
    path with no directory part and to a path that ends with a slash. *)
Lemma write_with_no_rows_witness :
  (∃ e w', Sidecar.TSV_save Run.float_of Run.str_of Run.makedirs_ok Run.open_ok
             (Sidecar.TSV_init Events []) None
             (Sidecar.MkSaveKw (Some []) false (Some "out")) (Sidecar.MkWorld ∅ [])
           = (Sidecar.Raised e, w')
           ∧ Sidecar.files w' = ∅
           ∧ e = Sidecar.ValueError Sidecar.NoDataProvided)
  ∧ (∃ w', Sidecar.TSV_save Run.float_of Run.str_of Run.makedirs_ok Run.open_ok
             (Sidecar.TSV_init Channels []) None
             (Sidecar.MkSaveKw None false (Some "out")) (Sidecar.MkWorld ∅ [])
           = (Sidecar.Returned "out/channels.tsv", w')
           ∧ Sidecar.files w'
             = <["out/channels.tsv"
                 := Sidecar.TSVFile [Sidecar.csv_line Sidecar.COLUMN_ORDER]]> ∅)
  ∧ (∃ w', Sidecar.TSV_save Run.float_of Run.str_of Run.makedirs_ok Run.open_ok
             (Sidecar.TSV_init Channels []) (Some "channels.tsv")
             (Sidecar.MkSaveKw None false None) (Sidecar.MkWorld ∅ [])
           = (Sidecar.Raised Sidecar.FileNotFoundError, w')
           ∧ Sidecar.files w' = ∅)
  ∧ (∃ w', Sidecar.TSV_save Run.float_of Run.str_of Run.makedirs_ok Run.open_ok
             (Sidecar.TSV_init Channels []) (Some "out/")
             (Sidecar.MkSaveKw None false None) (Sidecar.MkWorld ∅ [])
           = (Sidecar.Raised Sidecar.IsADirectoryError, w')
           ∧ Sidecar.files w' = ∅).
Proof.
  split; [|split; [|split]].
  - destruct (proj1 (proj2 (write_with_no_rows Run.float_of Run.str_of Run.makedirs_ok
                              Run.open_ok (Sidecar.TSV_init Events []) None
                              (Sidecar.MkSaveKw (Some []) false (Some "out"))
                              (Sidecar.MkWorld ∅ []))))
      as (e & w' & Hsave & Hfiles & He).
    + vm_compute. discriminate.
    + reflexivity.
    + exists e, w'. split; [exact Hsave|]. split; [exact Hfiles|]. exact (He eq_refl).
  - apply (proj1 (proj2 (proj2 (write_with_no_rows Run.float_of Run.str_of
                                  Run.makedirs_ok Run.open_ok
                                  (Sidecar.TSV_init Channels []) None
                                  (Sidecar.MkSaveKw None false (Some "out"))
                                  (Sidecar.MkWorld ∅ [])))
                   eq_refl eq_refl "out/channels.tsv" eq_refl)).
    + apply (bool_decide_unpack _). vm_compute. exact I.
    + reflexivity.
    + reflexivity.
    + reflexivity.
  - apply (proj1 (proj2 (proj2 (proj2 (write_with_no_rows Run.float_of Run.str_of
                                  Run.makedirs_ok Run.open_ok
                                  (Sidecar.TSV_init Channels []) (Some "channels.tsv")
                                  (Sidecar.MkSaveKw None false None)
                                  (Sidecar.MkWorld ∅ [])))
                   eq_refl eq_refl "channels.tsv" eq_refl))).
    intros Hin. apply (bool_decide_pack _) in Hin. vm_compute in Hin. exact Hin.
  - apply (proj1 (proj2 (proj2 (proj2 (proj2 (write_with_no_rows Run.float_of Run.str_of
                                  Run.makedirs_ok Run.open_ok
                                  (Sidecar.TSV_init Channels []) (Some "out/")
                                  (Sidecar.MkSaveKw None false None)
                                  (Sidecar.MkWorld ∅ [])))
                   eq_refl eq_refl "out/" eq_refl)))).
    + apply (bool_decide_unpack _). vm_compute. exact I.
    + reflexivity.
    + reflexivity.
Defined.

(** ** C5: [save] with [validate=True] *)

(** On a JSON sidecar [save(validate=True)] raises before it validates or
    writes anything: the call [self.validate(data)] does not fit the
    [validate(self)] of the JSON classes. *)
Lemma json_save_with_validate_raises_TypeError
    (os_makedirs os_open : string → option Sidecar.Exn)
    (json_dump : list (string * Value) → string * option Sidecar.Exn) self kw w :
  Sidecar.kwj_validate kw = true →
  Sidecar.Sidecar_save_json os_makedirs os_open json_dump self kw w
  = (Sidecar.Raised Sidecar.TypeError, w).
Proof. intros H. unfold Sidecar.Sidecar_save_json. by rewrite H. Qed.

(** C5, as stated, fails on a TSV sidecar that inherits [Sidecar.save] and is
    given no rows: validation fails and is logged, and then the writer
    raises; no file is written and no path is returned. *)
Lemma save_with_validate_raises_on_no_rows :
  let self := Sidecar.TSV_init Electrodes [] in
  let kw := Sidecar.MkSaveKw (Some []) true (Some "out") in
  Sidecar.TSV_validate Run.float_of Run.str_of self (Some (Sidecar.DataRows []))
  = Sidecar.Returned (false, Sidecar.MkReport [Sidecar.NonEmptyListExpected] [] [])
  ∧ Sidecar.TSV_save Run.float_of Run.str_of Run.makedirs_ok Run.open_ok self None kw
      (Sidecar.MkWorld ∅ [])
    = (Sidecar.Raised (Sidecar.ValueError Sidecar.NoDataProvided),
       Sidecar.MkWorld ∅ [(Sidecar.WARNING, Sidecar.ValidationFailedWith 1)]).
Proof. vm_compute. done. Qed.

(** It fails as well when validation itself raises: an int too large for a
    float in a numeric field makes [save] raise [OverflowError] before
    anything is logged or written. *)
Example save_with_validate_raises_on_an_int_too_large :
  Sidecar.TSV_save Run.float_of Run.str_of Run.makedirs_ok Run.open_ok
    (Sidecar.TSV_init Channels []) (Some "out/channels.tsv")
    (Sidecar.MkSaveKw (Some [[("name", VStr "LA01"); ("notch", VInt (10 ^ 400))]])
       true None)
    (Sidecar.MkWorld ∅ [])
  = (Sidecar.Raised Sidecar.OverflowError, Sidecar.MkWorld ∅ []).
Proof. vm_compute. reflexivity. Qed.

(** C5, amended.  For every TSV sidecar, [save] with [validate=True] runs
    validation before it writes.  When validation raises, [save] raises the
    same with nothing logged or written.  When validation returns, passed or
    failed, its one effect is a warning in the log if it failed: [save] goes
    on exactly as it does with [validate=False].  So, after a validation
    that returned, the channels sidecar writes its rows and returns the path
    whenever the directory of the output path can be made, the path does not
    end with a slash and can be opened, and every value has a text; the other
    TSV sidecars do so when they are moreover given rows whose keys all occur
    in the first row, and raise with no file written when they are given an
    empty row sequence. *)
Theorem tsv_save_with_validate_only_logs
    (float : Value → Sidecar.Conversion) (py_str : Value → Sidecar.Outcome string)
    (os_makedirs os_open : string → option Sidecar.Exn)
    (self : Sidecar.TSVSidecar)
    (output_path : option string) (kw : Sidecar.SaveKw) (w : Sidecar.World) :
  Sidecar.kw_validate kw = true →
  let save := Sidecar.TSV_save float py_str os_makedirs os_open self output_path in
  let data :=
    match Sidecar.tkind self with
    | Channels => Sidecar.DataRows (default (Sidecar.rows self) (Sidecar.kw_data kw))
    | _ => match Sidecar.kw_data kw with
           | Some rs => Sidecar.DataRows rs
           | None => Sidecar.DataFields (Sidecar.tdata self)
           end
    end in
  let validation := Sidecar.TSV_validate float py_str self (Some data) in
  let unvalidated :=
    Sidecar.MkSaveKw (Sidecar.kw_data kw) false (Sidecar.kw_output_dir kw) in
  let warned (ok : bool) (report : Sidecar.Report) :=
    if ok then w
    else Sidecar.emit Sidecar.WARNING
           (Sidecar.ValidationFailedWith (length (Sidecar.errors report))) w in
  (∀ e, validation = Sidecar.Raised e → save kw w = (Sidecar.Raised e, w))
  ∧ (∀ ok report,
       validation = Sidecar.Returned (ok, report) →
       save kw w = save unvalidated (warned ok report))
  ∧ (Sidecar.tkind self = Channels →
     ∀ rows path ok report,
       rows = default (Sidecar.rows self) (Sidecar.kw_data kw) →
       path = match output_path with
              | Some p => p
              | None => Sidecar.path_join (default "output/tsv" (Sidecar.kw_output_dir kw))
                                          (Sidecar.tsv_filename (Sidecar.tkind self))
              end →
       validation = Sidecar.Returned (ok, report) →
       Sidecar.slash ∈ Sidecar.chars path →
       os_makedirs (Sidecar.dirname path) = None →
       Sidecar.endswith_slash path = false →
       os_open path = None →
       (∀ row k v, row ∈ rows → Dict.get k row = Some v →
                   ∃ s, Sidecar.cell_text py_str v = Sidecar.Returned s) →
       ∃ lines,
         save kw w
         = (Sidecar.Returned path,
            Sidecar.emit Sidecar.INFO (Sidecar.SavedRows (length rows) path)
              (Sidecar.put_file path
                 (Sidecar.TSVFile
                    (Sidecar.csv_line (Sidecar.channels_fieldnames rows) :: lines))
                 (warned ok report)))
         ∧ Forall2 (λ row line,
                      Sidecar.writerow py_str
                        (Sidecar.row_cells (Sidecar.channels_fieldnames rows) row)
                      = Sidecar.Returned line)
                   rows lines)
  ∧ (Sidecar.tkind self ≠ Channels →
     ∀ row0 rest path ok report,
       Sidecar.kw_data kw = Some (row0 :: rest) →
       Forall (λ row, ∀ k, k ∈ Dict.keys row → k ∈ Dict.keys row0) rest →
       path = Sidecar.path_join
                (match Sidecar.kw_output_dir kw with
                 | Some d => if bool_decide (d = "") then "output/json" else d
                 | None => "output/json"
                 end) (Sidecar.tsv_filename (Sidecar.tkind self)) →
       validation = Sidecar.Returned (ok, report) →
       os_makedirs (Sidecar.dirname path) = None →
       os_open path = None →
       (∀ row k v, row ∈ row0 :: rest → Dict.get k row = Some v →
                   ∃ s, Sidecar.cell_text py_str v = Sidecar.Returned s) →
       ∃ lines,
         save kw w
         = (Sidecar.Returned path,
            Sidecar.emit Sidecar.INFO (Sidecar.Saved path)
              (Sidecar.emit Sidecar.DEBUG (Sidecar.WroteTSV path)
                 (Sidecar.put_file path
                    (Sidecar.TSVFile (Sidecar.csv_line (Dict.keys row0) :: lines))
                    (warned ok report))))
         ∧ Forall2 (λ row line,
                      Sidecar.writerow py_str (Sidecar.row_cells (Dict.keys row0) row)
                      = Sidecar.Returned line)
                   (row0 :: rest) lines)
  ∧ (Sidecar.tkind self ≠ Channels →
     Sidecar.kw_data kw = Some [] →
     ∃ e,
       save kw w
       = (Sidecar.Raised e,
          Sidecar.emit Sidecar.WARNING (Sidecar.ValidationFailedWith 1) w)
       ∧ (os_makedirs
            (Sidecar.dirname
               (Sidecar.path_join
                  (match Sidecar.kw_output_dir kw with
                   | Some d => if bool_decide (d = "") then "output/json" else d
                   | None => "output/json"
                   end) (Sidecar.tsv_filename (Sidecar.tkind self)))) = None →
          e = Sidecar.ValueError Sidecar.NoDataProvided)).
Proof.
  intros Hval save data validation unvalidated warned.
  assert (∀ o w1,
            Sidecar.TSV_validate_step float py_str self true data w = (o, w1) →
            save kw w
            = match o with
              | Sidecar.Raised e => (Sidecar.Raised e, w1)
              | Sidecar.Returned _ => save unvalidated w1
              end) as Hsave.
  { intros o w1 Hstep. unfold save, Sidecar.TSV_save, data in *.
    destruct (Sidecar.tkind self);
      [unfold Sidecar.ChannelsSidecar_save | unfold Sidecar.Sidecar_save_tsv..];
      rewrite Hval; cbn [Sidecar.kw_data Sidecar.kw_validate Sidecar.kw_output_dir
                         unvalidated];
      rewrite Hstep; by destruct o. }
  split; [|split; [|split; [|split]]].
  - intros e He. by rewrite (Hsave _ _ (TSV_validate_step_Raised _ _ _ _ _ _ He)).
  - intros ok report Hv.
    by rewrite (Hsave _ _ (TSV_validate_step_Returned _ _ _ _ _ _ _ Hv)).
  - intros Hkind rows path ok report Hrows Hpath Hv Hslash Hmk Hend Hopen Htext.
    unfold save. rewrite (TSV_save_channels _ _ _ _ _ _ _ _ Hkind).
    unfold validation, data in Hv. rewrite Hkind in Hv.
    destruct (ChannelsSidecar_save_returns float py_str os_makedirs os_open self
                output_path kw w (warned ok report)) as (lines & -> & Hlines).
    { rewrite Hval. by apply TSV_validate_step_Returned. }
    { by rewrite <- Hpath. }
    { by rewrite <- Hpath. }
    { by rewrite <- Hpath. }
    { by rewrite <- Hpath. }
    { by rewrite <- Hrows. }
    cbv zeta in Hlines. cbv zeta. rewrite <- Hrows in *. rewrite <- Hpath.
    by exists lines.
  - intros Hkind row0 rest path ok report Hdata Hkeys Hpath Hv Hmk Hopen Htext.
    unfold save. rewrite (TSV_save_inherited _ _ _ _ _ _ _ _ Hkind).
    assert (data = Sidecar.DataRows (row0 :: rest)) as Hd.
    { unfold data. rewrite Hdata. by destruct (Sidecar.tkind self). }
    unfold validation in Hv. rewrite Hd in Hv.
    destruct (Sidecar_save_tsv_returns float py_str os_makedirs os_open self kw w
                (warned ok report) row0 rest Hdata Hkeys) as (lines & -> & Hlines).
    { rewrite Hval. by apply TSV_validate_step_Returned. }
    { by rewrite <- Hpath. }
    { by rewrite <- Hpath. }
    { done. }
    rewrite <- Hpath. by exists lines.
  - intros Hkind Hdata.
    unfold save. rewrite (TSV_save_inherited _ _ _ _ _ _ _ _ Hkind).
    destruct (Sidecar_save_tsv_raises float py_str os_makedirs os_open self kw w)
      as (e & Hs & He); [by left|].
    cbv zeta in Hs, He. rewrite Hval in Hs. exists e. split; [exact Hs|].
    intros Hmk. by rewrite Hmk in He.
Qed.

(** Runs of the amended claim with rows that fail validation (no required
    column but [name]): a channels sidecar and an electrodes sidecar are
    written all the same, after the warning. *)
Lemma tsv_save_with_validate_only_logs_witness :
  (∃ lines,
     Sidecar.TSV_save Run.float_of Run.str_of Run.makedirs_ok Run.open_ok
       (Sidecar.TSV_init Channels []) None
       (Sidecar.MkSaveKw (Some [[("name", VStr "LA01")]]) true (Some "out"))
       (Sidecar.MkWorld ∅ [])
     = (Sidecar.Returned "out/channels.tsv",
        Sidecar.emit Sidecar.INFO (Sidecar.SavedRows 1 "out/channels.tsv")
          (Sidecar.put_file "out/channels.tsv"
             (Sidecar.TSVFile (Sidecar.csv_line ["name"] :: lines))
             (Sidecar.emit Sidecar.WARNING (Sidecar.ValidationFailedWith 1)
                (Sidecar.MkWorld ∅ []))))
     ∧ Forall2 (λ row line,
                  Sidecar.writerow Run.str_of (Sidecar.row_cells ["name"] row)
                  = Sidecar.Returned line)
               [[("name", VStr "LA01")]] lines)
  ∧ (∃ lines,
       Sidecar.TSV_save Run.float_of Run.str_of Run.makedirs_ok Run.open_ok
         (Sidecar.TSV_init Electrodes []) None
         (Sidecar.MkSaveKw (Some [[("name", VStr "LA01")]]) true (Some "out"))
         (Sidecar.MkWorld ∅ [])
       = (Sidecar.Returned "out/electrodes.tsv",
          Sidecar.emit Sidecar.INFO (Sidecar.Saved "out/electrodes.tsv")
            (Sidecar.emit Sidecar.DEBUG (Sidecar.WroteTSV "out/electrodes.tsv")
               (Sidecar.put_file "out/electrodes.tsv"
                  (Sidecar.TSVFile (Sidecar.csv_line ["name"] :: lines))
                  (Sidecar.emit Sidecar.WARNING (Sidecar.ValidationFailedWith 1)
                     (Sidecar.MkWorld ∅ [])))))
       ∧ Forall2 (λ row line,
                    Sidecar.writerow Run.str_of (Sidecar.row_cells ["name"] row)
                    = Sidecar.Returned line)
                 [[("name", VStr "LA01")]] lines).
Proof.
  split.
  - apply (proj1 (proj2 (proj2 (tsv_save_with_validate_only_logs Run.float_of
                                  Run.str_of Run.makedirs_ok Run.open_ok
                                  (Sidecar.TSV_init Channels []) None
                                  (Sidecar.MkSaveKw (Some [[("name", VStr "LA01")]])
                                     true (Some "out"))
                                  (Sidecar.MkWorld ∅ []) eq_refl)))
             eq_refl [[("name", VStr "LA01")]] "out/channels.tsv" false
             (Sidecar.MkReport
                [Sidecar.MissingRequired
                   ["group"; "high_cutoff"; "low_cutoff"; "notch"; "reference";
                    "sampling_frequency"; "type"; "units"]] [] ["name"])
             eq_refl eq_refl).
    + vm_compute. reflexivity.
    + apply (bool_decide_unpack _). vm_compute. exact I.
    + reflexivity.
    + reflexivity.
    + reflexivity.
    + apply have_text_by_computation. vm_compute. reflexivity.
  - apply (proj1 (proj2 (proj2 (proj2 (tsv_save_with_validate_only_logs Run.float_of
                                  Run.str_of Run.makedirs_ok Run.open_ok
                                  (Sidecar.TSV_init Electrodes []) None
                                  (Sidecar.MkSaveKw (Some [[("name", VStr "LA01")]])
                                     true (Some "out"))
                                  (Sidecar.MkWorld ∅ []) eq_refl))))
             ltac:(vm_compute; discriminate)
             [("name", VStr "LA01")] [] "out/electrodes.tsv" false
             (Sidecar.MkReport
                [Sidecar.MissingRequired ["size"; "x"; "y"; "z"]]
                [Sidecar.MissingRecommended
                   ["group"; "hemisphere"; "manufacturer"; "material"]] ["name"])
             eq_refl ltac:(constructor) eq_refl).
    + vm_compute. reflexivity.
    + reflexivity.
    + reflexivity.
    + apply have_text_by_computation. vm_compute. reflexivity.
Defined.

(** ** C9: deleted packages *)

Section DeletedFacts.
Import Packages.

(** Every package that the loop has passed is a target of the index. *)
Lemma foldl_index_targets {K : Type} `{Countable K} (key : string → string → K)
    fuel all (l : list Package) (m0 m : gmap K Package) :
  foldl (index_step key fuel all) (Some m0) l = Some m →
  (∀ k, is_Some (m0 !! k) → is_Some (m !! k))
  ∧ ∀ p, p ∈ l →
      ∃ pkg_path, get_package_path fuel p all = Some pkg_path
                  ∧ is_Some (m !! key pkg_path (default "" (name p))).
Proof.
  revert m0. induction l as [|a l IH]; intros m0; cbn [foldl].
  - intros [= ->]. split; [done|]. by intros p ?%elem_of_nil.
  - unfold index_step at 2. cbn [mbind option_bind].
    destruct (get_package_path fuel a all) as [pa|] eqn:Ea; cbn [mbind option_bind].
    + intros Hm. destruct (IH _ Hm) as [Hkeep Hl]. split.
      * intros k Hk. apply Hkeep.
        destruct (decide (key pa (default "" (name a)) = k)) as [->|Hne].
        -- rewrite lookup_insert_eq. eauto.
        -- by rewrite lookup_insert_ne.
      * intros p [->|Hp]%elem_of_cons; [|by apply Hl].
        exists pa. split; [done|]. apply Hkeep. rewrite lookup_insert_eq. eauto.
    + rewrite foldl_index_None. done.
Qed.

(** What an index holds at a key: the last package of the loop whose
    location makes this key, or what it held before when there is none. *)
Lemma foldl_index_last {K : Type} `{Countable K} (key : string → string → K)
    fuel all (l : list Package) (m0 m : gmap K Package) :
  foldl (index_step key fuel all) (Some m0) l = Some m →
  let at_key k p :=
    ∃ pkg_path, get_package_path fuel p all = Some pkg_path
                ∧ key pkg_path (default "" (name p)) = k in
  ∀ k p,
    m !! k = Some p ↔
    (∃ before after,
       l = before ++ p :: after ∧ at_key k p
       ∧ ∀ later, later ∈ after → ¬ at_key k later)
    ∨ (m0 !! k = Some p ∧ ∀ later, later ∈ l → ¬ at_key k later).
Proof.
  intros Hm at_key. revert m0 Hm. induction l as [|a l IH]; intros m0; cbn [foldl].
  - intros [= ->] k p. split.
    + intros Hk. right. split; [done|]. by intros later ?%elem_of_nil.
    + intros [(before & after & Hl & _)|[Hk _]]; [|done]. by destruct before.
  - unfold index_step at 2. cbn [mbind option_bind].
    destruct (get_package_path fuel a all) as [pa|] eqn:Ea; cbn [mbind option_bind];
      [|by rewrite foldl_index_None].
    intros Hm k p. rewrite (IH _ Hm k p). clear IH Hm.
    assert (at_key (key pa (default "" (name a))) a) as Ha by (by exists pa).
    assert (∀ k', at_key k' a → k' = key pa (default "" (name a))) as Ha'.
    { intros k' (pa' & Hpa' & <-). congruence. }
    split.
    + intros [(before & after & -> & Hp & Hafter)|[Hk Hl]].
      * left. exists (a :: before), after. done.
      * destruct (decide (key pa (default "" (name a)) = k)) as [<-|Hne].
        -- rewrite lookup_insert_eq in Hk. injection Hk as <-.
           left. exists [], l. done.
        -- rewrite lookup_insert_ne in Hk by done. right. split; [done|].
           intros later [->|Hin]%elem_of_cons; [|by apply Hl].
           intros Hk'%Ha'. by apply Hne.
    + intros [(before & after & Hl & Hp & Hafter)|[Hk Hl]].
      * destruct before as [|b before]; injection Hl as -> ->.
        -- right. split; [|done]. apply Ha' in Hp as ->. by rewrite lookup_insert_eq.
        -- left. exists before, after. done.
      * right. split.
        -- rewrite lookup_insert_ne; [done|]. intros <-. apply (Hl a); [left|done].
        -- intros later Hin. apply Hl. by right.
Qed.

Section PassFacts.

Variable Ext : Type.
Variable classify_package : string → option ChannelsProcessor.PkgType.
Variable load_ieeg_metadata : option string → Ext → list (string * Value) * Ext.
Variable load_electrode_csv : option string → Ext → Ext.
Variable load_electrode_txt : option string → Ext → Ext.
Variable parent_key_of : option string → option string.
Variable record_payload : option string → Value → Value → Ext → Ext.
Variable build_channel_row : string → Value → list (string * Value).

Abbreviation pass_step :=
  (ChannelsProcessor.pass_step Ext classify_package load_ieeg_metadata
     load_electrode_csv load_electrode_txt parent_key_of record_payload
     build_channel_row).

(** The pass leaves its state alone at a deleted package. *)
Lemma pass_step_deleted st pkg : is_deleted pkg = true → pass_step st pkg = st.
Proof. intros H. unfold ChannelsProcessor.pass_step. by rewrite H. Qed.

Lemma pass_skips_deleted st (packages : list Package) :
  foldl pass_step st packages
  = foldl pass_step st (List.filter (λ pkg, negb (is_deleted pkg)) packages).
Proof.
  revert st. induction packages as [|pkg l IH]; intros st; simpl; [done|].
  destruct (is_deleted pkg) eqn:E; simpl.
  - rewrite pass_step_deleted by done. apply IH.
  - apply IH.
Qed.

End PassFacts.

End DeletedFacts.

(** C9, as stated, fails for the duplicate-cleanup and deletion lookups: a
    package in state [DELETED] is indexed like any other, and a cleanup that
    finds it as the original of a duplicate sends a delete for it. *)
Lemma cleanup_and_deletion_lookups_index_deleted_packages :
  let live_duplicate :=
    Packages.MkPackage (Some "N:package:4") (Some "N:package:4") (Some "p (1).tsv")
                       None (Some "Tabular") (Some "READY") in
  Packages.is_deleted Run.deleted_p = true
  ∧ Packages.build_pkg_by_location 2 [Run.deleted_p] ≫= (λ m, m !! ("", "p.tsv"))
    = Some Run.deleted_p
  ∧ Packages.build_pkg_by_path 2 [Run.deleted_p] ≫= (λ m, m !! "p.tsv")
    = Some Run.deleted_p
  ∧ Packages.cleanup_duplicates (list Run.Call) (Run.recording_delete true)
      (Run.recording_rename true) 2 (Some [Run.deleted_p; live_duplicate]) "ds" ["p.tsv"] []
    = Some (1, 0, [Run.Delete (Some "N:package:3");
                   Run.Rename (Some "N:package:4") "p.tsv"]).
Proof. vm_compute. done. Qed.

(** C9, amended.  Channel-row building leaves out every package whose state
    is [DELETED] or [DELETING]: its pass over the package list is the pass
    over the list without them, whatever the classifier, the downloads and
    the row builder are.  The lookups of duplicate cleanup and of deletion by
    path apply no such filter and never read the state.  Once an index is
    built, every package of the list has had its path resolved and its
    location indexed, and what the index holds at a location (path and name,
    or full path) is the last package of the list with this location: a
    deleted package is what the lookup returns unless a later package of the
    list has the same path and name. *)
Theorem deleted_packages_skipped_by_channel_rows_only
    (Ext : Type)
    (classify_package : string → option ChannelsProcessor.PkgType)
    (load_ieeg_metadata : option string → Ext → list (string * Value) * Ext)
    (load_electrode_csv load_electrode_txt : option string → Ext → Ext)
    (parent_key_of : option string → option string)
    (record_payload : option string → Value → Value → Ext → Ext)
    (build_channel_row : string → Value → list (string * Value))
    (packages : list Packages.Package) (e : Ext) (fuel : nat) :
  let located pkg pkg_path name :=
    Packages.get_package_path fuel pkg packages = Some pkg_path
    ∧ default "" (Packages.name pkg) = name in
  ChannelsProcessor.package_pass Ext classify_package load_ieeg_metadata
    load_electrode_csv load_electrode_txt parent_key_of record_payload
    build_channel_row packages e
  = ChannelsProcessor.package_pass Ext classify_package load_ieeg_metadata
      load_electrode_csv load_electrode_txt parent_key_of record_payload
      build_channel_row
      (List.filter (λ pkg, negb (Packages.is_deleted pkg)) packages) e
  ∧ (∀ pkg_by_location,
       Packages.build_pkg_by_location fuel packages = Some pkg_by_location →
       (∀ pkg, pkg ∈ packages →
          ∃ pkg_path,
            Packages.get_package_path fuel pkg packages = Some pkg_path
            ∧ is_Some (pkg_by_location !! (pkg_path, default "" (Packages.name pkg))))
       ∧ ∀ pkg_path name pkg,
           pkg_by_location !! (pkg_path, name) = Some pkg ↔
           ∃ before after,
             packages = before ++ pkg :: after
             ∧ located pkg pkg_path name
             ∧ ∀ later, later ∈ after → ¬ located later pkg_path name)
  ∧ (∀ pkg_by_path,
       Packages.build_pkg_by_path fuel packages = Some pkg_by_path →
       (∀ pkg, pkg ∈ packages →
          ∃ pkg_path,
            Packages.get_package_path fuel pkg packages = Some pkg_path
            ∧ is_Some (pkg_by_path
                         !! Packages.full_path pkg_path (default "" (Packages.name pkg))))
       ∧ ∀ path pkg,
           pkg_by_path !! path = Some pkg ↔
           ∃ before after,
             packages = before ++ pkg :: after
             ∧ (∃ pkg_path name,
                  located pkg pkg_path name ∧ Packages.full_path pkg_path name = path)
             ∧ ∀ later, later ∈ after →
                 ¬ ∃ pkg_path name,
                     located later pkg_path name
                     ∧ Packages.full_path pkg_path name = path).
Proof.
  intros located. split; [|split].
  - unfold ChannelsProcessor.package_pass. apply pass_skips_deleted.
  - intros m Hm. split.
    + intros pkg Hin.
      by apply (foldl_index_targets (λ pkg_path name, (pkg_path, name))
                  fuel packages packages ∅ m Hm).
    + intros pkg_path name pkg.
      rewrite (foldl_index_last (λ pkg_path name, (pkg_path, name))
                 fuel packages packages ∅ m Hm (pkg_path, name) pkg).
      rewrite lookup_empty. unfold located. split.
      * intros [(before & after & Hl & (pa & Hpa & [= E1 E2]) & Hafter)|[[=] _]].
        subst pa. exists before, after. split; [done|]. split; [done|].
        intros later Hin [Hp Hn]. apply (Hafter later Hin). exists pkg_path.
        by rewrite Hn.
      * intros (before & after & Hl & [Hp Hn] & Hafter). left.
        exists before, after. split; [done|]. split.
        -- exists pkg_path. by rewrite Hn.
        -- intros later Hin (pa & Hpa & [= E1 E2]). subst pa.
           by apply (Hafter later Hin).
  - intros m Hm. split.
    + intros pkg Hin.
      by apply (foldl_index_targets Packages.full_path fuel packages packages ∅ m Hm).
    + intros path pkg.
      rewrite (foldl_index_last Packages.full_path fuel packages packages ∅ m Hm
                 path pkg).
      rewrite lookup_empty. unfold located. split.
      * intros [(before & after & Hl & (pa & Hpa & Hk) & Hafter)|[[=] _]].
        exists before, after. split; [done|].
        split; [by exists pa, (default "" (Packages.name pkg))|].
        intros later Hin (pa' & n' & [Hp' <-] & Hk'). apply (Hafter later Hin).
        by exists pa'.
      * intros (before & after & Hl & (pa & n & [Hp <-] & Hk) & Hafter). left.
        exists before, after. split; [done|]. split; [by exists pa|].
        intros later Hin (pa' & Hpa' & Hk'). apply (Hafter later Hin).
        by exists pa', (default "" (Packages.name later)).
Qed.

(** A run of the amended claim: a deleted package among live ones is left
    out of the channel rows, and is what the lookup at its location
    returns. *)
Lemma deleted_packages_skipped_by_channel_rows_only_witness :
  ChannelsProcessor.package_pass unit
    (λ _, Some ChannelsProcessor.mef) (λ _ e, ([], e)) (λ _ e, e) (λ _ e, e)
    (λ _, None) (λ _ _ _ e, e) (λ pkg_name freq, [("name", VStr pkg_name)])
    [Run.folder_f; Run.deleted_p; Run.original_p] tt
  = ChannelsProcessor.package_pass unit
      (λ _, Some ChannelsProcessor.mef) (λ _ e, ([], e)) (λ _ e, e) (λ _ e, e)
      (λ _, None) (λ _ _ _ e, e) (λ pkg_name freq, [("name", VStr pkg_name)])
      [Run.folder_f; Run.original_p] tt
  ∧ Packages.is_deleted Run.deleted_p = true
  ∧ default ∅ (Packages.build_pkg_by_location 4
                 [Run.folder_f; Run.deleted_p; Run.original_p])
    !! ("", "p.tsv")
    = Some Run.deleted_p.
Proof.
  destruct (deleted_packages_skipped_by_channel_rows_only unit
              (λ _, Some ChannelsProcessor.mef) (λ _ e, ([], e)) (λ _ e, e)
              (λ _ e, e) (λ _, None) (λ _ _ _ e, e)
              (λ pkg_name freq, [("name", VStr pkg_name)])
              [Run.folder_f; Run.deleted_p; Run.original_p] tt 4)
    as (Hpass & Hlocation & _).
  split; [exact Hpass|]. split; [reflexivity|].
  destruct (Hlocation (default ∅ (Packages.build_pkg_by_location 4
                                    [Run.folder_f; Run.deleted_p; Run.original_p]))
              eq_refl) as [_ Hlast].
  apply Hlast. exists [Run.folder_f], [Run.original_p].
  split; [reflexivity|]. split; [split; reflexivity|].
  intros later Hin [Hpath _]. apply list_elem_of_singleton in Hin. subst later.
  vm_compute in Hpath. discriminate Hpath.
Defined.

(** ** C10: a name, its duplicate name, and back *)

Section DuplicateNameFacts.
Import Sidecar Packages.

Implicit Types (l a t g e : list ascii).

Lemma dotfree_forallb e :
  forallb (λ x, negb (bool_decide (x = dot))) e = true ↔ dot ∉ e.
Proof.
  induction e as [|c e IH]; simpl.
  - split; [intros _; apply not_elem_of_nil | done].
  - rewrite andb_true_iff, IH, negb_true_iff, bool_decide_eq_false, not_elem_of_cons.
    split; intros [? ?]; split; auto.
Qed.

(** [(\.[^.]+)$] matches a whole text exactly when the text is a dot
    followed by a non-empty text without dots. *)
Lemma is_extension_spec l :
  is_extension l = true ↔ ∃ e, l = dot :: e ∧ e ≠ [] ∧ dot ∉ e.
Proof.
  unfold is_extension. destruct l as [|c r].
  - split; [done | intros (e & ? & _); done].
  - rewrite !andb_true_iff, bool_decide_eq_true, negb_true_iff,
            bool_decide_eq_false, dotfree_forallb.
    split.
    + intros [[-> ?] ?]. eauto.
    + intros (e & [= -> ->] & ? & ?). done.
Qed.

(** A dot that only dot-free text follows is at one place. *)
Lemma last_dot_unique a a' t t' :
  a ++ dot :: t = a' ++ dot :: t' → dot ∉ t → dot ∉ t' → a = a' ∧ t = t'.
Proof.
  revert a'. induction a as [|c a IH]; intros [|c' a'] Heq Ht Ht'; simplify_eq/=.
  - done.
  - exfalso. apply Ht. rewrite elem_of_app. right. left.
  - exfalso. apply Ht'. rewrite elem_of_app. right. left.
  - destruct (IH a' H0 Ht Ht') as [-> ->]. done.
Qed.

Lemma rfind_dot_None l : rfind_dot l = None ↔ dot ∉ l.
Proof.
  induction l as [|c l IH]; simpl.
  - split; [intros _; apply not_elem_of_nil | done].
  - rewrite not_elem_of_cons. destruct (rfind_dot l) as [i|].
    + split; [done|]. intros [_ H]. by apply IH in H.
    + case_bool_decide as Hc; split; try done.
      * intros [H _]. by subst.
      * intros _. split; [intros Hd; by apply Hc | by apply IH].
Qed.

Lemma rfind_dot_Some l i :
  rfind_dot l = Some i → ∃ a t, l = a ++ dot :: t ∧ length a = i ∧ dot ∉ t.
Proof.
  revert i. induction l as [|c l IH]; intros i; simpl; [done|].
  destruct (rfind_dot l) as [j|] eqn:E.
  - intros [= <-]. destruct (IH j eq_refl) as (a & t & -> & <- & Ht).
    exists (c :: a), t. done.
  - case_bool_decide as Hc; [|done]. intros [= <-]. subst c.
    exists [], l. split; [done|]. split; [done|]. by apply rfind_dot_None.
Qed.

Lemma rfind_dot_app a t : dot ∉ t → rfind_dot (a ++ dot :: t) = Some (length a).
Proof.
  intros Ht. induction a as [|c a IH]; simpl.
  - by rewrite (proj2 (rfind_dot_None t)) by done.
  - by rewrite IH.
Qed.

(** A name with a suffix is a non-empty stem, the dot, and a non-empty
    extension without dots. *)
Lemma split_suffix_nonempty name :
  (split_suffix name).2 ≠ [] →
  ∃ a t, name = a ++ dot :: t ∧ a ≠ [] ∧ t ≠ [] ∧ (dot ∉ t)
         ∧ split_suffix name = (a, dot :: t).
Proof.
  unfold split_suffix. destruct (rfind_dot name) as [i|] eqn:E; [|done].
  destruct (rfind_dot_Some name i E) as (a & t & -> & <- & Ht).
  case_bool_decide as H0; [|done]. case_bool_decide as H1; [|done]. simpl.
  intros _. exists a, t.
  rewrite length_app in H1. simpl in H1.
  split; [done|]. split; [by destruct a; [simpl in H0; lia|]|].
  split; [destruct t; [simpl in H1; lia | done]|]. split; [done|].
  by rewrite take_app_length, drop_app_length.
Qed.

(** A name without a suffix is its own stem, and its last dot, if it has
    one, is its first or its last character. *)
Lemma split_suffix_empty name :
  (split_suffix name).2 = [] →
  (split_suffix name).1 = name
  ∧ ∀ a t, name = a ++ dot :: t → dot ∉ t → a = [] ∨ t = [].
Proof.
  unfold split_suffix. destruct (rfind_dot name) as [i|] eqn:E.
  - destruct (rfind_dot_Some name i E) as (a & t & -> & <- & Ht).
    case_bool_decide as H0; simpl.
    + case_bool_decide as H1; simpl.
      * rewrite drop_app_length. done.
      * intros _. split; [done|]. intros a' t' Heq Ht'.
        destruct (last_dot_unique _ _ _ _ Heq Ht Ht') as [-> ->].
        right. rewrite length_app in H1. simpl in H1.
        destruct t'; [done | simpl in H1; lia].
    + intros _. split; [done|]. intros a' t' Heq Ht'.
      destruct (last_dot_unique _ _ _ _ Heq Ht Ht') as [-> ->].
      left. destruct a'; [done | simpl in H0; lia].
  - intros _. split; [done|]. intros a t -> _.
    apply rfind_dot_None in E. exfalso. apply E.
    rewrite elem_of_app. right. left.
Qed.

(** The test that the search applies to the candidate of length [n]. *)
Lemma candidate_fits n l :
  negb (bool_decide (newline ∈ take n l))
  && bool_decide (take 4 (drop n l) = marker)
  && is_extension (drop 4 (drop n l)) = true
  ↔ (newline ∉ take n l)
    ∧ ∃ e, l = take n l ++ marker ++ dot :: e ∧ e ≠ [] ∧ dot ∉ e.
Proof.
  rewrite !andb_true_iff, negb_true_iff, bool_decide_eq_false, bool_decide_eq_true,
          is_extension_spec.
  split.
  - intros [[Hnl Hm] (e & He & Hne & Hd)]. split; [done|]. exists e.
    split; [|done].
    rewrite <- He, <- Hm, (take_drop 4 (drop n l)), take_drop. done.
  - intros [Hnl (e & He & Hne & Hd)].
    assert (drop n l = marker ++ dot :: e) as Hdrop.
    { apply (app_inv_head (take n l)). by rewrite take_drop. }
    rewrite Hdrop. split; [done|]. exists e. done.
Qed.

Lemma match_original_step n l :
  match_original (S n) l
  = if negb (bool_decide (newline ∈ take (S n) l))
       && bool_decide (take 4 (drop (S n) l) = marker)
       && is_extension (drop 4 (drop (S n) l))
    then Some (take (S n) l, drop 4 (drop (S n) l))
    else match_original n l.
Proof. done. Qed.

(** The search finds the stem and the extension of a duplicate name. *)
Lemma match_original_found g e n :
  g ≠ [] → newline ∉ g → e ≠ [] → dot ∉ e → length g ≤ n →
  match_original n (g ++ marker ++ dot :: e) = Some (g, dot :: e).
Proof.
  intros Hg Hnl He Hd. set (l := g ++ marker ++ dot :: e).
  induction n as [|n IH]; intros Hlen.
  - destruct g; [done | simpl in Hlen; lia].
  - rewrite match_original_step.
    destruct (decide (S n = length g)) as [Heq|Hneq].
    + rewrite Heq. unfold l. rewrite take_app_length, drop_app_length.
      change (take 4 (marker ++ dot :: e)) with marker.
      change (drop 4 (marker ++ dot :: e)) with (dot :: e).
      rewrite bool_decide_eq_false_2 by done.
      rewrite bool_decide_eq_true_2 by done.
      by rewrite (proj2 (is_extension_spec (dot :: e))) by eauto.
    + destruct (negb _ && _ && _) eqn:Hfit; [|apply IH; lia].
      apply candidate_fits in Hfit as [_ (e' & He' & _ & Hd')].
      exfalso. unfold l in He' at 1.
      rewrite (app_assoc g), (app_assoc (take (S n) l)) in He'.
      destruct (last_dot_unique _ _ _ _ He' Hd Hd') as [Hga _].
      apply app_inv_tail in Hga.
      assert (length g = length (take (S n) l)) as Hl by by rewrite <- Hga.
      rewrite length_take in Hl. unfold l in Hl.
      rewrite !length_app in Hl. change (length marker) with 4 in Hl.
      cbn [length] in Hl. lia.
Qed.

Lemma match_original_none l n :
  (∀ k, 0 < k →
        negb (bool_decide (newline ∈ take k l))
        && bool_decide (take 4 (drop k l) = marker)
        && is_extension (drop 4 (drop k l)) = false) →
  match_original n l = None.
Proof.
  intros H. induction n as [|n IH]; [done|].
  rewrite match_original_step, H by lia. done.
Qed.

(** The search finds nothing in the duplicate name of a name whose stem has a
    newline: the only place where the marker and an extension follow is the
    end of the stem. *)
Lemma match_original_newline_stem a t n :
  newline ∈ a → dot ∉ t →
  match_original n (a ++ marker ++ dot :: t) = None.
Proof.
  intros Hnl Ht. set (l := a ++ marker ++ dot :: t).
  apply match_original_none. intros k _.
  apply not_true_is_false. intros Hfit.
  apply candidate_fits in Hfit as [Hk (e & He & _ & Hd)].
  unfold l in He at 1.
  rewrite (app_assoc a), (app_assoc (take k l)) in He.
  destruct (last_dot_unique _ _ _ _ He Ht Hd) as [Ha _].
  apply app_inv_tail in Ha. apply Hk. by rewrite <- Ha.
Qed.

(** The search finds nothing in the duplicate name of a name without suffix,
    unless the name is a non-empty text without newline, the marker and a
    dot. *)
Lemma match_original_no_suffix name n :
  (split_suffix name).2 = [] →
  (∀ g, g ≠ [] → newline ∉ g → name ≠ g ++ marker ++ [dot]) →
  match_original n (name ++ marker) = None.
Proof.
  intros Hsuf Hend. apply match_original_none. intros k Hk.
  apply not_true_is_false. intros Hfit.
  apply candidate_fits in Hfit as [Hnl (e & He & Hne & Hd)].
  set (g := take k (name ++ marker)) in *.
  assert (g ≠ []) as Hg.
  { unfold g. destruct k; [lia|]. by destruct name. }
  destruct (rfind_dot name) as [i|] eqn:E.
  - destruct (rfind_dot_Some name i E) as (a & t & Hname & _ & Ht).
    assert (dot ∉ t ++ marker) as Htm.
    { rewrite elem_of_app. intros [?|Hm]; [done|].
      apply (bool_decide_pack _) in Hm. vm_compute in Hm. done. }
    assert (a ++ dot :: (t ++ marker) = (g ++ marker) ++ dot :: e) as Heq.
    { rewrite <- (app_assoc g). rewrite <- He, Hname, <- app_assoc. done. }
    destruct (last_dot_unique _ _ _ _ Heq Htm Hd) as [Ha Hte].
    destruct (proj2 (split_suffix_empty name Hsuf) a t Hname Ht) as [->| ->].
    + destruct g; done.
    + apply (Hend g Hg Hnl). by rewrite Hname, Ha, <- app_assoc.
  - apply rfind_dot_None in E.
    assert (dot ∈ name ++ marker) as Hin.
    { rewrite He. rewrite !elem_of_app. right. right. left. }
    apply elem_of_app in Hin as [?|Hm]; [done|].
    apply (bool_decide_pack _) in Hm. vm_compute in Hm. done.
Qed.

(** A name that ends in a dot has no suffix. *)
Lemma split_suffix_trailing_dot a : split_suffix (a ++ [dot]) = (a ++ [dot], []).
Proof.
  unfold split_suffix. rewrite rfind_dot_app by apply not_elem_of_nil.
  rewrite length_app. simpl.
  rewrite (bool_decide_eq_false_2 (length a < _)) by lia.
  by rewrite andb_false_r.
Qed.

Lemma split_on_no_sep l : slash ∉ l → split_on slash l = [l].
Proof.
  induction l as [|c l IH]; [done|].
  intros [Hc Hl]%not_elem_of_cons. simpl.
  rewrite bool_decide_eq_false_2 by done. by rewrite IH.
Qed.

(** The name of a path without a slash is the path itself, or empty when the
    path is empty or the single dot. *)
Lemma path_name_no_slash l :
  slash ∉ l → path_name l = l ∨ (path_name l = [] ∧ (l = [] ∨ l = [dot])).
Proof.
  intros H. unfold path_name, path_parts. rewrite split_on_no_sep by done.
  simpl. case_bool_decide; simpl; [auto|].
  case_bool_decide; simpl; auto.
Qed.

End DuplicateNameFacts.

(** C10, as stated, fails on three kinds of names.  [a (1).] has no
    extension, and the reverse pattern does match its duplicate name: the
    round trip gives [a. (1)].  [.bashrc] has a final dot followed by
    characters that are not dots, and [pathlib] gives it no suffix: the round
    trip gives [.bashrc (1)].  A name with a newline in its stem and the
    extension [.txt] comes back as its duplicate name, since the pattern's
    dot does not match a newline. *)
Lemma duplicate_name_round_trip_exceptions :
  let two_lines := String "a"%char (String "010"%char "b.txt") in
  Packages._get_duplicate_name "a (1)." = "a (1). (1)"
  ∧ Packages._get_original_name "a (1). (1)" = "a. (1)"
  ∧ Packages._get_original_name (Packages._get_duplicate_name ".bashrc") = ".bashrc (1)"
  ∧ Packages.path_suffix (Sidecar.chars two_lines) = Sidecar.chars ".txt"
  ∧ Packages._get_original_name (Packages._get_duplicate_name two_lines)
    = Packages._get_duplicate_name two_lines.
Proof. vm_compute. done. Qed.

(** C10, amended.  For every filename that is a single path component (it
    has no slash).  When its suffix is non-empty, that is, its last dot is
    neither its first nor its last character: mapping it to its duplicate
    name and back is the identity if its stem has no newline, and returns the
    duplicate name unchanged if it has one.  When its suffix is empty: the
    round trip returns the duplicate name unchanged, except for a name made
    of a non-empty text [g] without newline followed by [ (1).], where the
    reverse pattern matches and the round trip returns [g] followed by
    [. (1)]. *)
Theorem duplicate_name_round_trip (filename : string) :
  Sidecar.slash ∉ Sidecar.chars filename →
  let round_trip := Packages._get_original_name (Packages._get_duplicate_name filename) in
  (Packages.path_suffix (Sidecar.chars filename) ≠ [] →
   Packages.newline ∉ Packages.path_stem (Sidecar.chars filename) →
   round_trip = filename)
  ∧ (Packages.path_suffix (Sidecar.chars filename) ≠ [] →
     Packages.newline ∈ Packages.path_stem (Sidecar.chars filename) →
     round_trip = Packages._get_duplicate_name filename)
  ∧ (∀ g, g ≠ [] → Packages.newline ∉ g →
          Sidecar.chars filename = g ++ Sidecar.chars " (1)." →
          Packages.path_suffix (Sidecar.chars filename) = []
          ∧ round_trip = Sidecar.str (g ++ Sidecar.chars ". (1)"))
  ∧ (Packages.path_suffix (Sidecar.chars filename) = [] →
     (∀ g, g ≠ [] → Packages.newline ∉ g →
           Sidecar.chars filename ≠ g ++ Sidecar.chars " (1).") →
     round_trip = Packages._get_duplicate_name filename).
Proof.
  intros Hslash round_trip. subst round_trip.
  set (l := Sidecar.chars filename) in *.
  unfold Packages._get_original_name, Packages._get_duplicate_name,
         Packages.path_suffix, Packages.path_stem.
  fold l. rewrite chars_str.
  destruct (path_name_no_slash l Hslash) as [Hname|[Hname Hl]]; rewrite Hname.
  - split; [|split; [|split]].
    + intros Hsuf Hnl.
      destruct (split_suffix_nonempty l Hsuf) as (a & t & Hl & Ha & Ht & Hd & Hsplit).
      rewrite Hsplit in *. cbn [fst snd] in *.
      rewrite match_original_found; try done.
      * rewrite <- Hl. apply str_chars.
      * rewrite !length_app. lia.
    + intros Hsuf Hnl.
      destruct (split_suffix_nonempty l Hsuf) as (a & t & Hl & Ha & Ht & Hd & Hsplit).
      rewrite Hsplit in *. cbn [fst snd] in *.
      by rewrite match_original_newline_stem.
    + intros g Hg Hnl Hshape.
      change (Sidecar.chars " (1).") with (Packages.marker ++ [Sidecar.dot]) in Hshape.
      rewrite Hshape, app_assoc, split_suffix_trailing_dot. cbn [fst snd].
      split; [done|]. rewrite app_nil_r, <- !app_assoc.
      change ([Sidecar.dot] ++ Packages.marker)
        with (Sidecar.dot :: Packages.marker).
      rewrite match_original_found; try done.
      * apply not_elem_of_cons. split; [done|].
        intros Hm. apply (bool_decide_pack _) in Hm. vm_compute in Hm. done.
      * rewrite !length_app. lia.
    + intros Hsuf Hend.
      destruct (split_suffix_empty l Hsuf) as [Hstem _].
      rewrite Hstem, Hsuf, app_nil_r.
      rewrite match_original_no_suffix; [done..|].
      intros g Hg Hnl Heq. by apply (Hend g Hg Hnl).
  - split; [done|]. split; [done|]. split.
    + intros g Hg _ Hshape. exfalso.
      apply (f_equal length) in Hshape. rewrite length_app in Hshape.
      destruct g; [done|]. destruct Hl as [Hl|Hl]; rewrite Hl in Hshape;
        simpl in Hshape; lia.
    + intros _ _. vm_compute. reflexivity.
Qed.

(** Runs of the amended claim: [file.json] comes back, and [NEWS], which has
    no suffix, comes back as [NEWS (1)]. *)
Lemma duplicate_name_round_trip_witness :
  Packages._get_original_name (Packages._get_duplicate_name "file.json") = "file.json"
  ∧ Packages._get_original_name (Packages._get_duplicate_name "NEWS")
    = Packages._get_duplicate_name "NEWS".
Proof.
  split.
  - apply (proj1 (duplicate_name_round_trip "file.json"
                    ltac:(apply (bool_decide_unpack _); vm_compute; exact I))).
    + vm_compute. discriminate.
    + apply (bool_decide_unpack _). vm_compute. exact I.
  - apply (proj2 (proj2 (proj2 (duplicate_name_round_trip "NEWS"
                    ltac:(apply (bool_decide_unpack _); vm_compute; exact I))))).
    + vm_compute. reflexivity.
    + intros g Hg Hnl Heq. apply (f_equal length) in Heq.
      rewrite length_app in Heq.
      change (length (Sidecar.chars "NEWS")) with 4 in Heq.
      change (length (Sidecar.chars " (1).")) with 5 in Heq. lia.
Defined.

Example duplicate_name_of_file_json :
  Packages._get_duplicate_name "file.json" = "file (1).json"
  ∧ Packages._get_original_name "file (1).json" = "file.json"
  ∧ Packages._get_original_name "notes.txt" = "notes.txt".
Proof. vm_compute. done. Qed.

(** ** More on path resolution *)

Section PathFacts.
Import Sidecar Packages.

Implicit Types (pkg_lookup : gmap string Package) (current : Package).

(** The loop only ever puts names in front of what it was given. *)
Lemma walk_prepends fuel pkg_lookup current path_parts :
  walk fuel pkg_lookup current path_parts
  = (λ l, l ++ path_parts) <$> walk fuel pkg_lookup current [].
Proof.
  revert current path_parts.
  induction fuel as [|fuel IH]; intros current path_parts; simpl; [done|].
  destruct (resolve_parent pkg_lookup current) as [[parent_id parent]|]; [|done].
  case_bool_decide.
  - apply IH.
  - rewrite (IH parent (_ :: path_parts)), (IH parent [_]).
    destruct (walk fuel pkg_lookup parent []) as [l|]; simpl; [|done].
    by rewrite <- app_assoc.
Qed.

(** What the lookup holds comes from the list, under its own id. *)
Lemma build_pkg_lookup_Some all_packages k p :
  build_pkg_lookup all_packages !! k = Some p →
  p ∈ all_packages ∧ id p = Some k ∧ k ≠ "".
Proof.
  unfold build_pkg_lookup.
  assert (∀ l (m : gmap string Package),
            (∀ k p, m !! k = Some p → p ∈ all_packages ∧ id p = Some k ∧ k ≠ "") →
            Forall (λ x, x ∈ all_packages) l →
            ∀ k p, foldl (λ pkg_lookup pkg,
                           match truthy (id pkg) with
                           | Some pkg_id => <[pkg_id := pkg]> pkg_lookup
                           | None => pkg_lookup
                           end) m l !! k = Some p →
                   p ∈ all_packages ∧ id p = Some k ∧ k ≠ "") as H.
  { induction l as [|a l IH]; intros m Hm Hl k' p'; simpl; [apply Hm|].
    apply Forall_cons in Hl as [Ha Hl].
    apply IH; [|done].
    intros k0 p0. destruct (truthy (id a)) as [pkg_id|] eqn:E; [|apply Hm].
    destruct (decide (pkg_id = k0)) as [->|Hne].
    - rewrite lookup_insert_eq. intros [= <-].
      split; [done|]. unfold truthy in E.
      destruct (id a) as [s|]; [|done]. case_bool_decide; [done|].
      by simplify_eq.
    - rewrite lookup_insert_ne by done. apply Hm. }
  apply (H all_packages ∅); [by intros ?? ?%lookup_empty_Some |].
  by apply Forall_forall.
Qed.

Lemma walk_components fuel all_packages current path_parts r :
  walk fuel (build_pkg_lookup all_packages) current path_parts = Some r →
  Forall (λ x, x ≠ "" ∧ ∃ p, p ∈ all_packages ∧ name p = Some x) path_parts →
  Forall (λ x, x ≠ "" ∧ ∃ p, p ∈ all_packages ∧ name p = Some x) r.
Proof.
  revert current path_parts.
  induction fuel as [|fuel IH]; intros current path_parts; simpl; [done|].
  destruct (resolve_parent _ current) as [[parent_id parent]|] eqn:E.
  - intros Hw Hparts. apply (IH _ _ Hw).
    case_bool_decide as Hn; [done|]. constructor; [|done].
    split; [done|]. exists parent.
    apply resolve_parent_lookup, build_pkg_lookup_Some in E as (Hin & _).
    split; [done|]. destruct (name parent); [done|]. by simpl in Hn.
  - by intros [= <-].
Qed.

Lemma string_app_assoc (a b c : string) : (a +:+ b) +:+ c = a +:+ b +:+ c.
Proof.
  induction a as [|x a IH]; [done|].
  change (String x ((a +:+ b) +:+ c) = String x (a +:+ b +:+ c)). by rewrite IH.
Qed.

Lemma string_app_empty (a b : string) : a +:+ b = "" → a = "".
Proof. by destruct a. Qed.

Lemma join_slash_snoc l x :
  join_slash (l ++ [x])
  = if bool_decide (l = []) then x else join_slash l +:+ "/" +:+ x.
Proof.
  unfold join_slash. induction l as [|a l IH]; [done|].
  rewrite bool_decide_eq_false_2 by done.
  destruct l as [|b l]; [done|].
  rewrite bool_decide_eq_false_2 in IH by done.
  change (String.concat "/" ((a :: b :: l) ++ [x]))
    with (a +:+ "/" +:+ String.concat "/" ((b :: l) ++ [x])).
  rewrite IH.
  change (String.concat "/" (a :: b :: l))
    with (a +:+ "/" +:+ String.concat "/" (b :: l)).
  by rewrite !string_app_assoc.
Qed.

Lemma join_slash_empty l :
  Forall (λ x : string, x ≠ "") l → join_slash l = "" → l = [].
Proof.
  intros Hl. destruct Hl as [|a l Ha Hl]; [done|].
  unfold join_slash. destruct l as [|b l]; simpl.
  - done.
  - by intros ?%string_app_empty.
Qed.

End PathFacts.

(** X1.  The path of a package is the path of its parent followed by the
    parent's name: when the [parentId] of a package is the id of a package of
    the list whose own path resolves, the path of the child resolves with one
    more step to [full_path] of the parent's path and the parent's name (to
    the parent's path alone when the parent has no name). *)
Theorem path_of_child_extends_path_of_parent
    (fuel : nat) (child parent : Packages.Package)
    (all_packages : list Packages.Package) (parent_id parent_path : string) :
  Packages.truthy (Packages.parentId child) = Some parent_id →
  Packages.build_pkg_lookup all_packages !! parent_id = Some parent →
  Packages.get_package_path fuel parent all_packages = Some parent_path →
  Packages.get_package_path (S fuel) child all_packages
  = Some (match Packages.truthy (Packages.name parent) with
          | Some parent_name => Packages.full_path parent_path parent_name
          | None => parent_path
          end).
Proof.
  intros Hpid Hlook. unfold Packages.get_package_path.
  intros (l & Hw & ->)%fmap_Some. cbn [Packages.walk].
  unfold Packages.resolve_parent. rewrite Hpid, Hlook. cbn [fmap option_fmap option_map].
  unfold Packages.truthy. destruct (Packages.name parent) as [n|]; cbn [default from_option id].
  - case_bool_decide as Hn; [by rewrite Hw|].
    rewrite walk_prepends, Hw. cbn [fmap option_fmap option_map]. f_equal.
    rewrite join_slash_snoc. unfold Packages.full_path.
    case_bool_decide as Hl.
    + subst l. done.
    + rewrite bool_decide_eq_false_2; [done|].
      intros He. apply Hl. apply join_slash_empty; [|done].
      eapply Forall_impl; [apply (walk_components _ _ _ _ _ Hw); constructor|].
      by intros x [? _].
  - rewrite bool_decide_eq_true_2 by done. by rewrite Hw.
Qed.

(** The file [p.tsv] of folder [f]: its path is [f], one step after the
    empty path of the folder. *)
Lemma path_of_child_extends_path_of_parent_witness :
  Packages.get_package_path 2 Run.original_p Run.dataset_f = Some "f".
Proof.
  exact (path_of_child_extends_path_of_parent 1 Run.original_p Run.folder_f
           Run.dataset_f "N:collection:f" "" eq_refl eq_refl eq_refl).
Defined.

(** X2.  A resolved path is the join of names of packages of the list, none
    of them empty; it is the empty path exactly when no named ancestor was
    found. *)
Theorem resolved_path_components
    (fuel : nat) (package : Packages.Package)
    (all_packages : list Packages.Package) (path : string) :
  Packages.get_package_path fuel package all_packages = Some path →
  ∃ parts,
    path = Packages.join_slash parts
    ∧ Forall (λ x, x ≠ "" ∧ ∃ p, p ∈ all_packages ∧ Packages.name p = Some x) parts
    ∧ (path = "" ↔ parts = []).
Proof.
  unfold Packages.get_package_path. intros (l & Hw & ->)%fmap_Some.
  exists l. split; [done|].
  pose proof (walk_components _ _ _ _ _ Hw ltac:(constructor)) as Hl.
  split; [done|]. split.
  - apply join_slash_empty. eapply Forall_impl; [done|]. by intros x [? _].
  - by intros ->.
Qed.

Lemma resolved_path_components_witness :
  ∃ parts,
    "f" = Packages.join_slash parts
    ∧ Forall (λ x, x ≠ "" ∧ ∃ p, p ∈ Run.dataset_f ∧ Packages.name p = Some x) parts
    ∧ ("f" = "" ↔ parts = []).
Proof.
  exact (resolved_path_components 2 Run.original_p Run.dataset_f "f" eq_refl).
Defined.

(** ** The entries of the indexes *)

Section IndexFacts.
Import Sidecar Packages.


Lemma split_on_lengths sep l : Forall (λ x, length x ≤ length l) (split_on sep l).
Proof.
  induction l as [|c l IH]; simpl.
  - constructor; [done|constructor].
  - case_bool_decide.
    + constructor; [simpl; lia|]. eapply Forall_impl; [exact IH|]. simpl. intros; lia.
    + destruct (split_on sep l) as [|part parts].
      * constructor; [simpl; lia|constructor].
      * inversion IH as [|? ? Hp Hps]; subst. constructor; [simpl; lia|].
        eapply Forall_impl; [exact Hps|]. simpl. intros; lia.
Qed.

Lemma path_name_length l : length (path_name l) ≤ length l.
Proof.
  unfold path_name. destruct (last (path_parts l)) as [x|] eqn:E; simpl; [|lia].
  apply last_Some_elem_of in E. unfold path_parts in E.
  apply list_elem_of_In, filter_In in E as [E _]. apply list_elem_of_In in E.
  pose proof (split_on_lengths slash l) as Hall.
  rewrite Forall_forall in Hall. by apply Hall.
Qed.






End IndexFacts.



(** ** Candidates and index keys *)

Section CandidateFacts.
Import Sidecar Packages.

Lemma chars_join_slash parts : chars (join_slash parts) = join_chars (chars <$> parts).
Proof.
  unfold join_slash. induction parts as [|x parts IH]; [done|].
  destruct parts as [|y parts]; [done|].
  change (String.concat "/" (x :: y :: parts))
    with (x +:+ "/" +:+ String.concat "/" (y :: parts)).
  rewrite !chars_app, IH. done.
Qed.

Lemma split_on_app sep x r :
  sep ∉ x → split_on sep (x ++ sep :: r) = x :: split_on sep r.
Proof.
  induction x as [|c x IH]; simpl.
  - intros _. by rewrite bool_decide_eq_true_2.
  - intros [Hc Hx]%not_elem_of_cons. rewrite bool_decide_eq_false_2 by done.
    by rewrite IH.
Qed.

Lemma split_on_join ps :
  ps ≠ [] → Forall (λ x, slash ∉ x) ps → split_on slash (join_chars ps) = ps.
Proof.
  intros Hne Hall. induction Hall as [|x ps Hx Hps IH]; [done|].
  destruct ps as [|y ps].
  - simpl. by apply split_on_no_sep.
  - change (join_chars (x :: y :: ps)) with (x ++ slash :: join_chars (y :: ps)).
    rewrite split_on_app by done. by rewrite IH.
Qed.

Lemma path_parts_join ps :
  ps ≠ [] → Forall (λ x, x ≠ [] ∧ x ≠ [dot] ∧ slash ∉ x) ps →
  path_parts (join_chars ps) = ps.
Proof.
  intros Hne Hall. unfold path_parts. rewrite split_on_join; [|done|].
  - induction Hall as [|x ps (H1 & H2 & _) _ IH]; [done|]. simpl.
    rewrite !bool_decide_eq_false_2 by done. simpl. f_equal.
    destruct ps; [done|]. by apply IH.
  - eapply Forall_impl; [exact Hall|]. simpl. tauto.
Qed.

Lemma path_root_relative c l : c ≠ slash → path_root (c :: l) = [].
Proof.
  intros Hc. destruct l as [|c2 [|c3 l]]; simpl; by rewrite bool_decide_eq_false_2.
Qed.

Lemma path_root_join ps :
  Forall (λ x, x ≠ [] ∧ x ≠ [dot] ∧ slash ∉ x) ps → path_root (join_chars ps) = [].
Proof.
  intros [|x qs (H1 & _ & H3) _]; [done|].
  destruct x as [|c x]; [done|]. apply not_elem_of_cons in H3 as [Hc _].
  destruct qs; simpl; by apply path_root_relative.
Qed.

(** Without an opening brace there is no placeholder to replace. *)
Lemma replace_go_no_brace new s :
  ("{"%char ∉ s) → replace_go (chars "{dataset}") new 0 s = s.
Proof.
  induction s as [|c s IH]; [done|]. intros [Hc Hs]%not_elem_of_cons.
  cbn [replace_go]. rewrite bool_decide_eq_false_2.
  - by rewrite IH.
  - intros Heq. apply Hc. by injection Heq.
Qed.

Lemma chars_inj a b : chars a = chars b → a = b.
Proof. intros H. by rewrite <- (str_chars a), <- (str_chars b), H. Qed.

Lemma chars_full_path parts filename :
  Forall (λ x : string, x ≠ "") parts →
  chars (full_path (join_slash parts) filename)
  = join_chars (chars <$> (parts ++ [filename])).
Proof.
  intros Hall. unfold full_path. case_bool_decide as He.
  - apply join_slash_empty in He; [|done]. by subst.
  - rewrite !chars_app, chars_join_slash.
    destruct parts as [|x parts]; [done|]. clear.
    generalize x. induction parts as [|y parts IH]; intros z; [done|].
    change (chars <$> z :: y :: parts) with (chars z :: (chars <$> y :: parts)).
    change (chars <$> (z :: y :: parts) ++ [filename])
      with (chars z :: (chars <$> (y :: parts) ++ [filename])).
    change (join_chars (chars z :: (chars <$> y :: parts)))
      with (chars z ++ slash :: join_chars (chars <$> y :: parts)).
    rewrite <- app_assoc. cbn [app]. rewrite IH. done.
Qed.

End CandidateFacts.

(** X9.  The candidate that [cleanup_duplicates] looks up for a listed path
    is the key under which the index holds that path: for a file named
    [filename] in the folders [parts], the text [parts/filename] is taken
    apart again into the folder path and the file name, whatever the dataset
    name.  This needs the names to be plain (not empty, not a single dot,
    without a slash) and the text to have no opening brace. *)
Theorem candidate_of_indexed_path
    (dataset_name filename : string) (parts : list string) :
  let plain := λ x : string, x ≠ "" ∧ x ≠ "." ∧ Sidecar.slash ∉ Sidecar.chars x in
  Forall plain parts → plain filename →
  ("{"%char ∉ Sidecar.chars (Packages.full_path (Packages.join_slash parts) filename)) →
  Packages.candidate dataset_name
    (Packages.full_path (Packages.join_slash parts) filename)
  = (Packages.join_slash parts, filename).
Proof.
  intros plain Hparts Hfile Hbrace.
  assert (Forall (λ x, x ≠ [] ∧ x ≠ [Sidecar.dot] ∧ Sidecar.slash ∉ x)
                 (Sidecar.chars <$> (parts ++ [filename]))) as Hall.
  { apply Forall_fmap, Forall_app. split; [|constructor; [|constructor]].
    - eapply Forall_impl; [exact Hparts|]. intros x (H1 & H2 & H3). simpl.
      split; [|split; [|done]]; intros He; [apply H1|apply H2];
        by apply chars_inj.
    - destruct Hfile as (H1 & H2 & H3).
      split; [|split; [|done]]; intros He; [apply H1|apply H2];
        by apply chars_inj. }
  unfold Packages.candidate, Packages.replace_dataset.
  cbv zeta. rewrite (replace_go_no_brace _ _ Hbrace). rewrite chars_str.
  rewrite chars_full_path by (eapply Forall_impl; [exact Hparts|]; by intros x [? _]).
  unfold Packages.parent_folder_of, Packages.path_name.
  rewrite path_root_join by done.
  rewrite path_parts_join; [|by destruct parts|done].
  rewrite fmap_app. cbn [fmap list_fmap].
  rewrite removelast_last, last_snoc. cbn [app default].
  unfold id. by rewrite <- chars_join_slash, !str_chars.
Qed.

Lemma candidate_of_indexed_path_witness :
  Packages.candidate "ds" "f/p.tsv" = ("f", "p.tsv").
Proof.
  apply (candidate_of_indexed_path "ds" "p.tsv" ["f"]).
  - constructor; [|constructor]. split; [done|]. split; [done|].
    intros H. apply (bool_decide_pack _) in H. vm_compute in H. done.
  - split; [done|]. split; [done|].
    intros H. apply (bool_decide_pack _) in H. vm_compute in H. done.
  - intros H. apply (bool_decide_pack _) in H. vm_compute in H. done.
Defined.

(** ** Deletion by path and by pattern *)

Section DeletionFacts.
Import Sidecar Packages Api.

Context {Remote : Type}.
Variable delete_package : option string → Remote → bool * Remote.
Variable fnmatch : string → string → bool.

Abbreviation delete_path_step := (delete_path_step Remote delete_package).
Abbreviation delete_match_step := (delete_match_step Remote delete_package).
Abbreviation match_step := (match_step fnmatch).

Lemma lstrip_slash_idemp s : lstrip_slash (lstrip_slash s) = lstrip_slash s.
Proof.
  induction s as [|c s IH]; [done|]. simpl.
  case_bool_decide as Hc; [done|]. simpl. by rewrite bool_decide_eq_false_2.
Qed.

Lemma delete_path_step_counts (m : gmap string Package) st file_path :
  (delete_path_step m st file_path).1.1 + (delete_path_step m st file_path).1.2
  = S (st.1.1 + st.1.2).
Proof.
  destruct st as [[d n] r]. unfold Api.delete_path_step.
  destruct (m !! _); [|simpl; lia].
  destruct (delete_package _ _) as [[] r']; simpl; lia.
Qed.

Lemma delete_paths_fold_counts (m : gmap string Package) file_paths st :
  (foldl (delete_path_step m) st file_paths).1.1
  + (foldl (delete_path_step m) st file_paths).1.2
  = st.1.1 + st.1.2 + length file_paths.
Proof.
  revert st. induction file_paths as [|fp fps IH]; intros st; cbn [foldl length]; [lia|].
  rewrite IH, delete_path_step_counts. lia.
Qed.

Lemma delete_path_step_normalized (m : gmap string Package) st file_path :
  delete_path_step m st (str (lstrip_slash (chars file_path)))
  = delete_path_step m st file_path.
Proof.
  unfold Api.delete_path_step. destruct st as [[d n] r].
  by rewrite chars_str, lstrip_slash_idemp.
Qed.

Lemma delete_match_step_counts st m :
  (delete_match_step st m).1.1 + (delete_match_step st m).1.2 = S (st.1.1 + st.1.2)
  ∧ (delete_match_step st m).2 = (delete_package (nodeId m.2) st.2).2.
Proof.
  destruct st as [[d n] r]. unfold Api.delete_match_step. simpl.
  destruct (delete_package _ _) as [[] r']; simpl; split; (lia || done).
Qed.

Lemma delete_matches_fold matches st :
  (foldl delete_match_step st matches).1.1 + (foldl delete_match_step st matches).1.2
  = st.1.1 + st.1.2 + length matches
  ∧ (foldl delete_match_step st matches).2
    = foldl (λ r m, (delete_package (nodeId m.2) r).2) st.2 matches.
Proof.
  revert st. induction matches as [|m ms IH]; intros st; cbn [foldl length].
  - split; [lia | done].
  - destruct (IH (delete_match_step st m)) as [-> ->].
    destruct (delete_match_step_counts st m) as [-> ->]. split; [lia | done].
Qed.

Lemma foldl_match_None fuel pattern all (l : list Package) :
  foldl (match_step fuel pattern all) None l = None.
Proof. induction l as [|a l IH]; simpl; done. Qed.

(** What the first loop of [delete_by_pattern] collects. *)
Lemma foldl_match_collects fuel pattern all (l : list Package) acc res :
  foldl (match_step fuel pattern all) (Some acc) l = Some res →
  ∃ ms, res = acc ++ ms
        ∧ ms.*2 `sublist_of` l
        ∧ Forall (λ m, packageType m.2 ≠ Some "Collection"
                       ∧ (∃ pkg_path,
                            get_package_path fuel m.2 all = Some pkg_path
                            ∧ m.1 = full_path pkg_path (default "" (name m.2)))
                       ∧ fnmatch m.1 pattern || fnmatch (default "" (name m.2)) pattern
                         = true) ms.
Proof.
  revert acc. induction l as [|a l IH]; intros acc; cbn [foldl].
  - intros [= <-]. exists []. by rewrite app_nil_r.
  - unfold Api.match_step at 2. cbn [mbind option_bind].
    case_bool_decide as Hc.
    + intros (ms & -> & Hsub & Hall)%IH. exists ms.
      split; [done|]. split; [by apply sublist_cons|done].
    + destruct (get_package_path fuel a all) as [pa|] eqn:Ea; cbn [mbind option_bind].
      * destruct (fnmatch _ _ || fnmatch _ _) eqn:Hm.
        -- intros (ms & -> & Hsub & Hall)%IH. exists ((full_path pa (default "" (name a)), a) :: ms).
           split; [by rewrite <- app_assoc|]. split; [by apply sublist_skip|].
           constructor; [|done]. split; [|split; [eauto|done]].
           intros Ht. apply Hc. cbn [snd] in Ht. by rewrite Ht.
        -- intros (ms & -> & Hsub & Hall)%IH. exists ms.
           split; [done|]. split; [by apply sublist_cons|done].
      * by rewrite foldl_match_None.
Qed.

End DeletionFacts.

(** X3.  Deletion by path accounts for every path it is given, once: when the
    dataset is not found all paths count as not found and nothing is
    requested; otherwise the two counters add up to the number of paths.
    Leading slashes of a path make no difference, and a path that the
    listing does not have costs no request. *)
Theorem delete_by_path_accounts_for_every_path
    (Remote : Type) (delete_package : option string → Remote → bool * Remote)
    (fuel : nat) (found : option (list Packages.Package))
    (file_paths : list string) (r : Remote) :
  (found = None →
   Api.delete_by_path Remote delete_package fuel found file_paths r
   = Some (0, length file_paths, r))
  ∧ (∀ deleted not_found r',
       Api.delete_by_path Remote delete_package fuel found file_paths r
       = Some (deleted, not_found, r') →
       deleted + not_found = length file_paths)
  ∧ (∀ pkg_by_path,
       Api.delete_paths_loop Remote delete_package pkg_by_path
         ((λ p, Sidecar.str (Api.lstrip_slash (Sidecar.chars p))) <$> file_paths) r
       = Api.delete_paths_loop Remote delete_package pkg_by_path file_paths r)
  ∧ (∀ pkg_by_path : gmap string Packages.Package,
       Forall (λ p, pkg_by_path !! Sidecar.str (Api.lstrip_slash (Sidecar.chars p)) = None)
              file_paths →
       Api.delete_paths_loop Remote delete_package pkg_by_path file_paths r
       = (0, length file_paths, r)).
Proof.
  split; [by intros ->|]. split; [|split].
  - intros d n r'. unfold Api.delete_by_path. destruct found as [packages|].
    + destruct (Packages.build_pkg_by_path fuel packages) as [m|]; [|done].
      simpl. intros [= H]. unfold Api.delete_paths_loop in H.
      pose proof (delete_paths_fold_counts delete_package m file_paths (0, 0, r)) as Hc.
      rewrite H in Hc. simpl in Hc. lia.
    + by intros [= <- <- _].
  - intros m. unfold Api.delete_paths_loop.
    generalize (0, 0, r). induction file_paths as [|fp fps IH]; intros st; [done|].
    cbn [fmap list_fmap foldl]. rewrite delete_path_step_normalized. apply IH.
  - intros m Hall. unfold Api.delete_paths_loop.
    assert (∀ d n, foldl (Api.delete_path_step Remote delete_package m) (d, n, r) file_paths
                   = (d, n + length file_paths, r)) as H.
    { induction Hall as [|fp fps Hfp _ IH]; intros d n; cbn [foldl length].
      - f_equal. f_equal. lia.
      - unfold Api.delete_path_step at 2. rewrite Hfp, IH. f_equal. f_equal. lia. }
    apply H.
Qed.

(** X4.  Deletion by pattern never deletes a folder.  The packages it sends a
    delete for are packages of the listing, taken in listing order, none of
    type [Collection], each with a full path or a name that matches the
    pattern; the deletes are sent in that order, one per match, and the two
    counters add up to the number of matches. *)
Theorem delete_by_pattern_spares_folders
    (Remote : Type) (delete_package : option string → Remote → bool * Remote)
    (fnmatch : string → string → bool)
    (fuel : nat) (packages : list Packages.Package) (pattern : string) (r : Remote)
    (matches : list (string * Packages.Package)) :
  Api.find_matches fnmatch fuel pattern packages = Some matches →
  matches.*2 `sublist_of` packages
  ∧ Forall (λ m, Packages.packageType m.2 ≠ Some "Collection"
                 ∧ (∃ pkg_path,
                      Packages.get_package_path fuel m.2 packages = Some pkg_path
                      ∧ m.1 = Packages.full_path pkg_path (default "" (Packages.name m.2)))
                 ∧ fnmatch m.1 pattern || fnmatch (default "" (Packages.name m.2)) pattern
                   = true) matches
  ∧ ∃ deleted failed,
      Api.delete_by_pattern Remote delete_package fnmatch fuel (Some packages) pattern r
      = Some (deleted, failed,
              foldl (λ r m, (delete_package (Packages.nodeId m.2) r).2) r matches)
      ∧ deleted + failed = length matches.
Proof.
  intros Hm. unfold Api.find_matches in Hm.
  destruct (foldl_match_collects fnmatch fuel pattern packages packages [] matches Hm)
    as (ms & -> & Hsub & Hall).
  cbn [app]. split; [done|]. split; [done|].
  unfold Api.delete_by_pattern, Api.find_matches. rewrite Hm. cbn [mbind option_bind app].
  destruct ms as [|m0 ms]; [by exists 0, 0|].
  destruct (delete_matches_fold delete_package (m0 :: ms) (0, 0, r)) as [Hc Hr].
  unfold Api.delete_matches.
  destruct (foldl _ (0, 0, r) (m0 :: ms)) as [[d f] r'] eqn:E.
  exists d, f. cbn [fst snd] in *. rewrite Hr. split; [done | lia].
Qed.

(** The pattern [p.tsv] in the dataset with folder [f]: one match, the file
    of that name, and one delete. *)
Lemma delete_by_pattern_spares_folders_witness :
  ∃ deleted failed,
    Api.delete_by_pattern (list Run.Call) (Run.recording_delete true) ApiRun.literal_match
      2 (Some Run.dataset_f) "p.tsv" []
    = Some (deleted, failed, [Run.Delete (Some "N:package:1")])
    ∧ deleted + failed = 1.
Proof.
  exact (proj2 (proj2 (delete_by_pattern_spares_folders (list Run.Call)
           (Run.recording_delete true) ApiRun.literal_match 2 Run.dataset_f "p.tsv" []
           [("f/p.tsv", Run.original_p)] eq_refl))).
Defined.

(** ** The dry run *)

Section DryRunFacts.
Import Sidecar Packages Api.

Context {Remote : Type}.
Variable make_request : Request → Remote → option Response * Remote.
Variable self : Core.
Hypothesis Hdry : dry_run self = true.

Abbreviation dry_delete := (Api.delete_package Remote make_request self).
Abbreviation dry_rename := (Api.rename_package Remote make_request self).

Lemma dry_delete_package package_id r : dry_delete package_id r = (true, r).
Proof. unfold Api.delete_package. by rewrite Hdry. Qed.

Lemma dry_rename_package package_id new_name r :
  dry_rename package_id new_name r = (true, r).
Proof. unfold Api.rename_package. by rewrite Hdry. Qed.

Lemma dry_reconcile (m : gmap (string * string) Package) folder filename
    (c : Counts Remote) :
  Packages.reconcile Remote dry_delete dry_rename m folder filename c
  = if bool_decide (is_Some (m !! (folder, filename))
                    ∧ is_Some (m !! (folder, _get_duplicate_name filename)))
    then success _ c (Packages.remote _ c) else skip _ c (Packages.remote _ c).
Proof.
  unfold Packages.reconcile.
  destruct (m !! (folder, filename)) as [o|] eqn:Eo,
           (m !! (folder, _get_duplicate_name filename)) as [d|] eqn:Ed.
  - rewrite bool_decide_eq_true_2 by (split; eauto).
    rewrite dry_delete_package. cbn [negb]. by rewrite dry_rename_package.
  - rewrite bool_decide_eq_false_2; [done|]. intros [_ [? [=]]].
  - rewrite bool_decide_eq_false_2; [done|]. intros [[? [=]] _].
  - rewrite bool_decide_eq_false_2; [done|]. intros [[? [=]] _].
Qed.

Lemma dry_cleanup_fold (m : gmap (string * string) Package) dataset_name file_paths
    (c : Counts Remote) :
  let both := λ t, is_Some (m !! candidate dataset_name t)
                   ∧ is_Some (m !! ((candidate dataset_name t).1,
                                    _get_duplicate_name (candidate dataset_name t).2)) in
  foldl (λ c t, let '(parent_folder, filename) := candidate dataset_name t in
                Packages.reconcile Remote dry_delete dry_rename m parent_folder filename c)
        c file_paths
  = MkCounts _ (success_count _ c + length (filter both file_paths))
               (skip_count _ c + length (filter (λ t, ¬ both t) file_paths))
               (Packages.remote _ c).
Proof.
  intros both. revert c. induction file_paths as [|t ts IH]; intros c; cbn [foldl].
  - destruct c. simpl. f_equal; lia.
  - rewrite IH. rewrite !filter_cons.
    assert ((let '(parent_folder, filename) := candidate dataset_name t in
             Packages.reconcile Remote dry_delete dry_rename m parent_folder filename c)
            = if bool_decide (both t) then success _ c (Packages.remote _ c)
              else skip _ c (Packages.remote _ c)) as ->.
    { unfold both. destruct (candidate dataset_name t) as [folder filename].
      apply dry_reconcile. }
    case_bool_decide as Hc.
    + rewrite decide_True by done. rewrite decide_False by tauto.
      destruct c; simpl. f_equal; lia.
    + rewrite decide_False by done. rewrite decide_True by done.
      destruct c; simpl. f_equal; lia.
Qed.

Lemma dry_delete_paths_fold (m : gmap string Package) file_paths d n (r : Remote) :
  let indexed := λ p, is_Some (m !! str (lstrip_slash (chars p))) in
  foldl (delete_path_step Remote dry_delete m) (d, n, r) file_paths
  = (d + length (filter indexed file_paths),
     n + length (filter (λ p, ¬ indexed p) file_paths), r).
Proof.
  intros indexed. revert d n. induction file_paths as [|p ps IH]; intros d n; cbn [foldl].
  - simpl. repeat f_equal; lia.
  - rewrite !filter_cons.
    assert (delete_path_step Remote dry_delete m (d, n, r) p
            = if bool_decide (indexed p) then (S d, n, r) else (d, S n, r)) as ->.
    { unfold delete_path_step, indexed.
      destruct (m !! str (lstrip_slash (chars p))) as [pkg|].
      - rewrite dry_delete_package. by rewrite bool_decide_eq_true_2 by eauto.
      - rewrite bool_decide_eq_false_2; [done|]. by intros [? [=]]. }
    case_bool_decide as Hc; rewrite IH.
    + rewrite decide_True by done. rewrite decide_False by tauto.
      simpl. repeat f_equal; lia.
    + rewrite decide_False by done. rewrite decide_True by done.
      simpl. repeat f_equal; lia.
Qed.

Lemma dry_delete_matches_fold (matches : list (string * Package)) d f (r : Remote) :
  foldl (delete_match_step Remote dry_delete) (d, f, r) matches
  = (d + length matches, f, r).
Proof.
  revert d. induction matches as [|m ms IH]; intros d; cbn [foldl].
  - simpl. repeat f_equal; lia.
  - unfold delete_match_step at 2. rewrite dry_delete_package, IH.
    simpl. repeat f_equal; lia.
Qed.

End DryRunFacts.

Section MatchReturnFacts.
Import Sidecar Packages Api.

Variable fnmatch : string → string → bool.

(** The matches of a pattern are found, and are the same with any fuel above
    the number of packages, when no listed package has a parent chain that
    repeats. *)
Lemma foldl_match_returns pattern all (l : list Package)
    (acc : list (string * Package)) :
  (∀ pkg, pkg ∈ l →
     NoDup (ancestors (S (length all)) (build_pkg_lookup all) pkg)) →
  ∃ matches, ∀ fuel, length all < fuel →
    foldl (match_step fnmatch fuel pattern all) (Some acc) l = Some matches.
Proof.
  revert acc. induction l as [|a l IH]; intros acc Hl.
  - exists acc. done.
  - destruct (get_package_path_returns a all) as [path Hpath]; [apply Hl; left|].
    assert (∃ acc', ∀ fuel, length all < fuel →
              match_step fnmatch fuel pattern all (Some acc) a = Some acc')
      as [acc' Hacc'].
    { unfold match_step. cbn [mbind option_bind].
      destruct (bool_decide (default "" (packageType a) = "Collection")).
      - exists acc. done.
      - destruct (fnmatch (full_path path (default "" (name a))) pattern
                  || fnmatch (default "" (name a)) pattern) eqn:E.
        + exists (acc ++ [(full_path path (default "" (name a)), a)]).
          intros fuel Hf. rewrite (Hpath fuel Hf). cbn [mbind option_bind].
          by rewrite E.
        + exists acc. intros fuel Hf. rewrite (Hpath fuel Hf).
          cbn [mbind option_bind]. by rewrite E. }
    destruct (IH acc') as [matches Hm].
    { intros pkg Hpkg. apply Hl. by right. }
    exists matches. intros fuel Hf. cbn [foldl]. rewrite (Hacc' fuel Hf).
    by apply Hm.
Qed.

Lemma find_matches_returns pattern (packages : list Package) :
  (∀ pkg, pkg ∈ packages →
     NoDup (ancestors (S (length packages)) (build_pkg_lookup packages) pkg)) →
  ∃ matches, ∀ fuel, length packages < fuel →
    find_matches fnmatch fuel pattern packages = Some matches.
Proof. intros Hl. by apply foldl_match_returns. Qed.

End MatchReturnFacts.

(** X5.  In a dry run, once the dataset and its packages have been listed,
    the three bulk operations send no delete and no rename request, whatever
    the remote platform would answer: the state of the platform after the
    loops is the state before them.  (The listing itself is requested and
    cached before [dry_run] is read; it is what the operations are given
    here.)  The counters are those of a run in which every delete and rename
    succeeds: the duplicate cleanup counts as successes the candidates whose
    original and duplicate are both listed, deletion by path counts as
    deleted the paths that are listed, and deletion by pattern counts every
    match as deleted and none as failed.  The operations return these
    counters when no listed package has a parent chain that repeats. *)
Theorem dry_run_sends_no_delete_or_rename
    (Remote : Type)
    (make_request : Api.Request → Remote → option Api.Response * Remote)
    (fnmatch : string → string → bool)
    (self : Api.Core) (packages : list Packages.Package)
    (dataset_name pattern : string) (file_paths : list string) (r : Remote) :
  Api.dry_run self = true →
  let delete_package := Api.delete_package Remote make_request self in
  let rename_package := Api.rename_package Remote make_request self in
  let both (pkg_by_location : gmap (string * string) Packages.Package) t :=
    is_Some (pkg_by_location !! Packages.candidate dataset_name t)
    ∧ is_Some (pkg_by_location !!
                 ((Packages.candidate dataset_name t).1,
                  Packages._get_duplicate_name (Packages.candidate dataset_name t).2)) in
  let listed (pkg_by_path : gmap string Packages.Package) p :=
    is_Some (pkg_by_path !! Sidecar.str (Api.lstrip_slash (Sidecar.chars p))) in
  (∀ fuel pkg_by_location,
     Packages.build_pkg_by_location fuel packages = Some pkg_by_location →
     Packages.cleanup_duplicates Remote delete_package rename_package fuel
       (Some packages) dataset_name file_paths r
     = Some (length (filter (both pkg_by_location) file_paths),
             length (filter (λ t, ¬ both pkg_by_location t) file_paths), r))
  ∧ (∀ fuel pkg_by_path,
       Packages.build_pkg_by_path fuel packages = Some pkg_by_path →
       Api.delete_by_path Remote delete_package fuel (Some packages) file_paths r
       = Some (length (filter (listed pkg_by_path) file_paths),
               length (filter (λ p, ¬ listed pkg_by_path p) file_paths), r))
  ∧ (∀ fuel matches,
       Api.find_matches fnmatch fuel pattern packages = Some matches →
       Api.delete_by_pattern Remote delete_package fnmatch fuel (Some packages) pattern r
       = Some (length matches, 0, r))
  ∧ ((∀ pkg, pkg ∈ packages →
        NoDup (Packages.ancestors (S (length packages))
                 (Packages.build_pkg_lookup packages) pkg)) →
     ∃ pkg_by_location pkg_by_path (matches : list (string * Packages.Package)),
       ∀ fuel, length packages < fuel →
         Packages.cleanup_duplicates Remote delete_package rename_package fuel
           (Some packages) dataset_name file_paths r
         = Some (length (filter (both pkg_by_location) file_paths),
                 length (filter (λ t, ¬ both pkg_by_location t) file_paths), r)
         ∧ Api.delete_by_path Remote delete_package fuel (Some packages) file_paths r
           = Some (length (filter (listed pkg_by_path) file_paths),
                   length (filter (λ p, ¬ listed pkg_by_path p) file_paths), r)
         ∧ Api.delete_by_pattern Remote delete_package fnmatch fuel (Some packages)
             pattern r
           = Some (length matches, 0, r)).
Proof.
  intros Hdry delete_package rename_package both listed.
  assert (∀ fuel m,
            Packages.build_pkg_by_location fuel packages = Some m →
            Packages.cleanup_duplicates Remote delete_package rename_package fuel
              (Some packages) dataset_name file_paths r
            = Some (length (filter (both m) file_paths),
                    length (filter (λ t, ¬ both m t) file_paths), r)) as Hcleanup.
  { intros fuel m Hm. unfold Packages.cleanup_duplicates. rewrite Hm.
    cbn [mbind option_bind]. unfold Packages.cleanup_loop.
    unfold delete_package, rename_package.
    rewrite (dry_cleanup_fold make_request self Hdry m dataset_name file_paths). done. }
  assert (∀ fuel m,
            Packages.build_pkg_by_path fuel packages = Some m →
            Api.delete_by_path Remote delete_package fuel (Some packages) file_paths r
            = Some (length (filter (listed m) file_paths),
                    length (filter (λ p, ¬ listed m p) file_paths), r)) as Hpath.
  { intros fuel m Hm. unfold Api.delete_by_path. rewrite Hm.
    cbn [mbind option_bind]. unfold Api.delete_paths_loop, delete_package.
    rewrite (dry_delete_paths_fold make_request self Hdry m file_paths). done. }
  assert (∀ fuel matches,
            Api.find_matches fnmatch fuel pattern packages = Some matches →
            Api.delete_by_pattern Remote delete_package fnmatch fuel (Some packages)
              pattern r
            = Some (length matches, 0, r)) as Hpattern.
  { intros fuel matches Hm. unfold Api.delete_by_pattern. rewrite Hm.
    cbn [mbind option_bind]. destruct matches as [|m0 ms]; [done|].
    unfold Api.delete_matches, delete_package.
    rewrite (dry_delete_matches_fold make_request self Hdry). done. }
  split; [exact Hcleanup|]. split; [exact Hpath|]. split; [exact Hpattern|].
  intros Hacyclic.
  destruct (build_index_returns (λ pkg_path name, (pkg_path, name)) packages Hacyclic)
    as [m1 Hm1].
  destruct (build_index_returns Packages.full_path packages Hacyclic) as [m2 Hm2].
  destruct (find_matches_returns fnmatch pattern packages Hacyclic) as [ms Hms].
  exists m1, m2, ms. intros fuel Hfuel. split; [|split].
  - apply Hcleanup. by apply Hm1.
  - apply Hpath. by apply Hm2.
  - apply Hpattern. by apply Hms.
Qed.

(** A dry run of the three operations on the dataset with folder [f], on a
    platform that would refuse every request. *)
Lemma dry_run_sends_no_delete_or_rename_witness :
  Packages.cleanup_duplicates (list Api.Request)
    (Api.delete_package _ (ApiRun.recording_request None) ApiRun.dry_core)
    (Api.rename_package _ (ApiRun.recording_request None) ApiRun.dry_core)
    2 (Some Run.dataset_f) "ds" ["f/p.tsv"; "f/q.tsv"] []
  = Some (1, 1, [])
  ∧ Api.delete_by_pattern (list Api.Request)
      (Api.delete_package _ (ApiRun.recording_request None) ApiRun.dry_core)
      ApiRun.literal_match 2 (Some Run.dataset_f) "p.tsv" []
    = Some (1, 0, []).
Proof.
  destruct (dry_run_sends_no_delete_or_rename (list Api.Request)
              (ApiRun.recording_request None)
              ApiRun.literal_match ApiRun.dry_core Run.dataset_f "ds" "p.tsv"
              ["f/p.tsv"; "f/q.tsv"] [] eq_refl) as (Hc & _ & Hp & _).
  split.
  - rewrite (Hc 2 (default ∅ (Packages.build_pkg_by_location 2 Run.dataset_f)) eq_refl).
    vm_compute. reflexivity.
  - exact (Hp 2 [("f/p.tsv", Run.original_p)] eq_refl).
Defined.

(** ** The package listing and its cache *)

Section ListingFacts.
Import Sidecar Packages Api.

Context {Remote : Type}.
Variable make_request : Request → Remote → option Response * Remote.
Variable quote : string → string.

Abbreviation fetch_pages := (Api.fetch_pages Remote make_request).
Abbreviation get_dataset_packages := (Api.get_dataset_packages Remote make_request quote).

(** The pages are appended to what was fetched before. *)
Lemma fetch_pages_extends fuel base_url cursor acc r l r' :
  fetch_pages fuel base_url cursor acc r = Some (l, r') → ∃ more, l = acc ++ more.
Proof.
  revert cursor acc r. induction fuel as [|fuel IH]; intros cursor acc r; [done|].
  cbn [Api.fetch_pages].
  destruct (make_request _ r) as [[[|pk cur|ds total]|] r1].
  - intros [= <- _]. exists []. by rewrite app_nil_r.
  - destruct (truthy cur).
    + intros (more & ->)%IH. exists (pk ++ more). by rewrite app_assoc.
    + intros [= <- _]. by exists pk.
  - intros [= <- _]. exists []. by rewrite app_nil_r.
  - intros [= <- _]. exists []. by rewrite app_nil_r.
Qed.

(** More fuel does not change a listing that was obtained. *)
Lemma fetch_pages_more_fuel fuel fuel' base_url cursor acc r res :
  fetch_pages fuel base_url cursor acc r = Some res → fuel ≤ fuel' →
  fetch_pages fuel' base_url cursor acc r = Some res.
Proof.
  revert fuel' cursor acc r. induction fuel as [|fuel IH]; intros fuel' cursor acc r; [done|].
  intros H Hle. destruct fuel' as [|fuel']; [lia|].
  cbn [Api.fetch_pages] in *.
  destruct (make_request _ r) as [[[|pk cur|ds total]|] r1]; try done.
  destruct (truthy cur); [|done]. apply IH; [done | lia].
Qed.

End ListingFacts.

(** X6.  The package listing is cached by dataset id.  A call that finds the
    listing in the cache returns it without any request, even with no fuel
    for requests; a call that returned a listing has stored it, so that the
    next call without [force_reload] returns the same listing and leaves the
    remote platform and the cache as they are; and no call touches the cache
    entry of another key. *)
Theorem package_listing_is_cached
    (Remote : Type)
    (make_request : Api.Request → Remote → option Api.Response * Remote)
    (quote : string → string)
    (self : Api.Core) (fuel fuel' : nat) (dataset_id : string) (force_reload : bool)
    (st st' : Api.Store Remote) (packages : list Packages.Package) :
  Api.get_dataset_packages Remote make_request quote self fuel dataset_id force_reload st
  = Some (packages, st') →
  Api.get_dataset_packages Remote make_request quote self fuel' dataset_id false st'
  = Some (packages, st')
  ∧ Api.cache _ st' !! Api.cache_key dataset_id = Some packages
  ∧ (∀ k, k ≠ Api.cache_key dataset_id → Api.cache _ st' !! k = Api.cache _ st !! k)
  ∧ (force_reload = false →
     is_Some (Api.cache _ st !! Api.cache_key dataset_id) → st' = st)
  ∧ (fuel ≤ fuel' →
     Api.get_dataset_packages Remote make_request quote self fuel' dataset_id
       force_reload st
     = Some (packages, st')).
Proof.
  unfold Api.get_dataset_packages, Api.load_data.
  destruct (if force_reload then None else Api.cache _ st !! Api.cache_key dataset_id)
    as [cached|] eqn:Ec.
  - intros [= <- <-]. destruct force_reload; [done|]. rewrite Ec. done.
  - destruct (Api.fetch_pages _ _ _ _ _ _ _) as [[all r']|] eqn:Ef; [|done].
    cbn [mbind option_bind]. intros [= <- <-]. cbn [Api.cache Api.remote].
    unfold Api.save_data. rewrite lookup_insert_eq. split; [done|]. split; [done|].
    split; [|split].
    + intros k Hk. by rewrite lookup_insert_ne.
    + intros -> [x Hx]. by rewrite Hx in Ec.
    + intros Hle. by rewrite (fetch_pages_more_fuel _ _ _ _ _ _ _ _ Ef Hle).
Qed.

(** A first call that fetches the one page of the listing, and the call
    after it. *)
Lemma package_listing_is_cached_witness :
  Api.get_dataset_packages (list Api.Request)
    (ApiRun.recording_request (Some (Api.Body Run.dataset_f None))) ApiRun.quote_plain
    ApiRun.live_core 0 "ds1" false
    (Api.MkStore _ [ApiRun.listing_request "ds1"] {[ "packages_ds1" := Run.dataset_f ]})
  = Some (Run.dataset_f,
          Api.MkStore _ [ApiRun.listing_request "ds1"]
            {[ "packages_ds1" := Run.dataset_f ]}).
Proof.
  exact (proj1 (package_listing_is_cached (list Api.Request)
           (ApiRun.recording_request (Some (Api.Body Run.dataset_f None)))
           ApiRun.quote_plain ApiRun.live_core 1 0 "ds1" false
           (Api.MkStore _ [] ∅) _ Run.dataset_f eq_refl)).
Defined.

(** X7.  A listing request that fails is not told apart from an empty
    dataset: when the first request fails (or answers without content) the
    call returns the empty list and stores it, and from then on every call
    without [force_reload] answers with the empty list and asks nothing. *)
Theorem failed_listing_is_cached_as_empty
    (Remote : Type)
    (make_request : Api.Request → Remote → option Api.Response * Remote)
    (quote : string → string)
    (self : Api.Core) (fuel fuel' : nat) (dataset_id : string) (force_reload : bool)
    (st : Api.Store Remote) (result : option Api.Response) (r' : Remote) :
  Api.load_data (Api.cache_key dataset_id) force_reload (Api.cache _ st) = None →
  make_request
    (Api.MkRequest Api.GET
       (Api.api_host self +:+ "/datasets/" +:+ quote dataset_id
        +:+ "/packages?pageSize=1000&includeSourceFiles=false") None)
    (Api.remote _ st) = (result, r') →
  result = None ∨ result = Some Api.EmptyBody →
  let st' := Api.MkStore _ r' (<[Api.cache_key dataset_id := []]> (Api.cache _ st)) in
  Api.get_dataset_packages Remote make_request quote self (S fuel) dataset_id force_reload st
  = Some ([], st')
  ∧ Api.get_dataset_packages Remote make_request quote self fuel' dataset_id false st'
    = Some ([], st').
Proof.
  intros Hload Hreq Hres st'. split.
  - unfold Api.get_dataset_packages. rewrite Hload. cbn [Api.fetch_pages Packages.truthy].
    rewrite Hreq. by destruct Hres as [-> | ->].
  - unfold Api.get_dataset_packages, Api.load_data, st'. cbn [Api.cache].
    by rewrite lookup_insert_eq.
Qed.

Lemma failed_listing_is_cached_as_empty_witness :
  Api.get_dataset_packages (list Api.Request) (ApiRun.recording_request None)
    ApiRun.quote_plain ApiRun.live_core 1 "ds1" false (Api.MkStore _ [] ∅)
  = Some ([], Api.MkStore _ [ApiRun.listing_request "ds1"] {[ "packages_ds1" := [] ]})
  ∧ Api.get_dataset_packages (list Api.Request) (ApiRun.recording_request None)
      ApiRun.quote_plain ApiRun.live_core 0 "ds1" false
      (Api.MkStore _ [ApiRun.listing_request "ds1"] {[ "packages_ds1" := [] ]})
    = Some ([], Api.MkStore _ [ApiRun.listing_request "ds1"]
                  {[ "packages_ds1" := [] ]}).
Proof.
  exact (failed_listing_is_cached_as_empty (list Api.Request)
           (ApiRun.recording_request None) ApiRun.quote_plain ApiRun.live_core 0 0
           "ds1" false (Api.MkStore _ [] ∅) None _ eq_refl eq_refl (or_introl eq_refl)).
Defined.

(** ** Required fields of constructed sidecars *)

Section RequiredFacts.
Import Sidecar.

Lemma elem_of_first_occurrences seen l k :
  k ∈ Dict.first_occurrences seen l ↔ k ∈ l ∧ k ∉ seen.
Proof.
  revert seen. induction l as [|a l IH]; intros seen; simpl.
  - rewrite elem_of_nil. tauto.
  - case_bool_decide as Ha.
    + rewrite IH, elem_of_cons. split; [tauto|].
      intros [[->|?] ?]; tauto.
    + rewrite elem_of_cons, IH, not_elem_of_cons, elem_of_cons.
      destruct (decide (k = a)) as [->|]; tauto.
Qed.

Lemma elem_of_keys {V : Type} k (d : list (string * V)) :
  k ∈ Dict.keys d ↔ is_Some (Dict.get k d).
Proof.
  unfold Dict.keys. rewrite elem_of_first_occurrences.
  rewrite <- not_eq_None_Some, dict_get_None.
  pose proof (not_elem_of_nil k). destruct (decide (k ∈ d.*1)); tauto.
Qed.

Lemma elem_of_keys_merge {V : Type} k (d s : list (string * V)) :
  k ∈ Dict.keys (Dict.merge d s) ↔ k ∈ Dict.keys d ∨ k ∈ Dict.keys s.
Proof.
  rewrite !elem_of_keys, dict_get_merge.
  destruct (Dict.get k s), (Dict.get k d); split; eauto.
  - intros [H|H]; by destruct H.
Qed.

Lemma elem_of_keys_init_data k (d : list (string * Value)) :
  k ∈ Dict.keys (Sidecar_init_data d) ↔ k ∈ Dict.keys d ∧ k ∉ excluded_fields.
Proof.
  unfold Sidecar_init_data. rewrite !elem_of_keys, dict_get_filter_keys.
  unfold is_excluded. case_bool_decide; simpl; split; try tauto.
  - by intros [? [=]].
Qed.

Lemma elem_of_msg_if b m x : x ∈ msg_if b m ↔ b = true ∧ x = m.
Proof.
  destruct b; simpl.
  - rewrite list_elem_of_singleton. split; [done|tauto].
  - rewrite elem_of_nil. split; [done|]. by intros [? _].
Qed.

Lemma nonempty_true l : nonempty l = true ↔ ∃ x, x ∈ l.
Proof.
  destruct l as [|a l]; simpl; split; try done.
  - by intros [x ?%elem_of_nil].
  - intros _. exists a. left.
Qed.

Variable float : Value → Conversion.
Variable py_str : Value → Outcome string.

(** The missing-required error of each validator: there is at most one, and
    it lists the required fields that no row has. *)
Lemma MissingRequired_in_errors c (self : TSVSidecar) data m ok report :
  tkind self = c → data ≠ [] →
  TSV_validate float py_str self (Some (DataRows data)) = Returned (ok, report) →
  MissingRequired m ∈ errors report
  ↔ (∃ k, k ∈ set_diff (REQUIRED_FIELDS c) (all_keys data))
    ∧ m = sorted (set_diff (REQUIRED_FIELDS c) (all_keys data)).
Proof.
  intros Hc Hne. unfold TSV_validate. rewrite Hc.
  assert (∀ added : list Msg,
            (∀ x, x ∈ added ↔
                  ∃ i row field v,
                    data !! i = Some row ∧ field ∈ numeric_fields c
                    ∧ (Dict.get field row = Some v ∧ is_na v = false
                       ∧ float v = Rejected)
                    ∧ x = MustBeNumeric (S i) field v) →
            MissingRequired m ∉ added) as Hnot.
  { intros added Hadded (i & row & field & v & _ & _ & _ & [=])%Hadded. }
  destruct c; intros Hv.
  - apply (ChannelsSidecar_validate_Returned float py_str self data ok report Hne) in Hv
      as (_ & -> & _).
    rewrite elem_of_msg_if, nonempty_true. split; [intros [? [= ->]]|intros [? ->]]; done.
  - apply (ElectrodesSidecar_validate_Returned float py_str self data ok report Hne) in Hv
      as (_ & (added & -> & Hadded) & _).
    rewrite elem_of_app, elem_of_msg_if, nonempty_true. split.
    + intros [[? [= ->]]|Hin]; [done|]. by apply Hnot in Hin.
    + intros [? ->]. by left.
  - apply (EventsSidecar_validate_Returned float py_str self data ok report Hne) in Hv
      as (_ & (added & -> & Hadded) & _).
    rewrite elem_of_app, elem_of_msg_if, nonempty_true. split.
    + intros [[? [= ->]]|Hin]; [done|]. by apply Hnot in Hin.
    + intros [? ->]. by left.
  - apply (ParticipantsSideCarTSV_validate_Returned self data ok report Hne) in Hv
      as (_ & ->).
    rewrite elem_of_msg_if, nonempty_true. split; [intros [? [= ->]]|intros [? ->]]; done.
Qed.

End RequiredFacts.

(** X10.  What a TSV sidecar built from rows reports as missing: the
    constructor fills the row defaults in, so the missing-required error in
    the report that [validate] returns names exactly the required fields that
    have no default and that no supplied row has.  These can only be [name]
    for channels, [name], [x], [y], [z] for electrodes, [onset] for events
    and [participant_id] for participants; a required field that a single
    row supplies is not reported, whatever the other rows hold. *)
Theorem constructed_rows_missing_required
    (float : Value → Sidecar.Conversion) (py_str : Value → Sidecar.Outcome string)
    (c : TSVKind) (rows0 : list (list (string * Value)))
    (m : list string) (ok : bool) (report : Sidecar.Report) :
  rows0 ≠ [] →
  Sidecar.TSV_validate float py_str (Sidecar.TSV_init c rows0) None
  = Sidecar.Returned (ok, report) →
  Sidecar.MissingRequired m ∈ Sidecar.errors report →
  m ≠ []
  ∧ ∀ k, k ∈ m ↔
         k ∈ match c with
             | Channels => ["name"]
             | Electrodes => ["name"; "x"; "y"; "z"]
             | Events => ["onset"]
             | ParticipantsTSV => ["participant_id"]
             end
         ∧ ∀ row, row ∈ rows0 → k ∉ Dict.keys row.
Proof.
  intros Hne Hv Hm.
  assert (Sidecar.TSV_validate float py_str (Sidecar.TSV_init c rows0) None
          = Sidecar.TSV_validate float py_str (Sidecar.TSV_init c rows0)
              (Some (Sidecar.DataRows (Sidecar.rows (Sidecar.TSV_init c rows0))))) as Heq.
  { unfold Sidecar.TSV_validate. by destruct c. }
  rewrite Heq in Hv. clear Heq.
  apply (MissingRequired_in_errors float py_str c (Sidecar.TSV_init c rows0)
           (Sidecar.rows (Sidecar.TSV_init c rows0)) m ok report eq_refl) in Hm;
    [| |exact Hv].
  2:{ rewrite TSV_init_rows. by destruct rows0. }
  clear Hv.
  destruct Hm as [[k0 Hk0] ->].
  assert (∀ k, k ∈ Sidecar.sorted
                     (Sidecar.set_diff (Sidecar.REQUIRED_FIELDS c)
                        (Sidecar.all_keys (Sidecar.rows (Sidecar.TSV_init c rows0))))
               ↔ (k ∈ Sidecar.REQUIRED_FIELDS c ∧ k ∉ Dict.keys (Sidecar.ROW_DEFAULTS c))
                 ∧ ∀ row, row ∈ rows0 → k ∉ Dict.keys row) as Hchar.
  { intros k. rewrite elem_of_sorted, elem_of_set_diff, elem_of_all_keys, TSV_init_rows.
    split.
    - intros [Hreq Hno]. split; [split; [done|]|].
      + intros Hd. apply Hno. destruct rows0 as [|row0 rest]; [done|].
        exists (Dict.merge (Sidecar.ROW_DEFAULTS c) row0). split; [left|].
        apply elem_of_keys_merge. by left.
      + intros row Hrow Hk. apply Hno.
        exists (Dict.merge (Sidecar.ROW_DEFAULTS c) row).
        split; [by apply list_elem_of_fmap_2|]. apply elem_of_keys_merge. by right.
    - intros [[Hreq Hd] Hrows]. split; [done|].
      intros (row' & (row & -> & Hrow)%list_elem_of_fmap & [Hk|Hk]%elem_of_keys_merge);
        [done | by apply (Hrows row)]. }
  split.
  - intros Hnil. apply elem_of_sorted in Hk0. rewrite Hnil in Hk0.
    by apply elem_of_nil in Hk0.
  - intros k. rewrite Hchar.
    assert (k ∈ Sidecar.REQUIRED_FIELDS c ∧ k ∉ Dict.keys (Sidecar.ROW_DEFAULTS c)
            ↔ k ∈ match c with
                  | Channels => ["name"]
                  | Electrodes => ["name"; "x"; "y"; "z"]
                  | Events => ["onset"]
                  | ParticipantsTSV => ["participant_id"]
                  end) as ->; [|done].
    rewrite <- elem_of_set_diff. by destruct c.
Qed.

(** An electrodes sidecar built from one row that has a name only: the
    coordinates are reported, the size is not, as it has a default. *)
Lemma constructed_rows_missing_required_witness :
  Sidecar.TSV_validate Run.float_of Run.str_of
    (Sidecar.TSV_init Electrodes [[("name", VStr "A1")]]) None
  = Sidecar.Returned
      (false,
       Sidecar.MkReport [Sidecar.MissingRequired ["x"; "y"; "z"]] []
         ["group"; "hemisphere"; "manufacturer"; "material"; "name"; "size"])
  ∧ ["x"; "y"; "z"] ≠ []
  ∧ ∀ k, k ∈ ["x"; "y"; "z"] ↔
         k ∈ ["name"; "x"; "y"; "z"]
         ∧ ∀ row, row ∈ [[("name", VStr "A1")]] → k ∉ Dict.keys row.
Proof.
  split; [vm_compute; reflexivity|].
  apply (constructed_rows_missing_required Run.float_of Run.str_of Electrodes
           [[("name", VStr "A1")]] ["x"; "y"; "z"] false
           (Sidecar.MkReport [Sidecar.MissingRequired ["x"; "y"; "z"]] []
              ["group"; "hemisphere"; "manufacturer"; "material"; "name"; "size"]));
    [done| |].
  - vm_compute. reflexivity.
  - left.
Defined.

(** ** Constructed JSON sidecars *)

Section ConstructedJSONFacts.
Import Sidecar IeegValidation.

Lemma JSON_init_get c fields k :
  Dict.get k (data (JSON_init c fields))
  = if is_excluded k then None
    else match Dict.get k fields with
         | Some v => Some v
         | None => Dict.get k (DEFAULTS c)
         end.
Proof.
  unfold JSON_init, Sidecar_init_data. cbn [data].
  rewrite dict_get_filter_keys, dict_get_merge. by destruct (is_excluded k).
Qed.

(** Every required field of a JSON class has a default, and none is one of
    the path options. *)
Lemma required_has_default c k :
  k ∈ JSON_REQUIRED_FIELDS c →
  is_Some (Dict.get k (DEFAULTS c)) ∧ is_excluded k = false.
Proof.
  intros H. destruct c; cbn [JSON_REQUIRED_FIELDS] in H;
    repeat (apply elem_of_cons in H as [->|H]); try (by apply elem_of_nil in H);
    split; vm_compute; eauto.
Qed.

Lemma required_present c fields k :
  k ∈ JSON_REQUIRED_FIELDS c → k ∈ Dict.keys (data (JSON_init c fields)).
Proof.
  intros [Hd He]%required_has_default. apply elem_of_keys.
  rewrite JSON_init_get, He. destruct (Dict.get k fields); [eauto | done].
Qed.

Lemma missing_required_empty c fields :
  set_diff (JSON_REQUIRED_FIELDS c) (Dict.keys (data (JSON_init c fields))) = [].
Proof.
  destruct (set_diff _ _) as [|k l] eqn:E; [done|].
  assert (k ∈ set_diff (JSON_REQUIRED_FIELDS c) (Dict.keys (data (JSON_init c fields))))
    as [Hk Hn]%elem_of_set_diff by (rewrite E; left).
  destruct Hn. by apply required_present.
Qed.

Lemma foldl_emit_log (errors : list (list string)) w :
  log (foldl (λ w path, emit ERROR (SchemaError path) w) w errors)
  = log w ++ ((λ path, (ERROR, SchemaError path)) <$> errors)
  ∧ files (foldl (λ w path, emit ERROR (SchemaError path) w) w errors) = files w.
Proof.
  revert w. induction errors as [|e errors IH]; intros w; cbn [foldl fmap list_fmap].
  - by rewrite app_nil_r.
  - destruct (IH (emit ERROR (SchemaError e) w)) as [-> ->]. cbn [emit log files].
    by rewrite <- app_assoc.
Qed.

(** A property whose value has the wrong type is among the schema errors. *)
Lemma schema_errors_wrong_type required properties data k check v :
  (k, check) ∈ properties → Dict.get k data = Some v → check v = false →
  [k] ∈ schema_errors required properties data.
Proof.
  intros Hp Hg Hc. unfold schema_errors. apply elem_of_app. right.
  apply list_elem_of_fmap. exists k. split; [done|].
  apply elem_of_sorted, list_elem_of_omap. exists (k, check). split; [done|].
  cbn [fst snd]. by rewrite Hg, Hc.
Qed.

End ConstructedJSONFacts.

(** X11.  A constructed JSON sidecar never lacks a required field: every
    required field of every JSON class has a default and is not one of the
    path options, so the record holds the supplied value or else the
    default, and the set of missing required fields that [validate]
    computes is empty. *)
Theorem constructed_json_has_required_fields
    (c : JSONKind) (fields : list (string * Value)) :
  (∀ k, k ∈ Sidecar.JSON_REQUIRED_FIELDS c →
     is_Some (Dict.get k (Sidecar.DEFAULTS c))
     ∧ Dict.get k (Sidecar.data (Sidecar.JSON_init c fields))
       = match Dict.get k fields with
         | Some v => Some v
         | None => Dict.get k (Sidecar.DEFAULTS c)
         end)
  ∧ Sidecar.set_diff (Sidecar.JSON_REQUIRED_FIELDS c)
      (Dict.keys (Sidecar.data (Sidecar.JSON_init c fields))) = [].
Proof.
  split; [|apply missing_required_empty].
  intros k Hk. destruct (required_has_default c k Hk) as [Hd He].
  split; [done|]. by rewrite JSON_init_get, He.
Qed.

(** X12.  [validate] on a constructed coordinate-system or iEEG sidecar
    either raises for the schema errors, after logging each, or returns
    [True] after at most two warnings and the closing message; it never
    raises for a missing required field and writes no file.  The iEEG
    default of [SamplingFrequency] is the text ["n/a"], which the schema
    refuses: an iEEG sidecar validates only when a number is supplied for
    it. *)
Theorem constructed_json_validate_outcome
    (fields : list (string * Value)) (w : Sidecar.World) :
  let passed := λ (res : Sidecar.Outcome bool * Sidecar.World),
    ∃ warnings,
      res = (Sidecar.Returned true,
             Sidecar.MkWorld (Sidecar.files w)
               (Sidecar.log w ++ warnings ++ [(Sidecar.INFO, Sidecar.ValidationPassed)]))
      ∧ length warnings ≤ 2
      ∧ Forall (λ lm, lm.1 = Sidecar.WARNING) warnings in
  let refused := λ (errors : list (list string))
                   (res : Sidecar.Outcome bool * Sidecar.World),
    res = (Sidecar.Raised (Sidecar.ValueError (Sidecar.SchemaErrorCount (length errors))),
           Sidecar.MkWorld (Sidecar.files w)
             (Sidecar.log w
              ++ ((λ path, (Sidecar.ERROR, Sidecar.SchemaError path)) <$> errors))) in
  let coord := Sidecar.JSON_init CoordSystem fields in
  let ieeg := Sidecar.JSON_init Ieeg fields in
  (if bool_decide (Sidecar.CoordSystem_schema_errors (Sidecar.data coord) = [])
   then passed (Sidecar.CoordSystemSidecar_validate coord w)
   else refused (Sidecar.CoordSystem_schema_errors (Sidecar.data coord))
          (Sidecar.CoordSystemSidecar_validate coord w))
  ∧ (if bool_decide (IeegValidation.Ieeg_schema_errors (Sidecar.data ieeg) = [])
     then passed (IeegValidation.IeegSidecar_validate ieeg w)
     else refused (IeegValidation.Ieeg_schema_errors (Sidecar.data ieeg))
            (IeegValidation.IeegSidecar_validate ieeg w))
  ∧ (IeegValidation.is_number
       (default (VStr "n/a") (Dict.get "SamplingFrequency" fields)) = false →
     ["SamplingFrequency"] ∈ IeegValidation.Ieeg_schema_errors (Sidecar.data ieeg)).
Proof.
  intros passed refused coord ieeg.
  assert (∀ (a b : list string) (w0 : Sidecar.World),
            passed (Sidecar.Returned true,
                    Sidecar.emit Sidecar.INFO Sidecar.ValidationPassed
                      ((λ w1, if Sidecar.nonempty b
                              then Sidecar.emit Sidecar.WARNING
                                     (Sidecar.ExtraFields (Sidecar.sorted b)) w1
                              else w1)
                         (if Sidecar.nonempty a
                          then Sidecar.emit Sidecar.WARNING
                                 (Sidecar.MissingRecommended (Sidecar.sorted a)) w
                          else w)))) as Hpass.
  { intros a b _. unfold passed.
    destruct (Sidecar.nonempty a), (Sidecar.nonempty b); cbn [Sidecar.emit Sidecar.log Sidecar.files].
    - exists [(Sidecar.WARNING, Sidecar.MissingRecommended (Sidecar.sorted a));
              (Sidecar.WARNING, Sidecar.ExtraFields (Sidecar.sorted b))].
      split; [unfold Sidecar.emit; cbn [Sidecar.log Sidecar.files]; by rewrite <- ?app_assoc|]. split; [simpl; lia|]. by repeat constructor.
    - exists [(Sidecar.WARNING, Sidecar.MissingRecommended (Sidecar.sorted a))].
      split; [unfold Sidecar.emit; cbn [Sidecar.log Sidecar.files]; by rewrite <- ?app_assoc|]. split; [simpl; lia|]. by repeat constructor.
    - exists [(Sidecar.WARNING, Sidecar.ExtraFields (Sidecar.sorted b))].
      split; [unfold Sidecar.emit; cbn [Sidecar.log Sidecar.files]; by rewrite <- ?app_assoc|]. split; [simpl; lia|]. by repeat constructor.
    - exists []. split; [done|]. split; [simpl; lia|]. constructor. }
  assert (∀ errors : list (list string),
            errors ≠ [] →
            refused errors
              (Sidecar.Raised (Sidecar.ValueError (Sidecar.SchemaErrorCount (length errors))),
               foldl (λ w path, Sidecar.emit Sidecar.ERROR (Sidecar.SchemaError path) w)
                     w errors)) as Hrefuse.
  { intros errors _. unfold refused. f_equal.
    destruct (foldl_emit_log errors w) as [Hl Hf].
    destruct (foldl _ w errors) as [fs lg]. cbn [Sidecar.log Sidecar.files] in *.
    by rewrite Hl, Hf. }
  clearbody passed refused. unfold coord, ieeg. clear coord ieeg.
  split; [|split].
  - case_bool_decide as He.
    + unfold Sidecar.CoordSystemSidecar_validate. rewrite He.
      rewrite coordsystem_description_always_present, andb_false_r.
      rewrite missing_required_empty. cbn [Sidecar.nonempty]. apply (Hpass _ _ w).
    + unfold Sidecar.CoordSystemSidecar_validate.
      destruct (Sidecar.CoordSystem_schema_errors _) as [|e es] eqn:E; [done|].
      by apply Hrefuse.
  - case_bool_decide as He.
    + unfold IeegValidation.IeegSidecar_validate. rewrite He.
      rewrite missing_required_empty. cbn [Sidecar.nonempty]. apply (Hpass _ _ w).
    + unfold IeegValidation.IeegSidecar_validate.
      destruct (IeegValidation.Ieeg_schema_errors _) as [|e es] eqn:E; [done|].
      by apply Hrefuse.
  - intros Hn. unfold IeegValidation.Ieeg_schema_errors.
    eapply (schema_errors_wrong_type _ _ _ "SamplingFrequency" IeegValidation.is_number).
    + unfold IeegValidation.Ieeg_properties. do 2 right. left.
    + rewrite JSON_init_get.
      change (Sidecar.is_excluded "SamplingFrequency") with false. cbv iota.
      change (Dict.get "SamplingFrequency" (Sidecar.DEFAULTS Ieeg)) with (Some (VStr "n/a")).
      instantiate (1 := default (VStr "n/a") (Dict.get "SamplingFrequency" fields)).
      by destruct (Dict.get "SamplingFrequency" fields).
    + done.
Qed.

(** The iEEG sidecar built from no fields at all is refused by its schema. *)
Lemma constructed_json_validate_outcome_witness :
  ["SamplingFrequency"]
  ∈ IeegValidation.Ieeg_schema_errors (Sidecar.data (Sidecar.JSON_init Ieeg [])).
Proof.
  exact (proj2 (proj2 (constructed_json_validate_outcome [] (Sidecar.MkWorld ∅ [])))
           eq_refl).
Defined.

(** ** Channel rows through the channels sidecar *)

Section ChannelRowFacts.
Import Sidecar ChannelRows.

(** A row with the ten columns of a channel row, in the order of the dict
    that [build_channel_row] returns. *)
Lemma merged_channel_row (v1 v2 v3 v4 v5 v6 v7 v8 v9 v10 : Value) :
  let row := [("name", v1); ("type", v2); ("units", v3); ("low_cutoff", v4);
              ("high_cutoff", v5); ("reference", v6); ("ground", v7);
              ("group", v8); ("sampling_frequency", v9); ("notch", v10)] in
  Dict.merge (ROW_DEFAULTS Channels) row
  = [("type", v2); ("units", v3); ("low_cutoff", v4); ("high_cutoff", v5);
     ("notch", v10); ("reference", v6); ("ground", v7); ("group", v8);
     ("sampling_frequency", v9); ("name", v1)].
Proof. vm_compute. reflexivity. Qed.

Lemma build_channel_row_shape pkg_name sampling_freq reference ground :
  ∃ v1 v2 v5 v6 v7 v8,
    build_channel_row pkg_name sampling_freq reference ground
    = [("name", VStr v1); ("type", VStr v2); ("units", VStr "uV");
       ("low_cutoff", VStr "n/a"); ("high_cutoff", VStr v5);
       ("reference", VStr v6); ("ground", VStr v7); ("group", VStr v8);
       ("sampling_frequency", sampling_freq); ("notch", VStr "n/a")]
    ∧ (v5 = "0.01" ∨ v5 = "n/a").
Proof.
  unfold build_channel_row. do 6 eexists. split; [reflexivity|].
  destruct (contains _ _); simpl; auto.
Qed.

Lemma filter_all {A : Type} (f : A → bool) (l : list A) :
  Forall (λ x, f x = true) l → List.filter f l = l.
Proof. induction 1 as [|x l Hx _ IH]; simpl; [done|]. by rewrite Hx, IH. Qed.

Lemma set_diff_nil a b : (∀ x, x ∈ a → x ∈ b) → set_diff a b = [].
Proof.
  intros H. apply set_diff_empty in H. by destruct (set_diff a b).
Qed.

Variable float : Value → Conversion.
Variable py_str : Value → Outcome string.
Hypothesis float_001 : float (VStr "0.01") = Converted.

Abbreviation merged_keys :=
  ["type"; "units"; "low_cutoff"; "high_cutoff"; "notch"; "reference"; "ground";
   "group"; "sampling_frequency"; "name"].

(** What the constructor makes of a channel row: the same ten columns, all
    of them texts but the sampling frequency, and the cut-offs and the notch
    either not available or the text [0.01]. *)
Lemma built_row_merged pkg_name sampling_freq reference ground :
  let row := Dict.merge (ROW_DEFAULTS Channels)
               (build_channel_row pkg_name sampling_freq reference ground) in
  Dict.keys row = merged_keys
  ∧ row_cells COLUMN_ORDER row
    = (build_channel_row pkg_name sampling_freq reference ground).*2
  ∧ (∀ field v, field ∈ ["low_cutoff"; "high_cutoff"; "notch"] →
       Dict.get field row = Some v → is_na v = true ∨ v = VStr "0.01")
  ∧ Dict.get "sampling_frequency" row = Some sampling_freq
  ∧ (∀ k v, Dict.get k row = Some v → (∃ s, v = VStr s) ∨ v = sampling_freq).
Proof.
  destruct (build_channel_row_shape pkg_name sampling_freq reference ground)
    as (v1 & v2 & v5 & v6 & v7 & v8 & -> & Hv5).
  cbv zeta.
  rewrite (merged_channel_row (VStr v1) (VStr v2) (VStr "uV") (VStr "n/a") (VStr v5)
             (VStr v6) (VStr v7) (VStr v8) sampling_freq (VStr "n/a")).
  split; [by vm_compute|]. split; [by vm_compute|]. split; [|split; [by vm_compute|]].
  - intros field v Hf.
    repeat (apply elem_of_cons in Hf as [->|Hf]); try (by apply elem_of_nil in Hf).
    + vm_compute. intros [= <-]. by left.
    + change (Dict.get "high_cutoff" _) with (Some (VStr v5)). intros [= <-].
      destruct Hv5 as [-> | ->]; [by right|by left].
    + vm_compute. intros [= <-]. by left.
  - intros k v Hg.
    assert ((k, v) ∈ [("type", VStr v2); ("units", VStr "uV");
                      ("low_cutoff", VStr "n/a"); ("high_cutoff", VStr v5);
                      ("notch", VStr "n/a"); ("reference", VStr v6);
                      ("ground", VStr v7); ("group", VStr v8);
                      ("sampling_frequency", sampling_freq); ("name", VStr v1)])
      as Hin.
    { revert Hg. generalize [("type", VStr v2); ("units", VStr "uV");
                             ("low_cutoff", VStr "n/a"); ("high_cutoff", VStr v5);
                             ("notch", VStr "n/a"); ("reference", VStr v6);
                             ("ground", VStr v7); ("group", VStr v8);
                             ("sampling_frequency", sampling_freq);
                             ("name", VStr v1)].
      intros row. induction row as [|[k' v'] row IH]; [done|]. cbn [Dict.get].
      destruct (Dict.get k row) as [w|] eqn:E.
      - intros [= <-]. right. by apply IH.
      - destruct (decide (k = k')) as [->|]; [|done]. intros [= <-]. left. }
    repeat (apply elem_of_cons in Hin as [[= -> ->]|Hin]); eauto.
    by apply elem_of_nil in Hin.
Qed.

Lemma all_keys_merged (data : list (list (string * Value))) k :
  data ≠ [] → Forall (λ row, Dict.keys row = merged_keys) data →
  k ∈ all_keys data ↔ k ∈ merged_keys.
Proof.
  intros Hne Hkeys. rewrite elem_of_all_keys. rewrite Forall_forall in Hkeys. split.
  - intros (row & Hrow & Hk). by rewrite (Hkeys row Hrow) in Hk.
  - intros Hk. destruct data as [|row0 rest]; [done|].
    exists row0. split; [left|]. rewrite (Hkeys row0); [done | left].
Qed.

Lemma all_keys_columns (data : list (list (string * Value))) k :
  data ≠ [] → Forall (λ row, Dict.keys row = merged_keys) data →
  k ∈ all_keys data ↔ k ∈ COLUMN_ORDER.
Proof.
  intros Hne Hkeys. rewrite all_keys_merged by done. unfold COLUMN_ORDER.
  rewrite !elem_of_cons, !elem_of_nil. tauto.
Qed.

Lemma channels_fieldnames_built (data : list (list (string * Value))) :
  data ≠ [] → Forall (λ row, Dict.keys row = merged_keys) data →
  channels_fieldnames data = COLUMN_ORDER.
Proof.
  intros Hne Hkeys.
  assert (channels_fieldnames data
          = List.filter (λ c, bool_decide (c ∈ all_keys data)) COLUMN_ORDER
            ++ sorted (set_diff (all_keys data) COLUMN_ORDER)) as -> by by destruct data.
  rewrite filter_all.
  - rewrite set_diff_nil; [by vm_compute|]. intros x. by rewrite all_keys_columns.
  - apply Forall_forall. intros x Hx. apply bool_decide_eq_true.
    by apply all_keys_columns.
Qed.

Lemma consistency_warnings_built (data : list (list (string * Value))) :
  data ≠ [] → Forall (λ row, Dict.keys row = merged_keys) data →
  consistency_warnings (all_keys data) data = [].
Proof.
  intros Hne Hkeys. unfold consistency_warnings.
  assert (∀ (l : list (nat * list (string * Value))),
            Forall (λ ir, Dict.keys ir.2 = merged_keys) l →
            omap (λ ir : nat * list (string * Value),
                    if set_neq (Dict.keys ir.2) (all_keys data)
                    then Some (InconsistentColumns (S ir.1)) else None) l = []) as H.
  { induction 1 as [|ir l Hir _ IH]; [done|]. cbn [omap list_omap].
    unfold set_neq at 1. rewrite Hir.
    rewrite !bool_decide_eq_true_2; [done|..].
    - intros x. by rewrite all_keys_merged.
    - intros x. by rewrite all_keys_merged. }
  apply H. apply Forall_forall.
  intros [i row] (i' & row' & [= -> ->] & Hl)%elem_of_lookup_imap.
  rewrite Forall_forall in Hkeys. apply Hkeys. by eapply list_elem_of_lookup_2.
Qed.

(** The rows of a sidecar built from channel rows. *)
Lemma built_rows (inputs : list (string * Value)) reference ground :
  let rows := (λ i : string * Value,
                 build_channel_row i.1 i.2 reference ground) <$> inputs in
  let data := Sidecar.rows (TSV_init Channels rows) in
  (inputs ≠ [] → data ≠ [])
  ∧ Forall (λ row, Dict.keys row = merged_keys) data
  ∧ (∀ i row, data !! i = Some row →
       ∃ name freq,
         inputs !! i = Some (name, freq)
         ∧ row = Dict.merge (ROW_DEFAULTS Channels)
                   (build_channel_row name freq reference ground))
  ∧ row_cells COLUMN_ORDER <$> data = (λ row, row.*2) <$> rows.
Proof.
  intros rows data.
  assert (data = Dict.merge (ROW_DEFAULTS Channels) <$> rows) as Hdata
    by apply TSV_init_rows.
  split; [|split; [|split]].
  - intros Hne. rewrite Hdata. unfold rows. by destruct inputs.
  - rewrite Hdata. unfold rows. rewrite <- list_fmap_compose.
    apply Forall_fmap, Forall_forall. intros [name freq] _. cbn [compose fst snd].
    apply (built_row_merged name freq reference ground).
  - intros i row Hi. rewrite Hdata in Hi. unfold rows in Hi.
    rewrite <- list_fmap_compose in Hi.
    apply list_lookup_fmap_Some in Hi as ([name freq] & -> & Hi).
    by exists name, freq.
  - rewrite Hdata. unfold rows. rewrite <- !list_fmap_compose.
    apply list_fmap_ext. intros _ [name freq] _. cbn [compose fst snd].
    apply (built_row_merged name freq reference ground).
Qed.

End ChannelRowFacts.

(** X13.  The channel rows of [build_channel_row] go through the channels
    sidecar unchanged.  For a non-empty list of packages, whatever their
    names, reference and ground, the sidecar built from their rows has the
    following properties.  When [float] converts or rejects every sampling
    frequency that is not a "not available" marker (and a rejected one can
    be formatted), [validate] returns without errors, with no warning other
    than a sampling frequency that is not numeric; when [float] overflows on
    one of them, [validate] raises [OverflowError].  And [save] without
    validation, as [process_dataset] calls it, writes the header line of
    [COLUMN_ORDER] and, for each row in order, the line of the values of the
    row as built, whenever the directory of the path can be made, the path
    does not end with a slash and can be opened, and every sampling
    frequency has a text.  ([float] is assumed to convert the text
    [0.01].) *)
Theorem channel_rows_validate_and_save
    (float : Value → Sidecar.Conversion) (py_str : Value → Sidecar.Outcome string)
    (os_makedirs os_open : string → option Sidecar.Exn)
    (inputs : list (string * Value))
    (reference ground output_path : string) (w : Sidecar.World) :
  float (VStr "0.01") = Sidecar.Converted →
  inputs ≠ [] →
  let rows := (λ i : string * Value,
                 ChannelRows.build_channel_row i.1 i.2 reference ground) <$> inputs in
  let sidecar := Sidecar.TSV_init Channels rows in
  let formatted freq := ∃ s, Sidecar.format_value py_str freq = Sidecar.Returned s in
  ((∀ name freq, (name, freq) ∈ inputs → Sidecar.is_na freq = false →
      float freq = Sidecar.Converted ∨ (float freq = Sidecar.Rejected ∧ formatted freq)) →
   ∃ warnings columns,
     Sidecar.ChannelsSidecar_validate float py_str sidecar None
     = Sidecar.Returned (true, Sidecar.MkReport [] warnings columns)
     ∧ Forall (λ m, ∃ i name freq,
                      inputs !! i = Some (name, freq)
                      ∧ Sidecar.is_na freq = false ∧ float freq = Sidecar.Rejected
                      ∧ m = Sidecar.ShouldBeNumeric (S i) "sampling_frequency" freq)
              warnings
     ∧ ∀ k, k ∈ columns ↔ k ∈ Sidecar.COLUMN_ORDER)
  ∧ (∀ name freq,
       (name, freq) ∈ inputs → Sidecar.is_na freq = false →
       float freq = Sidecar.Overflowed →
       (∀ name' freq', (name', freq') ∈ inputs → float freq' = Sidecar.Rejected →
                       formatted freq') →
       Sidecar.ChannelsSidecar_validate float py_str sidecar None
       = Sidecar.Raised Sidecar.OverflowError)
  ∧ (Sidecar.slash ∈ Sidecar.chars output_path →
     os_makedirs (Sidecar.dirname output_path) = None →
     Sidecar.endswith_slash output_path = false →
     os_open output_path = None →
     (∀ name freq, (name, freq) ∈ inputs →
                   ∃ s, Sidecar.cell_text py_str freq = Sidecar.Returned s) →
     ∃ lines w',
       Sidecar.ChannelsSidecar_save float py_str os_makedirs os_open sidecar
         (Some output_path) (Sidecar.MkSaveKw None false None) w
       = (Sidecar.Returned output_path, w')
       ∧ Sidecar.files w' !! output_path
         = Some (Sidecar.TSVFile (Sidecar.csv_line Sidecar.COLUMN_ORDER :: lines))
       ∧ Forall2 (λ row line, Sidecar.writerow py_str row.*2 = Sidecar.Returned line)
                 rows lines).
Proof.
  intros Hfloat Hne rows sidecar formatted.
  set (data := Sidecar.rows sidecar).
  destruct (built_rows inputs reference ground) as (Hdne & Hkeys & Hrows & Hcells).
  cbv zeta in Hdne, Hkeys, Hrows, Hcells. fold rows in Hdne, Hkeys, Hrows, Hcells.
  fold sidecar in Hdne, Hkeys, Hrows. fold data in Hdne, Hkeys, Hrows.
  specialize (Hdne Hne).
  (* the cells that the numeric check reads *)
  assert (∀ row field v,
            row ∈ data → field ∈ Sidecar.numeric_fields Channels →
            Dict.get field row = Some v → Sidecar.is_na v = false →
            v = VStr "0.01"
            ∨ (field = "sampling_frequency"
               ∧ ∃ i name, data !! i = Some row ∧ inputs !! i = Some (name, v)))
    as Hread.
  { intros row field v Hrow Hfield Hg Hna.
    apply list_elem_of_lookup_1 in Hrow as [i Hi].
    destruct (Hrows i row Hi) as (name & freq & Hin & ->).
    destruct (built_row_merged name freq reference ground)
      as (_ & _ & Hcut & Hfreq & _). cbv zeta in Hcut, Hfreq.
    cbn [Sidecar.numeric_fields] in Hfield.
    apply elem_of_cons in Hfield as [->|Hfield].
    { destruct (Hcut "low_cutoff" v) as [E|E];
        [left|exact Hg|congruence|left; exact E]. }
    apply elem_of_cons in Hfield as [->|Hfield].
    { destruct (Hcut "high_cutoff" v) as [E|E];
        [right; left|exact Hg|congruence|left; exact E]. }
    apply elem_of_cons in Hfield as [->|Hfield].
    { right. split; [reflexivity|]. exists i, name. split; [exact Hi|].
      rewrite Hfreq in Hg. injection Hg as <-. exact Hin. }
    apply elem_of_cons in Hfield as [->|Hfield];
      [|apply elem_of_nil in Hfield; destruct Hfield].
    destruct (Hcut "notch" v) as [E|E];
      [right; right; left|exact Hg|congruence|left; exact E]. }
  assert (Sidecar.ChannelsSidecar_validate float py_str sidecar None
          = Sidecar.ChannelsSidecar_validate float py_str sidecar
              (Some (Sidecar.DataRows data))) as Hvalidate by reflexivity.
  split; [|split].
  - intros Hfreqs.
    destruct (TSV_validate_returns float py_str sidecar data) as (ok & report & Hv).
    { intros row field v Hrow Hfield Hg Hna.
      destruct (Hread row field v Hrow Hfield Hg Hna)
        as [->|(_ & i & name & _ & Hin)]; [by left|].
      apply (Hfreqs name v); [|done]. by eapply list_elem_of_lookup_2. }
    change (Sidecar.TSV_validate float py_str sidecar (Some (Sidecar.DataRows data)))
      with (Sidecar.ChannelsSidecar_validate float py_str sidecar
              (Some (Sidecar.DataRows data))) in Hv.
    rewrite Hvalidate, Hv.
    destruct (ChannelsSidecar_validate_Returned float py_str sidecar data ok report
                Hdne Hv) as (Hok & Herr & (added & Hw & Hadded) & Hcol).
    cbv zeta in Hok, Herr, Hw.
    assert (Sidecar.set_diff (Sidecar.REQUIRED_FIELDS Channels) (Sidecar.all_keys data)
            = []) as Hmissing.
    { apply set_diff_nil. intros x Hx. apply all_keys_columns; [done..|].
      revert Hx. cbn [Sidecar.REQUIRED_FIELDS]. unfold Sidecar.COLUMN_ORDER.
      rewrite !elem_of_cons, !elem_of_nil. tauto. }
    assert (Sidecar.set_diff (Sidecar.all_keys data) (Sidecar.known_fields Channels)
            = []) as Hextra.
    { apply set_diff_nil. intros x Hx%all_keys_columns; [|done..].
      apply (bool_decide_unpack _). revert Hx. unfold Sidecar.COLUMN_ORDER.
      rewrite !elem_of_cons, elem_of_nil.
      intros [->|[->|[->|[->|[->|[->|[->|[->|[->|[->|[]]]]]]]]]]]; by vm_compute. }
    rewrite Hmissing in Hok, Herr. rewrite Hextra in Hw.
    rewrite consistency_warnings_built in Hw by done.
    cbn [Sidecar.nonempty Sidecar.msg_if app negb] in Hok, Herr, Hw.
    destruct report as [errs warns cols].
    cbn [Sidecar.errors Sidecar.warnings Sidecar.columns] in Herr, Hw, Hcol.
    subst ok errs warns cols.
    eexists _, _. split; [reflexivity|]. split.
    + apply Forall_forall. intros m (i & row & field & v & Hi & Hfield & Hrej & ->)%Hadded.
      destruct Hrej as (Hg & Hna & Hf).
      destruct (Hread row field v (list_elem_of_lookup_2 _ _ _ Hi) Hfield Hg Hna)
        as [->|(-> & j & name & Hj & Hin)]; [congruence|].
      destruct (Hrows i row Hi) as (name' & freq' & Hin' & Hrow).
      destruct (built_row_merged name' freq' reference ground)
        as (_ & _ & _ & Hfreq & _). cbv zeta in Hfreq.
      rewrite <- Hrow, Hg in Hfreq. injection Hfreq as <-.
      exists i, name', v. split; [exact Hin'|]. split; [exact Hna|].
      split; [exact Hf|reflexivity].
    + intros k. rewrite elem_of_sorted. by apply all_keys_columns.
  - intros name freq Hin Hna Hover Hfmt.
    rewrite Hvalidate.
    apply list_elem_of_lookup_1 in Hin as [i Hi].
    assert (∃ row, data !! i = Some row
                   ∧ Dict.get "sampling_frequency" row = Some freq) as (row & Hrow & Hg).
    { assert (is_Some (data !! i)) as [row Hrow].
      { apply lookup_lt_is_Some.
        assert (length data = length inputs) as ->.
        { unfold data, sidecar. rewrite TSV_init_rows. unfold rows.
          by rewrite !length_fmap. }
        by eapply lookup_lt_Some. }
      exists row. split; [done|].
      destruct (Hrows i row Hrow) as (name' & freq' & Hin' & ->).
      rewrite Hi in Hin'. injection Hin' as <- <-.
      apply (built_row_merged name freq reference ground). }
    change (Sidecar.ChannelsSidecar_validate float py_str sidecar
              (Some (Sidecar.DataRows data)))
      with (Sidecar.TSV_validate float py_str sidecar (Some (Sidecar.DataRows data))).
    apply (TSV_validate_overflow float py_str sidecar data row "sampling_frequency" freq).
    + intros row' field' v' Hrow' Hfield' Hg' Hna' Hrej.
      destruct (Hread row' field' v' Hrow' Hfield' Hg' Hna')
        as [->|(_ & j & name' & _ & Hin')]; [congruence|].
      apply (Hfmt name' v'); [|exact Hrej]. eapply list_elem_of_lookup_2. exact Hin'.
    + eapply list_elem_of_lookup_2. exact Hrow.
    + right. right. left.
    + exact Hg.
    + exact Hna.
    + exact Hover.
  - intros Hslash Hmk Hend Hopen Htext.
    destruct (ChannelsSidecar_save_returns float py_str os_makedirs os_open sidecar
                (Some output_path) (Sidecar.MkSaveKw None false None) w w)
      as (lines & Hsave & Hlines); [done..| |].
    { cbn [Sidecar.kw_data default from_option id]. fold data.
      intros row k v Hrow Hg. apply list_elem_of_lookup_1 in Hrow as [i Hi].
      destruct (Hrows i row Hi) as (name & freq & Hin & ->).
      destruct (built_row_merged name freq reference ground)
        as (_ & _ & _ & _ & Hvalues). cbv zeta in Hvalues.
      destruct (Hvalues k v Hg) as [[s ->]| ->]; [by exists s|].
      apply (Htext name). by eapply list_elem_of_lookup_2. }
    cbv zeta in Hsave, Hlines.
    cbn [Sidecar.kw_data default from_option id] in Hsave, Hlines.
    fold data in Hsave, Hlines.
    rewrite channels_fieldnames_built in Hsave, Hlines by done.
    eexists lines, _. split; [exact Hsave|]. split.
    + cbn [Sidecar.emit Sidecar.put_file Sidecar.files]. by rewrite lookup_insert_eq.
    + assert (Forall2 (λ cells line,
                         Sidecar.writerow py_str cells = Sidecar.Returned line)
                (Sidecar.row_cells Sidecar.COLUMN_ORDER <$> data) lines) as Hcells'.
      { apply Forall2_fmap_l. exact Hlines. }
      unfold data, sidecar in Hcells'. rewrite Hcells in Hcells'.
      apply Forall2_fmap_l in Hcells'. exact Hcells'.
Qed.

(** The row of the channel file [LA1.mef], saved: an SEEG contact of group
    [LA] with the dataset's reference and ground. *)
Lemma channel_rows_validate_and_save_witness :
  ∃ lines w',
    Sidecar.ChannelsSidecar_save Run.float_of Run.str_of Run.makedirs_ok Run.open_ok
      (Sidecar.TSV_init Channels
         [ChannelRows.build_channel_row "LA1.mef" (VInt 512) "CAR" "G1"])
      (Some "out/channels.tsv") (Sidecar.MkSaveKw None false None) (Sidecar.MkWorld ∅ [])
    = (Sidecar.Returned "out/channels.tsv", w')
    ∧ Sidecar.files w' !! "out/channels.tsv"
      = Some (Sidecar.TSVFile (Sidecar.csv_line Sidecar.COLUMN_ORDER :: lines))
    ∧ Forall2 (λ row line, Sidecar.writerow Run.str_of row.*2 = Sidecar.Returned line)
        [ChannelRows.build_channel_row "LA1.mef" (VInt 512) "CAR" "G1"] lines.
Proof.
  apply (proj2 (proj2 (channel_rows_validate_and_save Run.float_of Run.str_of
                         Run.makedirs_ok Run.open_ok [("LA1.mef", VInt 512)]
                         "CAR" "G1" "out/channels.tsv" (Sidecar.MkWorld ∅ []) eq_refl
                         ltac:(discriminate)))).
  - apply (bool_decide_unpack _). vm_compute. exact I.
  - reflexivity.
  - reflexivity.
  - reflexivity.
  - intros name freq Hin. apply list_elem_of_singleton in Hin.
    injection Hin as -> ->. by exists "512".
Defined.

(** The file of that run. *)
Example channel_row_file :
  Sidecar.files
    (Sidecar.ChannelsSidecar_save Run.float_of Run.str_of Run.makedirs_ok Run.open_ok
       (Sidecar.TSV_init Channels
          [ChannelRows.build_channel_row "LA1.mef" (VInt 512) "CAR" "G1"])
       (Some "out/channels.tsv") (Sidecar.MkSaveKw None false None)
       (Sidecar.MkWorld ∅ [])).2
  !! "out/channels.tsv"
  = Some (Sidecar.TSVFile
            [Sidecar.csv_line Sidecar.COLUMN_ORDER;
             Sidecar.csv_line
               ["LA1"; "SEEG"; "uV"; "n/a"; "0.01"; "CAR"; "G1"; "LA"; "512"; "n/a"]]).
Proof. vm_compute. reflexivity. Qed.

(** ** The rows that the package pass collects *)

Section PassRowFacts.
Import Packages ChannelsProcessor.

Variable Ext : Type.
Variable classify_package : string → option PkgType.
Variable load_ieeg_metadata : option string → Ext → list (string * Value) * Ext.
Variable load_electrode_csv : option string → Ext → Ext.
Variable load_electrode_txt : option string → Ext → Ext.
Variable parent_key_of : option string → option string.
Variable record_payload : option string → Value → Value → Ext → Ext.
Variable build_channel_row : string → Value → list (string * Value).

Abbreviation pass_step' :=
  (ChannelsProcessor.pass_step Ext classify_package load_ieeg_metadata
     load_electrode_csv load_electrode_txt parent_key_of record_payload
     build_channel_row).

(** A package that gives a channel row. *)
Abbreviation gives_row := (λ p : Package,
  negb (is_deleted p)
  && match classify_package (default "" (name p)) with
     | Some mef => true
     | _ => false
     end).

Abbreviation Groups := (list (option string * list (list (string * Value)))).

Lemma append_row_keys parent_id row (m : Groups) :
  (append_row parent_id row m).*1
  = if bool_decide (parent_id ∈ m.*1) then m.*1 else m.*1 ++ [parent_id].
Proof.
  induction m as [|[k rs] m IH]; [done|]. cbn [append_row].
  destruct (decide (k = parent_id)) as [->|Hk].
  - rewrite fmap_cons. cbn [fst]. rewrite !fmap_cons. cbn [fst].
    by rewrite bool_decide_eq_true_2 by left.
  - rewrite !fmap_cons. cbn [fst]. rewrite IH. case_bool_decide as Hin.
    + by rewrite bool_decide_eq_true_2 by (by right).
    + rewrite bool_decide_eq_false_2; [done|].
      intros [?|?]%elem_of_cons; [by subst|done].
Qed.

Lemma append_row_elem parent_id row (m : Groups) k rs :
  (k, rs) ∈ append_row parent_id row m →
  (k, rs) ∈ m
  ∨ k = parent_id ∧ ∃ rs0, rs = rs0 ++ [row] ∧ ((k, rs0) ∈ m ∨ rs0 = []).
Proof.
  induction m as [|[k0 rs0] m IH]; cbn [append_row].
  - intros [= -> ->]%list_elem_of_singleton. right. split; [done|]. exists []. auto.
  - destruct (decide (k0 = parent_id)) as [->|Hk].
    + intros [[= -> ->]|H]%elem_of_cons.
      * right. split; [done|]. exists rs0. split; [done|]. left. left.
      * left. by right.
    + intros [[= -> ->]|H]%elem_of_cons; [left; left|].
      destruct (IH H) as [?|(-> & rs1 & -> & Hrs1)].
      * left. by right.
      * right. split; [done|]. exists rs1. split; [done|].
        destruct Hrs1 as [?|?]; [left; by right | by right].
Qed.

Lemma append_row_total parent_id row (m : Groups) :
  sum_list (length <$> (append_row parent_id row m).*2)
  = S (sum_list (length <$> m.*2)).
Proof.
  induction m as [|[k rs] m IH]; [done|]. cbn [append_row].
  destruct (decide (k = parent_id)) as [->|Hk].
  - rewrite !fmap_cons. cbn [snd sum_list sum_list_with]. rewrite length_app. simpl. lia.
  - rewrite !fmap_cons in *. cbn [snd sum_list sum_list_with] in *. rewrite IH. lia.
Qed.

(** What holds of the groups after the pass has gone through [l]: the
    parents are distinct, no group is empty, every row was built for a
    package of [l] under that parent, and there is one row for each package
    that gives one. *)
Abbreviation groups_of l groups :=
  (NoDup (fmap fst groups%list)
   ∧ Forall (λ g : option string * list (list (string * Value)),
               g.2 ≠ []
               ∧ Forall (λ row, ∃ p freq,
                           p ∈ l%list ∧ gives_row p = true ∧ parentId p = g.1
                           ∧ row = build_channel_row (default "" (name p)) freq) g.2)
            groups
   ∧ sum_list (length <$> fmap snd groups%list)
     = length (List.filter gives_row l%list)).

Lemma groups_of_skip l p (groups : Groups) :
  gives_row p = false → groups_of l groups → groups_of (l ++ [p]) groups.
Proof.
  intros Hp (Hnd & Hall & Hsum). split; [done|]. split.
  - eapply Forall_impl; [exact Hall|]. intros g [Hne Hrows]. split; [done|].
    eapply Forall_impl; [exact Hrows|]. intros row (q & f & Hq & ?).
    exists q, f. split; [|done]. apply elem_of_app. by left.
  - rewrite List.filter_app. cbn [List.filter]. rewrite Hp.
    rewrite length_app. simpl. lia.
Qed.

Lemma groups_of_append l p freq (groups : Groups) :
  gives_row p = true → groups_of l groups →
  groups_of (l ++ [p])
    (append_row (parentId p) (build_channel_row (default "" (name p)) freq) groups).
Proof.
  intros Hp (Hnd & Hall & Hsum). split; [|split].
  - rewrite append_row_keys. case_bool_decide as Hin; [done|].
    apply NoDup_app. split; [done|]. split; [|apply NoDup_singleton].
    intros x Hx ->%list_elem_of_singleton. done.
  - apply Forall_forall. intros [k rs] Hg. rewrite Forall_forall in Hall.
    assert (∀ g : option string * list (list (string * Value)), g ∈ groups →
              g.2 ≠ []
              ∧ Forall (λ row, ∃ q f, q ∈ l ++ [p] ∧ gives_row q = true
                                      ∧ parentId q = g.1
                                      ∧ row = build_channel_row (default "" (name q)) f)
                       g.2) as Hall'.
    { intros g Hgin. destruct (Hall g Hgin) as [Hne Hrows]. split; [done|].
      eapply Forall_impl; [exact Hrows|]. intros row (q & f & Hq & ?).
      exists q, f. split; [|done]. apply elem_of_app. by left. }
    apply append_row_elem in Hg as [Hg|(-> & rs0 & -> & Hrs0)]; [by apply Hall'|].
    cbn [fst snd]. split; [by destruct rs0|].
    apply Forall_app. split.
    + destruct Hrs0 as [Hin| ->]; [|constructor]. apply (Hall' _ Hin).
    + constructor; [|constructor]. exists p, freq. split; [|done].
      apply elem_of_app. right. left.
  - rewrite append_row_total, Hsum, List.filter_app. cbn [List.filter].
    rewrite Hp, length_app. simpl. lia.
Qed.

Lemma pass_step_groups l p st :
  groups_of l (rows_by_parent _ st) →
  groups_of (l ++ [p]) (rows_by_parent _ (pass_step' st p)).
Proof.
  intros Hinv. unfold pass_step.
  destruct (is_deleted p) eqn:Hd; [by apply groups_of_skip; [rewrite Hd|]|].
  destruct (classify_package (default "" (name p))) as [[]|] eqn:Hc.
  - destruct (load_ieeg_metadata _ _) as [metadata e].
    assert (gives_row p = false) as Hp
      by (rewrite Hc; apply andb_false_r).
    destruct (parent_key_of _) as [parent_key|]; [case_bool_decide|];
      by apply groups_of_skip.
  - apply groups_of_skip; [|done].
    rewrite Hc. apply andb_false_r.
  - apply groups_of_skip; [|done].
    rewrite Hc. apply andb_false_r.
  - apply groups_of_append; [|done].
    by rewrite Hd, Hc.
  - apply groups_of_skip; [|done].
    rewrite Hc. apply andb_false_r.
Qed.

Lemma foldl_pass_groups l0 l st :
  groups_of l0 (rows_by_parent _ st) →
  groups_of (l0 ++ l) (rows_by_parent _ (foldl pass_step' st l)).
Proof.
  revert l0 st. induction l as [|p l IH]; intros l0 st Hinv; cbn [foldl].
  - by rewrite app_nil_r.
  - replace (l0 ++ p :: l) with ((l0 ++ [p]) ++ l) by by rewrite <- app_assoc.
    apply IH. by apply pass_step_groups.
Qed.

End PassRowFacts.

(** X14.  The single pass of [process_dataset] over the packages collects
    one channel row for every package that is not deleted and is classified
    as a [.mef] file, and nothing else: the rows are grouped under distinct
    parent ids, every row of a group was built from the name of such a
    package with that parent, the groups together hold as many rows as
    there are such packages, and no group is empty, so no channels file is
    ever saved without rows. *)
Theorem package_pass_collects_one_row_per_mef
    (Ext : Type) (classify_package : string → option ChannelsProcessor.PkgType)
    (load_ieeg_metadata : option string → Ext → list (string * Value) * Ext)
    (load_electrode_csv load_electrode_txt : option string → Ext → Ext)
    (parent_key_of : option string → option string)
    (record_payload : option string → Value → Value → Ext → Ext)
    (build_channel_row : string → Value → list (string * Value))
    (packages : list Packages.Package) (e : Ext) :
  let gives_row := λ p : Packages.Package,
    negb (Packages.is_deleted p)
    && match classify_package (default "" (Packages.name p)) with
       | Some ChannelsProcessor.mef => true
       | _ => false
       end in
  let groups :=
    ChannelsProcessor.rows_by_parent Ext
      (ChannelsProcessor.package_pass Ext classify_package load_ieeg_metadata
         load_electrode_csv load_electrode_txt parent_key_of record_payload
         build_channel_row packages e) in
  NoDup groups.*1
  ∧ Forall (λ g : option string * list (list (string * Value)),
              g.2 ≠ []
              ∧ Forall (λ row, ∃ p freq,
                          p ∈ packages ∧ gives_row p = true
                          ∧ Packages.parentId p = g.1
                          ∧ row = build_channel_row (default "" (Packages.name p)) freq)
                       g.2)
           groups
  ∧ sum_list (length <$> groups.*2) = length (List.filter gives_row packages).
Proof.
  intros gives_row groups. unfold groups, ChannelsProcessor.package_pass.
  apply (foldl_pass_groups Ext classify_package load_ieeg_metadata load_electrode_csv
           load_electrode_txt parent_key_of record_payload build_channel_row
           [] packages).
  cbn [ChannelsProcessor.rows_by_parent]. split; [constructor|]. split; [constructor|done].
Qed.

(** A folder, a channel file and a deleted channel file: one row. *)
Lemma package_pass_collects_one_row_per_mef_witness :
  sum_list
    (length <$>
       (ChannelsProcessor.rows_by_parent unit
          (ChannelsProcessor.package_pass unit ChannelRows.classify_package
             ChannelRun.no_metadata ChannelRun.no_download ChannelRun.no_download
             ChannelRun.no_day_key ChannelRun.no_payload ChannelRun.unlisted_row
             [Run.folder_f; ChannelRun.channel_la1; ChannelRun.channel_gone] tt)).*2)
  = 1.
Proof.
  exact (proj2 (proj2 (package_pass_collects_one_row_per_mef unit
           ChannelRows.classify_package
           ChannelRun.no_metadata ChannelRun.no_download ChannelRun.no_download
           ChannelRun.no_day_key ChannelRun.no_payload ChannelRun.unlisted_row
           [Run.folder_f; ChannelRun.channel_la1; ChannelRun.channel_gone] tt))).
Defined.

(** ** Cleaned channel names *)

Section CleanNameFacts.
Import Sidecar ChannelRows.

Lemma upper_char_facts c :
  (is_punctuation c = false → is_punctuation (upper_char c) = false)
  ∧ is_space (upper_char c) = is_space c
  ∧ ¬ (97 ≤ nat_of_ascii (upper_char c) ≤ 122)
  ∧ upper_char (upper_char c) = upper_char c.
Proof.
  destruct c as [[] [] [] [] [] [] [] []]; vm_compute;
    (split; [done|]); (split; [done|]); (split; [|done]); lia.
Qed.

Lemma lstrip_suffix s : ∃ pre, s = pre ++ lstrip s ∧ Forall (λ c, is_space c = true) pre.
Proof.
  induction s as [|c s (pre & IH & Hpre)]; [by exists []|]. cbn [lstrip].
  destruct (is_space c) eqn:Hc.
  - exists (c :: pre). split; [by rewrite IH at 1 | by constructor].
  - by exists [].
Qed.

Lemma lstrip_head s : from_option (λ c, is_space c = false) True (head (lstrip s)).
Proof.
  induction s as [|c s IH]; [done|]. cbn [lstrip].
  destruct (is_space c) eqn:Hc; [done|]. done.
Qed.

Lemma elem_of_rev (x : ascii) l : x ∈ rev l ↔ x ∈ l.
Proof. by rewrite !list_elem_of_In, <- in_rev. Qed.

Lemma strip_sublist s x : x ∈ strip s → x ∈ s.
Proof.
  unfold strip. rewrite elem_of_rev.
  destruct (lstrip_suffix (rev (lstrip s))) as (pre & E & _).
  destruct (lstrip_suffix s) as (pre' & E' & _).
  intros Hx. rewrite E'. apply elem_of_app. right.
  apply elem_of_rev. rewrite E. apply elem_of_app. by right.
Qed.

(** A stripped text neither starts nor ends with a space. *)
Lemma strip_ends s :
  from_option (λ c, is_space c = false) True (head (strip s))
  ∧ from_option (λ c, is_space c = false) True (last (strip s)).
Proof.
  unfold strip. split.
  - destruct (lstrip_suffix (rev (lstrip s))) as (pre & E & _).
    pose proof (lstrip_head s) as Hh.
    destruct (lstrip (rev (lstrip s))) as [|c l] eqn:El using rev_ind; [done|].
    clear IHl. rewrite rev_app_distr. cbn [rev app head from_option].
    rewrite app_assoc in E. apply (f_equal (@rev ascii)) in E.
    rewrite rev_involutive, rev_app_distr in E. cbn [rev app] in E.
    rewrite E in Hh. done.
  - pose proof (lstrip_head (rev (lstrip s))) as Hh.
    destruct (lstrip (rev (lstrip s))) as [|c l]; [done|].
    cbn [rev]. rewrite last_snoc. done.
Qed.

(** Every entry of [CHANNEL_LOOKUP] comes from a listed name of one of the
    configurations. *)
Lemma CHANNEL_LOOKUP_Some channel_name info :
  CHANNEL_LOOKUP !! channel_name = Some info →
  ∃ entry, entry ∈ CHANNEL_CONFIGS ∧ channel_name ∈ names entry.2
           ∧ info = (type entry.2,
                     if bool_decide (group_strategy entry.2 = Some "use_name")
                     then channel_name else default "n/a" (group entry.2)).
Proof.
  unfold CHANNEL_LOOKUP.
  assert (∀ (configs : list (string * ChannelConfig)) (m0 : gmap string (string * string)),
            (∀ entry, entry ∈ configs → entry ∈ CHANNEL_CONFIGS) →
            (∀ k v, m0 !! k = Some v →
               ∃ entry, entry ∈ CHANNEL_CONFIGS ∧ k ∈ names entry.2
                        ∧ v = (type entry.2,
                               if bool_decide (group_strategy entry.2 = Some "use_name")
                               then k else default "n/a" (group entry.2))) →
            ∀ k v,
              foldl (λ lookup (entry : string * ChannelConfig),
                       let config := entry.2 in
                       foldl (λ lookup channel_name,
                                <[channel_name :=
                                    (type config,
                                     if bool_decide (group_strategy config = Some "use_name")
                                     then channel_name
                                     else default "n/a" (group config))]> lookup)
                             lookup (names config))
                    m0 configs !! k = Some v →
              ∃ entry, entry ∈ CHANNEL_CONFIGS ∧ k ∈ names entry.2
                       ∧ v = (type entry.2,
                              if bool_decide (group_strategy entry.2 = Some "use_name")
                              then k else default "n/a" (group entry.2))) as H.
  { induction configs as [|entry configs IH]; intros m0 Hsub Hm0; cbn [foldl]; [done|].
    apply IH; [intros e He; apply Hsub; by right|].
    assert (entry ∈ CHANNEL_CONFIGS) as Hentry by (apply Hsub; left).
    cbv zeta.
    assert (∀ ns : list string, (∀ x, x ∈ ns → x ∈ names entry.2) →
              ∀ m1 : gmap string (string * string),
                (∀ k v, m1 !! k = Some v →
                   ∃ entry, entry ∈ CHANNEL_CONFIGS ∧ k ∈ names entry.2
                            ∧ v = (type entry.2,
                                   if bool_decide (group_strategy entry.2 = Some "use_name")
                                   then k else default "n/a" (group entry.2))) →
                ∀ k v,
                  foldl (λ lookup channel_name,
                           <[channel_name :=
                               (type entry.2,
                                if bool_decide (group_strategy entry.2 = Some "use_name")
                                then channel_name
                                else default "n/a" (group entry.2))]> lookup)
                        m1 ns !! k = Some v →
                  ∃ entry, entry ∈ CHANNEL_CONFIGS ∧ k ∈ names entry.2
                           ∧ v = (type entry.2,
                                  if bool_decide (group_strategy entry.2 = Some "use_name")
                                  then k else default "n/a" (group entry.2))) as Hinner.
    { induction ns as [|n ns IHns]; intros Hns m1 Hm1; cbn [foldl]; [done|].
      apply IHns; [intros x Hx; apply Hns; by right|].
      intros k v. destruct (decide (n = k)) as [->|Hne].
      - rewrite lookup_insert_eq. intros [= <-]. exists entry.
        split; [done|]. split; [apply Hns; left | done].
      - rewrite lookup_insert_ne by done. apply Hm1. }
    by apply Hinner. }
  apply H; [done|]. intros k v. by rewrite lookup_empty.
Qed.

End CleanNameFacts.

(** Only [REF] and [GND] are of unknown type: the table has no such entry,
    and the fallback is an SEEG contact. *)
Lemma get_channel_info_unknown (channel_name : string) :
  (ChannelRows.get_channel_info channel_name).1 = "unknown"
  ↔ ChannelRows.upper channel_name ∈ ["REF"; "GND"].
Proof.
  unfold ChannelRows.get_channel_info. case_bool_decide as Hu; [done|].
  destruct (ChannelRows.CHANNEL_LOOKUP !! channel_name) as [info|] eqn:El;
    [|by split].
  apply CHANNEL_LOOKUP_Some in El as (entry & Hentry & _ & ->).
  unfold ChannelRows.CHANNEL_CONFIGS in Hentry.
  repeat (apply elem_of_cons in Hentry as [->|Hentry]);
    try (by apply elem_of_nil in Hentry); by split.
Qed.

(** X15.  [get_channel_info] in closed form.  The lookup table built at
    module load gives the six ECG names the group ["n/a"] and every listed
    EEG, EOG and EMG name itself as its group; the names [REF] and [GND], in
    any letter case, are of unknown type and group; every other name is an
    SEEG contact whose group is its first two characters (the whole name
    when it is shorter). *)
Theorem get_channel_info_closed_form (channel_name : string) :
  ChannelRows.get_channel_info channel_name
  = if bool_decide (ChannelRows.upper channel_name ∈ ["REF"; "GND"])
    then ("unknown", "unknown")
    else if bool_decide (channel_name ∈ ["EKG"; "EKG1"; "EKG2"; "ECG"; "ECG1"; "ECG2"])
    then ("ECG", "n/a")
    else if bool_decide
              (channel_name ∈ ["C3"; "C03"; "C4"; "C04"; "CZ"; "F3"; "F4"; "F7"; "F8";
                               "FP1"; "FP2"; "FZ"; "O1"; "O2"; "P3"; "P4"; "PZ";
                               "T3"; "T4"; "T5"; "T6"])
    then ("EEG", channel_name)
    else if bool_decide (channel_name ∈ ["LOC"; "ROC"]) then ("EOG", channel_name)
    else if bool_decide (channel_name ∈ ["EMG"; "EMG1"; "EMG2"])
    then ("EMG", channel_name)
    else ("SEEG", Sidecar.str (take 2 (Sidecar.chars channel_name))).
Proof.
  set (ecg := ["EKG"; "EKG1"; "EKG2"; "ECG"; "ECG1"; "ECG2"]).
  set (eeg := ["C3"; "C03"; "C4"; "C04"; "CZ"; "F3"; "F4"; "F7"; "F8";
               "FP1"; "FP2"; "FZ"; "O1"; "O2"; "P3"; "P4"; "PZ";
               "T3"; "T4"; "T5"; "T6"]).
  set (eog := ["LOC"; "ROC"]).
  set (emg := ["EMG"; "EMG1"; "EMG2"]).
  destruct (decide (channel_name ∈ ecg ∨ channel_name ∈ eeg
                    ∨ channel_name ∈ eog ∨ channel_name ∈ emg)) as [Hin|Hout].
  - unfold ecg, eeg, eog, emg in *. destruct Hin as [Hin|[Hin|[Hin|Hin]]];
      repeat (apply elem_of_cons in Hin as [->|Hin]); try (by apply elem_of_nil in Hin);
      vm_compute; reflexivity.
  - unfold ChannelRows.get_channel_info. case_bool_decide as Hu; [done|].
    destruct (ChannelRows.CHANNEL_LOOKUP !! channel_name) as [info|] eqn:El.
    + exfalso. apply CHANNEL_LOOKUP_Some in El as (entry & Hentry & Hname & _).
      apply Hout. unfold ChannelRows.CHANNEL_CONFIGS in Hentry.
      repeat (apply elem_of_cons in Hentry as [->|Hentry]);
        try (by apply elem_of_nil in Hentry);
        cbn [snd ChannelRows.names] in Hname; tauto.
    + rewrite (bool_decide_eq_false_2 (channel_name ∈ ecg)) by tauto.
      rewrite (bool_decide_eq_false_2 (channel_name ∈ eeg)) by tauto.
      rewrite (bool_decide_eq_false_2 (channel_name ∈ eog)) by tauto.
      rewrite (bool_decide_eq_false_2 (channel_name ∈ emg)) by tauto.
      f_equal. case_bool_decide as Hlen; [done|].
      rewrite take_ge by lia. by rewrite str_chars.
Qed.

(** X16.  What [clean_channel_name] returns, whatever the package name: a
    text without punctuation and without lower-case letters, which neither
    starts nor ends with white space, and which [upper] leaves as it is.  So
    [get_channel_info] reports the unknown type for a cleaned name exactly
    when the name is [REF] or [GND]. *)
Theorem clean_channel_name_is_clean (pkg_name : string) :
  Forall (λ c, ChannelRows.is_punctuation c = false
               ∧ ¬ (97 ≤ nat_of_ascii c ≤ 122))
         (Sidecar.chars (ChannelRows.clean_channel_name pkg_name))
  ∧ from_option (λ c, ChannelRows.is_space c = false) True
      (head (Sidecar.chars (ChannelRows.clean_channel_name pkg_name)))
  ∧ from_option (λ c, ChannelRows.is_space c = false) True
      (last (Sidecar.chars (ChannelRows.clean_channel_name pkg_name)))
  ∧ ChannelRows.upper (ChannelRows.clean_channel_name pkg_name)
    = ChannelRows.clean_channel_name pkg_name
  ∧ ((ChannelRows.get_channel_info (ChannelRows.clean_channel_name pkg_name)).1
     = "unknown"
     ↔ ChannelRows.clean_channel_name pkg_name ∈ ["REF"; "GND"]).
Proof.
  unfold ChannelRows.clean_channel_name. cbv zeta.
  set (kept := List.filter (λ c, negb (ChannelRows.is_punctuation c))
                 (ChannelRows.remove_eeg_ref 0
                    (ChannelRows.removesuffix (Sidecar.chars ".mef")
                       (Sidecar.chars (Sidecar.lower pkg_name))))).
  assert (ChannelRows.upper (ChannelRows.upper (Sidecar.str (ChannelRows.strip kept)))
          = ChannelRows.upper (Sidecar.str (ChannelRows.strip kept))) as Hupper.
  { unfold ChannelRows.upper. rewrite !chars_str. f_equal.
    rewrite <- list_fmap_compose. apply list_fmap_ext. intros _ c _.
    apply upper_char_facts. }
  split; [|split; [|split; [|split; [done|]]]].
  - unfold ChannelRows.upper. rewrite !chars_str. apply Forall_fmap, Forall_forall.
    intros c Hc%strip_sublist. cbn [compose]. split; [|apply upper_char_facts].
    apply upper_char_facts. unfold kept in Hc.
    apply list_elem_of_In, filter_In in Hc as [_ Hc]. by apply negb_true_iff.
  - unfold ChannelRows.upper. rewrite !chars_str.
    destruct (strip_ends kept) as [Hh _].
    destruct (ChannelRows.strip kept) as [|c l]; [done|]. cbn in *.
    by rewrite (proj1 (proj2 (upper_char_facts c))).
  - unfold ChannelRows.upper. rewrite !chars_str, fmap_last.
    destruct (strip_ends kept) as [_ Hl].
    destruct (last (ChannelRows.strip kept)) as [c|]; [|done]. cbn in *.
    by rewrite (proj1 (proj2 (upper_char_facts c))).
  - by rewrite get_channel_info_unknown, Hupper.
Qed.

(** ** Package classification *)

Section ClassifyFacts.
Import Sidecar ChannelRows.

Lemma endswith_last suffix s :
  endswith suffix s = true → suffix ≠ [] → last s = last suffix.
Proof.
  unfold endswith. intros Hs%bool_decide_eq_true Hne.
  rewrite <- (take_drop (length s - length suffix) s), Hs, last_app.
  destruct suffix as [|c suffix] using rev_ind; [done|]. by rewrite last_snoc.
Qed.

End ClassifyFacts.

(** X17.  The four tests of [classify_package] exclude one another, so their
    order does not matter: on the lower-cased and stripped name, the answer
    is [ieeg_json] exactly when it ends with [implant_ieeg.json],
    [electrodes_csv] exactly when it is [electrodes2roi_mni.csv],
    [electrodes_txt] exactly when it is [electrodes.txt], [mef] exactly when
    it ends with [.mef], and no answer exactly when none of these holds. *)
Theorem classify_package_tests_exclusive (pkg_name : string) :
  (ChannelRows.classify_package pkg_name = Some ChannelsProcessor.ieeg_json
   ↔ ChannelRows.endswith (Sidecar.chars "implant_ieeg.json")
       (ChannelRows.strip (Sidecar.chars (Sidecar.lower pkg_name))) = true)
  ∧ (ChannelRows.classify_package pkg_name = Some ChannelsProcessor.electrodes_csv
     ↔ ChannelRows.strip (Sidecar.chars (Sidecar.lower pkg_name))
       = Sidecar.chars "electrodes2roi_mni.csv")
  ∧ (ChannelRows.classify_package pkg_name = Some ChannelsProcessor.electrodes_txt
     ↔ ChannelRows.strip (Sidecar.chars (Sidecar.lower pkg_name))
       = Sidecar.chars "electrodes.txt")
  ∧ (ChannelRows.classify_package pkg_name = Some ChannelsProcessor.mef
     ↔ ChannelRows.endswith (Sidecar.chars ".mef")
         (ChannelRows.strip (Sidecar.chars (Sidecar.lower pkg_name))) = true)
  ∧ (ChannelRows.classify_package pkg_name = None
     ↔ ChannelRows.endswith (Sidecar.chars "implant_ieeg.json")
         (ChannelRows.strip (Sidecar.chars (Sidecar.lower pkg_name))) = false
       ∧ ChannelRows.strip (Sidecar.chars (Sidecar.lower pkg_name))
         ≠ Sidecar.chars "electrodes2roi_mni.csv"
       ∧ ChannelRows.strip (Sidecar.chars (Sidecar.lower pkg_name))
         ≠ Sidecar.chars "electrodes.txt"
       ∧ ChannelRows.endswith (Sidecar.chars ".mef")
           (ChannelRows.strip (Sidecar.chars (Sidecar.lower pkg_name))) = false).
Proof.
  unfold ChannelRows.classify_package. cbv zeta.
  generalize (ChannelRows.strip (Sidecar.chars (Sidecar.lower pkg_name))).
  intros l.
  destruct (ChannelRows.endswith (Sidecar.chars "implant_ieeg.json") l) eqn:Hj.
  { apply endswith_last in Hj; [|done].
    destruct (ChannelRows.endswith (Sidecar.chars ".mef") l) eqn:Hm.
    { apply endswith_last in Hm; [|done]. rewrite Hj in Hm. by vm_compute in Hm. }
    repeat split; try done.
    - intros ->. by vm_compute in Hj.
    - intros ->. by vm_compute in Hj.
    - by intros [? _]. }
  case_bool_decide as Hc.
  { subst l. repeat split; try done. by intros (_ & ? & _). }
  case_bool_decide as Ht.
  { subst l. repeat split; try done. by intros (_ & _ & ? & _). }
  destruct (ChannelRows.endswith (Sidecar.chars ".mef") l) eqn:Hm.
  { repeat split; try done. by intros (_ & _ & _ & ?). }
  repeat split; done.
Qed.

(** ** Dataset discovery *)

Section DiscoveryFacts.
Import Sidecar Packages Api.

Context {Remote : Type}.
Variable make_request : Request → Remote → option Response * Remote.
Variable show : nat → string.
Variable self : Core.

Abbreviation fetch_datasets' := (Api.fetch_datasets Remote make_request show self).
Abbreviation fetch_all_datasets' := (Api.fetch_all_datasets Remote make_request show self).
Abbreviation find_dataset_by_name' :=
  (Api.find_dataset_by_name Remote make_request show self).

(** A platform that serves the pages of one listing, one after the other:
    [r0] is its state before the first request. *)
Lemma fetch_datasets_pages (listing : list Dataset) (serve : Remote → Remote)
    (r0 : Remote) :
  (∀ k,
     make_request (MkRequest GET (datasets_url show self (k * page_size)) None)
                  (Nat.iter k serve r0)
     = (Some (Datasets (take page_size (drop (k * page_size) listing))
                       (length listing)),
        serve (Nat.iter k serve r0))) →
  ∀ fuel k,
    k = 0 ∨ k * page_size < length listing →
    (length listing - k * page_size) / page_size < fuel →
    fetch_datasets' fuel (k * page_size) (take (k * page_size) listing)
      (Nat.iter k serve r0)
    = Some (listing,
            Nat.iter (k + S ((length listing - k * page_size - 1) / page_size))
                     serve r0).
Proof.
  intros Hserve. unfold page_size in *.
  induction fuel as [|fuel IH]; intros k Hoff Hfuel; [lia|].
  cbn [Api.fetch_datasets]. rewrite Hserve.
  destruct (take 25 (drop (k * 25) listing)) as [|d batch] eqn:Eb.
  - apply (f_equal length) in Eb. rewrite length_take, length_drop in Eb.
    cbn [length] in Eb.
    assert (k = 0 ∧ length listing = 0) as [-> Hl] by lia.
    destruct listing; [|done]. done.
  - rewrite <- Eb. rewrite take_take_drop. unfold page_size.
    replace (k * 25 + 25) with (S k * 25) by lia.
    case_bool_decide as Hlast.
    + rewrite take_ge by lia. rewrite Nat.div_small by lia.
      by rewrite Nat.add_1_r.
    + change (serve (Nat.iter k serve r0)) with (Nat.iter (S k) serve r0).
      rewrite IH; [|lia|].
      * f_equal. f_equal. f_equal.
        replace (length listing - k * 25 - 1)
          with ((length listing - S k * 25 - 1) + 1 * 25) by lia.
        rewrite Nat.div_add by lia. lia.
      * replace (length listing - k * 25)
          with ((length listing - S k * 25) + 1 * 25) in Hfuel by lia.
        rewrite Nat.div_add in Hfuel by lia. lia.
Qed.

End DiscoveryFacts.

(** X18.  Against a platform that serves one listing page by page, the
    answer to the request for the [k]-th page holding the [page_size]
    datasets from offset [k * page_size] on and the total count,
    [fetch_all_datasets] returns the whole listing in order, after one
    request per page (one request for an empty listing), and keeps it in
    the cache of the manager. *)
Theorem fetch_all_datasets_reads_every_page
    (Remote : Type)
    (make_request : Api.Request → Remote → option Api.Response * Remote)
    (show : nat → string) (self : Api.Core)
    (listing : list Api.Dataset) (serve : Remote → Remote)
    (fuel : nat) (force_reload : bool) (m : Api.Manager Remote) :
  (∀ k,
     make_request
       (Api.MkRequest Api.GET (Api.datasets_url show self (k * Api.page_size)) None)
       (Nat.iter k serve (Api.platform _ m))
     = (Some (Api.Datasets (take Api.page_size (drop (k * Api.page_size) listing))
                           (length listing)),
        serve (Nat.iter k serve (Api.platform _ m)))) →
  Api._datasets_cache _ m = None ∨ force_reload = true →
  length listing / Api.page_size < fuel →
  Api.fetch_all_datasets Remote make_request show self fuel force_reload m
  = Some (listing,
          Api.MkManager _
            (Nat.iter (S ((length listing - 1) / Api.page_size)) serve
                      (Api.platform _ m))
            (Some listing)).
Proof.
  intros Hserve Hmiss Hfuel. unfold Api.fetch_all_datasets.
  pose proof (fetch_datasets_pages make_request show self listing serve
                (Api.platform _ m) Hserve fuel 0 (or_introl eq_refl)) as Hloop.
  cbn [Nat.mul Nat.iter nat_rect Nat.add] in Hloop.
  rewrite Nat.sub_0_r in Hloop.
  change (take 0 listing) with (@nil Api.Dataset) in Hloop.
  rewrite (Hloop Hfuel).
  destruct Hmiss as [-> | ->]; [done|]. by destruct (Api._datasets_cache _ m).
Qed.

(** A listing of 27 datasets is read with two requests. *)
Lemma fetch_all_datasets_reads_every_page_witness :
  Api.fetch_all_datasets nat (ApiRun.paged_request ApiRun.paged_listing)
    ApiRun.show_decimal ApiRun.live_core 2 false (Api.MkManager nat 0 None)
  = Some (ApiRun.paged_listing, Api.MkManager nat 2 (Some ApiRun.paged_listing)).
Proof.
  apply (fetch_all_datasets_reads_every_page nat
           (ApiRun.paged_request ApiRun.paged_listing) ApiRun.show_decimal
           ApiRun.live_core ApiRun.paged_listing S 2 false (Api.MkManager nat 0 None)).
  - intros k. unfold ApiRun.paged_request. cbn [Api.platform].
    assert (Nat.iter k S 0 = k) as -> by (induction k; simpl; congruence).
    reflexivity.
  - left. reflexivity.
  - vm_compute. lia.
Defined.

(** X19.  What [find_dataset_by_name] answers is read off the listing that
    the manager holds after the call, complete or not: the answer is a
    dataset of that listing with the name looked for, and no dataset before
    it has the name; there is no answer exactly when no dataset of the
    listing has the name; and asking again gives the same answer with no
    request.  When the cache is empty and the first request fails, the
    listing held from then on is the empty one, and every name is reported
    as not found. *)
Theorem find_dataset_by_name_reads_the_cache
    (Remote : Type)
    (make_request : Api.Request → Remote → option Api.Response * Remote)
    (show : nat → string) (self : Api.Core)
    (fuel : nat) (name : string) (m m' : Api.Manager Remote)
    (answer : option Api.Dataset) :
  Api.find_dataset_by_name Remote make_request show self fuel name m
  = Some (answer, m') →
  ∃ held,
    Api._datasets_cache _ m' = Some held
    ∧ match answer with
      | Some dataset =>
          ∃ before after,
            held = before ++ dataset :: after
            ∧ Api.ds_name dataset = Some name
            ∧ Forall (λ d, Api.ds_name d ≠ Some name) before
      | None => Forall (λ d, Api.ds_name d ≠ Some name) held
      end
    ∧ (∀ fuel', Api.find_dataset_by_name Remote make_request show self fuel' name m'
                = Some (answer, m'))
    ∧ (Api._datasets_cache _ m = None →
       (make_request (Api.MkRequest Api.GET (Api.datasets_url show self 0) None)
          (Api.platform _ m)).1 = None →
       held = []
       ∧ ∀ fuel' name',
           Api.find_dataset_by_name Remote make_request show self fuel' name' m'
           = Some (None, m')).
Proof.
  unfold Api.find_dataset_by_name.
  destruct (Api.fetch_all_datasets _ _ _ _ fuel false m) as [[held m1]|] eqn:Ef; [|done].
  cbn [mbind option_bind]. intros [= <- <-]. exists held.
  assert (Api._datasets_cache _ m1 = Some held) as Hheld.
  { unfold Api.fetch_all_datasets in Ef.
    destruct (Api._datasets_cache _ m) as [cached|] eqn:Ec.
    - by injection Ef as <- <-.
    - destruct (Api.fetch_datasets _ _ _ _ _ _ _ _) as [[ds r]|]; [|done].
      by injection Ef as <- <-. }
  assert (∀ fuel', Api.fetch_all_datasets Remote make_request show self fuel' false m1
                   = Some (held, m1)) as Hagain.
  { intros fuel'. unfold Api.fetch_all_datasets. by rewrite Hheld. }
  split; [done|]. split; [|split].
  - clear. induction held as [|d held IH]; cbn [List.find]; [constructor|].
    case_bool_decide as Hd.
    + exists [], held. split; [done|]. split; [done|constructor].
    + destruct (List.find _ held) as [dataset|].
      * destruct IH as (before & after & -> & Hn & Hb).
        exists (d :: before), after. split; [done|]. split; [done|]. by constructor.
      * by constructor.
  - intros fuel'. by rewrite Hagain.
  - intros Hmiss Hfail. unfold Api.fetch_all_datasets in Ef. rewrite Hmiss in Ef.
    destruct fuel as [|fuel]; [done|]. cbn [Api.fetch_datasets] in Ef.
    destruct (make_request _ (Api.platform _ m)) as [result r1].
    cbn [fst] in Hfail. subst result. cbn [mbind option_bind] in Ef.
    injection Ef as <- <-. split; [done|]. intros fuel' name'.
    unfold Api.fetch_all_datasets. done.
Qed.

(** A manager whose first listing request fails holds the empty listing. *)
Lemma find_dataset_by_name_reads_the_cache_witness :
  Api.find_dataset_by_name (list Api.Request) (ApiRun.recording_request None)
    ApiRun.show_decimal ApiRun.live_core 0 "EPS0000215"
    (Api.MkManager _
       [Api.MkRequest Api.GET
          (Api.datasets_url ApiRun.show_decimal ApiRun.live_core 0) None]
       (Some []))
  = Some (None,
          Api.MkManager _
            [Api.MkRequest Api.GET
               (Api.datasets_url ApiRun.show_decimal ApiRun.live_core 0) None]
            (Some [])).
Proof.
  destruct (find_dataset_by_name_reads_the_cache (list Api.Request)
              (ApiRun.recording_request None) ApiRun.show_decimal ApiRun.live_core
              1 "EPS0000049" (Api.MkManager _ [] None) _ None eq_refl)
    as (held & _ & _ & _ & Hfail).
  exact (proj2 (Hfail eq_refl eq_refl) 0 "EPS0000215").
Defined.

(** ** Dataset names *)

Section NameFacts.
Import Sidecar Packages Names.

Lemma uint_of_chars_of_uint d : uint_of_chars (chars_of_uint d) = d.
Proof. induction d; cbn [chars_of_uint uint_of_chars]; rewrite ?IHd; done. Qed.

Lemma chars_of_uint_digits d : Forall (λ c, Run.is_digit c = true) (chars_of_uint d).
Proof. induction d; cbn [chars_of_uint]; constructor; done. Qed.

Lemma of_uint_leading_zeros k ds :
  Nat.of_uint (uint_of_chars (replicate k "0"%char ++ ds))
  = Nat.of_uint (uint_of_chars ds).
Proof.
  induction k as [|k IH]; [done|]. cbn [replicate app uint_of_chars].
  change (nat_of_ascii "0" - 48) with 0. cbv iota.
  rewrite <- Unsigned.of_uint_norm. cbn [Decimal.unorm Decimal.nzhead].
  fold (Decimal.unorm (uint_of_chars (replicate k "0"%char ++ ds))).
  by rewrite Unsigned.of_uint_norm.
Qed.

Lemma take_digits_all ds : Forall (λ c, Run.is_digit c = true) ds → take_digits ds = ds.
Proof. induction 1 as [|c ds Hc _ IH]; [done|]. cbn [take_digits]. by rewrite Hc, IH. Qed.

Lemma first_digits_after_text pre ds :
  Forall (λ c, Run.is_digit c = false) pre → ds ≠ [] →
  Forall (λ c, Run.is_digit c = true) ds →
  first_digits (pre ++ ds) = Some ds.
Proof.
  intros Hpre Hne Hds. induction Hpre as [|c pre Hc _ IH]; cbn [app first_digits].
  - destruct Hds as [|c ds Hc Hds]; [done|]. cbn [first_digits].
    by rewrite Hc, take_digits_all.
  - by rewrite Hc.
Qed.

Variable int_max_str_digits : nat.

(** A number that was printed is read back. *)
Lemma format_d_shape width n digits :
  format_d int_max_str_digits width n = Some digits →
  width ≤ length digits
  ∧ Forall (λ c, Run.is_digit c = true) digits
  ∧ (width ≤ 640 → int int_max_str_digits digits = Some n)
  ∧ ∀ width', is_Some (format_d int_max_str_digits width' n).
Proof.
  unfold format_d. cbv zeta.
  destruct (refused _ (length (chars_of_uint (Nat.to_uint n)))) eqn:Hr; [done|].
  intros [= <-]. split; [|split; [|split]].
  - rewrite length_app, length_replicate. lia.
  - apply Forall_app. split; [|apply chars_of_uint_digits].
    apply Forall_replicate. done.
  - intros Hw. unfold int.
    rewrite of_uint_leading_zeros, uint_of_chars_of_uint, Unsigned.of_to.
    assert (refused int_max_str_digits
              (length (replicate (width - length (chars_of_uint (Nat.to_uint n))) "0"%char
                       ++ chars_of_uint (Nat.to_uint n))) = false) as ->; [|done].
    rewrite length_app, length_replicate. unfold refused in *.
    repeat case_bool_decide; try done; simpl in *; lia.
  - intros width'. eauto.
Qed.

Lemma length_chars_of_uint d : length (chars_of_uint d) = Decimal.nb_digits d.
Proof. induction d; cbn [chars_of_uint length Decimal.nb_digits]; by rewrite ?IHd. Qed.

Lemma nb_digits_uint_of_chars ds : Decimal.nb_digits (uint_of_chars ds) = length ds.
Proof.
  induction ds as [|c ds IH]; [done|]. cbn [uint_of_chars length].
  rewrite <- IH.
  by destruct (nat_of_ascii c - 48) as [|[|[|[|[|[|[|[|[|]]]]]]]]].
Qed.

(** The number read from a numeral is printed with no more digits. *)
Lemma format_d_after_int width num n :
  num ≠ [] → int int_max_str_digits num = Some n →
  is_Some (format_d int_max_str_digits width n).
Proof.
  intros Hne. unfold int, format_d. cbv zeta.
  destruct (refused int_max_str_digits (length num)) eqn:Hr; [done|]. intros [= <-].
  rewrite Unsigned.to_of.
  assert (length (chars_of_uint (Decimal.unorm (uint_of_chars num))) ≤ length num) as Hlen.
  { rewrite length_chars_of_uint, <- (nb_digits_uint_of_chars num).
    apply nb_digits_unorm. intros E. apply (f_equal Decimal.nb_digits) in E.
    rewrite nb_digits_uint_of_chars in E. by destruct num. }
  assert (refused int_max_str_digits
            (length (chars_of_uint (Decimal.unorm (uint_of_chars num)))) = false) as ->;
    [|eauto].
  unfold refused in *. repeat case_bool_decide; try done; simpl in *; lia.
Qed.

Lemma first_digits_nonempty s ds : first_digits s = Some ds → ds ≠ [].
Proof.
  induction s as [|c s IH]; [done|]. cbn [first_digits].
  destruct (Run.is_digit c); [by intros [= <-] | done].
Qed.

Lemma take_digits_length s : length (take_digits s) ≤ length s.
Proof.
  induction s as [|c s IH]; [done|]. cbn [take_digits].
  destruct (Run.is_digit c); simpl; lia.
Qed.

Lemma first_digits_length s ds : first_digits s = Some ds → length ds ≤ length s.
Proof.
  revert ds. induction s as [|c s IH]; intros ds; [done|]. cbn [first_digits].
  destruct (Run.is_digit c).
  - intros [= <-]. pose proof (take_digits_length s). simpl. lia.
  - intros H%IH. simpl. lia.
Qed.

(** The two converters are one scheme: a prefix without digits, then the
    number of the first run of digits, padded. *)
Lemma converted_name_reads_back prefix width digits n :
  Forall (λ c, Run.is_digit c = false) prefix → 0 < width ≤ 640 →
  format_d int_max_str_digits width n = Some digits →
  first_digits (chars (str (prefix ++ digits))) = Some digits
  ∧ int int_max_str_digits digits = Some n.
Proof.
  intros Hprefix Hw Hf.
  destruct (format_d_shape width n digits Hf) as (Hlen & Hd & Hint & _).
  split; [|apply Hint; lia].
  rewrite chars_str. apply first_digits_after_text; [done| |done].
  intros ->. simpl in Hlen. lia.
Qed.

Lemma int_zeros k : k ≤ 640 → int int_max_str_digits (replicate k "0"%char) = Some 0.
Proof.
  intros Hk. unfold int, refused. rewrite length_replicate.
  rewrite (bool_decide_eq_false_2 (640 < k)) by lia. cbn [andb].
  rewrite <- (app_nil_r (replicate k "0"%char)), of_uint_leading_zeros. done.
Qed.

(** Without a digit in the name, both converters read zero. *)
Lemma int_default_zeros s n :
  int int_max_str_digits (default (chars "00000") (first_digits s)) = Some n
  ↔ int int_max_str_digits (default (chars "0000000") (first_digits s)) = Some n.
Proof.
  destruct (first_digits s); [done|]. cbn [default from_option].
  change (chars "00000") with (replicate 5 "0"%char).
  change (chars "0000000") with (replicate 7 "0"%char).
  by rewrite !int_zeros by lia.
Qed.

Lemma int_within num : length num ≤ 640 → is_Some (int int_max_str_digits num).
Proof.
  intros Hl. unfold int, refused.
  rewrite (bool_decide_eq_false_2 (640 < length num)) by lia. cbn [andb]. eauto.
Qed.

End NameFacts.

(** X20.  The two converters of dataset names read the same number, the one
    of the first run of digits of the name (zero when there is none).  What
    [eps_to_penn_epi] returns is [PennEPI] followed by at least five digits,
    it is a fixed point of [eps_to_penn_epi], and [penn_epi_to_eps] turns it
    into what it makes of the name itself; the same holds the other way
    round, with [EPS] and seven digits.  Both return for every name of at
    most 640 characters. *)
Theorem dataset_name_conversions_agree
    (int_max_str_digits : nat) (dataset_name : string) :
  (∀ penn_epi,
     Names.eps_to_penn_epi int_max_str_digits dataset_name = Some penn_epi →
     (∃ digits,
        penn_epi = Sidecar.str (Sidecar.chars "PennEPI" ++ digits)
        ∧ 5 ≤ length digits ∧ Forall (λ c, Run.is_digit c = true) digits)
     ∧ Names.eps_to_penn_epi int_max_str_digits penn_epi = Some penn_epi
     ∧ Names.penn_epi_to_eps int_max_str_digits penn_epi
       = Names.penn_epi_to_eps int_max_str_digits dataset_name)
  ∧ (∀ eps,
       Names.penn_epi_to_eps int_max_str_digits dataset_name = Some eps →
       (∃ digits,
          eps = Sidecar.str (Sidecar.chars "EPS" ++ digits)
          ∧ 7 ≤ length digits ∧ Forall (λ c, Run.is_digit c = true) digits)
       ∧ Names.penn_epi_to_eps int_max_str_digits eps = Some eps
       ∧ Names.eps_to_penn_epi int_max_str_digits eps
         = Names.eps_to_penn_epi int_max_str_digits dataset_name)
  ∧ (length (Sidecar.chars dataset_name) ≤ 640 →
     is_Some (Names.eps_to_penn_epi int_max_str_digits dataset_name)
     ∧ is_Some (Names.penn_epi_to_eps int_max_str_digits dataset_name)).
Proof.
  assert (∀ zeros, zeros ≠ [] → length zeros ≤ 640 →
            default zeros (Names.first_digits (Sidecar.chars dataset_name)) ≠ []
            ∧ (length (Sidecar.chars dataset_name) ≤ 640 →
               length (default zeros (Names.first_digits (Sidecar.chars dataset_name)))
               ≤ 640)) as Hnum.
  { intros zeros Hz Hl.
    destruct (Names.first_digits _) as [ds|] eqn:Ed; cbn [default from_option id].
    - split; [by eapply first_digits_nonempty|].
      apply first_digits_length in Ed. lia.
    - done. }
  split; [|split].
  - intros penn_epi. unfold Names.eps_to_penn_epi at 1. cbv zeta.
    destruct (Names.int _ _) as [n|] eqn:En; [|done]. cbn [mbind option_bind].
    destruct (Names.format_d _ 5 n) as [digits|] eqn:Ef; [|done].
    cbn [mbind option_bind]. intros Hp.
    assert (penn_epi = Sidecar.str (Sidecar.chars "PennEPI" ++ digits)) as ->
      by (symmetry; by injection Hp).
    clear Hp.
    destruct (format_d_shape int_max_str_digits 5 n digits Ef) as (Hlen & Hd & _ & _).
    destruct (converted_name_reads_back int_max_str_digits (Sidecar.chars "PennEPI")
                5 digits n) as [Hfirst Hint]; [by repeat constructor|lia|done|].
    split; [by exists digits|]. split.
    + unfold Names.eps_to_penn_epi. cbv zeta. rewrite Hfirst.
      cbn [default from_option id]. rewrite Hint. cbn [mbind option_bind].
      by rewrite Ef.
    + unfold Names.penn_epi_to_eps. cbv zeta. rewrite Hfirst.
      cbn [default from_option id]. rewrite Hint.
      apply int_default_zeros in En. by rewrite En.
  - intros eps. unfold Names.penn_epi_to_eps at 1. cbv zeta.
    destruct (Names.int _ _) as [n|] eqn:En; [|done]. cbn [mbind option_bind].
    destruct (Names.format_d _ 7 n) as [digits|] eqn:Ef; [|done].
    cbn [mbind option_bind]. intros He.
    assert (eps = Sidecar.str (Sidecar.chars "EPS" ++ digits)) as ->
      by (symmetry; by injection He).
    clear He.
    destruct (format_d_shape int_max_str_digits 7 n digits Ef) as (Hlen & Hd & _ & _).
    destruct (converted_name_reads_back int_max_str_digits (Sidecar.chars "EPS")
                7 digits n) as [Hfirst Hint]; [by repeat constructor|lia|done|].
    split; [by exists digits|]. split.
    + unfold Names.penn_epi_to_eps. cbv zeta. rewrite Hfirst.
      cbn [default from_option id]. rewrite Hint. cbn [mbind option_bind].
      by rewrite Ef.
    + unfold Names.eps_to_penn_epi. cbv zeta. rewrite Hfirst.
      cbn [default from_option id]. rewrite Hint.
      apply int_default_zeros in En. by rewrite En.
  - intros Hl. unfold Names.eps_to_penn_epi, Names.penn_epi_to_eps. cbv zeta. split.
    + destruct (Hnum (Sidecar.chars "00000")) as [Hne Hlen]; [done|simpl; lia|].
      destruct (int_within int_max_str_digits _ (Hlen Hl)) as [n En]. rewrite En.
      cbn [mbind option_bind].
      destruct (format_d_after_int int_max_str_digits 5 _ n Hne En) as [d Ed].
      rewrite Ed. cbn [mbind option_bind]. eauto.
    + destruct (Hnum (Sidecar.chars "0000000")) as [Hne Hlen]; [done|simpl; lia|].
      destruct (int_within int_max_str_digits _ (Hlen Hl)) as [n En]. rewrite En.
      cbn [mbind option_bind].
      destruct (format_d_after_int int_max_str_digits 7 _ n Hne En) as [d Ed].
      rewrite Ed. cbn [mbind option_bind]. eauto.
Qed.

(** [EPS00049] becomes [PennEPI00049], which both converters read as 49. *)
Lemma dataset_name_conversions_agree_witness :
  Names.eps_to_penn_epi 4300 "PennEPI00049" = Some "PennEPI00049"
  ∧ Names.penn_epi_to_eps 4300 "PennEPI00049" = Names.penn_epi_to_eps 4300 "EPS00049".
Proof.
  exact (proj2 (proj1 (dataset_name_conversions_agree 4300 "EPS00049")
                  "PennEPI00049" ltac:(vm_compute; reflexivity))).
Defined.

(** ** Output paths *)

Section OutputPathFacts.
Import Sidecar Packages Names.

Lemma path_parts_plain l :
  slash ∉ l → l ≠ [] → l ≠ [dot] → path_parts l = [l].
Proof.
  intros Hs Hne Hd. unfold path_parts. rewrite split_on_no_sep by done.
  cbn [List.filter]. by rewrite !bool_decide_eq_false_2.
Qed.

Lemma join_chars_snoc parts f :
  parts ≠ [] → join_chars (parts ++ [f]) = join_chars parts ++ slash :: f.
Proof.
  induction parts as [|x parts IH]; [done|]. intros _.
  destruct parts as [|y parts]; [done|].
  change (join_chars ((x :: y :: parts) ++ [f]))
    with (x ++ slash :: join_chars ((y :: parts) ++ [f])).
  rewrite IH by done.
  change (join_chars (x :: y :: parts)) with (x ++ slash :: join_chars (y :: parts)).
  by rewrite <- app_assoc.
Qed.

Lemma path_root_absolute s : startswith_slash s = true → path_root (chars s) ≠ [].
Proof.
  unfold startswith_slash. destruct (chars s) as [|c1 [|c2 [|c3 l]]]; [done|..];
    intros ->%bool_decide_eq_true; cbn [path_root];
    rewrite bool_decide_eq_true_2 by done.
  - done.
  - by case_bool_decide.
  - by destruct (_ && _).
Qed.

(** The text of a path with a final component [f] after a root or another
    component: a directory part, a slash, [f]. *)
Lemma path_str_snoc root parts f :
  root ≠ [] ∨ parts ≠ [] → (root = [] ∨ root = [slash] ∨ root = [slash; slash]) →
  ∃ dir, chars (path_str (root, parts ++ [f])) = dir ++ slash :: f.
Proof.
  intros Hne Hroot. unfold path_str.
  assert (parts ++ [f] ≠ []) as Hsnoc by (by destruct parts).
  destruct root as [|c root].
  - destruct (parts ++ [f]) as [|p ps] eqn:E; [done|]. rewrite <- E, chars_str.
    destruct Hne as [?|Hp]; [done|]. rewrite join_chars_snoc by done.
    by exists (join_chars parts).
  - rewrite chars_str. destruct parts as [|x parts].
    + destruct Hroot as [?|[Hr|Hr]]; [done|..]; injection Hr as -> ->;
        cbn [app join_chars].
      * by exists [].
      * by exists [slash].
    + rewrite join_chars_snoc by done. exists ((c :: root) ++ join_chars (x :: parts)).
      by rewrite <- app_assoc.
Qed.

Lemma path_root_cases l : path_root l = [] ∨ path_root l = [slash] ∨ path_root l = [slash; slash].
Proof.
  destruct l as [|c1 [|c2 [|c3 l]]]; cbn [path_root]; repeat case_bool_decide;
    cbn [andb negb]; auto.
Qed.

Lemma joinpath_relative p s :
  startswith_slash s = false → joinpath p s = (p.1, p.2 ++ path_parts (chars s)).
Proof. intros H. unfold joinpath. by rewrite H. Qed.

Lemma joinpath_root p s :
  (p.1 = [] ∨ p.1 = [slash] ∨ p.1 = [slash; slash]) →
  (joinpath p s).1 = [] ∨ (joinpath p s).1 = [slash] ∨ (joinpath p s).1 = [slash; slash].
Proof.
  intros Hp. unfold joinpath. destruct (startswith_slash s); [|done].
  apply path_root_cases.
Qed.

(** Joining keeps a path that has a root or a component so. *)
Lemma joinpath_nonempty p s :
  p.1 ≠ [] ∨ p.2 ≠ [] → (joinpath p s).1 ≠ [] ∨ (joinpath p s).2 ≠ [].
Proof.
  intros Hp. unfold joinpath. destruct (startswith_slash s) eqn:Hs.
  - left. by apply path_root_absolute.
  - cbn [fst snd]. destruct Hp as [?|Hp]; [by left|]. right.
    intros E. by apply app_eq_nil in E as [E _].
Qed.

Lemma eps_to_penn_epi_shape limit dataset_name top :
  eps_to_penn_epi limit dataset_name = Some top →
  ∃ digits, top = str (chars "PennEPI" ++ digits)
            ∧ Forall (λ c, Run.is_digit c = true) digits.
Proof.
  unfold eps_to_penn_epi. cbv zeta.
  destruct (int _ _) as [n|]; [|done]. cbn [mbind option_bind].
  destruct (format_d _ 5 n) as [digits|] eqn:Ef; [|done].
  cbn [mbind option_bind]. intros Hp. exists digits.
  split; [symmetry; by injection Hp|].
  apply (format_d_shape limit 5 n digits Ef).
Qed.

Lemma digits_slash_free digits :
  Forall (λ c, Run.is_digit c = true) digits → slash ∉ digits.
Proof.
  intros Hd Hin. rewrite Forall_forall in Hd. by apply Hd in Hin.
Qed.

(** The final component of the output path is a plain file name. *)
Lemma channels_file_name_plain digits :
  Forall (λ c, Run.is_digit c = true) digits →
  let top := str (chars "PennEPI" ++ digits) in
  let filename := "sub-" +:+ top +:+ "_ses-postimplant_task-clinical_channels.tsv" in
  startswith_slash top = false
  ∧ path_parts (chars top) = [chars top]
  ∧ startswith_slash ("primary/sub-" +:+ top +:+ "/ses-postimplant/ieeg") = false
  ∧ startswith_slash filename = false
  ∧ path_parts (chars filename) = [chars filename].
Proof.
  intros Hd top filename. pose proof (digits_slash_free digits Hd) as Hfree.
  assert (chars top = chars "PennEPI" ++ digits) as Htop by apply chars_str.
  assert (slash ∉ chars top) as Htopfree.
  { rewrite Htop, elem_of_app. intros [Hin|Hin]; [|done].
    apply (bool_decide_pack _) in Hin. by vm_compute in Hin. }
  split; [unfold startswith_slash; by rewrite Htop|].
  split; [apply path_parts_plain; [done|by rewrite Htop..]|].
  split; [done|]. split; [done|].
  assert (chars filename
          = chars "sub-" ++ chars top
            ++ chars "_ses-postimplant_task-clinical_channels.tsv") as Hfile
    by (unfold filename; by rewrite !chars_app).
  apply path_parts_plain; rewrite Hfile; [|done..].
  rewrite !elem_of_app. intros [Hin|[Hin|Hin]]; [|done|];
    apply (bool_decide_pack _) in Hin; by vm_compute in Hin.
Qed.

End OutputPathFacts.

(** X21.  The path that [process_dataset] saves a channels file to always
    has a directory part and a file name.  Whatever the output directory, the
    dataset name and the day key, the text of [get_output_path] is a
    directory part, a slash, and the file name made of the converted dataset
    name: its directory part is not empty and it does not end with a slash.
    So [ChannelsSidecar.save] with this path raises neither the
    [FileNotFoundError] of a path without directory nor the
    [IsADirectoryError] of a path that names one: it returns the path
    whenever validation, if asked for, returns, the directory can be made,
    the file can be opened and every value has a text. *)
Theorem output_path_has_directory
    (int_max_str_digits : nat) (OUTPUT_DIR dataset_name : string)
    (parent_key : option string) (output_path : string) :
  Names.get_output_path int_max_str_digits OUTPUT_DIR dataset_name parent_key
  = Some output_path →
  ∃ top_folder dir,
    Names.eps_to_penn_epi int_max_str_digits dataset_name = Some top_folder
    ∧ Sidecar.chars output_path
      = dir ++ Sidecar.slash
            :: Sidecar.chars ("sub-" +:+ top_folder
                              +:+ "_ses-postimplant_task-clinical_channels.tsv")
    ∧ Sidecar.dirname output_path ≠ ""
    ∧ Sidecar.endswith_slash output_path = false
    ∧ ∀ float py_str os_makedirs os_open self kw w,
        (Sidecar.TSV_validate_step float py_str self (Sidecar.kw_validate kw)
           (Sidecar.DataRows (default (Sidecar.rows self) (Sidecar.kw_data kw))) w).1
        = Sidecar.Returned tt →
        os_makedirs (Sidecar.dirname output_path) = None →
        os_open output_path = None →
        (∀ row k v,
           row ∈ default (Sidecar.rows self) (Sidecar.kw_data kw) →
           Dict.get k row = Some v →
           ∃ s, Sidecar.cell_text py_str v = Sidecar.Returned s) →
        (Sidecar.ChannelsSidecar_save float py_str os_makedirs os_open self
           (Some output_path) kw w).1
        = Sidecar.Returned output_path.
Proof.
  unfold Names.get_output_path.
  destruct (Names.eps_to_penn_epi _ dataset_name) as [top|] eqn:Et; [|done].
  cbn [mbind option_bind]. intros Hp. exists top.
  destruct (eps_to_penn_epi_shape _ _ _ Et) as (digits & -> & Hd).
  destruct (channels_file_name_plain digits Hd) as (Htop & Htopparts & Hprim & Hfile & Hfileparts).
  cbv zeta in Htop, Htopparts, Hprim, Hfile, Hfileparts.
  set (top := Sidecar.str (Sidecar.chars "PennEPI" ++ digits)) in *.
  set (filename := "sub-" +:+ top +:+ "_ses-postimplant_task-clinical_channels.tsv") in *.
  set (result := Names.path_str _) in Hp.
  assert (output_path = result) as -> by congruence. clear Hp.
  set (base := Names.joinpath (Names.joinpath (Names.path_of OUTPUT_DIR) top)
                 ("primary/sub-" +:+ top +:+ "/ses-postimplant/ieeg")) in result.
  assert ((base.1 = [] ∨ base.1 = [Sidecar.slash] ∨ base.1 = [Sidecar.slash; Sidecar.slash])
          ∧ (base.1 ≠ [] ∨ base.2 ≠ [])) as [Hbroot Hbne].
  { split.
    - do 2 apply joinpath_root. apply path_root_cases.
    - apply joinpath_nonempty. right. rewrite joinpath_relative by done.
      cbn [snd]. rewrite Htopparts. intros E. by apply app_eq_nil in E as [_ E]. }
  clearbody base.
  assert (∃ root parts,
            (root ≠ [] ∨ parts ≠ [])
            ∧ (root = [] ∨ root = [Sidecar.slash] ∨ root = [Sidecar.slash; Sidecar.slash])
            ∧ result = Names.path_str (root, parts ++ [Sidecar.chars filename]))
    as (root & parts & Hne & Hroot & Hres).
  { unfold result. rewrite (joinpath_relative _ filename Hfile), Hfileparts.
    destruct (Packages.truthy parent_key) as [pk|].
    - exists (Names.joinpath base pk).1, (Names.joinpath base pk).2.
      split; [by apply joinpath_nonempty|]. split; [by apply joinpath_root|done].
    - by exists base.1, base.2. }
  rewrite Hres. clear Hres result.
  destruct (path_str_snoc root parts (Sidecar.chars filename) Hne Hroot) as [dir Hdir].
  exists dir. split; [done|]. split; [done|].
  set (path := Names.path_str (root, parts ++ [Sidecar.chars filename])) in *.
  assert (Sidecar.slash ∈ Sidecar.chars path) as Hslash.
  { rewrite Hdir. apply elem_of_app. right. left. }
  assert (Sidecar.endswith_slash path = false) as Hend.
  { unfold Sidecar.endswith_slash. rewrite Hdir.
    assert (Sidecar.chars filename
            = (Sidecar.chars "sub-" ++ Sidecar.chars top
               ++ Sidecar.chars "_ses-postimplant_task-clinical_channels.ts")
              ++ ["v"%char]) as ->.
    { unfold filename. rewrite !chars_app, <- !app_assoc. reflexivity. }
    rewrite last_app, app_comm_cons, last_snoc. reflexivity. }
  split; [by intros E%dirname_empty|]. split; [exact Hend|].
  intros float py_str os_makedirs os_open self kw w Hstep Hmk Hopen Htext.
  destruct (Sidecar.TSV_validate_step float py_str self (Sidecar.kw_validate kw)
              (Sidecar.DataRows (default (Sidecar.rows self) (Sidecar.kw_data kw))) w)
    as [o w1] eqn:Estep.
  cbn [fst] in Hstep. subst o.
  destruct (ChannelsSidecar_save_returns float py_str os_makedirs os_open self
              (Some path) kw w w1 Estep Hslash Hmk Hend Hopen Htext)
    as (lines & -> & _).
  reflexivity.
Qed.

(** The channels file of day [D01] of dataset [EPS00049]. *)
Lemma output_path_has_directory_witness :
  ∃ top_folder dir,
    Names.eps_to_penn_epi 4300 "EPS00049" = Some top_folder
    ∧ Sidecar.chars
        "output/PennEPI00049/primary/sub-PennEPI00049/ses-postimplant/ieeg/D01/sub-PennEPI00049_ses-postimplant_task-clinical_channels.tsv"
      = dir ++ Sidecar.slash
            :: Sidecar.chars ("sub-" +:+ top_folder
                              +:+ "_ses-postimplant_task-clinical_channels.tsv")
    ∧ Sidecar.dirname
        "output/PennEPI00049/primary/sub-PennEPI00049/ses-postimplant/ieeg/D01/sub-PennEPI00049_ses-postimplant_task-clinical_channels.tsv"
      ≠ ""
    ∧ Sidecar.endswith_slash
        "output/PennEPI00049/primary/sub-PennEPI00049/ses-postimplant/ieeg/D01/sub-PennEPI00049_ses-postimplant_task-clinical_channels.tsv"
      = false.
Proof.
  destruct (output_path_has_directory 4300 "output" "EPS00049" (Some "D01") _
              ltac:(vm_compute; reflexivity))
    as (top_folder & dir & Htop & Hchars & Hdir & Hend & _).
  exists top_folder, dir. split; [exact Htop|]. split; [exact Hchars|].
  split; [exact Hdir|exact Hend].
Defined.

(** The directory part of that path. *)
Example output_path_dirname :
  Sidecar.dirname
    "output/PennEPI00049/primary/sub-PennEPI00049/ses-postimplant/ieeg/D01/sub-PennEPI00049_ses-postimplant_task-clinical_channels.tsv"
  = "output/PennEPI00049/primary/sub-PennEPI00049/ses-postimplant/ieeg/D01".
Proof. vm_compute. reflexivity. Qed.

Example dirname_examples :
  Sidecar.dirname "channels.tsv" = ""
  ∧ Sidecar.dirname "out/channels.tsv" = "out"
  ∧ Sidecar.dirname "out/" = "out"
  ∧ Sidecar.dirname "/channels.tsv" = "/"
  ∧ Sidecar.dirname "//out//channels.tsv" = "//out".
Proof. vm_compute. done. Qed.
